(** * thorvg-godot: the Lottie animation node ([src/lottie_animation.cpp])

    A shallow embedding of the pixel converter, the dynamic resolution
    controller, the presentation scheduler and the rasterization worker's
    job protocol, with the properties the specification states about them.

    Conventions.
    - [uint8_t] values are [Z] in [0, 255]; a [uint32_t] pixel is a [Z];
      buffers are [list Z] indexed by [nat] ([size_t] offsets), written with
      stdpp's [<[i:=x]>] and read with [!!].
    - [float] is IEEE-754 binary32 and [double] is binary64, both given by the
      standard library's [SpecFloat] operations.
    - The rendering engine and the host scene tree are outside the
      repository: their answers enter the model as explicit arguments. *)

From Stdlib Require Import ZArith Bool Lia String SpecFloat.
From stdpp Require Import base tactics option list list_numbers sorting strings gmap.

Local Open Scope Z_scope.

(* ===================================================================== *)
(** * 1. Pixel converter                                                   *)
(* ===================================================================== *)

Module PixelConverter.

(** ** ARGB8888 -> RGBA8 conversion ([_convert_argb_to_rgba_optimized]) *)

(** The four stores of the scalar loop body for pixel [i]:
    [dst[i*4+0] = (p >> 16) & 0xFF] and so on. *)
Definition scalar_pixel (p : Z) : list Z :=
  [ Z.land (Z.shiftr p 16) 255;   (* R *)
    Z.land (Z.shiftr p 8) 255;    (* G *)
    Z.land p 255;                 (* B *)
    Z.land (Z.shiftr p 24) 255 ]. (* A *)

Definition scalar_body (src : list Z) (dst : list Z) (i : nat) : list Z :=
  let p := default 0 (src !! i) in
  let dst := <[(i*4 + 0)%nat := Z.land (Z.shiftr p 16) 255]> dst in
  let dst := <[(i*4 + 1)%nat := Z.land (Z.shiftr p 8) 255]> dst in
  let dst := <[(i*4 + 2)%nat := Z.land p 255]> dst in
  let dst := <[(i*4 + 3)%nat := Z.land (Z.shiftr p 24) 255]> dst in
  dst.

(** [for (size_t i = from; i < count; ++i) body] *)
Definition scalar_loop (src dst : list Z) (from count : nat) : list Z :=
  fold_left (scalar_body src) (seq from (count - from)) dst.

(** The [#else] branch: the pure scalar fallback. *)
Definition convert_scalar (src dst : list Z) (count : nat) : list Z :=
  scalar_loop src dst 0 count.

(** The vector paths read the source through a byte pointer
    ([reinterpret_cast<const __m128i*>(src)], [vld1q_u8]).  SSSE3 targets are
    little-endian, and so are the NEON targets the node is built for: the
    byte image of a pixel is B, G, R, A. *)
Definition bytes_of_u32 (p : Z) : list Z :=
  [ Z.land p 255;
    Z.land (Z.shiftr p 8) 255;
    Z.land (Z.shiftr p 16) 255;
    Z.land (Z.shiftr p 24) 255 ].

Definition byte_image (src : list Z) : list Z :=
  flat_map bytes_of_u32 src.

(** The shuffle mask of the SSSE3 path and the lookup table of the NEON
    path hold the same sixteen indices. *)
Definition mask : list Z :=
  [ 2; 1; 0; 3;
    6; 5; 4; 7;
    10; 9; 8; 11;
    14; 13; 12; 15 ].

Definition tbl_data : list Z :=
  [ 2;1;0;3; 6;5;4;7; 10;9;8;11; 14;13;12;15 ].

(** Unaligned 16-byte load of lane [i] and store to lane [i]. *)
Definition load128 (mem : list Z) (i : nat) : list Z :=
  take 16 (drop (16 * i) mem).

Definition store128 (dst : list Z) (i : nat) (v : list Z) : list Z :=
  list_inserts (i * 16) v dst.

(** [_mm_shuffle_epi8 a b]: byte [k] of the result is 0 when bit 7 of
    [b[k]] is set, and [a[b[k] & 0x0F]] otherwise. *)
Definition _mm_shuffle_epi8 (a b : list Z) : list Z :=
  map (fun m => if Z.testbit m 7 then 0
                else default 0 (a !! Z.to_nat (Z.land m 15))) b.

(** [vqtbl1q_u8 t idx]: byte [k] of the result is [t[idx[k]]] when
    [idx[k] < 16], and 0 otherwise. *)
Definition vqtbl1q_u8 (t idx : list Z) : list Z :=
  map (fun m => if m <? 16 then default 0 (t !! Z.to_nat m) else 0) idx.

(** The per-byte fallback on older NEON:
    [for (int k=0;k<16;k++) out[k] = tmp[tbl_data[k]];] *)
Definition neon_per_byte (tmp : list Z) : list Z :=
  fold_left (fun out k =>
               <[k := default 0 (tmp !! Z.to_nat (default 0 (tbl_data !! k)))]> out)
            (seq 0 16) (replicate 16 0).

(** The lane loop shared by both vector paths, over the shuffle in use,
    followed by the scalar tail from [processed = vec_count * 4]. *)
Definition vector_loop (shuffle : list Z -> list Z)
    (src dst : list Z) (vec_count : nat) : list Z :=
  fold_left (fun dst i => store128 dst i (shuffle (load128 (byte_image src) i)))
            (seq 0 vec_count) dst.

Definition convert_vector (shuffle : list Z -> list Z)
    (src dst : list Z) (count : nat) : list Z :=
  let vec_count := (count / 4)%nat in
  let dst := vector_loop shuffle src dst vec_count in
  let processed := (vec_count * 4)%nat in
  scalar_loop src dst processed count.

Definition convert_ssse3 := convert_vector (fun pixels => _mm_shuffle_epi8 pixels mask).
Definition convert_neon := convert_vector (fun pixels => vqtbl1q_u8 pixels tbl_data).
Definition convert_neon_legacy := convert_vector neon_per_byte.

(** The build selects one path with the preprocessor. *)
Inductive simd := LOTTIE_SIMD_SSSE3 | LOTTIE_SIMD_NEON | LOTTIE_SIMD_NEON_LEGACY | NO_SIMD.

Definition _convert_argb_to_rgba_optimized (target : simd)
    (src dst : list Z) (count : nat) : list Z :=
  match target with
  | LOTTIE_SIMD_SSSE3 => convert_ssse3 src dst count
  | LOTTIE_SIMD_NEON => convert_neon src dst count
  | LOTTIE_SIMD_NEON_LEGACY => convert_neon_legacy src dst count
  | NO_SIMD => convert_scalar src dst count
  end.

(** What every path is expected to leave in [dst]. *)
Definition rgba_of (src : list Z) : list Z := flat_map scalar_pixel src.

(** A shuffle is correct when it turns the byte image of four pixels into
    their RGBA bytes. *)
Definition shuffle_ok (shuffle : list Z -> list Z) : Prop :=
  forall p0 p1 p2 p3,
    shuffle (byte_image [p0; p1; p2; p3]) = rgba_of [p0; p1; p2; p3].

(** ** Reading a byte buffer *)

(** [buf[i]]; the model reads 0 past the end, where the C++ read is
    undefined. *)
Definition rd (buf : list Z) (i : nat) : Z := default 0 (buf !! i).

(** The [(uint8_t)] cast of an [int]. *)
Definition to_u8 (v : Z) : Z := Z.land v 255.

(** A buffer of [uint8_t]. *)
Definition bytes_ok (buf : list Z) : Prop := Forall (fun b => 0 <= b <= 255) buf.

(** The four bytes of pixel [i] of an RGBA8 buffer. *)
Definition pixel_at (buf : list Z) (i : nat) : option (Z * Z * Z * Z) :=
  match buf !! (4 * i)%nat, buf !! (4 * i + 1)%nat,
        buf !! (4 * i + 2)%nat, buf !! (4 * i + 3)%nat with
  | Some r, Some g, Some b, Some a => Some (r, g, b, a)
  | _, _, _, _ => None
  end.

(** ** Premultiplied -> straight alpha ([_unpremultiply_alpha_rgba]) *)

(** [(uint8_t)std::min(255, (int)((int)c * 255 + (a / 2)) / (int)a)]:
    the cast binds tighter than the division, so the quotient is the one
    clamped. *)
Definition unpremultiply_channel (c a : Z) : Z :=
  to_u8 (Z.min 255 (Z.quot (c * 255 + Z.quot a 2) a)).

(** The loop body at [p = rgba + 4*i]. *)
Definition unpremultiply_body (rgba : list Z) (i : nat) : list Z :=
  let p := (4 * i)%nat in
  let a := rd rgba (p + 3) in
  if a =? 0 then
    (* p[0] = p[1] = p[2] = 0; *)
    let rgba := <[(p + 2)%nat := 0]> rgba in
    let rgba := <[(p + 1)%nat := 0]> rgba in
    <[(p + 0)%nat := 0]> rgba
  else if a =? 255 then rgba
  else
    let rgba := <[(p + 0)%nat := unpremultiply_channel (rd rgba (p + 0)) a]> rgba in
    let rgba := <[(p + 1)%nat := unpremultiply_channel (rd rgba (p + 1)) a]> rgba in
    <[(p + 2)%nat := unpremultiply_channel (rd rgba (p + 2)) a]> rgba.

Definition _unpremultiply_alpha_rgba (rgba : list Z) (w h : Z) : list Z :=
  if (w <=? 0) || (h <=? 0) then rgba
  else
    let pixels := (Z.to_nat w * Z.to_nat h)%nat in   (* (size_t)w * (size_t)h *)
    fold_left unpremultiply_body (seq 0 pixels) rgba.

(** The specification's reading: division of [c*255] by [a], rounded to
    nearest, clamped to 255. *)
Definition divide_rounded_clamped (c a : Z) : Z :=
  Z.min 255 ((c * 255 + a / 2) / a).

Definition unpremultiplied (px : Z * Z * Z * Z) : Z * Z * Z * Z :=
  let '(r, g, b, a) := px in
  if a =? 0 then (0, 0, 0, a)
  else if a =? 255 then (r, g, b, a)
  else (divide_rounded_clamped r a, divide_rounded_clamped g a,
        divide_rounded_clamped b a, a).

(** ** Alpha border bleed ([_fix_alpha_border_rgba]) *)

(** The lambdas [at] and [at_rgb]: byte offsets of pixel [(x, y)] in the
    RGBA buffer and in the RGB copy. *)
Definition at_ (w x y : Z) : nat := Z.to_nat ((y * w + x) * 4).
Definition at_rgb (w x y : Z) : nat := Z.to_nat ((y * w + x) * 3).

(** The copy loop: [dst[x*3+k] = row[x*4+k]] for [k] in 0..2, with
    [row = rgba + y*w*4] and [dst = rgb_copy + y*w*3]. *)
Definition copy_px (rgba : list Z) (w y : Z) (rgb_copy : list Z) (x : Z) : list Z :=
  let row := Z.to_nat (y * w * 4) in
  let dst := Z.to_nat (y * w * 3) in
  let rgb_copy := <[(dst + Z.to_nat (x*3+0))%nat := rd rgba (row + Z.to_nat (x*4+0))]> rgb_copy in
  let rgb_copy := <[(dst + Z.to_nat (x*3+1))%nat := rd rgba (row + Z.to_nat (x*4+1))]> rgb_copy in
  <[(dst + Z.to_nat (x*3+2))%nat := rd rgba (row + Z.to_nat (x*4+2))]> rgb_copy.

Definition copy_row (rgba : list Z) (w : Z) (rgb_copy : list Z) (y : Z) : list Z :=
  fold_left (copy_px rgba w y) (seqZ 0 w) rgb_copy.

Definition make_rgb_copy (rgba : list Z) (w h : Z) : list Z :=
  fold_left (copy_row rgba w) (seqZ 0 h) (replicate (Z.to_nat (w * h * 3)) 0).

(** The two innermost loops, [for dy ... && !copied] and
    [for dx ... && !copied], carry the buffer and the [copied] flag. *)
Definition scan_dx (rgb_copy : list Z) (w x y dy : Z)
    (st : list Z * bool) (dx : Z) : list Z * bool :=
  let '(rgba, copied) := st in
  if copied then st
  else if (dx =? 0) && (dy =? 0) then st
  else
    let n := at_ w (x + dx) (y + dy) in
    if 0 <? rd rgba (n + 3) then
      let nrgb := at_rgb w (x + dx) (y + dy) in
      let px := at_ w x y in
      let rgba := <[(px + 0)%nat := rd rgb_copy (nrgb + 0)]> rgba in
      let rgba := <[(px + 1)%nat := rd rgb_copy (nrgb + 1)]> rgba in
      let rgba := <[(px + 2)%nat := rd rgb_copy (nrgb + 2)]> rgba in
      (rgba, true)
    else st.

Definition scan_dy (rgb_copy : list Z) (w x y : Z)
    (st : list Z * bool) (dy : Z) : list Z * bool :=
  if snd st then st
  else fold_left (scan_dx rgb_copy w x y dy) [-1; 0; 1] st.

(** The body of the [x] loop. *)
Definition fix_px (rgb_copy : list Z) (w y : Z) (rgba : list Z) (x : Z) : list Z :=
  let px := at_ w x y in
  if negb (rd rgba (px + 3) =? 0) then rgba   (* continue *)
  else fst (fold_left (scan_dy rgb_copy w x y) [-1; 0; 1] (rgba, false)).

Definition fix_row (rgb_copy : list Z) (w : Z) (rgba : list Z) (y : Z) : list Z :=
  fold_left (fix_px rgb_copy w y) (seqZ 1 (w - 2)) rgba.

Definition _fix_alpha_border_rgba (rgba : list Z) (w h : Z) : list Z :=
  if (w <=? 2) || (h <=? 2) then rgba
  else
    let rgb_copy := make_rgb_copy rgba w h in
    fold_left (fix_row rgb_copy w) (seqZ 1 (h - 2)) rgba.

(** Pixel number of [(x, y)] in a row-major image of width [w]. *)
Definition pix (w x y : Z) : nat := Z.to_nat (y * w + x).

(** The store sequence of a successful neighbour test at offset [d]. *)
Definition bleed_from (rgb_copy : list Z) (w x y : Z) (rgba : list Z) (d : Z * Z) : list Z :=
  let nrgb := at_rgb w (x + fst d) (y + snd d) in
  let px := at_ w x y in
  let rgba := <[(px + 0)%nat := rd rgb_copy (nrgb + 0)]> rgba in
  let rgba := <[(px + 1)%nat := rd rgb_copy (nrgb + 1)]> rgba in
  <[(px + 2)%nat := rd rgb_copy (nrgb + 2)]> rgba.

(** The nine offsets in the order the two scan loops enumerate them. *)
Definition scan_order : list (Z * Z) :=
  [ (-1, -1); (0, -1); (1, -1);
    (-1,  0); (0,  0); (1,  0);
    (-1,  1); (0,  1); (1,  1) ].

(** The specification's reading.  The eight neighbours as [(dx, dy)], in the
    order the scan visits them. *)
Definition neighbours : list (Z * Z) :=
  [ (-1, -1); (0, -1); (1, -1);
    (-1,  0);          (1,  0);
    (-1,  1); (0,  1); (1,  1) ].

Definition alpha_at (buf : list Z) (w x y : Z) : Z := rd buf (at_ w x y + 3).

Definition rgb_at (buf : list Z) (w x y : Z) : Z * Z * Z :=
  (rd buf (at_ w x y + 0), rd buf (at_ w x y + 1), rd buf (at_ w x y + 2)).

Definition first_opaque_neighbour (buf : list Z) (w x y : Z) : option (Z * Z) :=
  find (fun d => 0 <? alpha_at buf w (x + fst d) (y + snd d)) neighbours.

Definition interior (w h x y : Z) : Prop := 1 <= x < w - 1 /\ 1 <= y < h - 1.

(** What one pass leaves at pixel [(x, y)], read off the buffer as it was
    before the pass. *)
Definition bled_rgb (buf : list Z) (w x y : Z) : Z * Z * Z :=
  if alpha_at buf w x y =? 0 then
    match first_opaque_neighbour buf w x y with
    | Some d => rgb_at buf w (x + fst d) (y + snd d)
    | None => rgb_at buf w x y
    end
  else rgb_at buf w x y.

End PixelConverter.

(* ===================================================================== *)
(** * 2. Floating point                                                    *)
(* ===================================================================== *)

(** [float] (binary32) and [double] (binary64) arithmetic, rounding to
    nearest even, from the standard library's executable IEEE-754
    specification.  Comparisons with a NaN operand are false. *)

Module F32.
Definition prec : Z := 24.
Definition emax : Z := 128.
Definition float : Type := spec_float.

Definition add : float -> float -> float := SFadd prec emax.
Definition sub : float -> float -> float := SFsub prec emax.
Definition mul : float -> float -> float := SFmul prec emax.
Definition div : float -> float -> float := SFdiv prec emax.
Definition abs : float -> float := SFabs.
Definition ltb : float -> float -> bool := SFltb.   (* x < y *)
Definition leb : float -> float -> bool := SFleb.   (* x <= y *)
Definition gtb (x y : float) : bool := SFltb y x.   (* x > y *)
Definition geb (x y : float) : bool := SFleb y x.   (* x >= y *)

(** [(float)z] for an [int] [z]. *)
Definition of_int (z : Z) : float := binary_normalize prec emax z 0 false.

(** The decimal literal [n/d] written with an [f] suffix, for [n] and [d]
    that binary32 holds exactly: the correctly rounded quotient. *)
Definition lit (n d : Z) : float := div (of_int n) (of_int d).

Definition zero : float := S754_zero false.
Definition one : float := of_int 1.

(** [std::max(a, b)] is [(a < b) ? b : a]; [std::min(a, b)] is
    [(b < a) ? b : a]. *)
Definition max (a b : float) : float := if ltb a b then b else a.
Definition min (a b : float) : float := if ltb b a then b else a.

(** The real number a finite float stands for is [m * 2^e]; its integer
    part, rounded towards zero and upwards. *)
Definition trunc (x : float) : Z :=
  match x with
  | S754_finite s m e =>
      let q := if 0 <=? e then Zpos m * 2 ^ e else Z.quot (Zpos m) (2 ^ (- e)) in
      if s then - q else q
  | _ => 0
  end.

Definition ceil (x : float) : Z :=
  match x with
  | S754_finite s m e =>
      if 0 <=? e then (if s then - (Zpos m * 2 ^ e) else Zpos m * 2 ^ e)
      else if s then - (Zpos m / 2 ^ (- e))
           else - ((- Zpos m) / 2 ^ (- e))
  | _ => 0
  end.

Definition is_finite (x : float) : bool :=
  match x with
  | S754_finite _ _ _ | S754_zero _ => true
  | _ => false
  end.

(** [(int)x]: the value truncated towards zero.  The conversion is
    undefined in C++ for NaN, infinities and values outside [int]; the
    model gives those the x86 result, [INT_MIN]. *)
Definition to_int (x : float) : Z :=
  if is_finite x && (- 2 ^ 31 <=? trunc x) && (trunc x <? 2 ^ 31)
  then trunc x else - 2 ^ 31.

(** [(int)std::ceil(x)], with the same convention. *)
Definition ceil_to_int (x : float) : Z :=
  if is_finite x && (- 2 ^ 31 <=? ceil x) && (ceil x <? 2 ^ 31)
  then ceil x else - 2 ^ 31.

(** [(int)std::round(x)]: nearest integer, halves away from zero, with
    the convention of [to_int]. *)
Definition round (x : float) : Z :=
  match x with
  | S754_finite s m e =>
      let q :=
        if 0 <=? e then Zpos m * 2 ^ e
        else
          let d := 2 ^ (- e) in
          if d <=? 2 * (Zpos m mod d) then Zpos m / d + 1 else Zpos m / d in
      if s then - q else q
  | _ => 0
  end.

Definition round_to_int (x : float) : Z :=
  if is_finite x && (- 2 ^ 31 <=? round x) && (round x <? 2 ^ 31)
  then round x else - 2 ^ 31.

(** [fmod(x, y)] of the C library: [x - n*y] for the integer [n] that
    is [x/y] truncated towards zero, computed exactly; the result has the
    sign of [x]. *)
Definition fmod (x y : float) : float :=
  match x, y with
  | S754_nan, _ | _, S754_nan => S754_nan
  | S754_infinity _, _ => S754_nan
  | _, S754_zero _ => S754_nan
  | S754_zero _, _ => x
  | S754_finite _ _ _, S754_infinity _ => x
  | S754_finite sx mx ex, S754_finite _ my ey =>
      let e := Z.min ex ey in
      let X := Zpos mx * 2 ^ (ex - e) in
      let Y := Zpos my * 2 ^ (ey - e) in
      let R := X mod Y in
      binary_normalize prec emax (if sx then - R else R) e sx
  end.
End F32.

Module F64.
Definition prec : Z := 53.
Definition emax : Z := 1024.
Definition double : Type := spec_float.

Definition add : double -> double -> double := SFadd prec emax.
Definition sub : double -> double -> double := SFsub prec emax.
Definition div : double -> double -> double := SFdiv prec emax.
Definition ltb : double -> double -> bool := SFltb.
Definition geb (x y : double) : bool := SFleb y x.

Definition of_int (z : Z) : double := binary_normalize prec emax z 0 false.
Definition lit (n d : Z) : double := div (of_int n) (of_int d).
Definition zero : double := S754_zero false.

(** [(double)x] for a [float] [x]: exact. *)
Definition of_float (x : F32.float) : double :=
  match x with
  | S754_finite s m e => binary_normalize prec emax (if s then Zneg m else Zpos m) e s
  | _ => x
  end.

(** [(float)x] for a [double] [x]: rounded to nearest even. *)
Definition to_float (x : double) : F32.float :=
  match x with
  | S754_finite s m e =>
      binary_normalize F32.prec F32.emax (if s then Zneg m else Zpos m) e s
  | _ => x
  end.
End F64.

(* ===================================================================== *)
(** * 3. The node [LottieAnimation]                                        *)
(* ===================================================================== *)

Module Node.
Import PixelConverter.

(** ** Strings *)

Definition is_empty (s : string) : bool := String.eqb s EmptyString.

Definition lower_ascii (c : Ascii.ascii) : Ascii.ascii :=
  let k := Ascii.nat_of_ascii c in
  if (65 <=? k)%nat && (k <=? 90)%nat then Ascii.ascii_of_nat (k + 32) else c.

Fixpoint to_lower (s : string) : string :=
  match s with
  | EmptyString => EmptyString
  | String c s => String (lower_ascii c) (to_lower s)
  end.

Definition ends_with (s suffix : string) : bool :=
  let ls := String.length s in
  let lx := String.length suffix in
  (lx <=? ls)%nat && String.eqb (String.substring (ls - lx) lx s) suffix.

(** ** Value types *)

Record Vector2i := { x : Z; y : Z }.

Definition Vector2i_eqb (a b : Vector2i) : bool := (x a =? x b) && (y a =? y b).

(** A valid [Ref<Image>]: RGBA8 data with its dimensions. *)
Record Image := { width : Z; height : Z; data : list Z }.

(** The single-slot mailbox [latest_frame]. *)
Module FrameResult.
Record t := { rgba : list Z; w : Z; h : Z; id : Z; ready : bool }.
End FrameResult.

(** The dotLottie manifest members. *)
Record DotLottie := {
  last_lottie_zip_path : string;
  sm_animation_ids : list string;
  sm_machine_names : list string;
  sm_states_by_machine : gmap string (list string);
  sm_anim_inner_paths : gmap string string;
  sm_state_segments_by_machine : gmap string (gmap string string);
  active_animation_id : string;
  active_state_machine : string;
  active_state : string
}.

(** ** Calls that leave the node *)

Inductive variant := VBool (b : bool) | VFloat (v : F32.float).

(** Calls on the engine objects of one thread (canvas, animation,
    picture). *)
Inductive tvg_call :=
  | canvas_remove
  | canvas_push
  | canvas_target (w h : Z)
  | canvas_update
  | canvas_draw
  | canvas_sync
  | animation_gen
  | picture_load (path : string)
  | animation_frame (no : F32.float)
  | animation_segment (b e : F32.float)
  | picture_transform (e11 e13 e23 : F32.float).

(** Calls into the host and the shared frame cache.  Diagnostic prints are
    left out. *)
Inductive effect :=
  | emit_signal (name : string) (args : list variant)
  | queue_redraw
  | tvg (c : tvg_call)
  | cache_set_capacity (bytes : Z)
  | cache_put (key : string) (qf : Z) (size : Vector2i) (pixels : option (list Z)).

(** ** What the build and the outside world answer during one call *)

Record host := {
  (** the build *)
  simd_target : simd;
  (** the scene tree *)
  is_inside_tree : bool;
  (** lengths of the two columns of the local-to-screen transform *)
  screen_scale : F32.float * F32.float;
  is_visible_in_tree : bool;
  is_editor_hint : bool;
  (** the file system: path globalization and the results of the file
      helpers [_mirror_file_to_user_cache], [_extract_lottie_json_to_cache],
      [_parse_dotlottie_manifest] and [_find_marker_range] *)
  globalize_path : string -> string;
  _mirror_file_to_user_cache : string -> string;
  _extract_lottie_json_to_cache : string -> string -> string;
  _parse_dotlottie_manifest : string -> DotLottie -> DotLottie;
  _find_marker_range : string -> string -> option (F32.float * F32.float);
  (** the rendering engine: whether [animation->picture()] is non-null,
      whether [picture->load(path)] succeeds, the figures of the scene just
      loaded, whether [canvas->push] succeeds, and the ARGB buffer a
      [sync] leaves, given the engine calls made so far *)
  picture_created : bool;
  picture_load_ok : string -> bool;
  animation_duration : F32.float;
  animation_totalFrame : F32.float;
  picture_size : F32.float * F32.float;
  canvas_push_ok : bool;
  raster : list tvg_call -> list Z;
  (** the shared frame cache and image scaling *)
  cache_get : string -> Z -> Vector2i -> option (list Z);
  image_resize_bilinear : Image -> Z -> Z -> list Z
}.

(** ** The members of the class *)

#[local] Set Primitive Projections.

(** Animation properties *)
Record props_t := {
  props_animation_path : string;
  props_playing : bool;
  props_looping : bool;
  props_speed : F32.float;
  props_current_frame : F32.float;
  props_total_frames : F32.float;
  props_duration : F32.float
}.

(** Rendering *)
Record rend_t := {
  rend_texture : option (list Z);
  rend_image : option Image;
  rend_pixel_bytes : list Z;
  rend_texture_ring : list (option (list Z));
  rend_texture_ring_index : Z;
  rend_texture_ring_size : Z;
  rend_base_picture_size : Vector2i;
  rend_render_size : Vector2i;
  rend_animation_key : string;
  rend_selected_dotlottie_animation : string
}.

(** ThorVG objects *)
Record engine_t := {
  engine_canvas : bool;
  engine_animation : bool;
  engine_picture : bool;
  engine_buffer : option (list Z)
}.

(** Sizing and resolution policies *)
Record sizing_t := {
  sizing_fit_box_size : Vector2i;
  sizing_dynamic_resolution : bool;
  sizing_resolution_threshold : F32.float;
  sizing_max_render_size : Vector2i
}.

(** Performance/cache options *)
Record cache_t := {
  cache_frame_cache_enabled : bool;
  cache_frame_cache_budget_mb : Z;
  cache_frame_cache_step : Z;
  cache_cache_only_when_paused : bool;
  cache_live_cache_threshold : Z;
  cache_live_cache_force : bool;
  cache_live_cache_active : bool
}.

(** Worker-threaded rendering: the pending job state (job_mutex) *)
Record jobs_t := {
  jobs_worker_stop : bool;
  jobs_load_pending : bool;
  jobs_pending_path8 : string;
  jobs_render_pending : bool;
  jobs_pending_r_size : Vector2i;
  jobs_pending_r_frame : F32.float;
  jobs_segment_pending : bool;
  jobs_pending_segment_begin : F32.float;
  jobs_pending_segment_end : F32.float
}.

(** Worker-threaded rendering: the finished frame (frame_mutex) and render deduplication *)
Record mbox_t := {
  mbox_render_thread_enabled : bool;
  mbox_next_frame_id : Z;
  mbox_last_consumed_id : Z;
  mbox_latest_frame : FrameResult.t;
  mbox_last_rendered_qf : Z;
  mbox_last_posted_qf : Z;
  mbox_last_posted_size : Vector2i;
  mbox_first_frame_drawn : bool
}.

(** Worker thread ThorVG resources *)
Record wres_t := {
  wres_w_canvas : bool;
  wres_w_animation : bool;
  wres_w_picture : bool;
  wres_w_buffer : option (list Z);
  wres_w_render_size : Vector2i;
  wres_w_base_picture_size : Vector2i
}.

(** Housekeeping for dynamic resolution and resize thrash control *)
Record resz_t := {
  resz_last_effective_scale : F32.float;
  resz_last_desired_size : Vector2i;
  resz_pending_resize : bool;
  resz_pending_target_size : Vector2i;
  resz_rendering : bool;
  resz__elapsed_time : F64.double;
  resz__last_resize_at : F64.double;
  resz__min_resize_interval : F32.float;
  resz__uploaded_this_frame : bool;
  resz__last_drawn_qf : Z
}.

(** Edge artifact mitigation and dotLottie selection *)
Record edge_t := {
  edge_fix_alpha_border : bool;
  edge_unpremultiply_alpha : bool;
  edge_dot : DotLottie
}.

(** Calls that leave the node, oldest first, and the process-wide registry *)
Record out_t := {
  out_effects : list effect;
  out_w_effects : list tvg_call;
  out_g_anim_usage_counts : gmap string Z
}.

(** The node: every member the modelled methods read or write. *)
Record node := {
  props : props_t;
  rend : rend_t;
  engine : engine_t;
  sizing : sizing_t;
  cache : cache_t;
  jobs : jobs_t;
  mbox : mbox_t;
  wres : wres_t;
  resz : resz_t;
  edge : edge_t;
  out : out_t
}.

#[local] Unset Primitive Projections.

(** Members, read at node level. *)
Definition animation_path (n : node) : string := props_animation_path (props n).
Definition playing (n : node) : bool := props_playing (props n).
Definition looping (n : node) : bool := props_looping (props n).
Definition speed (n : node) : F32.float := props_speed (props n).
Definition current_frame (n : node) : F32.float := props_current_frame (props n).
Definition total_frames (n : node) : F32.float := props_total_frames (props n).
Definition duration (n : node) : F32.float := props_duration (props n).
Definition texture (n : node) : option (list Z) := rend_texture (rend n).
Definition image (n : node) : option Image := rend_image (rend n).
Definition pixel_bytes (n : node) : list Z := rend_pixel_bytes (rend n).
Definition texture_ring (n : node) : list (option (list Z)) := rend_texture_ring (rend n).
Definition texture_ring_index (n : node) : Z := rend_texture_ring_index (rend n).
Definition texture_ring_size (n : node) : Z := rend_texture_ring_size (rend n).
Definition base_picture_size (n : node) : Vector2i := rend_base_picture_size (rend n).
Definition render_size (n : node) : Vector2i := rend_render_size (rend n).
Definition animation_key (n : node) : string := rend_animation_key (rend n).
Definition selected_dotlottie_animation (n : node) : string := rend_selected_dotlottie_animation (rend n).
Definition canvas (n : node) : bool := engine_canvas (engine n).
Definition animation (n : node) : bool := engine_animation (engine n).
Definition picture (n : node) : bool := engine_picture (engine n).
Definition buffer (n : node) : option (list Z) := engine_buffer (engine n).
Definition fit_box_size (n : node) : Vector2i := sizing_fit_box_size (sizing n).
Definition dynamic_resolution (n : node) : bool := sizing_dynamic_resolution (sizing n).
Definition resolution_threshold (n : node) : F32.float := sizing_resolution_threshold (sizing n).
Definition max_render_size (n : node) : Vector2i := sizing_max_render_size (sizing n).
Definition frame_cache_enabled (n : node) : bool := cache_frame_cache_enabled (cache n).
Definition frame_cache_budget_mb (n : node) : Z := cache_frame_cache_budget_mb (cache n).
Definition frame_cache_step (n : node) : Z := cache_frame_cache_step (cache n).
Definition cache_only_when_paused (n : node) : bool := cache_cache_only_when_paused (cache n).
Definition live_cache_threshold (n : node) : Z := cache_live_cache_threshold (cache n).
Definition live_cache_force (n : node) : bool := cache_live_cache_force (cache n).
Definition live_cache_active (n : node) : bool := cache_live_cache_active (cache n).
Definition worker_stop (n : node) : bool := jobs_worker_stop (jobs n).
Definition load_pending (n : node) : bool := jobs_load_pending (jobs n).
Definition pending_path8 (n : node) : string := jobs_pending_path8 (jobs n).
Definition render_pending (n : node) : bool := jobs_render_pending (jobs n).
Definition pending_r_size (n : node) : Vector2i := jobs_pending_r_size (jobs n).
Definition pending_r_frame (n : node) : F32.float := jobs_pending_r_frame (jobs n).
Definition segment_pending (n : node) : bool := jobs_segment_pending (jobs n).
Definition pending_segment_begin (n : node) : F32.float := jobs_pending_segment_begin (jobs n).
Definition pending_segment_end (n : node) : F32.float := jobs_pending_segment_end (jobs n).
Definition render_thread_enabled (n : node) : bool := mbox_render_thread_enabled (mbox n).
Definition next_frame_id (n : node) : Z := mbox_next_frame_id (mbox n).
Definition last_consumed_id (n : node) : Z := mbox_last_consumed_id (mbox n).
Definition latest_frame (n : node) : FrameResult.t := mbox_latest_frame (mbox n).
Definition last_rendered_qf (n : node) : Z := mbox_last_rendered_qf (mbox n).
Definition last_posted_qf (n : node) : Z := mbox_last_posted_qf (mbox n).
Definition last_posted_size (n : node) : Vector2i := mbox_last_posted_size (mbox n).
Definition first_frame_drawn (n : node) : bool := mbox_first_frame_drawn (mbox n).
Definition w_canvas (n : node) : bool := wres_w_canvas (wres n).
Definition w_animation (n : node) : bool := wres_w_animation (wres n).
Definition w_picture (n : node) : bool := wres_w_picture (wres n).
Definition w_buffer (n : node) : option (list Z) := wres_w_buffer (wres n).
Definition w_render_size (n : node) : Vector2i := wres_w_render_size (wres n).
Definition w_base_picture_size (n : node) : Vector2i := wres_w_base_picture_size (wres n).
Definition last_effective_scale (n : node) : F32.float := resz_last_effective_scale (resz n).
Definition last_desired_size (n : node) : Vector2i := resz_last_desired_size (resz n).
Definition pending_resize (n : node) : bool := resz_pending_resize (resz n).
Definition pending_target_size (n : node) : Vector2i := resz_pending_target_size (resz n).
Definition rendering (n : node) : bool := resz_rendering (resz n).
Definition _elapsed_time (n : node) : F64.double := resz__elapsed_time (resz n).
Definition _last_resize_at (n : node) : F64.double := resz__last_resize_at (resz n).
Definition _min_resize_interval (n : node) : F32.float := resz__min_resize_interval (resz n).
Definition _uploaded_this_frame (n : node) : bool := resz__uploaded_this_frame (resz n).
Definition _last_drawn_qf (n : node) : Z := resz__last_drawn_qf (resz n).
Definition fix_alpha_border (n : node) : bool := edge_fix_alpha_border (edge n).
Definition unpremultiply_alpha (n : node) : bool := edge_unpremultiply_alpha (edge n).
Definition dot (n : node) : DotLottie := edge_dot (edge n).
Definition effects (n : node) : list effect := out_effects (out n).
Definition w_effects (n : node) : list tvg_call := out_w_effects (out n).
Definition g_anim_usage_counts (n : node) : gmap string Z := out_g_anim_usage_counts (out n).

(** Assignments to members, [member = v]. *)
Definition on_props (f : props_t -> props_t) (n : node) : node :=
  {| props := f (props n); rend := rend n; engine := engine n; sizing := sizing n; cache := cache n; jobs := jobs n; mbox := mbox n; wres := wres n; resz := resz n; edge := edge n; out := out n |}.
Definition on_rend (f : rend_t -> rend_t) (n : node) : node :=
  {| props := props n; rend := f (rend n); engine := engine n; sizing := sizing n; cache := cache n; jobs := jobs n; mbox := mbox n; wres := wres n; resz := resz n; edge := edge n; out := out n |}.
Definition on_engine (f : engine_t -> engine_t) (n : node) : node :=
  {| props := props n; rend := rend n; engine := f (engine n); sizing := sizing n; cache := cache n; jobs := jobs n; mbox := mbox n; wres := wres n; resz := resz n; edge := edge n; out := out n |}.
Definition on_sizing (f : sizing_t -> sizing_t) (n : node) : node :=
  {| props := props n; rend := rend n; engine := engine n; sizing := f (sizing n); cache := cache n; jobs := jobs n; mbox := mbox n; wres := wres n; resz := resz n; edge := edge n; out := out n |}.
Definition on_cache (f : cache_t -> cache_t) (n : node) : node :=
  {| props := props n; rend := rend n; engine := engine n; sizing := sizing n; cache := f (cache n); jobs := jobs n; mbox := mbox n; wres := wres n; resz := resz n; edge := edge n; out := out n |}.
Definition on_jobs (f : jobs_t -> jobs_t) (n : node) : node :=
  {| props := props n; rend := rend n; engine := engine n; sizing := sizing n; cache := cache n; jobs := f (jobs n); mbox := mbox n; wres := wres n; resz := resz n; edge := edge n; out := out n |}.
Definition on_mbox (f : mbox_t -> mbox_t) (n : node) : node :=
  {| props := props n; rend := rend n; engine := engine n; sizing := sizing n; cache := cache n; jobs := jobs n; mbox := f (mbox n); wres := wres n; resz := resz n; edge := edge n; out := out n |}.
Definition on_wres (f : wres_t -> wres_t) (n : node) : node :=
  {| props := props n; rend := rend n; engine := engine n; sizing := sizing n; cache := cache n; jobs := jobs n; mbox := mbox n; wres := f (wres n); resz := resz n; edge := edge n; out := out n |}.
Definition on_resz (f : resz_t -> resz_t) (n : node) : node :=
  {| props := props n; rend := rend n; engine := engine n; sizing := sizing n; cache := cache n; jobs := jobs n; mbox := mbox n; wres := wres n; resz := f (resz n); edge := edge n; out := out n |}.
Definition on_edge (f : edge_t -> edge_t) (n : node) : node :=
  {| props := props n; rend := rend n; engine := engine n; sizing := sizing n; cache := cache n; jobs := jobs n; mbox := mbox n; wres := wres n; resz := resz n; edge := f (edge n); out := out n |}.
Definition on_out (f : out_t -> out_t) (n : node) : node :=
  {| props := props n; rend := rend n; engine := engine n; sizing := sizing n; cache := cache n; jobs := jobs n; mbox := mbox n; wres := wres n; resz := resz n; edge := edge n; out := f (out n) |}.

Definition with_animation_path (v : string) : node -> node :=
  on_props (fun g => {| props_animation_path := v; props_playing := props_playing g; props_looping := props_looping g; props_speed := props_speed g; props_current_frame := props_current_frame g; props_total_frames := props_total_frames g; props_duration := props_duration g |}).
Definition with_playing (v : bool) : node -> node :=
  on_props (fun g => {| props_animation_path := props_animation_path g; props_playing := v; props_looping := props_looping g; props_speed := props_speed g; props_current_frame := props_current_frame g; props_total_frames := props_total_frames g; props_duration := props_duration g |}).
Definition with_looping (v : bool) : node -> node :=
  on_props (fun g => {| props_animation_path := props_animation_path g; props_playing := props_playing g; props_looping := v; props_speed := props_speed g; props_current_frame := props_current_frame g; props_total_frames := props_total_frames g; props_duration := props_duration g |}).
Definition with_speed (v : F32.float) : node -> node :=
  on_props (fun g => {| props_animation_path := props_animation_path g; props_playing := props_playing g; props_looping := props_looping g; props_speed := v; props_current_frame := props_current_frame g; props_total_frames := props_total_frames g; props_duration := props_duration g |}).
Definition with_current_frame (v : F32.float) : node -> node :=
  on_props (fun g => {| props_animation_path := props_animation_path g; props_playing := props_playing g; props_looping := props_looping g; props_speed := props_speed g; props_current_frame := v; props_total_frames := props_total_frames g; props_duration := props_duration g |}).
Definition with_total_frames (v : F32.float) : node -> node :=
  on_props (fun g => {| props_animation_path := props_animation_path g; props_playing := props_playing g; props_looping := props_looping g; props_speed := props_speed g; props_current_frame := props_current_frame g; props_total_frames := v; props_duration := props_duration g |}).
Definition with_duration (v : F32.float) : node -> node :=
  on_props (fun g => {| props_animation_path := props_animation_path g; props_playing := props_playing g; props_looping := props_looping g; props_speed := props_speed g; props_current_frame := props_current_frame g; props_total_frames := props_total_frames g; props_duration := v |}).
Definition with_texture (v : option (list Z)) : node -> node :=
  on_rend (fun g => {| rend_texture := v; rend_image := rend_image g; rend_pixel_bytes := rend_pixel_bytes g; rend_texture_ring := rend_texture_ring g; rend_texture_ring_index := rend_texture_ring_index g; rend_texture_ring_size := rend_texture_ring_size g; rend_base_picture_size := rend_base_picture_size g; rend_render_size := rend_render_size g; rend_animation_key := rend_animation_key g; rend_selected_dotlottie_animation := rend_selected_dotlottie_animation g |}).
Definition with_image (v : option Image) : node -> node :=
  on_rend (fun g => {| rend_texture := rend_texture g; rend_image := v; rend_pixel_bytes := rend_pixel_bytes g; rend_texture_ring := rend_texture_ring g; rend_texture_ring_index := rend_texture_ring_index g; rend_texture_ring_size := rend_texture_ring_size g; rend_base_picture_size := rend_base_picture_size g; rend_render_size := rend_render_size g; rend_animation_key := rend_animation_key g; rend_selected_dotlottie_animation := rend_selected_dotlottie_animation g |}).
Definition with_pixel_bytes (v : list Z) : node -> node :=
  on_rend (fun g => {| rend_texture := rend_texture g; rend_image := rend_image g; rend_pixel_bytes := v; rend_texture_ring := rend_texture_ring g; rend_texture_ring_index := rend_texture_ring_index g; rend_texture_ring_size := rend_texture_ring_size g; rend_base_picture_size := rend_base_picture_size g; rend_render_size := rend_render_size g; rend_animation_key := rend_animation_key g; rend_selected_dotlottie_animation := rend_selected_dotlottie_animation g |}).
Definition with_texture_ring (v : list (option (list Z))) : node -> node :=
  on_rend (fun g => {| rend_texture := rend_texture g; rend_image := rend_image g; rend_pixel_bytes := rend_pixel_bytes g; rend_texture_ring := v; rend_texture_ring_index := rend_texture_ring_index g; rend_texture_ring_size := rend_texture_ring_size g; rend_base_picture_size := rend_base_picture_size g; rend_render_size := rend_render_size g; rend_animation_key := rend_animation_key g; rend_selected_dotlottie_animation := rend_selected_dotlottie_animation g |}).
Definition with_texture_ring_index (v : Z) : node -> node :=
  on_rend (fun g => {| rend_texture := rend_texture g; rend_image := rend_image g; rend_pixel_bytes := rend_pixel_bytes g; rend_texture_ring := rend_texture_ring g; rend_texture_ring_index := v; rend_texture_ring_size := rend_texture_ring_size g; rend_base_picture_size := rend_base_picture_size g; rend_render_size := rend_render_size g; rend_animation_key := rend_animation_key g; rend_selected_dotlottie_animation := rend_selected_dotlottie_animation g |}).
Definition with_texture_ring_size (v : Z) : node -> node :=
  on_rend (fun g => {| rend_texture := rend_texture g; rend_image := rend_image g; rend_pixel_bytes := rend_pixel_bytes g; rend_texture_ring := rend_texture_ring g; rend_texture_ring_index := rend_texture_ring_index g; rend_texture_ring_size := v; rend_base_picture_size := rend_base_picture_size g; rend_render_size := rend_render_size g; rend_animation_key := rend_animation_key g; rend_selected_dotlottie_animation := rend_selected_dotlottie_animation g |}).
Definition with_base_picture_size (v : Vector2i) : node -> node :=
  on_rend (fun g => {| rend_texture := rend_texture g; rend_image := rend_image g; rend_pixel_bytes := rend_pixel_bytes g; rend_texture_ring := rend_texture_ring g; rend_texture_ring_index := rend_texture_ring_index g; rend_texture_ring_size := rend_texture_ring_size g; rend_base_picture_size := v; rend_render_size := rend_render_size g; rend_animation_key := rend_animation_key g; rend_selected_dotlottie_animation := rend_selected_dotlottie_animation g |}).
Definition with_render_size (v : Vector2i) : node -> node :=
  on_rend (fun g => {| rend_texture := rend_texture g; rend_image := rend_image g; rend_pixel_bytes := rend_pixel_bytes g; rend_texture_ring := rend_texture_ring g; rend_texture_ring_index := rend_texture_ring_index g; rend_texture_ring_size := rend_texture_ring_size g; rend_base_picture_size := rend_base_picture_size g; rend_render_size := v; rend_animation_key := rend_animation_key g; rend_selected_dotlottie_animation := rend_selected_dotlottie_animation g |}).
Definition with_animation_key (v : string) : node -> node :=
  on_rend (fun g => {| rend_texture := rend_texture g; rend_image := rend_image g; rend_pixel_bytes := rend_pixel_bytes g; rend_texture_ring := rend_texture_ring g; rend_texture_ring_index := rend_texture_ring_index g; rend_texture_ring_size := rend_texture_ring_size g; rend_base_picture_size := rend_base_picture_size g; rend_render_size := rend_render_size g; rend_animation_key := v; rend_selected_dotlottie_animation := rend_selected_dotlottie_animation g |}).
Definition with_selected_dotlottie_animation (v : string) : node -> node :=
  on_rend (fun g => {| rend_texture := rend_texture g; rend_image := rend_image g; rend_pixel_bytes := rend_pixel_bytes g; rend_texture_ring := rend_texture_ring g; rend_texture_ring_index := rend_texture_ring_index g; rend_texture_ring_size := rend_texture_ring_size g; rend_base_picture_size := rend_base_picture_size g; rend_render_size := rend_render_size g; rend_animation_key := rend_animation_key g; rend_selected_dotlottie_animation := v |}).
Definition with_canvas (v : bool) : node -> node :=
  on_engine (fun g => {| engine_canvas := v; engine_animation := engine_animation g; engine_picture := engine_picture g; engine_buffer := engine_buffer g |}).
Definition with_animation (v : bool) : node -> node :=
  on_engine (fun g => {| engine_canvas := engine_canvas g; engine_animation := v; engine_picture := engine_picture g; engine_buffer := engine_buffer g |}).
Definition with_picture (v : bool) : node -> node :=
  on_engine (fun g => {| engine_canvas := engine_canvas g; engine_animation := engine_animation g; engine_picture := v; engine_buffer := engine_buffer g |}).
Definition with_buffer (v : option (list Z)) : node -> node :=
  on_engine (fun g => {| engine_canvas := engine_canvas g; engine_animation := engine_animation g; engine_picture := engine_picture g; engine_buffer := v |}).
Definition with_fit_box_size (v : Vector2i) : node -> node :=
  on_sizing (fun g => {| sizing_fit_box_size := v; sizing_dynamic_resolution := sizing_dynamic_resolution g; sizing_resolution_threshold := sizing_resolution_threshold g; sizing_max_render_size := sizing_max_render_size g |}).
Definition with_dynamic_resolution (v : bool) : node -> node :=
  on_sizing (fun g => {| sizing_fit_box_size := sizing_fit_box_size g; sizing_dynamic_resolution := v; sizing_resolution_threshold := sizing_resolution_threshold g; sizing_max_render_size := sizing_max_render_size g |}).
Definition with_resolution_threshold (v : F32.float) : node -> node :=
  on_sizing (fun g => {| sizing_fit_box_size := sizing_fit_box_size g; sizing_dynamic_resolution := sizing_dynamic_resolution g; sizing_resolution_threshold := v; sizing_max_render_size := sizing_max_render_size g |}).
Definition with_max_render_size (v : Vector2i) : node -> node :=
  on_sizing (fun g => {| sizing_fit_box_size := sizing_fit_box_size g; sizing_dynamic_resolution := sizing_dynamic_resolution g; sizing_resolution_threshold := sizing_resolution_threshold g; sizing_max_render_size := v |}).
Definition with_frame_cache_enabled (v : bool) : node -> node :=
  on_cache (fun g => {| cache_frame_cache_enabled := v; cache_frame_cache_budget_mb := cache_frame_cache_budget_mb g; cache_frame_cache_step := cache_frame_cache_step g; cache_cache_only_when_paused := cache_cache_only_when_paused g; cache_live_cache_threshold := cache_live_cache_threshold g; cache_live_cache_force := cache_live_cache_force g; cache_live_cache_active := cache_live_cache_active g |}).
Definition with_frame_cache_budget_mb (v : Z) : node -> node :=
  on_cache (fun g => {| cache_frame_cache_enabled := cache_frame_cache_enabled g; cache_frame_cache_budget_mb := v; cache_frame_cache_step := cache_frame_cache_step g; cache_cache_only_when_paused := cache_cache_only_when_paused g; cache_live_cache_threshold := cache_live_cache_threshold g; cache_live_cache_force := cache_live_cache_force g; cache_live_cache_active := cache_live_cache_active g |}).
Definition with_frame_cache_step (v : Z) : node -> node :=
  on_cache (fun g => {| cache_frame_cache_enabled := cache_frame_cache_enabled g; cache_frame_cache_budget_mb := cache_frame_cache_budget_mb g; cache_frame_cache_step := v; cache_cache_only_when_paused := cache_cache_only_when_paused g; cache_live_cache_threshold := cache_live_cache_threshold g; cache_live_cache_force := cache_live_cache_force g; cache_live_cache_active := cache_live_cache_active g |}).
Definition with_cache_only_when_paused (v : bool) : node -> node :=
  on_cache (fun g => {| cache_frame_cache_enabled := cache_frame_cache_enabled g; cache_frame_cache_budget_mb := cache_frame_cache_budget_mb g; cache_frame_cache_step := cache_frame_cache_step g; cache_cache_only_when_paused := v; cache_live_cache_threshold := cache_live_cache_threshold g; cache_live_cache_force := cache_live_cache_force g; cache_live_cache_active := cache_live_cache_active g |}).
Definition with_live_cache_threshold (v : Z) : node -> node :=
  on_cache (fun g => {| cache_frame_cache_enabled := cache_frame_cache_enabled g; cache_frame_cache_budget_mb := cache_frame_cache_budget_mb g; cache_frame_cache_step := cache_frame_cache_step g; cache_cache_only_when_paused := cache_cache_only_when_paused g; cache_live_cache_threshold := v; cache_live_cache_force := cache_live_cache_force g; cache_live_cache_active := cache_live_cache_active g |}).
Definition with_live_cache_force (v : bool) : node -> node :=
  on_cache (fun g => {| cache_frame_cache_enabled := cache_frame_cache_enabled g; cache_frame_cache_budget_mb := cache_frame_cache_budget_mb g; cache_frame_cache_step := cache_frame_cache_step g; cache_cache_only_when_paused := cache_cache_only_when_paused g; cache_live_cache_threshold := cache_live_cache_threshold g; cache_live_cache_force := v; cache_live_cache_active := cache_live_cache_active g |}).
Definition with_live_cache_active (v : bool) : node -> node :=
  on_cache (fun g => {| cache_frame_cache_enabled := cache_frame_cache_enabled g; cache_frame_cache_budget_mb := cache_frame_cache_budget_mb g; cache_frame_cache_step := cache_frame_cache_step g; cache_cache_only_when_paused := cache_cache_only_when_paused g; cache_live_cache_threshold := cache_live_cache_threshold g; cache_live_cache_force := cache_live_cache_force g; cache_live_cache_active := v |}).
Definition with_worker_stop (v : bool) : node -> node :=
  on_jobs (fun g => {| jobs_worker_stop := v; jobs_load_pending := jobs_load_pending g; jobs_pending_path8 := jobs_pending_path8 g; jobs_render_pending := jobs_render_pending g; jobs_pending_r_size := jobs_pending_r_size g; jobs_pending_r_frame := jobs_pending_r_frame g; jobs_segment_pending := jobs_segment_pending g; jobs_pending_segment_begin := jobs_pending_segment_begin g; jobs_pending_segment_end := jobs_pending_segment_end g |}).
Definition with_load_pending (v : bool) : node -> node :=
  on_jobs (fun g => {| jobs_worker_stop := jobs_worker_stop g; jobs_load_pending := v; jobs_pending_path8 := jobs_pending_path8 g; jobs_render_pending := jobs_render_pending g; jobs_pending_r_size := jobs_pending_r_size g; jobs_pending_r_frame := jobs_pending_r_frame g; jobs_segment_pending := jobs_segment_pending g; jobs_pending_segment_begin := jobs_pending_segment_begin g; jobs_pending_segment_end := jobs_pending_segment_end g |}).
Definition with_pending_path8 (v : string) : node -> node :=
  on_jobs (fun g => {| jobs_worker_stop := jobs_worker_stop g; jobs_load_pending := jobs_load_pending g; jobs_pending_path8 := v; jobs_render_pending := jobs_render_pending g; jobs_pending_r_size := jobs_pending_r_size g; jobs_pending_r_frame := jobs_pending_r_frame g; jobs_segment_pending := jobs_segment_pending g; jobs_pending_segment_begin := jobs_pending_segment_begin g; jobs_pending_segment_end := jobs_pending_segment_end g |}).
Definition with_render_pending (v : bool) : node -> node :=
  on_jobs (fun g => {| jobs_worker_stop := jobs_worker_stop g; jobs_load_pending := jobs_load_pending g; jobs_pending_path8 := jobs_pending_path8 g; jobs_render_pending := v; jobs_pending_r_size := jobs_pending_r_size g; jobs_pending_r_frame := jobs_pending_r_frame g; jobs_segment_pending := jobs_segment_pending g; jobs_pending_segment_begin := jobs_pending_segment_begin g; jobs_pending_segment_end := jobs_pending_segment_end g |}).
Definition with_pending_r_size (v : Vector2i) : node -> node :=
  on_jobs (fun g => {| jobs_worker_stop := jobs_worker_stop g; jobs_load_pending := jobs_load_pending g; jobs_pending_path8 := jobs_pending_path8 g; jobs_render_pending := jobs_render_pending g; jobs_pending_r_size := v; jobs_pending_r_frame := jobs_pending_r_frame g; jobs_segment_pending := jobs_segment_pending g; jobs_pending_segment_begin := jobs_pending_segment_begin g; jobs_pending_segment_end := jobs_pending_segment_end g |}).
Definition with_pending_r_frame (v : F32.float) : node -> node :=
  on_jobs (fun g => {| jobs_worker_stop := jobs_worker_stop g; jobs_load_pending := jobs_load_pending g; jobs_pending_path8 := jobs_pending_path8 g; jobs_render_pending := jobs_render_pending g; jobs_pending_r_size := jobs_pending_r_size g; jobs_pending_r_frame := v; jobs_segment_pending := jobs_segment_pending g; jobs_pending_segment_begin := jobs_pending_segment_begin g; jobs_pending_segment_end := jobs_pending_segment_end g |}).
Definition with_segment_pending (v : bool) : node -> node :=
  on_jobs (fun g => {| jobs_worker_stop := jobs_worker_stop g; jobs_load_pending := jobs_load_pending g; jobs_pending_path8 := jobs_pending_path8 g; jobs_render_pending := jobs_render_pending g; jobs_pending_r_size := jobs_pending_r_size g; jobs_pending_r_frame := jobs_pending_r_frame g; jobs_segment_pending := v; jobs_pending_segment_begin := jobs_pending_segment_begin g; jobs_pending_segment_end := jobs_pending_segment_end g |}).
Definition with_pending_segment_begin (v : F32.float) : node -> node :=
  on_jobs (fun g => {| jobs_worker_stop := jobs_worker_stop g; jobs_load_pending := jobs_load_pending g; jobs_pending_path8 := jobs_pending_path8 g; jobs_render_pending := jobs_render_pending g; jobs_pending_r_size := jobs_pending_r_size g; jobs_pending_r_frame := jobs_pending_r_frame g; jobs_segment_pending := jobs_segment_pending g; jobs_pending_segment_begin := v; jobs_pending_segment_end := jobs_pending_segment_end g |}).
Definition with_pending_segment_end (v : F32.float) : node -> node :=
  on_jobs (fun g => {| jobs_worker_stop := jobs_worker_stop g; jobs_load_pending := jobs_load_pending g; jobs_pending_path8 := jobs_pending_path8 g; jobs_render_pending := jobs_render_pending g; jobs_pending_r_size := jobs_pending_r_size g; jobs_pending_r_frame := jobs_pending_r_frame g; jobs_segment_pending := jobs_segment_pending g; jobs_pending_segment_begin := jobs_pending_segment_begin g; jobs_pending_segment_end := v |}).
Definition with_render_thread_enabled (v : bool) : node -> node :=
  on_mbox (fun g => {| mbox_render_thread_enabled := v; mbox_next_frame_id := mbox_next_frame_id g; mbox_last_consumed_id := mbox_last_consumed_id g; mbox_latest_frame := mbox_latest_frame g; mbox_last_rendered_qf := mbox_last_rendered_qf g; mbox_last_posted_qf := mbox_last_posted_qf g; mbox_last_posted_size := mbox_last_posted_size g; mbox_first_frame_drawn := mbox_first_frame_drawn g |}).
Definition with_next_frame_id (v : Z) : node -> node :=
  on_mbox (fun g => {| mbox_render_thread_enabled := mbox_render_thread_enabled g; mbox_next_frame_id := v; mbox_last_consumed_id := mbox_last_consumed_id g; mbox_latest_frame := mbox_latest_frame g; mbox_last_rendered_qf := mbox_last_rendered_qf g; mbox_last_posted_qf := mbox_last_posted_qf g; mbox_last_posted_size := mbox_last_posted_size g; mbox_first_frame_drawn := mbox_first_frame_drawn g |}).
Definition with_last_consumed_id (v : Z) : node -> node :=
  on_mbox (fun g => {| mbox_render_thread_enabled := mbox_render_thread_enabled g; mbox_next_frame_id := mbox_next_frame_id g; mbox_last_consumed_id := v; mbox_latest_frame := mbox_latest_frame g; mbox_last_rendered_qf := mbox_last_rendered_qf g; mbox_last_posted_qf := mbox_last_posted_qf g; mbox_last_posted_size := mbox_last_posted_size g; mbox_first_frame_drawn := mbox_first_frame_drawn g |}).
Definition with_latest_frame (v : FrameResult.t) : node -> node :=
  on_mbox (fun g => {| mbox_render_thread_enabled := mbox_render_thread_enabled g; mbox_next_frame_id := mbox_next_frame_id g; mbox_last_consumed_id := mbox_last_consumed_id g; mbox_latest_frame := v; mbox_last_rendered_qf := mbox_last_rendered_qf g; mbox_last_posted_qf := mbox_last_posted_qf g; mbox_last_posted_size := mbox_last_posted_size g; mbox_first_frame_drawn := mbox_first_frame_drawn g |}).
Definition with_last_rendered_qf (v : Z) : node -> node :=
  on_mbox (fun g => {| mbox_render_thread_enabled := mbox_render_thread_enabled g; mbox_next_frame_id := mbox_next_frame_id g; mbox_last_consumed_id := mbox_last_consumed_id g; mbox_latest_frame := mbox_latest_frame g; mbox_last_rendered_qf := v; mbox_last_posted_qf := mbox_last_posted_qf g; mbox_last_posted_size := mbox_last_posted_size g; mbox_first_frame_drawn := mbox_first_frame_drawn g |}).
Definition with_last_posted_qf (v : Z) : node -> node :=
  on_mbox (fun g => {| mbox_render_thread_enabled := mbox_render_thread_enabled g; mbox_next_frame_id := mbox_next_frame_id g; mbox_last_consumed_id := mbox_last_consumed_id g; mbox_latest_frame := mbox_latest_frame g; mbox_last_rendered_qf := mbox_last_rendered_qf g; mbox_last_posted_qf := v; mbox_last_posted_size := mbox_last_posted_size g; mbox_first_frame_drawn := mbox_first_frame_drawn g |}).
Definition with_last_posted_size (v : Vector2i) : node -> node :=
  on_mbox (fun g => {| mbox_render_thread_enabled := mbox_render_thread_enabled g; mbox_next_frame_id := mbox_next_frame_id g; mbox_last_consumed_id := mbox_last_consumed_id g; mbox_latest_frame := mbox_latest_frame g; mbox_last_rendered_qf := mbox_last_rendered_qf g; mbox_last_posted_qf := mbox_last_posted_qf g; mbox_last_posted_size := v; mbox_first_frame_drawn := mbox_first_frame_drawn g |}).
Definition with_first_frame_drawn (v : bool) : node -> node :=
  on_mbox (fun g => {| mbox_render_thread_enabled := mbox_render_thread_enabled g; mbox_next_frame_id := mbox_next_frame_id g; mbox_last_consumed_id := mbox_last_consumed_id g; mbox_latest_frame := mbox_latest_frame g; mbox_last_rendered_qf := mbox_last_rendered_qf g; mbox_last_posted_qf := mbox_last_posted_qf g; mbox_last_posted_size := mbox_last_posted_size g; mbox_first_frame_drawn := v |}).
Definition with_w_canvas (v : bool) : node -> node :=
  on_wres (fun g => {| wres_w_canvas := v; wres_w_animation := wres_w_animation g; wres_w_picture := wres_w_picture g; wres_w_buffer := wres_w_buffer g; wres_w_render_size := wres_w_render_size g; wres_w_base_picture_size := wres_w_base_picture_size g |}).
Definition with_w_animation (v : bool) : node -> node :=
  on_wres (fun g => {| wres_w_canvas := wres_w_canvas g; wres_w_animation := v; wres_w_picture := wres_w_picture g; wres_w_buffer := wres_w_buffer g; wres_w_render_size := wres_w_render_size g; wres_w_base_picture_size := wres_w_base_picture_size g |}).
Definition with_w_picture (v : bool) : node -> node :=
  on_wres (fun g => {| wres_w_canvas := wres_w_canvas g; wres_w_animation := wres_w_animation g; wres_w_picture := v; wres_w_buffer := wres_w_buffer g; wres_w_render_size := wres_w_render_size g; wres_w_base_picture_size := wres_w_base_picture_size g |}).
Definition with_w_buffer (v : option (list Z)) : node -> node :=
  on_wres (fun g => {| wres_w_canvas := wres_w_canvas g; wres_w_animation := wres_w_animation g; wres_w_picture := wres_w_picture g; wres_w_buffer := v; wres_w_render_size := wres_w_render_size g; wres_w_base_picture_size := wres_w_base_picture_size g |}).
Definition with_w_render_size (v : Vector2i) : node -> node :=
  on_wres (fun g => {| wres_w_canvas := wres_w_canvas g; wres_w_animation := wres_w_animation g; wres_w_picture := wres_w_picture g; wres_w_buffer := wres_w_buffer g; wres_w_render_size := v; wres_w_base_picture_size := wres_w_base_picture_size g |}).
Definition with_w_base_picture_size (v : Vector2i) : node -> node :=
  on_wres (fun g => {| wres_w_canvas := wres_w_canvas g; wres_w_animation := wres_w_animation g; wres_w_picture := wres_w_picture g; wres_w_buffer := wres_w_buffer g; wres_w_render_size := wres_w_render_size g; wres_w_base_picture_size := v |}).
Definition with_last_effective_scale (v : F32.float) : node -> node :=
  on_resz (fun g => {| resz_last_effective_scale := v; resz_last_desired_size := resz_last_desired_size g; resz_pending_resize := resz_pending_resize g; resz_pending_target_size := resz_pending_target_size g; resz_rendering := resz_rendering g; resz__elapsed_time := resz__elapsed_time g; resz__last_resize_at := resz__last_resize_at g; resz__min_resize_interval := resz__min_resize_interval g; resz__uploaded_this_frame := resz__uploaded_this_frame g; resz__last_drawn_qf := resz__last_drawn_qf g |}).
Definition with_last_desired_size (v : Vector2i) : node -> node :=
  on_resz (fun g => {| resz_last_effective_scale := resz_last_effective_scale g; resz_last_desired_size := v; resz_pending_resize := resz_pending_resize g; resz_pending_target_size := resz_pending_target_size g; resz_rendering := resz_rendering g; resz__elapsed_time := resz__elapsed_time g; resz__last_resize_at := resz__last_resize_at g; resz__min_resize_interval := resz__min_resize_interval g; resz__uploaded_this_frame := resz__uploaded_this_frame g; resz__last_drawn_qf := resz__last_drawn_qf g |}).
Definition with_pending_resize (v : bool) : node -> node :=
  on_resz (fun g => {| resz_last_effective_scale := resz_last_effective_scale g; resz_last_desired_size := resz_last_desired_size g; resz_pending_resize := v; resz_pending_target_size := resz_pending_target_size g; resz_rendering := resz_rendering g; resz__elapsed_time := resz__elapsed_time g; resz__last_resize_at := resz__last_resize_at g; resz__min_resize_interval := resz__min_resize_interval g; resz__uploaded_this_frame := resz__uploaded_this_frame g; resz__last_drawn_qf := resz__last_drawn_qf g |}).
Definition with_pending_target_size (v : Vector2i) : node -> node :=
  on_resz (fun g => {| resz_last_effective_scale := resz_last_effective_scale g; resz_last_desired_size := resz_last_desired_size g; resz_pending_resize := resz_pending_resize g; resz_pending_target_size := v; resz_rendering := resz_rendering g; resz__elapsed_time := resz__elapsed_time g; resz__last_resize_at := resz__last_resize_at g; resz__min_resize_interval := resz__min_resize_interval g; resz__uploaded_this_frame := resz__uploaded_this_frame g; resz__last_drawn_qf := resz__last_drawn_qf g |}).
Definition with_rendering (v : bool) : node -> node :=
  on_resz (fun g => {| resz_last_effective_scale := resz_last_effective_scale g; resz_last_desired_size := resz_last_desired_size g; resz_pending_resize := resz_pending_resize g; resz_pending_target_size := resz_pending_target_size g; resz_rendering := v; resz__elapsed_time := resz__elapsed_time g; resz__last_resize_at := resz__last_resize_at g; resz__min_resize_interval := resz__min_resize_interval g; resz__uploaded_this_frame := resz__uploaded_this_frame g; resz__last_drawn_qf := resz__last_drawn_qf g |}).
Definition with__elapsed_time (v : F64.double) : node -> node :=
  on_resz (fun g => {| resz_last_effective_scale := resz_last_effective_scale g; resz_last_desired_size := resz_last_desired_size g; resz_pending_resize := resz_pending_resize g; resz_pending_target_size := resz_pending_target_size g; resz_rendering := resz_rendering g; resz__elapsed_time := v; resz__last_resize_at := resz__last_resize_at g; resz__min_resize_interval := resz__min_resize_interval g; resz__uploaded_this_frame := resz__uploaded_this_frame g; resz__last_drawn_qf := resz__last_drawn_qf g |}).
Definition with__last_resize_at (v : F64.double) : node -> node :=
  on_resz (fun g => {| resz_last_effective_scale := resz_last_effective_scale g; resz_last_desired_size := resz_last_desired_size g; resz_pending_resize := resz_pending_resize g; resz_pending_target_size := resz_pending_target_size g; resz_rendering := resz_rendering g; resz__elapsed_time := resz__elapsed_time g; resz__last_resize_at := v; resz__min_resize_interval := resz__min_resize_interval g; resz__uploaded_this_frame := resz__uploaded_this_frame g; resz__last_drawn_qf := resz__last_drawn_qf g |}).
Definition with__min_resize_interval (v : F32.float) : node -> node :=
  on_resz (fun g => {| resz_last_effective_scale := resz_last_effective_scale g; resz_last_desired_size := resz_last_desired_size g; resz_pending_resize := resz_pending_resize g; resz_pending_target_size := resz_pending_target_size g; resz_rendering := resz_rendering g; resz__elapsed_time := resz__elapsed_time g; resz__last_resize_at := resz__last_resize_at g; resz__min_resize_interval := v; resz__uploaded_this_frame := resz__uploaded_this_frame g; resz__last_drawn_qf := resz__last_drawn_qf g |}).
Definition with__uploaded_this_frame (v : bool) : node -> node :=
  on_resz (fun g => {| resz_last_effective_scale := resz_last_effective_scale g; resz_last_desired_size := resz_last_desired_size g; resz_pending_resize := resz_pending_resize g; resz_pending_target_size := resz_pending_target_size g; resz_rendering := resz_rendering g; resz__elapsed_time := resz__elapsed_time g; resz__last_resize_at := resz__last_resize_at g; resz__min_resize_interval := resz__min_resize_interval g; resz__uploaded_this_frame := v; resz__last_drawn_qf := resz__last_drawn_qf g |}).
Definition with__last_drawn_qf (v : Z) : node -> node :=
  on_resz (fun g => {| resz_last_effective_scale := resz_last_effective_scale g; resz_last_desired_size := resz_last_desired_size g; resz_pending_resize := resz_pending_resize g; resz_pending_target_size := resz_pending_target_size g; resz_rendering := resz_rendering g; resz__elapsed_time := resz__elapsed_time g; resz__last_resize_at := resz__last_resize_at g; resz__min_resize_interval := resz__min_resize_interval g; resz__uploaded_this_frame := resz__uploaded_this_frame g; resz__last_drawn_qf := v |}).
Definition with_fix_alpha_border (v : bool) : node -> node :=
  on_edge (fun g => {| edge_fix_alpha_border := v; edge_unpremultiply_alpha := edge_unpremultiply_alpha g; edge_dot := edge_dot g |}).
Definition with_unpremultiply_alpha (v : bool) : node -> node :=
  on_edge (fun g => {| edge_fix_alpha_border := edge_fix_alpha_border g; edge_unpremultiply_alpha := v; edge_dot := edge_dot g |}).
Definition with_dot (v : DotLottie) : node -> node :=
  on_edge (fun g => {| edge_fix_alpha_border := edge_fix_alpha_border g; edge_unpremultiply_alpha := edge_unpremultiply_alpha g; edge_dot := v |}).
Definition with_effects (v : list effect) : node -> node :=
  on_out (fun g => {| out_effects := v; out_w_effects := out_w_effects g; out_g_anim_usage_counts := out_g_anim_usage_counts g |}).
Definition with_w_effects (v : list tvg_call) : node -> node :=
  on_out (fun g => {| out_effects := out_effects g; out_w_effects := v; out_g_anim_usage_counts := out_g_anim_usage_counts g |}).
Definition with_g_anim_usage_counts (v : gmap string Z) : node -> node :=
  on_out (fun g => {| out_effects := out_effects g; out_w_effects := out_w_effects g; out_g_anim_usage_counts := v |}).

(** Reading a member back after assignments: unfolds the accessors and
    the assignments, nothing else. *)
Ltac node_simpl :=
  cbv beta iota zeta delta
      [ props on_props animation_path with_animation_path props_animation_path
        playing with_playing props_playing looping with_looping props_looping speed
        with_speed props_speed current_frame with_current_frame props_current_frame
        total_frames with_total_frames props_total_frames duration with_duration
        props_duration rend on_rend texture with_texture rend_texture image
        with_image rend_image pixel_bytes with_pixel_bytes rend_pixel_bytes
        texture_ring with_texture_ring rend_texture_ring texture_ring_index
        with_texture_ring_index rend_texture_ring_index texture_ring_size
        with_texture_ring_size rend_texture_ring_size base_picture_size
        with_base_picture_size rend_base_picture_size render_size with_render_size
        rend_render_size animation_key with_animation_key rend_animation_key
        selected_dotlottie_animation with_selected_dotlottie_animation
        rend_selected_dotlottie_animation engine on_engine canvas with_canvas
        engine_canvas animation with_animation engine_animation picture with_picture
        engine_picture buffer with_buffer engine_buffer sizing on_sizing
        fit_box_size with_fit_box_size sizing_fit_box_size dynamic_resolution
        with_dynamic_resolution sizing_dynamic_resolution resolution_threshold
        with_resolution_threshold sizing_resolution_threshold max_render_size
        with_max_render_size sizing_max_render_size cache on_cache
        frame_cache_enabled with_frame_cache_enabled cache_frame_cache_enabled
        frame_cache_budget_mb with_frame_cache_budget_mb cache_frame_cache_budget_mb
        frame_cache_step with_frame_cache_step cache_frame_cache_step
        cache_only_when_paused with_cache_only_when_paused
        cache_cache_only_when_paused live_cache_threshold with_live_cache_threshold
        cache_live_cache_threshold live_cache_force with_live_cache_force
        cache_live_cache_force live_cache_active with_live_cache_active
        cache_live_cache_active jobs on_jobs worker_stop with_worker_stop
        jobs_worker_stop load_pending with_load_pending jobs_load_pending
        pending_path8 with_pending_path8 jobs_pending_path8 render_pending
        with_render_pending jobs_render_pending pending_r_size with_pending_r_size
        jobs_pending_r_size pending_r_frame with_pending_r_frame
        jobs_pending_r_frame segment_pending with_segment_pending
        jobs_segment_pending pending_segment_begin with_pending_segment_begin
        jobs_pending_segment_begin pending_segment_end with_pending_segment_end
        jobs_pending_segment_end mbox on_mbox render_thread_enabled
        with_render_thread_enabled mbox_render_thread_enabled next_frame_id
        with_next_frame_id mbox_next_frame_id last_consumed_id with_last_consumed_id
        mbox_last_consumed_id latest_frame with_latest_frame mbox_latest_frame
        last_rendered_qf with_last_rendered_qf mbox_last_rendered_qf last_posted_qf
        with_last_posted_qf mbox_last_posted_qf last_posted_size
        with_last_posted_size mbox_last_posted_size first_frame_drawn
        with_first_frame_drawn mbox_first_frame_drawn wres on_wres w_canvas
        with_w_canvas wres_w_canvas w_animation with_w_animation wres_w_animation
        w_picture with_w_picture wres_w_picture w_buffer with_w_buffer wres_w_buffer
        w_render_size with_w_render_size wres_w_render_size w_base_picture_size
        with_w_base_picture_size wres_w_base_picture_size resz on_resz
        last_effective_scale with_last_effective_scale resz_last_effective_scale
        last_desired_size with_last_desired_size resz_last_desired_size
        pending_resize with_pending_resize resz_pending_resize pending_target_size
        with_pending_target_size resz_pending_target_size rendering with_rendering
        resz_rendering _elapsed_time with__elapsed_time resz__elapsed_time
        _last_resize_at with__last_resize_at resz__last_resize_at
        _min_resize_interval with__min_resize_interval resz__min_resize_interval
        _uploaded_this_frame with__uploaded_this_frame resz__uploaded_this_frame
        _last_drawn_qf with__last_drawn_qf resz__last_drawn_qf edge on_edge
        fix_alpha_border with_fix_alpha_border edge_fix_alpha_border
        unpremultiply_alpha with_unpremultiply_alpha edge_unpremultiply_alpha dot
        with_dot edge_dot out on_out effects with_effects out_effects w_effects
        with_w_effects out_w_effects g_anim_usage_counts with_g_anim_usage_counts
        out_g_anim_usage_counts ] in *.

(** ** Small helpers *)

Definition eff (e : effect) (n : node) : node := with_effects (effects n ++ [e]) n.

(** A call on a main-thread engine object, and on a worker-thread one. *)
Definition call (c : tvg_call) (n : node) : node := eff (tvg c) n.
Definition w_call (c : tvg_call) (n : node) : node := with_w_effects (w_effects n ++ [c]) n.

(** The engine calls among the effects: what the main-thread engine
    objects have been told so far. *)
Definition tvg_calls (l : list effect) : list tvg_call :=
  flat_map (fun e => match e with tvg c => [c] | _ => [] end) l.

Definition zeros (k : nat) : list Z := replicate k 0.

(** [(size_t)w * (size_t)h] for a size that has passed its guards. *)
Definition area (s : Vector2i) : nat := (Z.to_nat (x s) * Z.to_nat (y s))%nat.

(** [PackedByteArray::resize] and [std::vector::resize]; bytes gained are
    written before they are read. *)
Definition resize_bytes (k : nat) (l : list Z) : list Z := take k (l ++ zeros k).

(** [Image::create(w, h, false, FORMAT_RGBA8)] followed by
    [fill(Color(0, 0, 0, 0))]; no image for an empty size. *)
Definition Image_create (s : Vector2i) : option Image :=
  if (0 <? x s) && (0 <? y s)
  then Some {| width := x s; height := y s; data := zeros (area s * 4) |}
  else None.

(** [Image::set_data]: refused, with the image left alone, when the data
    does not have the size of the dimensions. *)
Definition Image_set_data (w h : Z) (d : list Z) (img : Image) : Image :=
  if (0 <? w) && (0 <? h) && (Z.of_nat (length d) =? w * h * 4)
  then {| width := w; height := h; data := d |}
  else img.

(** ** The process-wide usage registry *)

Definition _registry_inc (key : string) (n : node) : node :=
  if is_empty key then n
  else with_g_anim_usage_counts
         (<[key := default 0 (g_anim_usage_counts n !! key) + 1]> (g_anim_usage_counts n)) n.

Definition _registry_dec (key : string) (n : node) : node :=
  if is_empty key then n
  else match g_anim_usage_counts n !! key with
       | Some c =>
           if c - 1 <=? 0
           then with_g_anim_usage_counts (delete key (g_anim_usage_counts n)) n
           else with_g_anim_usage_counts (<[key := c - 1]> (g_anim_usage_counts n)) n
       | None => n
       end.

Definition _registry_get (key : string) (n : node) : Z :=
  default 0 (g_anim_usage_counts n !! key).

Definition _recompute_live_cache_state (n : node) : node :=
  if negb (frame_cache_enabled n) then with_live_cache_active false n
  else if live_cache_force n then with_live_cache_active true n
  else
    let count := _registry_get (animation_key n) n in
    let n := with_live_cache_active (live_cache_threshold n <=? count) n in
    if live_cache_active n then with_cache_only_when_paused false n else n.

(** ** Posting jobs to the worker *)

(** Each post takes [job_mutex], overwrites the request of its kind and
    signals [job_cv]; the signal has no state of its own. *)
Definition _post_load_to_worker (h : host) (path : string) (n : node) : node :=
  if negb (render_thread_enabled n) then n
  else
    let n := if is_empty path then with_pending_path8 EmptyString n
             else with_pending_path8 (globalize_path h path) n in
    with_load_pending true n.

Definition _post_render_to_worker (size : Vector2i) (frame : F32.float) (n : node) : node :=
  if negb (render_thread_enabled n) then n
  else
    let n := with_pending_r_size size n in
    let n := with_pending_r_frame frame n in
    with_render_pending true n.   (* last render wins *)

Definition _post_segment_to_worker (b e : F32.float) (n : node) : node :=
  if negb (render_thread_enabled n) then n
  else
    let n := with_pending_segment_begin b n in
    let n := with_pending_segment_end e n in
    with_segment_pending true n.

(** ** Textures and the render target *)

Definition _quantized_frame_index (n : node) : Z :=
  if frame_cache_step n <=? 1 then F32.round_to_int (current_frame n)
  else
    let step := Z.max 1 (frame_cache_step n) in
    let idx := F32.round_to_int (current_frame n) in
    Z.quot idx step * step.

Definition _ensure_cache_capacity (n : node) : node :=
  eff (cache_set_capacity (Z.max 16 (frame_cache_budget_mb n) * 1024 * 1024)) n.

Definition _recreate_texture_ring (n : node) : node :=
  let slots := Z.to_nat (Z.max 2 (texture_ring_size n)) in
  let n := with_texture_ring (replicate slots (data <$> image n)) n in
  let n := with_texture_ring_index 0 n in
  match texture_ring n with
  | tex :: _ => with_texture tex n
  | [] => n
  end.

Definition _create_texture (n : node) : node :=
  let n := with_image (Image_create (render_size n)) n in
  _recreate_texture_ring n.

(** [slot->update(image); texture = slot; index = (index + 1) % size] on the
    slot at [texture_ring_index], or [texture->update(image)] when the ring
    is empty. *)
Definition upload_image (n : node) : node :=
  match image n with
  | None => n
  | Some img =>
      match texture_ring n with
      | _ :: _ =>
          let i := Z.to_nat (texture_ring_index n) in
          match texture_ring n !! i with
          | Some (Some _) =>
              let n := with_texture_ring (<[i := Some (data img)]> (texture_ring n)) n in
              let n := with_texture (Some (data img)) n in
              with_texture_ring_index
                (Z.rem (texture_ring_index n + 1) (Z.of_nat (length (texture_ring n)))) n
          | _ => n
          end
      | [] =>
          match texture n with
          | Some _ => with_texture (Some (data img)) n
          | None => n
          end
      end
  end.

Definition _allocate_buffer_and_target (h : host) (size : Vector2i) (n : node) : node :=
  if (x size <=? 0) || (y size <=? 0) then n
  else
    let old_image := image n in
    let old_render_size := render_size n in
    let n := with_render_size
               {| x := Z.min (x size) (x (max_render_size n));
                  y := Z.min (y size) (y (max_render_size n)) |} n in
    let n := with_buffer (Some (zeros (area (render_size n)))) n in
    let n := call (canvas_target (x (render_size n)) (y (render_size n))) n in
    let n := with_pixel_bytes (resize_bytes (area (render_size n) * 4) (pixel_bytes n)) n in
    let n := _create_texture n in
    (* the previous picture, scaled, stands in until a new frame arrives *)
    match old_image, image n with
    | Some old, Some _ =>
        if negb (Vector2i_eqb old_render_size (render_size n)) then
          let temp := image_resize_bilinear h old (x (render_size n)) (y (render_size n)) in
          match texture_ring n with
          | Some _ :: ring => let n := with_texture_ring (Some temp :: ring) n in
                              with_texture (Some temp) n
          | None :: _ => n
          | [] => match texture n with
                  | Some _ => with_texture (Some temp) n
                  | None => n
                  end
          end
        else n
    | _, _ => n
    end.

Definition _apply_sizing_policy (h : host) (n : node) : node :=
  _allocate_buffer_and_target h (fit_box_size n) n.

Definition _apply_picture_transform_to_fit (n : node) : node :=
  if negb (picture n) then n
  else
    let pw := F32.max F32.one (F32.of_int (x (base_picture_size n))) in
    let ph := F32.max F32.one (F32.of_int (y (base_picture_size n))) in
    let sx := F32.div (F32.of_int (x (render_size n))) pw in
    let sy := F32.div (F32.of_int (y (render_size n))) ph in
    let s := F32.min sx sy in
    let half := F32.lit 1 2 in
    call (picture_transform s
            (F32.mul (F32.sub (F32.of_int (x (render_size n))) (F32.mul pw s)) half)
            (F32.mul (F32.sub (F32.of_int (y (render_size n))) (F32.mul ph s)) half)) n.

(** ** Rendering on the main thread *)

(** [frame_cache_enabled && (!cache_only_when_paused || !playing ? true : false)] *)
Definition cache_in_use (n : node) : bool :=
  frame_cache_enabled n && (negb (cache_only_when_paused n) || negb (playing n)).

(** The ARGB buffer to RGBA8 bytes, with the two optional passes. *)
Definition postprocess (h : host) (n : node) (argb : list Z) (dst : list Z) (size : Vector2i) : list Z :=
  let out := _convert_argb_to_rgba_optimized (simd_target h) argb dst (area size) in
  let out := if unpremultiply_alpha n then _unpremultiply_alpha_rgba out (x size) (y size) else out in
  if fix_alpha_border n then _fix_alpha_border_rgba out (x size) (y size) else out.

(** The body of [_render_frame] after the re-entrancy guard is taken. *)
Definition render_frame_body (h : host) (n : node) : node :=
  if negb (canvas n && animation n && picture n && bool_decide (is_Some (buffer n))) then n
  else
    let qf_now := _quantized_frame_index n in
    if first_frame_drawn n && negb (pending_resize n) && (qf_now =? last_rendered_qf n) then n
    else
      let n := if cache_in_use n then _ensure_cache_capacity n else n in
      match (if cache_in_use n then cache_get h (animation_key n) qf_now (render_size n)
             else None) with
      | Some cached =>
          let n := with_texture (Some cached) n in
          with__uploaded_this_frame true n
      | None =>
          let n := call (animation_frame (current_frame n)) n in
          let n := call canvas_update n in
          let n := call canvas_draw n in
          let n := call canvas_sync n in
          let n := with_buffer (Some (raster h (tvg_calls (effects n)))) n in
          let n :=
            match image n with
            | None => n
            | Some img =>
                let bytes_needed := (area (render_size n) * 4)%nat in
                let n := with_pixel_bytes (resize_bytes bytes_needed (pixel_bytes n)) n in
                let n := with_pixel_bytes
                           (postprocess h n (default [] (buffer n)) (pixel_bytes n)
                                        (render_size n)) n in
                let n := with_image
                           (Some (Image_set_data (x (render_size n)) (y (render_size n))
                                                 (pixel_bytes n) img)) n in
                let n := upload_image n in
                if cache_in_use n
                then eff (cache_put (animation_key n) (_quantized_frame_index n)
                                    (render_size n) (texture n)) n
                else n
            end in
          let n := with_last_rendered_qf qf_now n in
          let n := with__uploaded_this_frame true n in
          with_first_frame_drawn true n
      end.

(** The guard object resets [rendering] on every exit of the body. *)
Definition _render_frame (h : host) (n : node) : node :=
  if rendering n then n
  else with_rendering false (render_frame_body h (with_rendering true n)).

(** ** dotLottie state segments *)

Definition _current_state_segment_marker (n : node) : string :=
  if is_empty (active_state (dot n)) then EmptyString
  else
    match sm_state_segments_by_machine (dot n) !! active_state_machine (dot n) with
    | Some segs =>
        match segs !! active_state (dot n) with
        | Some marker => marker
        | None => active_state (dot n)
        end
    | None => active_state (dot n)
    end.

Definition _apply_selected_state_segment (h : host) (n : node) : node :=
  let marker := _current_state_segment_marker n in
  if is_empty marker then n
  else
    match _find_marker_range h (animation_key n) marker with
    | Some (sb, se) =>
        let n := if animation n then call (animation_segment sb se) n else n in
        _post_segment_to_worker sb se n
    | None => n
    end.

(** ** Loading *)

(** The lambda [_try_load_path]. *)
Definition _try_load_path (h : host) (p : string) (n : node) : node * bool :=
  let ap := globalize_path h p in
  (call (picture_load ap) n, picture_load_ok h ap).

Definition _load_animation (h : host) (n : node) (path : string) : node * bool :=
  if is_empty path then (n, false)
  else if negb (canvas n) then (n, false)
  else
    let n :=
      if picture n then
        let n := call canvas_remove n in
        let n := with_picture false n in
        let n := with_animation false n in
        let n := match buffer n with
                 | Some _ => with_buffer (Some (zeros (area (render_size n)))) n
                 | None => n
                 end in
        match image n with
        | Some img =>
            let n := with_pixel_bytes (zeros (length (pixel_bytes n))) n in
            let n := with_image
                       (Some (Image_set_data (x (render_size n)) (y (render_size n))
                                             (pixel_bytes n) img)) n in
            match texture n, image n with
            | Some _, Some img' => with_texture (Some (data img')) n
            | _, _ => n
            end
        | None => n
        end
      else n in
    let n := call animation_gen n in
    let n := with_animation true n in
    let n := with_picture (picture_created h) n in
    if negb (picture n) then (n, false)
    else
      let lower := to_lower path in
      (* a .lottie archive is opened and its JSON extracted first *)
      let '(n, source_path, extracted_ok) :=
        if ends_with lower ".lottie" then
          let n := with_dot (_parse_dotlottie_manifest h path (dot n)) n in
          let preferred_inner :=
            match (if is_empty (active_animation_id (dot n)) then None
                   else sm_anim_inner_paths (dot n) !! active_animation_id (dot n)) with
            | Some inner => inner
            | None => selected_dotlottie_animation n
            end in
          let extracted := _extract_lottie_json_to_cache h path preferred_inner in
          if is_empty extracted then (n, path, false)
          else (n, extracted, true)
        else (n, path, true) in
      if negb extracted_ok then (eff (emit_signal "animation_loaded" [VBool false]) n, false)
      else
        (* direct load, then a retry on a mirrored copy *)
        let '(n, loaded_ok) := _try_load_path h source_path n in
        let '(n, loaded_ok) :=
          if negb loaded_ok then
            let mirrored := _mirror_file_to_user_cache h source_path in
            if negb (is_empty mirrored) then _try_load_path h mirrored n
            else (n, loaded_ok)
          else (n, loaded_ok) in
        if negb loaded_ok then (n, false)
        else
          let n := if negb (is_empty (animation_key n))
                      && negb (String.eqb (animation_key n) source_path)
                   then _registry_dec (animation_key n) n else n in
          let n := with_animation_key source_path n in
          let n := _registry_inc (animation_key n) n in
          let n := _recompute_live_cache_state n in
          let n := with_duration (animation_duration h) n in
          let n := with_total_frames (animation_totalFrame h) n in
          let n := with_current_frame F32.zero n in
          let '(pw, ph) := picture_size h in
          let '(pw, ph) :=
            if F32.leb pw F32.zero || F32.leb ph F32.zero
            then (F32.of_int (x (render_size n)), F32.of_int (y (render_size n)))
            else (pw, ph) in
          let n := with_base_picture_size
                     {| x := F32.ceil_to_int pw; y := F32.ceil_to_int ph |} n in
          let n := _apply_sizing_policy h n in
          let n := _apply_picture_transform_to_fit n in
          let n := call canvas_push n in
          if negb (canvas_push_ok h) then (n, false)
          else
            let n := _create_texture n in
            let n := if render_thread_enabled n then
                       let n := _post_load_to_worker h source_path n in
                       _post_render_to_worker (render_size n) (current_frame n) n
                     else _render_frame h n in
            let n := if negb (playing n) then eff queue_redraw (_render_frame h n) else n in
            let n := _apply_selected_state_segment h n in
            (eff (emit_signal "animation_loaded" [VBool true]) n, true).

(** ** Playback control *)

Definition play (h : host) (n : node) : node :=
  if negb (animation n) then
    if negb (is_empty (animation_path n))
    then with_playing true (fst (_load_animation h n (animation_path n)))
    else n
  else with_playing true n.

Definition stop (n : node) : node :=
  with_current_frame F32.zero (with_playing false n).

Definition pause (n : node) : node := with_playing false n.

(** Modelled from the spec: godot-cpp's [CLAMP(a, lo, hi)] macro, which the
    sources use but do not define; the value clamped into the range, read
    as [a < lo ? lo : (a > hi ? hi : a)]. *)
Definition CLAMP (a lo hi : F32.float) : F32.float :=
  if F32.ltb a lo then lo else if F32.gtb a hi then hi else a.

Definition set_frame (h : host) (n : node) (frame : F32.float) : node :=
  if F32.gtb (total_frames n) F32.zero then
    let n := with_current_frame
               (CLAMP frame F32.zero (F32.sub (total_frames n) F32.one)) n in
    let n := _render_frame h n in
    eff queue_redraw n
  else n.

Definition seek (h : host) (n : node) (frame : F32.float) : node := set_frame h n frame.

Definition get_frame (n : node) : F32.float := current_frame n.

(** ** Advancing playback *)

Definition _update_animation (n : node) (delta : F32.float) : node :=
  if negb (playing n) || negb (animation n) || F32.leb (total_frames n) F32.zero then n
  else
    let prev_frame := current_frame n in
    let n := with_current_frame
               (F32.add (current_frame n)
                        (F32.mul (F32.mul (F32.div (total_frames n) (duration n)) delta)
                                 (speed n))) n in
    let n :=
      if F32.geb (current_frame n) (total_frames n) then
        if looping n then
          with_current_frame (F32.fmod (current_frame n) (total_frames n)) n
        else
          let n := with_current_frame (F32.sub (total_frames n) F32.one) n in
          let n := with_playing false n in
          eff (emit_signal "animation_finished" []) n
      else n in
    if negb (F32.to_int prev_frame =? F32.to_int (current_frame n))
    then eff (emit_signal "frame_changed" [VFloat (current_frame n)]) n
    else n.

(** ** The dynamic resolution controller *)

(** The lambda [q16]: [(v + 15) & ~15]. *)
Definition q16 (v : Z) : Z := Z.land (v + 15) (Z.lnot 15).

Definition _update_resolution_from_scale (h : host) (n : node) : node :=
  if negb (is_inside_tree h) then n
  else
    let '(sx, sy) := screen_scale h in
    let max_scale := F32.max (F32.abs sx) (F32.abs sy) in
    let desired_x := F32.mul (F32.of_int (x (fit_box_size n))) max_scale in
    let desired_y := F32.mul (F32.of_int (y (fit_box_size n))) max_scale in
    let desired_i := {| x := F32.ceil_to_int desired_x; y := F32.ceil_to_int desired_y |} in
    let desired_i := {| x := q16 (x desired_i); y := q16 (y desired_i) |} in
    let desired_i := {| x := Z.min (x desired_i) (x (max_render_size n));
                        y := Z.min (y desired_i) (y (max_render_size n)) |} in
    let n := if F32.gtb (F32.abs (F32.sub max_scale (last_effective_scale n))) (F32.lit 5 100)
             then with_last_effective_scale max_scale n else n in
    let n := with_last_desired_size desired_i n in
    if Vector2i_eqb desired_i (render_size n) then n
    else
      let dx := F32.div (F32.abs (F32.sub (F32.of_int (x desired_i))
                                          (F32.of_int (x (render_size n)))))
                        (F32.max F32.one (F32.of_int (x (render_size n)))) in
      let dy := F32.div (F32.abs (F32.sub (F32.of_int (y desired_i))
                                          (F32.of_int (y (render_size n)))))
                        (F32.max F32.one (F32.of_int (y (render_size n)))) in
      if F32.gtb dx (resolution_threshold n) || F32.gtb dy (resolution_threshold n) then
        let n := with_pending_resize true n in
        with_pending_target_size desired_i n
      else n.

(** ** The per-tick scheduler *)

(** The rate-limited application of a pending resize; the flag is the
    local [applied_resize]. *)
Definition process_resize (h : host) (n : node) : node * bool :=
  if pending_resize n && canvas n then
    if F64.geb (_last_resize_at n) F64.zero
       && F64.ltb (F64.sub (_elapsed_time n) (_last_resize_at n))
                  (F64.of_float (_min_resize_interval n))
    then (n, false)   (* skip this frame; keep pending_resize true *)
    else
      let n := with__last_resize_at (_elapsed_time n) n in
      let n := with_pending_resize false n in
      let n := _allocate_buffer_and_target h (pending_target_size n) n in
      let n := _apply_picture_transform_to_fit n in
      let n := call canvas_update n in
      (n, true)
  else (n, false).

(** Ask the worker for the next frame, only when the quantized frame or the
    size differs from the last one posted. *)
Definition process_post (n : node) : node :=
  let qf := _quantized_frame_index n in
  if negb (Vector2i_eqb (render_size n) (last_posted_size n))
     || negb (qf =? last_posted_qf n) then
    let n := _post_render_to_worker (render_size n) (current_frame n) n in
    let n := with_last_posted_size (render_size n) n in
    with_last_posted_qf qf n
  else n.

Definition clear_ready (f : FrameResult.t) : FrameResult.t :=
  {| FrameResult.rgba := FrameResult.rgba f; FrameResult.w := FrameResult.w f;
     FrameResult.h := FrameResult.h f; FrameResult.id := FrameResult.id f;
     FrameResult.ready := false |}.

(** Drain the finished-frame slot, under [frame_mutex]. *)
Definition process_drain (n : node) : node :=
  let f := latest_frame n in
  if FrameResult.ready f && (last_consumed_id n <? FrameResult.id f) then
    if (FrameResult.w f =? x (render_size n)) && (FrameResult.h f =? y (render_size n)) then
      let stale_image :=
        match image n with
        | Some img => negb (width img =? x (render_size n))
                      || negb (height img =? y (render_size n))
        | None => true
        end in
      let n := if stale_image then _create_texture n else n in
      let pba := FrameResult.rgba f in
      let n := with_image
                 (Image_set_data (x (render_size n)) (y (render_size n)) pba <$> image n) n in
      let n := upload_image n in
      let n := with_last_consumed_id (FrameResult.id f) n in
      let n := with_latest_frame (clear_ready (latest_frame n)) n in
      with__uploaded_this_frame true n
    else
      (* size changed; drop this frame *)
      with_latest_frame (clear_ready (latest_frame n)) n
  else n.

(** The head of [_process]: the per-frame flag is reset, tick time
    accumulated and the desired resolution re-evaluated. *)
Definition process_begin (h : host) (n : node) (delta : F64.double) : node :=
  let n := with__uploaded_this_frame false n in
  let n := with__elapsed_time (F64.add (_elapsed_time n) delta) n in
  if dynamic_resolution n then _update_resolution_from_scale h n else n.

(** The tail of [_process], after the resize block. *)
Definition process_end (h : host) (n : node) (applied_resize : bool)
    (delta : F64.double) : node :=
  let n := _update_animation n (F64.to_float delta) in
  let n :=
    if is_visible_in_tree h || is_editor_hint h then
      if render_thread_enabled n then process_drain (process_post n)
      else
        let qf := _quantized_frame_index n in
        if pending_resize n || negb (first_frame_drawn n) || negb (qf =? last_rendered_qf n)
        then _render_frame h n else n
    else n in
  if _uploaded_this_frame n || applied_resize then
    let n := eff queue_redraw n in
    with__last_drawn_qf (last_rendered_qf n) n
  else n.

Definition _process (h : host) (n : node) (delta : F64.double) : node :=
  let n := process_begin h n delta in
  let '(n, applied_resize) := process_resize h n in
  process_end h n applied_resize delta.

(** A run of ticks, each with the host as it is at that tick. *)
Definition run (n : node) (ts : list (host * F64.double)) : node :=
  fold_left (fun n t => _process (fst t) n (snd t)) ts n.

(** The rate limiter's test at a tick: a resize has been applied before
    ([_last_resize_at >= 0]) less than the minimum interval ago. *)
Definition rate_limited (n : node) : bool :=
  F64.geb (_last_resize_at n) F64.zero
  && F64.ltb (F64.sub (_elapsed_time n) (_last_resize_at n))
             (F64.of_float (_min_resize_interval n)).


(** ** Changing the source *)

Definition clear_manifest (d : DotLottie) : DotLottie :=
  {| last_lottie_zip_path := last_lottie_zip_path d;
     sm_animation_ids := []; sm_machine_names := [];
     sm_states_by_machine := ∅; sm_anim_inner_paths := ∅;
     sm_state_segments_by_machine := ∅;
     active_animation_id := EmptyString; active_state_machine := EmptyString;
     active_state := EmptyString |}.

Definition set_animation_path (h : host) (n : node) (path : string) : node :=
  if String.eqb (animation_path n) path then n
  else
    let n := with_animation_path path n in
    if negb (is_inside_tree h) then n
    else if negb (is_empty path) then
      let n := fst (_load_animation h n path) in
      if negb (ends_with (to_lower (animation_path n)) ".lottie")
      then with_dot (clear_manifest (dot n)) n
      else n
    else
      let n := with_playing false n in
      let n := if canvas n then call canvas_remove n else n in
      let n := with_picture false n in
      let n := with_animation false n in
      (* under frame_mutex: forget the last worker frame, advance the cursor *)
      let n := with_latest_frame
                 {| FrameResult.rgba := []; FrameResult.w := FrameResult.w (latest_frame n);
                    FrameResult.h := FrameResult.h (latest_frame n);
                    FrameResult.id := FrameResult.id (latest_frame n);
                    FrameResult.ready := false |} n in
      let n := with_last_consumed_id (next_frame_id n) n in
      let n := match buffer n with
               | Some _ => with_buffer (Some (zeros (area (render_size n)))) n
               | None => n
               end in
      let n := match image n with
               | Some img =>
                   let n := with_pixel_bytes (zeros (length (pixel_bytes n))) n in
                   with_image (Some (Image_set_data (x (render_size n)) (y (render_size n))
                                                    (pixel_bytes n) img)) n
               | None => n
               end in
      let n := with_texture None n in
      let n := if render_thread_enabled n then _post_load_to_worker h EmptyString n else n in
      eff queue_redraw n.

(** ** The rasterization worker *)

(** The predicate of [job_cv.wait(lk, pred)]: the worker leaves the wait
    only while it holds, whoever signals the condition variable. *)
Definition worker_wait_predicate (n : node) : bool :=
  worker_stop n || load_pending n || render_pending n.

Definition _worker_apply_target_if_needed (size : Vector2i) (n : node) : node :=
  if Vector2i_eqb (w_render_size n) size && bool_decide (is_Some (w_buffer n)) then n
  else
    let n := with_w_render_size size n in
    let n := with_w_buffer (Some (zeros (area size))) n in
    w_call (canvas_target (x size) (y size)) n.

Definition _worker_apply_fit_transform (n : node) : node :=
  if negb (w_picture n) then n
  else
    let pw := F32.max F32.one (F32.of_int (x (w_base_picture_size n))) in
    let ph := F32.max F32.one (F32.of_int (y (w_base_picture_size n))) in
    let sx := F32.div (F32.of_int (x (w_render_size n))) pw in
    let sy := F32.div (F32.of_int (y (w_render_size n))) ph in
    let s := F32.min sx sy in
    let half := F32.lit 1 2 in
    w_call (picture_transform s
              (F32.mul (F32.sub (F32.of_int (x (w_render_size n))) (F32.mul pw s)) half)
              (F32.mul (F32.sub (F32.of_int (y (w_render_size n))) (F32.mul ph s)) half)) n.

(** 1) LOAD, when one was taken. *)
Definition worker_load (h : host) (path8_local : string) (n : node) : node :=
  let n := if w_picture n then w_call canvas_remove n else n in
  if is_empty path8_local then
    with_w_picture false (with_w_animation false n)
  else
    let n := w_call animation_gen n in
    let n := with_w_animation true n in
    let n := with_w_picture (picture_created h) n in
    (* w_picture && w_picture->load(path) == Success *)
    let n := if w_picture n then w_call (picture_load path8_local) n else n in
    let loaded := w_picture n && picture_load_ok h path8_local in
    if loaded then
      let '(pw, ph) := picture_size h in
      let '(pw, ph) :=
        if F32.leb pw F32.zero || F32.leb ph F32.zero
        then (F32.of_int (x (render_size n)), F32.of_int (y (render_size n)))
        else (pw, ph) in
      let n := with_w_base_picture_size
                 {| x := F32.ceil_to_int pw; y := F32.ceil_to_int ph |} n in
      let n := w_call canvas_push n in
      if canvas_push_ok h then n
      else with_w_picture false (with_w_animation false n)
    else with_w_picture false (with_w_animation false n).

(** Publication of a finished frame, under [frame_mutex]:
    [latest_frame.id = next_frame_id++] on a [uint64_t]. *)
Definition publish (tmp : list Z) (n : node) : node :=
  let n := with_latest_frame
             {| FrameResult.rgba := tmp;
                FrameResult.w := x (w_render_size n);
                FrameResult.h := y (w_render_size n);
                FrameResult.id := next_frame_id n;
                FrameResult.ready := true |} n in
  with_next_frame_id ((next_frame_id n + 1) mod 2 ^ 64) n.

(** 2) RENDER, for the request taken (size [(0, 0)] when none was). *)
Definition worker_render (h : host) (rsize_local : Vector2i) (rframe_local : F32.float)
    (n : node) : node :=
  if (0 <? x rsize_local) && (0 <? y rsize_local) then
    if negb (w_canvas n) || negb (w_animation n) || negb (w_picture n) then n   (* continue *)
    else
      let n := _worker_apply_target_if_needed rsize_local n in
      let n := _worker_apply_fit_transform n in
      let n := w_call (animation_frame rframe_local) n in
      let n := w_call canvas_update n in
      let n := w_call canvas_draw n in
      let n := w_call canvas_sync n in
      let n := with_w_buffer (Some (raster h (w_effects n))) n in
      let tmp := zeros (area (w_render_size n) * 4) in
      let tmp := postprocess h n (default [] (w_buffer n)) tmp (w_render_size n) in
      publish tmp n
  else n.

(** The body of the [while (true)] loop after the wait has returned with
    [worker_stop] clear, when no post of the main thread falls into the
    pass; [worker_pass] below is the same body with its [job_mutex] scopes
    apart and the posts between them. *)
Definition worker_iteration (h : host) (n : node) : node :=
  (* under job_mutex: take the load and the segment requests *)
  let do_load := load_pending n in
  let path8_local := if do_load then pending_path8 n else EmptyString in
  let n := if do_load then with_load_pending false n else n in
  let do_segment := segment_pending n in
  let seg_begin_local := if do_segment then pending_segment_begin n else F32.zero in
  let seg_end_local := if do_segment then pending_segment_end n else F32.zero in
  let n := if do_segment then with_segment_pending false n else n in
  let n := if do_load then worker_load h path8_local n else n in
  let n := if do_segment && w_animation n
           then w_call (animation_segment seg_begin_local seg_end_local) n else n in
  (* under job_mutex: take the render request *)
  let do_render := render_pending n in
  let rsize_local := if do_render then pending_r_size n else {| x := 0; y := 0 |} in
  let rframe_local := if do_render then pending_r_frame n else F32.zero in
  let n := if do_render then with_render_pending false n else n in
  worker_render h rsize_local rframe_local n.

(** One turn of the loop, from the wait on. *)
Inductive loop_turn :=
  | blocked               (* still inside [job_cv.wait] *)
  | stopped               (* [break] on [worker_stop] *)
  | iterated (n : node).  (* one pass of the body *)

Definition _worker_loop_turn (h : host) (n : node) : loop_turn :=
  if negb (worker_wait_predicate n) then blocked
  else if worker_stop n then stopped
  else iterated (worker_iteration h n).

(** ** The worker's pass and the posts that fall into it *)

(** A request of the main thread to the worker: one of the three posting
    functions, which run under [job_mutex]. *)
Inductive post :=
  | load_post (h : host) (path : string)
  | render_post (size : Vector2i) (frame : F32.float)
  | segment_post (b e : F32.float).

Definition do_post (n : node) (p : post) : node :=
  match p with
  | load_post h path => _post_load_to_worker h path n
  | render_post size frame => _post_render_to_worker size frame n
  | segment_post b e => _post_segment_to_worker b e n
  end.

Definition posts (n : node) (ps : list post) : node := fold_left do_post ps n.

Definition is_load_post (p : post) : bool :=
  match p with load_post _ _ => true | _ => false end.
Definition is_render_post (p : post) : bool :=
  match p with render_post _ _ => true | _ => false end.
Definition is_segment_post (p : post) : bool :=
  match p with segment_post _ _ => true | _ => false end.

Definition same_kind (p q : post) : bool :=
  is_load_post p && is_load_post q
  || is_render_post p && is_render_post q
  || is_segment_post p && is_segment_post q.

(** The last post of each kind, in the order load, render, segment. *)
Definition latest (ps : list post) : list post :=
  option_list (last (List.filter is_load_post ps))
  ++ option_list (last (List.filter is_render_post ps))
  ++ option_list (last (List.filter is_segment_post ps)).

(** The locals the worker fills in its first [job_mutex] scope of a pass. *)
Record worker_locals := {
  do_load : bool;
  path8_local : string;
  do_segment : bool;
  seg_begin_local : F32.float;
  seg_end_local : F32.float
}.

(** The scope that takes the load and the segment request. *)
Definition worker_take_load_segment (n : node) : worker_locals * node :=
  let do_load := load_pending n in
  let path8_local := if do_load then pending_path8 n else EmptyString in
  let n := if do_load then with_load_pending false n else n in
  let do_segment := segment_pending n in
  let seg_begin_local := if do_segment then pending_segment_begin n else F32.zero in
  let seg_end_local := if do_segment then pending_segment_end n else F32.zero in
  let n := if do_segment then with_segment_pending false n else n in
  ({| do_load := do_load; path8_local := path8_local; do_segment := do_segment;
      seg_begin_local := seg_begin_local; seg_end_local := seg_end_local |}, n).

(** The load and the segment, done with no mutex held. *)
Definition worker_do_load_segment (h : host) (l : worker_locals) (n : node) : node :=
  let n := if do_load l then worker_load h (path8_local l) n else n in
  if do_segment l && w_animation n
  then w_call (animation_segment (seg_begin_local l) (seg_end_local l)) n else n.

(** The scope that takes the render request. *)
Definition worker_take_render (n : node) : (Vector2i * F32.float) * node :=
  let do_render := render_pending n in
  let rsize_local := if do_render then pending_r_size n else {| x := 0; y := 0 |} in
  let rframe_local := if do_render then pending_r_frame n else F32.zero in
  let n := if do_render then with_render_pending false n else n in
  ((rsize_local, rframe_local), n).

(** One pass of the loop body with the posts of the main thread that fall
    into it: [after_wait] between the wait and the first scope,
    [during_load] while the worker loads with no mutex held, [during_render]
    after the second scope, while it renders and publishes.  The posts
    write request members only and the unlocked work of the worker reads
    none of them, so where inside its stretch a post falls does not
    matter. *)
Definition worker_pass (h : host) (after_wait during_load during_render : list post)
    (n : node) : node :=
  let n := posts n after_wait in
  let '(l, n) := worker_take_load_segment n in
  let n := posts n during_load in
  let n := worker_do_load_segment h l n in
  let '(r, n) := worker_take_render n in
  let n := posts n during_render in
  worker_render h (fst r) (snd r) n.

(** ** The frame pipeline as interleaved steps *)

(** The two threads meet at the two mutexes only, so a run of the pipeline
    is an interleaving of worker turns and main-thread calls.  The worker
    reads and writes [latest_frame] and [next_frame_id] inside its
    [frame_mutex] section alone, which makes a whole turn one step as far as
    the mailbox goes. *)
Inductive step :=
  | worker_turn (h : host)                  (* one turn of [_worker_loop] *)
  | tick (h : host) (delta : F64.double)    (* [_process(delta)] *)
  | clear_path (h : host).                  (* [set_animation_path("")] *)

Definition do_step (n : node) (s : step) : node :=
  match s with
  | worker_turn h =>
      match _worker_loop_turn h n with
      | iterated n' => n'
      | blocked | stopped => n
      end
  | tick h delta => _process h n delta
  | clear_path h => set_animation_path h n EmptyString
  end.

Definition steps (n : node) (ss : list step) : node := fold_left do_step ss n.

(** The id a step publishes into the mailbox, if it publishes. *)
Definition published_by (n : node) (s : step) : list Z :=
  match s with
  | worker_turn _ =>
      if next_frame_id (do_step n s) =? next_frame_id n then []
      else [FrameResult.id (latest_frame (do_step n s))]
  | _ => []
  end.

(** The id of the mailbox frame a tick copies into the presentation image,
    if it copies one: with the worker in use, [_uploaded_this_frame] is set
    by that copy alone. *)
Definition consumed_by (n : node) (s : step) : list Z :=
  match s with
  | tick _ _ =>
      if render_thread_enabled n && _uploaded_this_frame (do_step n s)
      then [last_consumed_id (do_step n s)] else []
  | _ => []
  end.

Fixpoint published (n : node) (ss : list step) : list Z :=
  match ss with
  | [] => []
  | s :: ss => published_by n s ++ published (do_step n s) ss
  end.

Fixpoint consumed (n : node) (ss : list step) : list Z :=
  match ss with
  | [] => []
  | s :: ss => consumed_by n s ++ consumed (do_step n s) ss
  end.

Fixpoint worker_turns (ss : list step) : Z :=
  match ss with
  | [] => 0
  | worker_turn _ :: ss => 1 + worker_turns ss
  | _ :: ss => worker_turns ss
  end.

(** The mailbox counters of a node whose worker has published fewer than
    [2^64 - 1] frames: the next id is ahead of the id in the slot and not
    behind the consumer's cursor. *)
Definition mailbox_ok (n : node) : Prop :=
  0 <= last_consumed_id n <= next_frame_id n
  /\ FrameResult.id (latest_frame n) < next_frame_id n.

Definition mail_view (n : node) :=
  (next_frame_id n, last_consumed_id n, FrameResult.id (latest_frame n),
   render_thread_enabled n).

(** ** The node as constructed *)

Definition constructed : node :=
  {| props := {| props_animation_path := EmptyString; props_playing := false;
                 props_looping := true; props_speed := F32.one;
                 props_current_frame := F32.zero; props_total_frames := F32.zero;
                 props_duration := F32.zero |};
     rend := {| rend_texture := None; rend_image := None; rend_pixel_bytes := [];
                rend_texture_ring := []; rend_texture_ring_index := 0;
                rend_texture_ring_size := 3;
                rend_base_picture_size := {| x := 512; y := 512 |};
                rend_render_size := {| x := 512; y := 512 |};
                rend_animation_key := EmptyString;
                rend_selected_dotlottie_animation := EmptyString |};
     engine := {| engine_canvas := false; engine_animation := false;
                  engine_picture := false; engine_buffer := None |};
     sizing := {| sizing_fit_box_size := {| x := 512; y := 512 |};
                  sizing_dynamic_resolution := true;
                  sizing_resolution_threshold := F32.lit 15 100;
                  sizing_max_render_size := {| x := 4096; y := 4096 |} |};
     cache := {| cache_frame_cache_enabled := false; cache_frame_cache_budget_mb := 256;
                 cache_frame_cache_step := 1; cache_cache_only_when_paused := true;
                 cache_live_cache_threshold := 4; cache_live_cache_force := false;
                 cache_live_cache_active := false |};
     jobs := {| jobs_worker_stop := false; jobs_load_pending := false;
                jobs_pending_path8 := EmptyString; jobs_render_pending := false;
                jobs_pending_r_size := {| x := 0; y := 0 |};
                jobs_pending_r_frame := F32.zero;
                jobs_segment_pending := false;
                jobs_pending_segment_begin := F32.zero;
                jobs_pending_segment_end := F32.zero |};
     mbox := {| mbox_render_thread_enabled := true;
                mbox_next_frame_id := 1; mbox_last_consumed_id := 0;
                mbox_latest_frame :=
                  {| FrameResult.rgba := []; FrameResult.w := 0; FrameResult.h := 0;
                     FrameResult.id := 0; FrameResult.ready := false |};
                mbox_last_rendered_qf := -1; mbox_last_posted_qf := -1;
                mbox_last_posted_size := {| x := 0; y := 0 |};
                mbox_first_frame_drawn := false |};
     wres := {| wres_w_canvas := false; wres_w_animation := false;
                wres_w_picture := false; wres_w_buffer := None;
                wres_w_render_size := {| x := 0; y := 0 |};
                wres_w_base_picture_size := {| x := 0; y := 0 |} |};
     resz := {| resz_last_effective_scale := F32.zero;
                resz_last_desired_size := {| x := 0; y := 0 |};
                resz_pending_resize := false;
                resz_pending_target_size := {| x := 0; y := 0 |};
                resz_rendering := false;
                resz__elapsed_time := F64.zero;
                resz__last_resize_at := F64.of_int (-1);
                resz__min_resize_interval := F32.lit 10 100;
                resz__uploaded_this_frame := false;
                resz__last_drawn_qf := -1 |};
     edge := {| edge_fix_alpha_border := true; edge_unpremultiply_alpha := true;
                edge_dot := {| last_lottie_zip_path := EmptyString;
                               sm_animation_ids := []; sm_machine_names := [];
                               sm_states_by_machine := ∅; sm_anim_inner_paths := ∅;
                               sm_state_segments_by_machine := ∅;
                               active_animation_id := EmptyString;
                               active_state_machine := EmptyString;
                               active_state := EmptyString |} |};
     out := {| out_effects := []; out_w_effects := [];
               out_g_anim_usage_counts := ∅ |} |}.

(** [_initialize_thorvg], as far as the node's members go: the canvas is
    created, the target allocated and the worker started. *)
Definition _initialize_thorvg (h : host) (n : node) : node :=
  let n := with_canvas true n in
  let n := _allocate_buffer_and_target h (render_size n) n in
  if render_thread_enabled n
  then with_w_canvas true (with_render_pending false (with_load_pending false
         (with_worker_stop false n)))
  else n.

(** The relative change of one axis as the controller computes it:
    [|desired - current| / max(1, current)] in binary32. *)
Definition relative_delta (desired current : Z) : F32.float :=
  F32.div (F32.abs (F32.sub (F32.of_int desired) (F32.of_int current)))
          (F32.max F32.one (F32.of_int current)).

(** A host for the examples: an SSSE3 build, a node inside the tree and
    visible, drawn at the given scale; no file loads, no frame is cached,
    and the engine rasterizes nothing. *)
Definition host_at_scale (s : F32.float) : host :=
  {| simd_target := LOTTIE_SIMD_SSSE3;
     is_inside_tree := true;
     screen_scale := (s, s);
     is_visible_in_tree := true;
     is_editor_hint := false;
     globalize_path := fun p => p;
     _mirror_file_to_user_cache := fun _ => EmptyString;
     _extract_lottie_json_to_cache := fun _ _ => EmptyString;
     _parse_dotlottie_manifest := fun _ d => d;
     _find_marker_range := fun _ _ => None;
     picture_created := true;
     picture_load_ok := fun _ => false;
     animation_duration := F32.zero;
     animation_totalFrame := F32.zero;
     picture_size := (F32.zero, F32.zero);
     canvas_push_ok := true;
     raster := fun _ => [];
     cache_get := fun _ _ _ => None;
     image_resize_bilinear := fun _ _ _ => [] |}.

(** ** Observations on the effects *)

(** How many times the signal [name] has been emitted. *)
Fixpoint emitted (name : string) (l : list effect) : nat :=
  match l with
  | [] => 0
  | emit_signal s _ :: l => (if String.eqb s name then 1 else 0) + emitted name l
  | _ :: l => emitted name l
  end.

(** How many times the render target has been reallocated
    ([canvas->target] on the main-thread canvas). *)
Fixpoint reallocations (l : list effect) : nat :=
  match l with
  | [] => 0
  | tvg (canvas_target _ _) :: l => S (reallocations l)
  | _ :: l => reallocations l
  end.

(** What the resize block reads and writes. *)
Definition resize_view (n : node) :=
  (pending_resize n, pending_target_size n, _last_resize_at n, _elapsed_time n,
   _min_resize_interval n, canvas n, render_size n, reallocations (effects n)).


(** How many [animation_loaded] notifications a node has emitted. *)
Definition loaded_signals (n : node) : nat := emitted "animation_loaded" (effects n).

(** A run of animation ticks. *)
Definition ticks (n : node) (deltas : list F32.float) : node :=
  fold_left _update_animation deltas n.

(** ** Invariants *)

(** The registry holds positive [int] counts only: [_registry_dec] erases
    an entry that reaches 0. *)
Definition registry_ok (n : node) : Prop :=
  map_Forall (fun _ c => 0 < c < 2 ^ 31 - 1) (g_anim_usage_counts n).

(** What the registry bookkeeping of a load reads and writes. *)
Definition registry_view (n : node) := (animation_key n, g_anim_usage_counts n).

(** A host on which every file loads, with a scene of 100 frames. *)
Definition host_loading : host :=
  {| simd_target := NO_SIMD;
     is_inside_tree := true;
     screen_scale := (F32.one, F32.one);
     is_visible_in_tree := true;
     is_editor_hint := false;
     globalize_path := fun p => p;
     _mirror_file_to_user_cache := fun _ => EmptyString;
     _extract_lottie_json_to_cache := fun _ _ => EmptyString;
     _parse_dotlottie_manifest := fun _ d => d;
     _find_marker_range := fun _ _ => None;
     picture_created := true;
     picture_load_ok := fun _ => true;
     animation_duration := F32.of_int 2;
     animation_totalFrame := F32.of_int 100;
     picture_size := (F32.of_int 2, F32.of_int 2);
     canvas_push_ok := true;
     raster := fun _ => [];
     cache_get := fun _ _ _ => None;
     image_resize_bilinear := fun _ _ _ => [] |}.

(** [texture_ring[texture_ring_index]] is an element of the ring. *)
Definition ring_ok (n : node) : Prop :=
  0 <= texture_ring_index n
  /\ (texture_ring n <> [] -> texture_ring_index n < Z.of_nat (length (texture_ring n))).

Definition ring_view (n : node) := (texture_ring n, texture_ring_index n).

(** The same host with an engine that leaves the given ARGB pixels in the
    target. *)
Definition host_rendering (argb : list Z) : host :=
  {| simd_target := NO_SIMD;
     is_inside_tree := true;
     screen_scale := (F32.one, F32.one);
     is_visible_in_tree := true;
     is_editor_hint := false;
     globalize_path := fun p => p;
     _mirror_file_to_user_cache := fun _ => EmptyString;
     _extract_lottie_json_to_cache := fun _ _ => EmptyString;
     _parse_dotlottie_manifest := fun _ d => d;
     _find_marker_range := fun _ _ => None;
     picture_created := true;
     picture_load_ok := fun _ => true;
     animation_duration := F32.of_int 2;
     animation_totalFrame := F32.of_int 100;
     picture_size := (F32.of_int 2, F32.of_int 2);
     canvas_push_ok := true;
     raster := fun _ => argb;
     cache_get := fun _ _ _ => None;
     image_resize_bilinear := fun _ _ _ => [] |}.

(** What the wait of the worker reads. *)
Definition jobs_view (n : node) :=
  (worker_stop n, load_pending n, render_pending n, segment_pending n).

(** What a pass of the worker leaves behind for the other thread and the
    engine. *)
Definition worker_out (n : node) :=
  (w_effects n, latest_frame n, next_frame_id n, w_animation n, w_picture n).

(** What clearing the path settles. *)
Definition clear_view (n : node) :=
  (playing n, FrameResult.ready (latest_frame n), last_consumed_id n, next_frame_id n,
   texture n).

(** A node that is not playing, has nothing to resize, has posted its
    current frame and has no frame waiting in the slot. *)
Definition at_rest (n : node) : Prop :=
  playing n = false
  /\ dynamic_resolution n = false
  /\ pending_resize n = false
  /\ render_thread_enabled n = true
  /\ last_posted_size n = render_size n
  /\ last_posted_qf n = _quantized_frame_index n
  /\ (FrameResult.ready (latest_frame n) = false
      \/ FrameResult.id (latest_frame n) <= last_consumed_id n).

(** What [_render_frame] reads to decide whether to draw. *)
Definition render_inputs (n : node) :=
  (canvas n, animation n, picture n, pending_resize n, current_frame n,
   frame_cache_step n, frame_cache_enabled n, cache_only_when_paused n, playing n).

(** What a load replaces when it succeeds. *)
Definition playback_view (n : node) :=
  (playing n, current_frame n, total_frames n, duration n, animation_key n,
   render_size n, g_anim_usage_counts n, animation_path n, loaded_signals n).

(** The blanking of the previous picture, which [_load_animation] and
    nothing else in it reaches before the file is read. *)
Definition blank_previous (n : node) : node :=
  if picture n then
    let n := call canvas_remove n in
    let n := with_picture false n in
    let n := with_animation false n in
    let n := match buffer n with
             | Some _ => with_buffer (Some (zeros (area (render_size n)))) n
             | None => n
             end in
    match image n with
    | Some img =>
        let n := with_pixel_bytes (zeros (length (pixel_bytes n))) n in
        let n := with_image
                   (Some (Image_set_data (x (render_size n)) (y (render_size n))
                                         (pixel_bytes n) img)) n in
        match texture n, image n with
        | Some _, Some img' => with_texture (Some (data img')) n
        | _, _ => n
        end
    | None => n
    end
  else n.

(** ** The resolution threshold *)

(** [std::clamp(v, lo, hi)] is [(v < lo) ? lo : (hi < v) ? hi : v]. *)
Definition std_clamp (v lo hi : F32.float) : F32.float :=
  if F32.ltb v lo then lo else if F32.ltb hi v then hi else v.

Definition set_resolution_threshold (p_t : F32.float) (n : node) : node :=
  with_resolution_threshold (std_clamp p_t (F32.lit 1 100) F32.one) n.

Definition get_resolution_threshold (n : node) : F32.float := resolution_threshold n.

(** ** The load request as the worker will find it *)

Definition load_request (n : node) :=
  (load_pending n, pending_path8 n, render_thread_enabled n).

(** A host whose file is packed: the engine cannot read it in place, only
    its copy in the user cache. *)
Definition host_packed : host :=
  {| simd_target := NO_SIMD;
     is_inside_tree := true;
     screen_scale := (F32.one, F32.one);
     is_visible_in_tree := true;
     is_editor_hint := false;
     globalize_path := fun p => p;
     _mirror_file_to_user_cache := fun _ => "user://lottie_cache/a.json";
     _extract_lottie_json_to_cache := fun _ _ => EmptyString;
     _parse_dotlottie_manifest := fun _ d => d;
     _find_marker_range := fun _ _ => None;
     picture_created := true;
     picture_load_ok := String.eqb "user://lottie_cache/a.json";
     animation_duration := F32.of_int 2;
     animation_totalFrame := F32.of_int 100;
     picture_size := (F32.of_int 2, F32.of_int 2);
     canvas_push_ok := true;
     raster := fun _ => [];
     cache_get := fun _ _ _ => None;
     image_resize_bilinear := fun _ _ _ => [] |}.

(** ** Which entry of a [.lottie] archive is played *)

(** [String::begins_with], and [find(needle) != -1]: Godot's [find] gives
    [-1] for an empty needle and for an empty string. *)
Definition begins_with (s p : string) : bool := String.prefix p s.

Fixpoint occurs (needle s : string) : bool :=
  String.prefix needle s
  || match s with
     | EmptyString => false
     | String _ s' => occurs needle s'
     end.

Definition found (s needle : string) : bool :=
  negb (is_empty needle) && negb (is_empty s) && occurs needle s.

(** The lambda [file_exists_in_zip]. *)
Definition file_exists_in_zip (files : list string) (p : string) : bool :=
  existsb (String.eqb p) files.

(** [for (i ...) if (test(files[i])) { json_inside = files[i]; break; }]
    entered with [json_inside] empty. *)
Definition first_entry (test : string -> bool) (files : list string) : string :=
  match find test files with
  | Some f => f
  | None => EmptyString
  end.

Definition is_animations_json (f : string) : bool :=
  let lf := to_lower f in ends_with lf ".json" && begins_with lf "animations/".
Definition is_data_json (f : string) : bool :=
  let lf := to_lower f in ends_with lf "/data.json" || String.eqb lf "data.json".
Definition is_other_json (f : string) : bool :=
  let lf := to_lower f in ends_with lf ".json" && negb (ends_with lf "manifest.json").

(** The choice of [json_inside] in [_extract_lottie_json_to_cache], from
    the entries of the archive and the preferred entry. *)
Definition json_inside (files : list string) (preferred_entry : string) : string :=
  let json_inside := EmptyString in
  let json_inside :=
    if negb (is_empty preferred_entry) then
      let json_inside :=
        if file_exists_in_zip files preferred_entry then preferred_entry else json_inside in
      let json_inside :=
        if is_empty json_inside then
          let alt := ("animations/" ++ preferred_entry ++ ".json")%string in
          if file_exists_in_zip files alt then alt else json_inside
        else json_inside in
      if is_empty json_inside then
        let needle := to_lower preferred_entry in
        first_entry (fun f => let lf := to_lower f in
                              ends_with lf ".json" && found lf needle) files
      else json_inside
    else json_inside in
  (* fallback: animations/*.json, then data.json, then any JSON but manifest.json *)
  if is_empty json_inside then
    let json_inside := first_entry is_animations_json files in
    let json_inside :=
      if is_empty json_inside then first_entry is_data_json files else json_inside in
    if is_empty json_inside then first_entry is_other_json files else json_inside
  else json_inside.

(** The search for the manifest in [_parse_dotlottie_manifest]:
    [(manifest_path, manifest_present)] after the loop over the entries. *)
Fixpoint manifest_loop (files : list string) (manifest_path : string)
    (manifest_present : bool) : string * bool :=
  match files with
  | [] => (manifest_path, manifest_present)
  | f :: files =>
      if ends_with (to_lower f) "manifest.json" then (f, true)   (* break *)
      else if String.eqb f manifest_path then manifest_loop files manifest_path true
      else manifest_loop files manifest_path manifest_present
  end.

Definition find_manifest (files : list string) : string * bool :=
  manifest_loop files "manifest.json" false.

(** The stages of the choice, each entered when the ones before it have
    found nothing. *)
Inductive chosen (files : list string) (p r : string) : Prop :=
  | chosen_exact : is_empty p = false -> In p files -> r = p -> chosen files p r
  | chosen_alt :
      is_empty p = false -> ~ In p files ->
      In r files -> r = ("animations/" ++ p ++ ".json")%string -> chosen files p r
  | chosen_needle :
      is_empty p = false -> ~ In p files ->
      In r files -> ends_with (to_lower r) ".json" = true ->
      found (to_lower r) (to_lower p) = true -> chosen files p r
  | chosen_animations :
      In r files -> is_animations_json r = true -> chosen files p r
  | chosen_data :
      In r files -> is_data_json r = true ->
      (forall f, In f files -> is_animations_json f = false) -> chosen files p r
  | chosen_other :
      In r files -> is_other_json r = true ->
      (forall f, In f files -> is_animations_json f = false) ->
      (forall f, In f files -> is_data_json f = false) -> chosen files p r
  | chosen_none :
      r = EmptyString ->
      (forall f, In f files -> is_animations_json f = false) ->
      (forall f, In f files -> is_data_json f = false) ->
      (forall f, In f files -> is_other_json f = false) -> chosen files p r.

(** ** The two ways to a frame *)

(** The options of the conversion to RGBA8, read by both threads. *)
Definition pixel_options (n : node) := (unpremultiply_alpha n, fix_alpha_border n).

(** What is presented: the image, the texture shown and the ring of
    textures the image is uploaded into. *)
Definition presentation (n : node) :=
  (image n, texture n, texture_ring n, texture_ring_index n).

End Node.

Module PixelConverterFacts.
Import PixelConverter.

Lemma length_rgba_of src : length (rgba_of src) = (4 * length src)%nat.
Proof.
  unfold rgba_of. induction src as [|p src IH]; simpl; [done | lia].
Qed.

Lemma length_byte_image src : length (byte_image src) = (4 * length src)%nat.
Proof.
  unfold byte_image. induction src as [|p src IH]; simpl; [done | lia].
Qed.

Lemma rgba_of_app a b : rgba_of (a ++ b) = rgba_of a ++ rgba_of b.
Proof. unfold rgba_of. apply flat_map_app. Qed.

Lemma byte_image_app a b : byte_image (a ++ b) = byte_image a ++ byte_image b.
Proof. unfold byte_image. apply flat_map_app. Qed.

(** One scalar iteration extends the converted prefix by one pixel. *)
Lemma scalar_body_step src dst0 k p :
  src !! k = Some p ->
  (4 * (k + 1) <= length dst0)%nat ->
  scalar_body src (rgba_of (take k src) ++ drop (4 * k) dst0) k
  = rgba_of (take (k + 1) src) ++ drop (4 * (k + 1)) dst0.
Proof.
  intros Hp Hlen.
  assert (Hk : (k < length src)%nat) by (eapply lookup_lt_Some; eauto).
  assert (Hpre : length (rgba_of (take k src)) = (4 * k)%nat).
  { rewrite length_rgba_of, length_take. lia. }
  unfold scalar_body. rewrite Hp. simpl default.
  replace (take (k + 1) src) with (take k src ++ [p]).
  2:{ replace (k + 1)%nat with (S k) by lia. symmetry. by apply take_S_r. }
  rewrite rgba_of_app.
  set (pre := rgba_of (take k src)) in *.
  destruct (drop (4 * k) dst0) as [|b0 [|b1 [|b2 [|b3 rest]]]] eqn:Hd;
    try (apply (f_equal length) in Hd; rewrite length_drop in Hd; simpl in Hd; lia).
  assert (Hrest : drop (4 * (k + 1)) dst0 = rest).
  { replace (4 * (k + 1))%nat with (4 * k + 4)%nat by lia.
    rewrite <- drop_drop, Hd. reflexivity. }
  rewrite Hrest.
  replace (k * 4 + 0)%nat with (length pre + 0)%nat by lia.
  replace (k * 4 + 1)%nat with (length pre + 1)%nat by lia.
  replace (k * 4 + 2)%nat with (length pre + 2)%nat by lia.
  replace (k * 4 + 3)%nat with (length pre + 3)%nat by lia.
  rewrite !insert_app_r. simpl.
  rewrite <- app_assoc. reflexivity.
Qed.

(** The scalar loop from [from] to [count] extends the converted prefix. *)
Lemma scalar_loop_spec src dst0 n from :
  (from + n <= length src)%nat ->
  (4 * length src <= length dst0)%nat ->
  fold_left (scalar_body src) (seq from n)
            (rgba_of (take from src) ++ drop (4 * from) dst0)
  = rgba_of (take (from + n) src) ++ drop (4 * (from + n)) dst0.
Proof.
  revert from. induction n as [|n IH]; intros from Hn Hd; cbn [seq fold_left].
  - by rewrite Nat.add_0_r.
  - destruct (lookup_lt_is_Some_2 src from) as [p Hp]; [lia|].
    rewrite (scalar_body_step src dst0 from p Hp) by lia.
    replace (from + 1)%nat with (S from) by lia.
    rewrite IH by lia. by replace (S from + n)%nat with (from + S n)%nat by lia.
Qed.

Lemma ssse3_shuffle_ok : shuffle_ok (fun pixels => _mm_shuffle_epi8 pixels mask).
Proof. intros p0 p1 p2 p3. reflexivity. Qed.

Lemma neon_shuffle_ok : shuffle_ok (fun pixels => vqtbl1q_u8 pixels tbl_data).
Proof. intros p0 p1 p2 p3. reflexivity. Qed.

Lemma neon_legacy_shuffle_ok : shuffle_ok neon_per_byte.
Proof. intros p0 p1 p2 p3. reflexivity. Qed.

Lemma load128_lane src i p0 p1 p2 p3 rest :
  drop (4 * i) src = p0 :: p1 :: p2 :: p3 :: rest ->
  load128 (byte_image src) i = byte_image [p0; p1; p2; p3].
Proof.
  intros Hd. unfold load128.
  assert (Hi : (4 * i <= length src)%nat).
  { apply (f_equal length) in Hd. rewrite length_drop in Hd. simpl in Hd. lia. }
  rewrite <- (take_drop (4 * i) src) at 1.
  rewrite byte_image_app, drop_app_length'.
  2:{ rewrite length_byte_image, length_take. lia. }
  rewrite Hd. reflexivity.
Qed.

Lemma store128_lane pre dst0 i v :
  length pre = (16 * i)%nat ->
  length v = 16%nat ->
  (16 * (i + 1) <= length dst0)%nat ->
  store128 (pre ++ drop (16 * i) dst0) i v
  = (pre ++ v) ++ drop (16 * (i + 1)) dst0.
Proof.
  intros Hpre Hv Hlen. unfold store128.
  replace (i * 16)%nat with (length pre + 0)%nat by lia.
  rewrite list_inserts_app_r.
  rewrite <- (take_drop 16 (drop (16 * i) dst0)).
  rewrite list_inserts_0_r.
  2:{ rewrite length_take, length_drop. lia. }
  rewrite drop_drop, <- app_assoc.
  by replace (16 * i + 16)%nat with (16 * (i + 1))%nat by lia.
Qed.

(** The lane loop extends the converted prefix by four pixels per lane. *)
Lemma vector_loop_spec shuffle src dst0 n from :
  shuffle_ok shuffle ->
  (4 * (from + n) <= length src)%nat ->
  (4 * length src <= length dst0)%nat ->
  fold_left (fun dst i => store128 dst i (shuffle (load128 (byte_image src) i)))
            (seq from n)
            (rgba_of (take (4 * from) src) ++ drop (16 * from) dst0)
  = rgba_of (take (4 * (from + n)) src) ++ drop (16 * (from + n)) dst0.
Proof.
  intros Hsh. revert from.
  induction n as [|n IH]; intros from Hn Hd; cbn [seq fold_left].
  - by rewrite Nat.add_0_r.
  - destruct (drop (4 * from) src) as [|p0 [|p1 [|p2 [|p3 rest]]]] eqn:Hdrop;
      try (apply (f_equal length) in Hdrop; rewrite length_drop in Hdrop;
           simpl in Hdrop; lia).
    rewrite (load128_lane _ _ _ _ _ _ _ Hdrop), Hsh.
    rewrite store128_lane; [| rewrite length_rgba_of, length_take; lia | done | lia].
    rewrite <- rgba_of_app.
    replace (take (4 * from) src ++ [p0; p1; p2; p3]) with (take (4 * (from + 1)) src).
    2:{ replace (4 * (from + 1))%nat with (4 * from + 4)%nat by lia.
        rewrite <- take_take_drop. by rewrite Hdrop. }
    replace (from + 1)%nat with (S from) by lia.
    rewrite IH by lia. by replace (S from + n)%nat with (from + S n)%nat by lia.
Qed.

Lemma convert_scalar_spec src dst :
  length dst = (4 * length src)%nat ->
  convert_scalar src dst (length src) = rgba_of src.
Proof.
  intros Hlen. unfold convert_scalar, scalar_loop.
  rewrite Nat.sub_0_r.
  pose proof (scalar_loop_spec src dst (length src) 0) as H.
  change (rgba_of (take 0 src) ++ drop (4 * 0) dst) with dst in H.
  change (0 + length src)%nat with (length src) in H.
  rewrite H by lia.
  rewrite firstn_all, drop_ge by lia. apply app_nil_r.
Qed.

Lemma convert_vector_spec shuffle src dst :
  shuffle_ok shuffle ->
  length dst = (4 * length src)%nat ->
  convert_vector shuffle src dst (length src) = rgba_of src.
Proof.
  intros Hsh Hlen. unfold convert_vector, vector_loop, scalar_loop.
  set (vec_count := (length src / 4)%nat).
  assert (Hvc : (vec_count * 4 <= length src)%nat).
  { subst vec_count. pose proof (Nat.div_mod_eq (length src) 4). lia. }
  pose proof (vector_loop_spec shuffle src dst vec_count 0 Hsh) as Hv.
  change (rgba_of (take (4 * 0) src) ++ drop (16 * 0) dst) with dst in Hv.
  change (0 + vec_count)%nat with vec_count in Hv.
  rewrite Hv by lia.
  pose proof (scalar_loop_spec src dst (length src - vec_count * 4) (vec_count * 4)) as Hs.
  replace (4 * vec_count)%nat with (vec_count * 4)%nat by lia.
  replace (16 * vec_count)%nat with (4 * (vec_count * 4))%nat by lia.
  rewrite Hs by lia.
  replace (vec_count * 4 + (length src - vec_count * 4))%nat with (length src) by lia.
  rewrite firstn_all, drop_ge by lia. apply app_nil_r.
Qed.

(** C5. For every pixel count [n] (multiple of four or not) and every source
    buffer of [n] packed ARGB pixels, each vector build of the converter (the
    SSSE3 lanes, the NEON table lookup and the per-byte NEON fallback, each
    followed by the scalar remainder loop) leaves in a destination of [4*n]
    bytes exactly the bytes the scalar fallback build leaves there, and the
    destination keeps its [4*n] bytes. *)
Theorem convert_vector_scalar_identical (target : simd) (src dst : list Z) :
  length dst = (4 * length src)%nat ->
  _convert_argb_to_rgba_optimized target src dst (length src)
  = _convert_argb_to_rgba_optimized NO_SIMD src dst (length src)
  /\ length (_convert_argb_to_rgba_optimized target src dst (length src))
     = (length src * 4)%nat.
Proof.
  intros Hlen.
  assert (Hall : _convert_argb_to_rgba_optimized target src dst (length src)
                 = rgba_of src).
  { destruct target; simpl.
    - apply convert_vector_spec; [apply ssse3_shuffle_ok | done].
    - apply convert_vector_spec; [apply neon_shuffle_ok | done].
    - apply convert_vector_spec; [apply neon_legacy_shuffle_ok | done].
    - by apply convert_scalar_spec. }
  split.
  - rewrite Hall. simpl. symmetry. by apply convert_scalar_spec.
  - rewrite Hall, length_rgba_of. lia.
Qed.

(** Seven pixels on the SSSE3 build: one lane and a three-pixel tail. *)
Lemma convert_vector_scalar_identical_witness :
  let src := [4278190080; 2164260863; 16711680; 65280; 255; 305419896; 2596069104] in
  let dst := replicate 28 0 in
  _convert_argb_to_rgba_optimized LOTTIE_SIMD_SSSE3 src dst (length src)
  = _convert_argb_to_rgba_optimized NO_SIMD src dst (length src)
  /\ length (_convert_argb_to_rgba_optimized LOTTIE_SIMD_SSSE3 src dst (length src))
     = (length src * 4)%nat.
Proof.
  intros src dst.
  apply (convert_vector_scalar_identical LOTTIE_SIMD_SSSE3 src dst).
  reflexivity.
Defined.

(** ** Loops of local stores *)

Lemma fold_left_length {S : Type} (body : list Z -> S -> list Z) steps buf :
  (forall b s, length (body b s) = length b) ->
  length (fold_left body steps buf) = length buf.
Proof.
  intros Hb. revert buf. induction steps as [|s steps IH]; intros buf; simpl; [done|].
  by rewrite IH, Hb.
Qed.

(** An index no iteration stores to keeps its value. *)
Lemma fold_left_untouched {S : Type} (body : list Z -> S -> list Z) steps buf j :
  (forall b s, s ∈ steps -> body b s !! j = b !! j) ->
  fold_left body steps buf !! j = buf !! j.
Proof.
  revert buf. induction steps as [|s steps IH]; intros buf Hb; simpl; [done|].
  rewrite IH.
  - apply Hb. left.
  - intros b s' Hs'. apply Hb. by right.
Qed.

Lemma rd_eq (b b' : list Z) i j : b !! i = b' !! j -> rd b i = rd b' j.
Proof. unfold rd. by intros ->. Qed.

Lemma pixel_at_eq (b b' : list Z) i :
  (forall k, (k < 4)%nat -> b !! (4 * i + k)%nat = b' !! (4 * i + k)%nat) ->
  pixel_at b i = pixel_at b' i.
Proof.
  intros H. unfold pixel_at.
  rewrite <- (H 1%nat), <- (H 2%nat), <- (H 3%nat) by lia.
  specialize (H 0%nat). rewrite Nat.add_0_r in H. by rewrite <- H by lia.
Qed.

Lemma pixel_at_Some (b : list Z) i r g bl a :
  pixel_at b i = Some (r, g, bl, a) ->
  b !! (4 * i)%nat = Some r /\ b !! (4 * i + 1)%nat = Some g /\
  b !! (4 * i + 2)%nat = Some bl /\ b !! (4 * i + 3)%nat = Some a.
Proof.
  unfold pixel_at. intros H.
  destruct (b !! (4 * i)%nat), (b !! (4 * i + 1)%nat),
           (b !! (4 * i + 2)%nat), (b !! (4 * i + 3)%nat); naive_solver.
Qed.

Lemma bytes_ok_lookup (b : list Z) i v : bytes_ok b -> b !! i = Some v -> 0 <= v <= 255.
Proof. intros Hok Hl. unfold bytes_ok in Hok. rewrite Forall_lookup in Hok. eauto. Qed.

(** ** Unpremultiply *)

Lemma to_u8_id v : 0 <= v <= 255 -> to_u8 v = v.
Proof.
  intros Hv. unfold to_u8. change 255 with (Z.ones 8).
  rewrite Z.land_ones by lia. apply Z.mod_small. lia.
Qed.

Lemma unpremultiply_channel_spec c a :
  0 <= c -> 0 < a ->
  unpremultiply_channel c a = divide_rounded_clamped c a.
Proof.
  intros Hc Ha. unfold unpremultiply_channel, divide_rounded_clamped.
  rewrite (Z.quot_div_nonneg a 2) by lia.
  assert (0 <= a / 2) by (apply Z.div_pos; lia).
  rewrite Z.quot_div_nonneg by lia.
  apply to_u8_id. split; [|lia].
  apply Z.min_glb; [lia|]. apply Z.div_pos; lia.
Qed.

Lemma unpremultiply_body_length b i : length (unpremultiply_body b i) = length b.
Proof.
  unfold unpremultiply_body.
  repeat case_match; rewrite ?length_insert; done.
Qed.

Lemma unpremultiply_body_other b i j :
  (j < 4 * i \/ 4 * i + 3 <= j)%nat ->
  unpremultiply_body b i !! j = b !! j.
Proof.
  intros Hj. unfold unpremultiply_body.
  repeat case_match; rewrite ?list_lookup_insert_ne by lia; done.
Qed.

Ltac lookup_inserts :=
  repeat first
    [ rewrite list_lookup_insert_ne by lia
    | rewrite list_lookup_insert_eq by (rewrite ?length_insert; lia) ].

Lemma unpremultiply_body_pixel b i r g bl a :
  pixel_at b i = Some (r, g, bl, a) ->
  0 <= r -> 0 <= g -> 0 <= bl -> 0 <= a ->
  pixel_at (unpremultiply_body b i) i = Some (unpremultiplied (r, g, bl, a)).
Proof.
  intros Hpx Hr0 Hg0 Hb0 Ha0.
  destruct (pixel_at_Some _ _ _ _ _ _ Hpx) as (Hr & Hg & Hb & Ha).
  assert (Hlen : (4 * i + 3 < length b)%nat) by (eapply lookup_lt_Some; eauto).
  unfold unpremultiply_body, unpremultiplied, pixel_at, rd.
  revert Hr Hg Hb Ha Hlen. generalize (4 * i)%nat as p. intros p Hr Hg Hb Ha Hlen.
  rewrite !Nat.add_0_r. rewrite Ha. simpl.
  destruct (a =? 0) eqn:Ea0; [|destruct (a =? 255) eqn:Ea255].
  - lookup_inserts. by rewrite Ha.
  - by rewrite Hr, Hg, Hb, Ha.
  - lookup_inserts. rewrite Hr, Hg, Hb, Ha. simpl.
    rewrite !unpremultiply_channel_spec by lia. done.
Qed.

Lemma unpremultiply_fold_other steps b i :
  i ∉ steps ->
  pixel_at (fold_left unpremultiply_body steps b) i = pixel_at b i.
Proof.
  intros Hi. apply pixel_at_eq. intros k Hk.
  apply fold_left_untouched. intros b' s Hs.
  apply unpremultiply_body_other.
  assert (s <> i) by (intros ->; done). lia.
Qed.

Lemma unpremultiply_loop_pixel n b i px :
  bytes_ok b ->
  (i < n)%nat ->
  pixel_at b i = Some px ->
  pixel_at (fold_left unpremultiply_body (seq 0 n) b) i = Some (unpremultiplied px).
Proof.
  intros Hok Hi Hpx.
  replace n with (i + S (n - S i))%nat by lia.
  rewrite seq_app, fold_left_app. cbn [seq fold_left].
  rewrite unpremultiply_fold_other.
  2:{ rewrite elem_of_seq. lia. }
  set (before := fold_left unpremultiply_body (seq 0 i) b).
  assert (Hpx' : pixel_at before i = Some px).
  { rewrite <- Hpx. apply pixel_at_eq. intros k Hk.
    apply fold_left_untouched. intros b' s Hs.
    apply unpremultiply_body_other. rewrite elem_of_seq in Hs. lia. }
  destruct px as [[[r g] bl] a].
  destruct (pixel_at_Some _ _ _ _ _ _ Hpx) as (Hr & Hg & Hb & Ha).
  pose proof (bytes_ok_lookup _ _ _ Hok Hr).
  pose proof (bytes_ok_lookup _ _ _ Hok Hg).
  pose proof (bytes_ok_lookup _ _ _ Hok Hb).
  pose proof (bytes_ok_lookup _ _ _ Hok Ha).
  apply unpremultiply_body_pixel; [done | lia..].
Qed.

Lemma unpremultiply_body_opaque b i :
  b !! (4 * i + 3)%nat = Some 255 -> unpremultiply_body b i = b.
Proof. intros Ha. unfold unpremultiply_body, rd. by rewrite Ha. Qed.

Lemma unpremultiply_loop_opaque steps b :
  (forall i, i ∈ steps -> b !! (4 * i + 3)%nat = Some 255) ->
  fold_left unpremultiply_body steps b = b.
Proof.
  induction steps as [|s steps IH]; intros Hall; simpl; [done|].
  rewrite unpremultiply_body_opaque by (apply Hall; left).
  apply IH. intros i Hi. apply Hall. by right.
Qed.

(** C6. On a buffer of bytes, [_unpremultiply_alpha_rgba] leaves every
    pixel [(r, g, b, a)] of the [w*h] image as [unpremultiplied] describes:
    unchanged when [a = 255], colour channels zeroed when [a = 0], and
    otherwise each colour channel replaced by [(c*255 + a/2) / a] clamped to
    255, alpha kept.  Hence a buffer whose pixels all have alpha 255 is left
    as it is (so a second pass changes nothing), and a pixel with alpha 0
    comes out with zero colour channels. *)
Theorem unpremultiply_per_pixel (rgba : list Z) (w h : Z) :
  bytes_ok rgba ->
  let out := _unpremultiply_alpha_rgba rgba w h in
  (forall i r g b a,
      (i < Z.to_nat w * Z.to_nat h)%nat ->
      pixel_at rgba i = Some (r, g, b, a) ->
      pixel_at out i =
        Some (if a =? 0 then (0, 0, 0, a)
              else if a =? 255 then (r, g, b, a)
              else (divide_rounded_clamped r a, divide_rounded_clamped g a,
                    divide_rounded_clamped b a, a)))
  /\ ((forall i, (i < Z.to_nat w * Z.to_nat h)%nat ->
                 rgba !! (4 * i + 3)%nat = Some 255) ->
      out = rgba /\ _unpremultiply_alpha_rgba out w h = out)
  /\ (forall i r g b,
        (i < Z.to_nat w * Z.to_nat h)%nat ->
        pixel_at rgba i = Some (r, g, b, 0) ->
        pixel_at out i = Some (0, 0, 0, 0)).
Proof.
  intros Hok out.
  assert (Hpix : forall i px,
             (i < Z.to_nat w * Z.to_nat h)%nat ->
             pixel_at rgba i = Some px ->
             pixel_at out i = Some (unpremultiplied px)).
  { intros i px Hi Hpx. subst out. unfold _unpremultiply_alpha_rgba.
    destruct ((w <=? 0) || (h <=? 0)) eqn:Hg.
    - apply orb_true_iff in Hg. destruct Hg as [Hg|Hg]; apply Z.leb_le in Hg; lia.
    - by apply unpremultiply_loop_pixel. }
  assert (Hopaque : (forall i, (i < Z.to_nat w * Z.to_nat h)%nat ->
                               rgba !! (4 * i + 3)%nat = Some 255) ->
                    out = rgba).
  { intros Hall. subst out. unfold _unpremultiply_alpha_rgba.
    destruct ((w <=? 0) || (h <=? 0)); [done|].
    apply unpremultiply_loop_opaque. intros i Hi. apply Hall.
    rewrite elem_of_seq in Hi. lia. }
  split; [|split].
  - intros i r g b a Hi Hpx. by rewrite (Hpix i _ Hi Hpx).
  - intros Hall. pose proof (Hopaque Hall) as Heq. split; [done|].
    rewrite Heq. exact Heq.
  - intros i r g b Hi Hpx. by rewrite (Hpix i _ Hi Hpx).
Qed.

(** A 2x2 image: opaque, fully transparent, half transparent, and a pixel
    whose quotient is clamped. *)
Lemma unpremultiply_per_pixel_witness :
  let rgba := [ 10; 20; 30; 255;   7; 8; 9; 0;
                64; 32; 16; 128;   200; 100; 50; 100 ] in
  _unpremultiply_alpha_rgba rgba 2 2
  = [ 10; 20; 30; 255;   0; 0; 0; 0;
      128; 64; 32; 128;   255; 255; 128; 100 ]
  /\ pixel_at (_unpremultiply_alpha_rgba rgba 2 2) 2
     = Some (divide_rounded_clamped 64 128, divide_rounded_clamped 32 128,
             divide_rounded_clamped 16 128, 128).
Proof.
  intros rgba. split; [reflexivity|].
  assert (Hok : bytes_ok rgba).
  { unfold bytes_ok, rgba. repeat constructor; lia. }
  destruct (unpremultiply_per_pixel rgba 2 2 Hok) as (Hpx & _ & _).
  apply (Hpx 2%nat 64 32 16 128); [simpl; lia | reflexivity].
Defined.

(** ** Alpha border bleed *)

Lemma at_pix w x y : at_ w x y = (4 * pix w x y)%nat.
Proof. unfold at_, pix. lia. Qed.

Lemma at_rgb_pix w x y : at_rgb w x y = (3 * pix w x y)%nat.
Proof. unfold at_rgb, pix. lia. Qed.

Lemma pix_inj w x y x' y' :
  0 <= x < w -> 0 <= x' < w -> 0 <= y -> 0 <= y' ->
  pix w x y = pix w x' y' -> x = x' /\ y = y'.
Proof.
  unfold pix. intros Hx Hx' Hy Hy' Heq.
  assert (y * w + x = y' * w + x') by nia.
  assert (y = y') by nia. subst. lia.
Qed.

Lemma pix_bound w h x y :
  0 <= x < w -> 0 <= y < h -> (pix w x y < Z.to_nat (w * h))%nat.
Proof. unfold pix. intros Hx Hy. nia. Qed.

Lemma seqZ_split m n k :
  m <= k < m + n ->
  seqZ m n = seqZ m (k - m) ++ k :: seqZ (k + 1) (m + n - k - 1).
Proof.
  intros Hk. replace n with ((k - m) + (m + n - k)) at 1 by lia.
  rewrite seqZ_app by lia. f_equal.
  replace (m + (k - m)) with k by lia.
  rewrite seqZ_cons by lia.
  replace (Z.succ k) with (k + 1) by lia.
  by replace (Z.pred (m + n - k)) with (m + n - k - 1) by lia.
Qed.

(** When one iteration alone stores to index [j], the loop leaves there
    what that iteration stored. *)
Lemma fold_left_only_step {S : Type} (body : list Z -> S -> list Z) l1 k l2 buf j :
  (forall b s, s ∈ l2 -> body b s !! j = b !! j) ->
  fold_left body (l1 ++ k :: l2) buf !! j = body (fold_left body l1 buf) k !! j.
Proof.
  intros H2. rewrite fold_left_app. cbn [fold_left].
  by apply fold_left_untouched.
Qed.

(** *** The RGB copy *)

Lemma copy_px_length rgba w y c x : length (copy_px rgba w y c x) = length c.
Proof. unfold copy_px. by rewrite !length_insert. Qed.

Lemma copy_px_index w x y k :
  0 <= x -> 0 <= y -> 0 <= w -> 0 <= k ->
  (Z.to_nat (y * w * 3) + Z.to_nat (x * 3 + k))%nat
  = (3 * pix w x y + Z.to_nat k)%nat.
Proof. unfold pix. intros. nia. Qed.

Lemma copy_px_src_index w x y k :
  0 <= x -> 0 <= y -> 0 <= w -> 0 <= k ->
  (Z.to_nat (y * w * 4) + Z.to_nat (x * 4 + k))%nat
  = (4 * pix w x y + Z.to_nat k)%nat.
Proof. unfold pix. intros. nia. Qed.

Lemma copy_px_other rgba w y c x j :
  0 <= x -> 0 <= y -> 0 <= w ->
  (j < 3 * pix w x y \/ 3 * pix w x y + 3 <= j)%nat ->
  copy_px rgba w y c x !! j = c !! j.
Proof.
  intros Hx Hy Hw Hj. unfold copy_px.
  rewrite !copy_px_index by lia.
  rewrite !list_lookup_insert_ne by lia. done.
Qed.

Lemma copy_px_here rgba w y c x k :
  0 <= x -> 0 <= y -> 0 <= w ->
  (k < 3)%nat ->
  (3 * pix w x y + 3 <= length c)%nat ->
  copy_px rgba w y c x !! (3 * pix w x y + k)%nat
  = Some (rd rgba (4 * pix w x y + k)).
Proof.
  intros Hx Hy Hw Hk Hlen. unfold copy_px.
  rewrite !copy_px_index, !copy_px_src_index by lia.
  change (Z.to_nat 0) with 0%nat. change (Z.to_nat 1) with 1%nat.
  change (Z.to_nat 2) with 2%nat.
  destruct k as [|[|[|k]]]; [| | |lia]; lookup_inserts; done.
Qed.

Lemma copy_row_length rgba w c y : length (copy_row rgba w c y) = length c.
Proof. unfold copy_row. apply fold_left_length. intros. apply copy_px_length. Qed.

Lemma make_rgb_copy_length rgba w h :
  length (make_rgb_copy rgba w h) = Z.to_nat (w * h * 3).
Proof.
  unfold make_rgb_copy. rewrite fold_left_length.
  - apply length_replicate.
  - intros. apply copy_row_length.
Qed.

Lemma copy_row_other rgba w c y y' x k :
  0 <= x < w -> 0 <= y -> 0 <= y' -> y <> y' ->
  copy_row rgba w c y' !! (3 * pix w x y + k)%nat = c !! (3 * pix w x y + k)%nat
  \/ (3 <= k)%nat.
Proof.
  intros Hx Hy Hy' Hne.
  destruct (decide (k < 3)%nat) as [Hk|]; [left|right; lia].
  unfold copy_row. apply fold_left_untouched. intros b x' Hx'.
  rewrite elem_of_seqZ in Hx'.
  apply copy_px_other; [lia..|].
  assert (pix w x y <> pix w x' y').
  { intros Heq. apply pix_inj in Heq; lia. }
  lia.
Qed.

Lemma make_rgb_copy_spec rgba w h x y k :
  0 <= x < w -> 0 <= y < h -> (k < 3)%nat ->
  rd (make_rgb_copy rgba w h) (at_rgb w x y + k) = rd rgba (at_ w x y + k).
Proof.
  intros Hx Hy Hk. rewrite at_rgb_pix, at_pix.
  unfold rd at 1. f_equal.
  unfold make_rgb_copy.
  rewrite (seqZ_split 0 h y) by lia.
  rewrite fold_left_only_step.
  2:{ intros b y' Hy'. rewrite elem_of_seqZ in Hy'.
      destruct (copy_row_other rgba w b y y' x k) as [H|H]; [lia..|done|lia]. }
  set (c := fold_left (copy_row rgba w) (seqZ 0 (y - 0)) _).
  assert (Hc : length c = Z.to_nat (w * h * 3)).
  { subst c. rewrite fold_left_length; [apply length_replicate|].
    intros. apply copy_row_length. }
  unfold copy_row. rewrite (seqZ_split 0 w x) by lia.
  rewrite fold_left_only_step.
  2:{ intros b x' Hx'. rewrite elem_of_seqZ in Hx'.
      apply copy_px_other; [lia..|].
      assert (pix w x y <> pix w x' y).
      { intros Heq. apply pix_inj in Heq; lia. }
      lia. }
  rewrite copy_px_here; [done | lia.. |].
  rewrite fold_left_length by (intros; apply copy_px_length).
  pose proof (pix_bound w h x y Hx Hy). lia.
Qed.

(** *** The neighbour scan *)

Lemma scan_dx_copied rc w x y dy b dx :
  scan_dx rc w x y dy (b, true) dx = (b, true).
Proof. reflexivity. Qed.

Lemma scan_copied rc w x y b (ds : list (Z * Z)) :
  fold_left (fun st d => scan_dx rc w x y (snd d) st (fst d)) ds (b, true) = (b, true).
Proof. induction ds as [|d ds IH]; simpl; [done | apply IH]. Qed.

Lemma scan_dy_flat rc w x y st dy :
  scan_dy rc w x y st dy
  = fold_left (fun st d => scan_dx rc w x y (snd d) st (fst d))
              [(-1, dy); (0, dy); (1, dy)] st.
Proof.
  unfold scan_dy. destruct st as [b [|]]; [|done].
  cbn [snd]. by rewrite scan_copied.
Qed.

(** The two scan loops visit [scan_order]. *)
Lemma scan_flat rc w x y st :
  fold_left (scan_dy rc w x y) [-1; 0; 1] st
  = fold_left (fun st d => scan_dx rc w x y (snd d) st (fst d)) scan_order st.
Proof. cbn [fold_left]. rewrite !scan_dy_flat. reflexivity. Qed.

(** Scanning stops at the first offset, other than the centre, whose pixel
    has alpha above zero, and stores the copied colour of that neighbour. *)
Lemma scan_find rc w x y b (ds : list (Z * Z)) :
  fold_left (fun st d => scan_dx rc w x y (snd d) st (fst d)) ds (b, false)
  = match find (fun d => negb ((fst d =? 0) && (snd d =? 0))
                         && (0 <? alpha_at b w (x + fst d) (y + snd d))) ds with
    | Some d => (bleed_from rc w x y b d, true)
    | None => (b, false)
    end.
Proof.
  induction ds as [|[dx dy] ds IH]; cbn [fold_left find]; [done|].
  cbn [fst snd]. unfold scan_dx at 2. unfold alpha_at.
  destruct ((dx =? 0) && (dy =? 0)); cbn [negb andb]; [apply IH|].
  destruct (0 <? rd b (at_ w (x + dx) (y + dy) + 3)) eqn:Ha.
  - rewrite scan_copied. reflexivity.
  - apply IH.
Qed.

Lemma find_neighbours (test : Z * Z -> bool) :
  find (fun d => negb ((fst d =? 0) && (snd d =? 0)) && test d) scan_order
  = find test neighbours.
Proof. reflexivity. Qed.

Lemma fix_px_eq rc w y b x :
  fix_px rc w y b x
  = if alpha_at b w x y =? 0 then
      match first_opaque_neighbour b w x y with
      | Some d => bleed_from rc w x y b d
      | None => b
      end
    else b.
Proof.
  unfold fix_px, first_opaque_neighbour. fold (alpha_at b w x y).
  destruct (alpha_at b w x y =? 0); cbn [negb]; [|done].
  rewrite scan_flat, scan_find.
  rewrite (find_neighbours (fun d => 0 <? alpha_at b w (x + fst d) (y + snd d))).
  by destruct (find _ neighbours).
Qed.

Lemma bleed_from_length rc w x y b d : length (bleed_from rc w x y b d) = length b.
Proof. unfold bleed_from. by rewrite !length_insert. Qed.

Lemma bleed_from_other rc w x y b d j :
  (j < at_ w x y \/ at_ w x y + 3 <= j)%nat ->
  bleed_from rc w x y b d !! j = b !! j.
Proof. intros Hj. unfold bleed_from. by rewrite !list_lookup_insert_ne by lia. Qed.

Lemma bleed_from_here rc w x y b d k :
  (k < 3)%nat -> (at_ w x y + 3 <= length b)%nat ->
  bleed_from rc w x y b d !! (at_ w x y + k)%nat
  = Some (rd rc (at_rgb w (x + fst d) (y + snd d) + k)).
Proof.
  intros Hk Hlen. unfold bleed_from.
  destruct k as [|[|[|k]]]; [| | |lia]; lookup_inserts; done.
Qed.

Lemma fix_px_length rc w y b x : length (fix_px rc w y b x) = length b.
Proof.
  rewrite fix_px_eq. repeat case_match; rewrite ?bleed_from_length; done.
Qed.

Lemma fix_px_other rc w y b x j :
  (j < at_ w x y \/ at_ w x y + 3 <= j)%nat ->
  fix_px rc w y b x !! j = b !! j.
Proof.
  intros Hj. rewrite fix_px_eq.
  repeat case_match; rewrite ?bleed_from_other by done; done.
Qed.

Lemma fix_row_length rc w b y : length (fix_row rc w b y) = length b.
Proof. unfold fix_row. apply fold_left_length. intros. apply fix_px_length. Qed.

(** *** The pass over the interior *)

(** No store of the pass lands on an alpha byte. *)
Lemma fix_px_alpha rc w y b x q :
  fix_px rc w y b x !! (4 * q + 3)%nat = b !! (4 * q + 3)%nat.
Proof. apply fix_px_other. rewrite at_pix. lia. Qed.

Lemma fix_pxs_alpha rc w y xs b q :
  fold_left (fix_px rc w y) xs b !! (4 * q + 3)%nat = b !! (4 * q + 3)%nat.
Proof. apply fold_left_untouched. intros. apply fix_px_alpha. Qed.

Lemma fix_rows_alpha rc w ys b q :
  fold_left (fix_row rc w) ys b !! (4 * q + 3)%nat = b !! (4 * q + 3)%nat.
Proof. apply fold_left_untouched. intros. apply fix_pxs_alpha. Qed.

Lemma alpha_at_eq (b b' : list Z) w x y :
  (forall q, b !! (4 * q + 3)%nat = b' !! (4 * q + 3)%nat) ->
  alpha_at b w x y = alpha_at b' w x y.
Proof. intros H. unfold alpha_at. rewrite at_pix. apply rd_eq, H. Qed.

Lemma find_ext {A : Type} (f g : A -> bool) l :
  (forall a, f a = g a) -> find f l = find g l.
Proof.
  intros H. induction l as [|a l IH]; simpl; [done|]. by rewrite H, IH.
Qed.

Lemma first_opaque_neighbour_eq (b b' : list Z) w x y :
  (forall q, b !! (4 * q + 3)%nat = b' !! (4 * q + 3)%nat) ->
  first_opaque_neighbour b w x y = first_opaque_neighbour b' w x y.
Proof.
  intros H. unfold first_opaque_neighbour. apply find_ext.
  intros d. by rewrite (alpha_at_eq b b').
Qed.

(** The colour bytes of a pixel are stored to by its own iteration only. *)
Lemma fix_pxs_other rc w y xs b x0 y0 k :
  (k < 4)%nat ->
  0 <= x0 < w -> 0 <= y0 -> 0 <= y ->
  (forall x, x ∈ xs -> 0 <= x < w /\ (x <> x0 \/ y <> y0)) ->
  fold_left (fix_px rc w y) xs b !! (at_ w x0 y0 + k)%nat = b !! (at_ w x0 y0 + k)%nat.
Proof.
  intros Hk Hx0 Hy0 Hy Hxs.
  apply fold_left_untouched. intros b' x Hx.
  destruct (Hxs x Hx) as [Hxr Hne].
  apply fix_px_other. rewrite !at_pix.
  assert (pix w x y <> pix w x0 y0).
  { intros Heq. apply pix_inj in Heq; lia. }
  lia.
Qed.

Lemma fix_row_other rc w b y x0 y0 k :
  (k < 4)%nat ->
  0 <= x0 < w -> 0 <= y0 -> 0 <= y ->
  (y <> y0 \/ ~ 1 <= x0 < w - 1) ->
  fix_row rc w b y !! (at_ w x0 y0 + k)%nat = b !! (at_ w x0 y0 + k)%nat.
Proof.
  intros Hk Hx0 Hy0 Hy Hne. unfold fix_row.
  apply fix_pxs_other; [lia..|].
  intros x Hx. rewrite elem_of_seqZ in Hx. lia.
Qed.

Lemma fix_rows_other rc w ys b x0 y0 k :
  (k < 4)%nat ->
  0 <= x0 < w -> 0 <= y0 ->
  (forall y, y ∈ ys -> 0 <= y /\ (y <> y0 \/ ~ 1 <= x0 < w - 1)) ->
  fold_left (fix_row rc w) ys b !! (at_ w x0 y0 + k)%nat = b !! (at_ w x0 y0 + k)%nat.
Proof.
  intros Hk Hx0 Hy0 Hys.
  apply fold_left_untouched. intros b' y Hyin.
  destruct (Hys y Hyin). by apply fix_row_other.
Qed.

(** The iteration of an interior pixel, run on a buffer that agrees with
    the input on every alpha byte and on the bytes of this pixel. *)
Lemma fix_px_here rgba w h b x y k :
  interior w h x y -> (k < 3)%nat ->
  length rgba = Z.to_nat (w * h * 4) ->
  length b = length rgba ->
  (forall q, b !! (4 * q + 3)%nat = rgba !! (4 * q + 3)%nat) ->
  (forall k, (k < 3)%nat -> b !! (at_ w x y + k)%nat = rgba !! (at_ w x y + k)%nat) ->
  rd (fix_px (make_rgb_copy rgba w h) w y b x) (at_ w x y + k)
  = if alpha_at rgba w x y =? 0 then
      match first_opaque_neighbour rgba w x y with
      | Some d => rd rgba (at_ w (x + fst d) (y + snd d) + k)
      | None => rd rgba (at_ w x y + k)
      end
    else rd rgba (at_ w x y + k).
Proof.
  intros [Hx Hy] Hk Hlen Hb Halpha Hrgb.
  rewrite fix_px_eq.
  rewrite (alpha_at_eq b rgba) by done.
  rewrite (first_opaque_neighbour_eq b rgba) by done.
  destruct (alpha_at rgba w x y =? 0); [|by apply rd_eq, Hrgb].
  destruct (first_opaque_neighbour rgba w x y) as [d|] eqn:Hfind;
    [|by apply rd_eq, Hrgb].
  unfold first_opaque_neighbour in Hfind.
  apply find_some in Hfind. destruct Hfind as [Hin _].
  assert (Hd : -1 <= fst d <= 1 /\ -1 <= snd d <= 1).
  { unfold neighbours in Hin. simpl in Hin.
    repeat (destruct Hin as [<-|Hin]; [simpl; lia|]). done. }
  unfold rd at 1. rewrite bleed_from_here; [|done|].
  - simpl. apply make_rgb_copy_spec; lia.
  - rewrite Hb, Hlen, at_pix.
    assert (pix w x y < Z.to_nat (w * h))%nat by (apply pix_bound; lia). lia.
Qed.


Lemma fix_loop_interior rgba w h x y k :
  interior w h x y -> (k < 3)%nat ->
  length rgba = Z.to_nat (w * h * 4) ->
  rd (fold_left (fix_row (make_rgb_copy rgba w h) w) (seqZ 1 (h - 2)) rgba)
     (at_ w x y + k)
  = if alpha_at rgba w x y =? 0 then
      match first_opaque_neighbour rgba w x y with
      | Some d => rd rgba (at_ w (x + fst d) (y + snd d) + k)
      | None => rd rgba (at_ w x y + k)
      end
    else rd rgba (at_ w x y + k).
Proof.
  intros Hin Hk Hlen. pose proof Hin as [Hx Hy].
  set (rc := make_rgb_copy rgba w h).
  rewrite (seqZ_split 1 (h - 2) y) by lia.
  set (rows_before := seqZ 1 (y - 1)).
  set (b1 := fold_left (fix_row rc w) rows_before rgba).
  transitivity (rd (fix_row rc w b1 y) (at_ w x y + k)).
  { apply rd_eq. apply fold_left_only_step. intros b y' Hy'.
    rewrite elem_of_seqZ in Hy'. apply fix_row_other; lia. }
  unfold fix_row. rewrite (seqZ_split 1 (w - 2) x) by lia.
  set (xs_before := seqZ 1 (x - 1)).
  set (b2 := fold_left (fix_px rc w y) xs_before b1).
  transitivity (rd (fix_px rc w y b2 x) (at_ w x y + k)).
  { apply rd_eq. apply fold_left_only_step. intros b x' Hx'.
    rewrite elem_of_seqZ in Hx'. apply fix_px_other. rewrite !at_pix.
    assert (pix w x' y <> pix w x y).
    { intros Heq. apply pix_inj in Heq; lia. }
    lia. }
  apply (fix_px_here rgba w h b2 x y k); try done.
  - subst b2 b1. rewrite fold_left_length by (intros; apply fix_px_length).
    apply fold_left_length. intros. apply fix_row_length.
  - intros q. subst b2 b1. by rewrite fix_pxs_alpha, fix_rows_alpha.
  - intros k' Hk'. subst b2 b1.
    rewrite fix_pxs_other; [|lia..|].
    2:{ intros x' Hx'. subst xs_before. rewrite elem_of_seqZ in Hx'. lia. }
    apply fix_rows_other; [lia..|].
    intros y' Hy'. subst rows_before. rewrite elem_of_seqZ in Hy'. lia.
Qed.

Lemma fix_loop_border rgba rc w h x y k :
  0 <= x < w -> 0 <= y < h -> ~ interior w h x y -> (k < 4)%nat ->
  fold_left (fix_row rc w) (seqZ 1 (h - 2)) rgba !! (at_ w x y + k)%nat
  = rgba !! (at_ w x y + k)%nat.
Proof.
  intros Hx Hy Hni Hk. apply fix_rows_other; [lia..|].
  intros y' Hy'. rewrite elem_of_seqZ in Hy'. unfold interior in Hni. lia.
Qed.

Lemma rgb_at_eq (b b' : list Z) w x y x' y' :
  (forall k, (k < 3)%nat -> rd b (at_ w x y + k) = rd b' (at_ w x' y' + k)) ->
  rgb_at b w x y = rgb_at b' w x' y'.
Proof.
  intros H. unfold rgb_at.
  by rewrite (H 0%nat), (H 1%nat), (H 2%nat) by lia.
Qed.

(** C7. One call of [_fix_alpha_border_rgba] on a [w*h] RGBA image keeps the
    length of the buffer and, at every pixel [(x, y)] of the image:
    the alpha byte is unchanged; a pixel with nonzero alpha keeps its colour;
    a pixel on the one-pixel border keeps its colour; and an interior pixel
    with alpha 0 takes the colour that the first of its eight neighbours, in
    the order [neighbours], with alpha above 0 had in the buffer as it was
    before the call (and keeps its own colour when no neighbour qualifies).
    The result at each pixel is thus a function of the input buffer alone:
    no colour written during the pass is read back by it. *)
Theorem fix_alpha_border_single_pass (rgba : list Z) (w h : Z) :
  length rgba = Z.to_nat (w * h * 4) ->
  let out := _fix_alpha_border_rgba rgba w h in
  length out = length rgba
  /\ forall x y, 0 <= x < w -> 0 <= y < h ->
       alpha_at out w x y = alpha_at rgba w x y
       /\ (alpha_at rgba w x y <> 0 -> rgb_at out w x y = rgb_at rgba w x y)
       /\ (~ interior w h x y -> rgb_at out w x y = rgb_at rgba w x y)
       /\ (interior w h x y -> alpha_at rgba w x y = 0 ->
           rgb_at out w x y =
             match first_opaque_neighbour rgba w x y with
             | Some d => rgb_at rgba w (x + fst d) (y + snd d)
             | None => rgb_at rgba w x y
             end).
Proof.
  intros Hlen out. subst out. unfold _fix_alpha_border_rgba.
  destruct ((w <=? 2) || (h <=? 2)) eqn:Hguard.
  - apply orb_true_iff in Hguard.
    split; [done|]. intros x y Hx Hy. repeat split; try done.
    intros [Hix Hiy] _. exfalso.
    destruct Hguard as [Hg|Hg]; apply Z.leb_le in Hg; lia.
  - set (rc := make_rgb_copy rgba w h).
    split.
    { apply fold_left_length. intros. apply fix_row_length. }
    intros x y Hx Hy.
    assert (Hkeep : ~ interior w h x y ->
              rgb_at (fold_left (fix_row rc w) (seqZ 1 (h - 2)) rgba) w x y
              = rgb_at rgba w x y).
    { intros Hni. apply rgb_at_eq. intros k Hk. apply rd_eq.
      apply fix_loop_border; [done..|lia]. }
    repeat split.
    + unfold alpha_at. apply rd_eq. rewrite at_pix. apply fix_rows_alpha.
    + intros Ha. destruct (decide (interior w h x y)) as [Hin|Hni]; [|by apply Hkeep].
      apply rgb_at_eq. intros k Hk. subst rc.
      rewrite fix_loop_interior by done.
      destruct (alpha_at rgba w x y =? 0) eqn:E; [|done].
      apply Z.eqb_eq in E. done.
    + exact Hkeep.
    + intros Hin Ha.
      assert (Hk : forall k, (k < 3)%nat ->
                rd (fold_left (fix_row rc w) (seqZ 1 (h - 2)) rgba) (at_ w x y + k)
                = match first_opaque_neighbour rgba w x y with
                  | Some d => rd rgba (at_ w (x + fst d) (y + snd d) + k)
                  | None => rd rgba (at_ w x y + k)
                  end).
      { intros k Hk. subst rc. rewrite fix_loop_interior by done.
        by rewrite Ha. }
      destruct (first_opaque_neighbour rgba w x y) as [d|];
        by apply rgb_at_eq.
Qed.

(** A 4x3 image whose only opaque pixel is the red border pixel (0, 1):
    the transparent interior pixel (1, 1) takes red from it, while (2, 1),
    whose neighbours all have alpha 0 (the freshly coloured (1, 1)
    included), keeps its colour. *)
Lemma fix_alpha_border_single_pass_witness :
  let rgba := [ 0;0;0;0;     0;0;0;0;   0;0;0;0;   0;0;0;0;
                255;0;0;255; 1;2;3;0;   4;5;6;0;   0;0;0;0;
                0;0;0;0;     0;0;0;0;   0;0;0;0;   0;0;0;0 ] in
  let out := _fix_alpha_border_rgba rgba 4 3 in
  out = [ 0;0;0;0;     0;0;0;0;   0;0;0;0;   0;0;0;0;
          255;0;0;255; 255;0;0;0; 4;5;6;0;   0;0;0;0;
          0;0;0;0;     0;0;0;0;   0;0;0;0;   0;0;0;0 ]
  /\ rgb_at out 4 1 1 = rgb_at rgba 4 (1 + -1) (1 + 0)
  /\ rgb_at out 4 2 1 = rgb_at rgba 4 2 1.
Proof.
  intros rgba out. split; [reflexivity|].
  assert (Hlen : length rgba = Z.to_nat (4 * 3 * 4)) by reflexivity.
  destruct (fix_alpha_border_single_pass rgba 4 3 Hlen) as [_ Hpx].
  split.
  - destruct (Hpx 1 1) as (_ & _ & _ & H); [lia..|].
    apply H; [unfold interior; lia | reflexivity].
  - destruct (Hpx 2 1) as (_ & _ & _ & H); [lia..|].
    apply H; [unfold interior; lia | reflexivity].
Defined.

(** ** What the conversion keeps *)

(** Every build leaves the RGBA bytes of the source in a destination of the
    right size. *)
Lemma convert_rgba_of target src dst :
  length dst = (4 * length src)%nat ->
  _convert_argb_to_rgba_optimized target src dst (length src) = rgba_of src.
Proof.
  intros Hlen. destruct target; simpl.
  - apply convert_vector_spec; [apply ssse3_shuffle_ok | done].
  - apply convert_vector_spec; [apply neon_shuffle_ok | done].
  - apply convert_vector_spec; [apply neon_legacy_shuffle_ok | done].
  - by apply convert_scalar_spec.
Qed.

Lemma land_255 v : Z.land v 255 = v mod 256.
Proof. change 255 with (Z.ones 8). by rewrite Z.land_ones by lia. Qed.

Lemma land_255_byte v : 0 <= Z.land v 255 <= 255.
Proof. rewrite land_255. pose proof (Z.mod_pos_bound v 256). lia. Qed.

Lemma rgba_of_lookup src i p k :
  src !! i = Some p -> (k < 4)%nat ->
  rgba_of src !! (4 * i + k)%nat = scalar_pixel p !! k.
Proof.
  revert i. induction src as [|q src IH]; intros i Hi Hk; [done|].
  destruct i as [|i].
  - simpl in Hi. simplify_eq. change (rgba_of (p :: src)) with (scalar_pixel p ++ rgba_of src).
    rewrite lookup_app_l by (simpl; lia). done.
  - simpl in Hi. change (rgba_of (q :: src)) with (scalar_pixel q ++ rgba_of src).
    rewrite lookup_app_r by (simpl; lia).
    replace (4 * S i + k - length (scalar_pixel q))%nat with (4 * i + k)%nat by (simpl; lia).
    by apply IH.
Qed.

Lemma rgba_of_bytes_ok src : bytes_ok (rgba_of src).
Proof.
  unfold bytes_ok. induction src as [|q src IH]; [constructor|].
  change (rgba_of (q :: src)) with (scalar_pixel q ++ rgba_of src).
  apply Forall_app. split; [|done].
  unfold scalar_pixel. repeat constructor; apply land_255_byte.
Qed.

(** The four channel bytes of a 32-bit pixel put back in their places give
    the pixel. *)
Lemma scalar_pixel_pack p :
  0 <= p < 2 ^ 32 ->
  Z.land (Z.shiftr p 24) 255 * 2 ^ 24 + Z.land (Z.shiftr p 16) 255 * 2 ^ 16
  + Z.land (Z.shiftr p 8) 255 * 2 ^ 8 + Z.land p 255 = p.
Proof.
  intros Hp. rewrite !land_255, !Z.shiftr_div_pow2 by lia.
  pose proof (Z.div_mod p (2 ^ 8)) as H1.
  pose proof (Z.div_mod (p / 2 ^ 8) (2 ^ 8)) as H2.
  pose proof (Z.div_mod (p / 2 ^ 16) (2 ^ 8)) as H3.
  rewrite Z.div_div in H2 by lia.
  rewrite Z.div_div in H3 by lia.
  change (2 ^ 8 * 2 ^ 8) with (2 ^ 16) in H2.
  change (2 ^ 16 * 2 ^ 8) with (2 ^ 24) in H3.
  assert (H4 : (p / 2 ^ 24) mod 256 = p / 2 ^ 24).
  { apply Z.mod_small. split; [apply Z.div_pos; lia|].
    apply Z.div_lt_upper_bound; lia. }
  rewrite H4. change 256 with (2 ^ 8). lia.
Qed.

(** X1. On every build, converting [n] packed ARGB pixels into a destination
    of [4*n] bytes leaves bytes only, pixel [i] of the result holds the red,
    green, blue and alpha fields of source pixel [i] in that order, and the
    four bytes put back as [a<<24 | r<<16 | g<<8 | b] give the 32-bit source
    pixel: the conversion loses nothing, so two sources with the same result
    are equal. *)
Theorem convert_lossless (target : simd) (src dst : list Z) :
  length dst = (4 * length src)%nat ->
  Forall (fun p => 0 <= p < 2 ^ 32) src ->
  let out := _convert_argb_to_rgba_optimized target src dst (length src) in
  bytes_ok out
  /\ (forall i p, src !! i = Some p ->
        pixel_at out i
        = Some (Z.land (Z.shiftr p 16) 255, Z.land (Z.shiftr p 8) 255,
                Z.land p 255, Z.land (Z.shiftr p 24) 255)
        /\ Z.land (Z.shiftr p 24) 255 * 2 ^ 24 + Z.land (Z.shiftr p 16) 255 * 2 ^ 16
           + Z.land (Z.shiftr p 8) 255 * 2 ^ 8 + Z.land p 255 = p)
  /\ (forall src' dst',
        length src' = length src -> length dst' = (4 * length src')%nat ->
        Forall (fun p => 0 <= p < 2 ^ 32) src' ->
        _convert_argb_to_rgba_optimized target src' dst' (length src') = out ->
        src' = src).
Proof.
  intros Hlen Hsrc out. subst out. rewrite convert_rgba_of by done.
  assert (Hpix : forall (s : list Z) i p, s !! i = Some p ->
            pixel_at (rgba_of s) i
            = Some (Z.land (Z.shiftr p 16) 255, Z.land (Z.shiftr p 8) 255,
                    Z.land p 255, Z.land (Z.shiftr p 24) 255)).
  { intros s i p Hi. unfold pixel_at.
    replace (4 * i)%nat with (4 * i + 0)%nat at 1 by lia.
    rewrite !(rgba_of_lookup s i p) by (done || lia). done. }
  split; [apply rgba_of_bytes_ok|]. split.
  - intros i p Hi. split; [by apply Hpix|].
    apply scalar_pixel_pack. by apply (Forall_lookup_1 _ _ _ _ Hsrc Hi).
  - intros src' dst' Hl Hl' Hsrc' Heq. rewrite convert_rgba_of in Heq by done.
    apply list_eq_same_length with (length src); [done..|].
    intros i p' p Hi Hp' Hp.
    pose proof (Hpix _ _ _ Hp') as E'. pose proof (Hpix _ _ _ Hp) as E.
    rewrite Heq in E'. rewrite E in E'. simplify_eq.
    pose proof (scalar_pixel_pack p (Forall_lookup_1 _ _ _ _ Hsrc Hp)) as Ep.
    pose proof (scalar_pixel_pack p' (Forall_lookup_1 _ _ _ _ Hsrc' Hp')) as Ep'.
    congruence.
Qed.

(** Two pixels on the NEON build. *)
Lemma convert_lossless_witness :
  let src := [4278190080; 305419896] in
  let dst := replicate 8 0 in
  let out := _convert_argb_to_rgba_optimized LOTTIE_SIMD_NEON src dst 2 in
  out = [0; 0; 0; 255; 52; 86; 120; 18]
  /\ bytes_ok out
  /\ pixel_at out 1 = Some (52, 86, 120, 18)
  /\ 18 * 2 ^ 24 + 52 * 2 ^ 16 + 86 * 2 ^ 8 + 120 = 305419896.
Proof.
  cbv zeta.
  assert (Hs : Forall (fun p => 0 <= p < 2 ^ 32) [4278190080; 305419896])
    by (repeat constructor; lia).
  destruct (convert_lossless LOTTIE_SIMD_NEON [4278190080; 305419896] (replicate 8 0)
              eq_refl Hs) as (Hb & Hp & _).
  split; [vm_compute; reflexivity|]. split; [exact Hb|].
  destruct (Hp 1%nat 305419896 eq_refl) as [H1 H2].
  split; [exact H1 | exact H2].
Defined.

(** ** Straightening keeps bytes and never darkens *)

Lemma unpremultiply_channel_byte c a : 0 <= unpremultiply_channel c a <= 255.
Proof. unfold unpremultiply_channel, to_u8. apply land_255_byte. Qed.

Lemma unpremultiply_body_bytes_ok b i : bytes_ok b -> bytes_ok (unpremultiply_body b i).
Proof.
  unfold bytes_ok, unpremultiply_body. intros Hb.
  repeat case_match; try done;
    repeat (apply Forall_insert; [|first [lia | apply unpremultiply_channel_byte]]); done.
Qed.

Lemma unpremultiply_fold_bytes_ok steps b :
  bytes_ok b -> bytes_ok (fold_left unpremultiply_body steps b).
Proof.
  revert b. induction steps as [|s steps IH]; intros b Hb; [done|].
  simpl. apply IH. by apply unpremultiply_body_bytes_ok.
Qed.

Lemma divide_rounded_clamped_ge c a :
  0 <= c <= 255 -> 0 < a <= 255 -> c <= divide_rounded_clamped c a <= 255.
Proof.
  intros Hc Ha. unfold divide_rounded_clamped. split; [|lia].
  apply Z.min_glb; [lia|].
  apply Z.div_le_lower_bound; [lia|].
  assert (0 <= a / 2) by (apply Z.div_pos; lia). nia.
Qed.

Lemma divide_rounded_clamped_full a :
  0 < a <= 255 -> divide_rounded_clamped a a = 255.
Proof.
  intros Ha. unfold divide_rounded_clamped.
  replace (a * 255 + a / 2) with (a / 2 + 255 * a) by lia.
  rewrite Z.div_add by lia. rewrite Z.div_small; [lia|].
  split; [apply Z.div_pos; lia | apply Z.div_lt; lia].
Qed.

(** X2. On a buffer of bytes, [_unpremultiply_alpha_rgba] keeps the length of
    the buffer and leaves bytes only.  Every pixel of the [w*h] image keeps
    its alpha, and when that alpha is above 0 no colour channel comes out
    smaller than it went in, none exceeds 255, and a channel equal to the
    alpha (full intensity in premultiplied form) comes out as 255. *)
Theorem unpremultiply_never_darkens (rgba : list Z) (w h : Z) :
  bytes_ok rgba ->
  let out := _unpremultiply_alpha_rgba rgba w h in
  length out = length rgba
  /\ bytes_ok out
  /\ forall i r g b a,
       (i < Z.to_nat w * Z.to_nat h)%nat ->
       pixel_at rgba i = Some (r, g, b, a) ->
       exists r' g' b',
         pixel_at out i = Some (r', g', b', a)
         /\ (0 < a -> r <= r' <= 255 /\ g <= g' <= 255 /\ b <= b' <= 255)
         /\ (0 < a -> (r = a -> r' = 255) /\ (g = a -> g' = 255) /\ (b = a -> b' = 255)).
Proof.
  intros Hok out. subst out. unfold _unpremultiply_alpha_rgba.
  destruct ((w <=? 0) || (h <=? 0)) eqn:Hg.
  { apply orb_true_iff in Hg. split; [done|]. split; [done|].
    intros i r g b a Hi. destruct Hg as [Hg|Hg]; apply Z.leb_le in Hg; lia. }
  split; [apply fold_left_length; intros; apply unpremultiply_body_length|].
  split; [by apply unpremultiply_fold_bytes_ok|].
  intros i r g b a Hi Hpx.
  rewrite (unpremultiply_loop_pixel _ _ _ _ Hok Hi Hpx).
  apply pixel_at_Some in Hpx. destruct Hpx as (Hr & Hg' & Hb & Ha).
  pose proof (bytes_ok_lookup _ _ _ Hok Hr). pose proof (bytes_ok_lookup _ _ _ Hok Hg').
  pose proof (bytes_ok_lookup _ _ _ Hok Hb). pose proof (bytes_ok_lookup _ _ _ Hok Ha).
  unfold unpremultiplied.
  destruct (a =? 0) eqn:E0; [apply Z.eqb_eq in E0; eexists _, _, _; split; [done|]; split; lia|].
  destruct (a =? 255) eqn:E1.
  { apply Z.eqb_eq in E1. eexists _, _, _; split; [done|]. split; intros; lia. }
  apply Z.eqb_neq in E0. eexists _, _, _; split; [done|]. split.
  - intros _. repeat split; apply divide_rounded_clamped_ge; lia.
  - intros _. repeat split; intros ->; apply divide_rounded_clamped_full; lia.
Qed.

(** A half-transparent pixel and a fully transparent one. *)
Lemma unpremultiply_never_darkens_witness :
  let rgba := [ 64; 32; 128; 128;   7; 8; 9; 0 ] in
  let out := _unpremultiply_alpha_rgba rgba 2 1 in
  out = [ 128; 64; 255; 128;  0; 0; 0; 0 ]
  /\ length out = length rgba
  /\ bytes_ok out.
Proof.
  cbv zeta.
  assert (Hb : bytes_ok [ 64; 32; 128; 128;   7; 8; 9; 0 ])
    by (unfold bytes_ok; repeat constructor; lia).
  destruct (unpremultiply_never_darkens [ 64; 32; 128; 128;   7; 8; 9; 0 ] 2 1 Hb)
    as (Hl & Hk & _).
  split; [vm_compute; reflexivity|]. split; [exact Hl | exact Hk].
Defined.

(** ** A second pass of the border fix changes nothing *)

Lemma rd_lookup (b : list Z) i : (i < length b)%nat -> b !! i = Some (rd b i).
Proof.
  intros Hi. unfold rd. destruct (b !! i) eqn:E; [done|].
  apply lookup_ge_None in E. lia.
Qed.

(** Every byte offset inside a [w*h] image is channel [k] of a pixel. *)
Lemma offset_pixel w h j :
  0 < w ->
  (j < Z.to_nat (w * h * 4))%nat ->
  exists x y k, 0 <= x < w /\ 0 <= y < h /\ (k < 4)%nat /\ j = (at_ w x y + k)%nat.
Proof.
  intros Hw Hj.
  assert (Hwh : 0 < w * h) by lia.
  assert (Hh : 0 < h) by nia.
  set (q := Z.of_nat j / 4).
  exists (q mod w), (q / w), (Z.to_nat (Z.of_nat j mod 4)).
  pose proof (Z.div_mod (Z.of_nat j) 4) as H1.
  pose proof (Z.mod_pos_bound (Z.of_nat j) 4) as H2.
  pose proof (Z.div_mod q w) as H3.
  pose proof (Z.mod_pos_bound q w) as H4.
  assert (Hq : 0 <= q < w * h) by (subst q; split; [apply Z.div_pos; lia|apply Z.div_lt_upper_bound; lia]).
  assert (Hy : 0 <= q / w < h).
  { split; [apply Z.div_pos; lia|]. apply Z.div_lt_upper_bound; lia. }
  repeat split; try lia.
  unfold at_. replace (q / w * w + q mod w) with q by lia. fold q in H1. lia.
Qed.

Lemma fix_alpha_border_length rgba w h :
  length (_fix_alpha_border_rgba rgba w h) = length rgba.
Proof.
  unfold _fix_alpha_border_rgba. destruct ((w <=? 2) || (h <=? 2)); [done|].
  apply fold_left_length. intros. apply fix_row_length.
Qed.

(** A pixel with nonzero alpha comes out of the pass as it went in. *)
Lemma fix_loop_opaque rgba w h x y k :
  0 <= x < w -> 0 <= y < h -> (k < 3)%nat ->
  length rgba = Z.to_nat (w * h * 4) ->
  alpha_at rgba w x y <> 0 ->
  rd (fold_left (fix_row (make_rgb_copy rgba w h) w) (seqZ 1 (h - 2)) rgba) (at_ w x y + k)
  = rd rgba (at_ w x y + k).
Proof.
  intros Hx Hy Hk Hlen Ha.
  destruct (decide (interior w h x y)) as [Hin|Hni].
  - rewrite fix_loop_interior by done.
    destruct (alpha_at rgba w x y =? 0) eqn:E; [|done]. apply Z.eqb_eq in E. done.
  - apply rd_eq. apply fix_loop_border; [done..|lia].
Qed.

(** X3. A second call of [_fix_alpha_border_rgba] on the result of a first
    one changes nothing: the colours bled into transparent pixels come from
    pixels with alpha above 0 only, which the pass leaves as they are, and
    the alpha bytes that decide who bleeds into whom are never written. *)
Theorem fix_alpha_border_idempotent (rgba : list Z) (w h : Z) :
  length rgba = Z.to_nat (w * h * 4) ->
  _fix_alpha_border_rgba (_fix_alpha_border_rgba rgba w h) w h
  = _fix_alpha_border_rgba rgba w h.
Proof.
  intros Hlen.
  pose proof (fix_alpha_border_length rgba w h) as Hl1.
  pose proof (fix_alpha_border_length (_fix_alpha_border_rgba rgba w h) w h) as Hl2.
  revert Hl1 Hl2. unfold _fix_alpha_border_rgba.
  destruct ((w <=? 2) || (h <=? 2)) eqn:Hguard; [done|].
  set (out1 := fold_left (fix_row (make_rgb_copy rgba w h) w) (seqZ 1 (h - 2)) rgba).
  set (out2 := fold_left (fix_row (make_rgb_copy out1 w h) w) (seqZ 1 (h - 2)) out1).
  intros Hl1 Hl2.
  assert (Halpha : forall q, out1 !! (4 * q + 3)%nat = rgba !! (4 * q + 3)%nat)
    by (intros q; apply fix_rows_alpha).
  apply list_eq. intros j.
  destruct (decide (j < length rgba)%nat) as [Hj|Hj].
  2: { rewrite !lookup_ge_None_2 by lia. done. }
  assert (Hw : 0 < w).
  { apply orb_false_iff in Hguard. destruct Hguard as [Hg _]. apply Z.leb_gt in Hg. lia. }
  destruct (offset_pixel w h j Hw ltac:(lia)) as (x & y & k & Hx & Hy & Hk & ->).
  destruct (decide (k = 3%nat)) as [->|Hk3].
  { unfold at_. replace (Z.to_nat ((y * w + x) * 4) + 3)%nat
      with (4 * Z.to_nat (y * w + x) + 3)%nat by lia.
    apply fix_rows_alpha. }
  destruct (decide (interior w h x y)) as [Hin|Hni].
  2: { apply fix_loop_border; done. }
  rewrite (rd_lookup out2) by lia. rewrite (rd_lookup out1) by lia. f_equal.
  subst out2. rewrite fix_loop_interior by (done || lia).
  rewrite (alpha_at_eq out1 rgba) by done.
  rewrite (first_opaque_neighbour_eq out1 rgba) by done.
  destruct (alpha_at rgba w x y =? 0) eqn:E0; [|done].
  destruct (first_opaque_neighbour rgba w x y) as [d|] eqn:Ef; [|done].
  subst out1. rewrite (fix_loop_interior rgba w h x y k) by (done || lia).
  rewrite E0, Ef.
  unfold first_opaque_neighbour in Ef. apply find_some in Ef. destruct Ef as [Hd Hop].
  apply Z.ltb_lt in Hop.
  destruct Hin as [Hix Hiy].
  apply fix_loop_opaque; try lia.
  - unfold neighbours in Hd. simpl in Hd.
    repeat (destruct Hd as [<-|Hd]; [simpl; lia|]). done.
  - unfold neighbours in Hd. simpl in Hd.
    repeat (destruct Hd as [<-|Hd]; [simpl; lia|]). done.
Qed.

(** The 4x3 image with one opaque border pixel: the first pass changes the
    buffer, the second does not. *)
Lemma fix_alpha_border_idempotent_witness :
  let rgba := [ 0;0;0;0;     0;0;0;0;   0;0;0;0;   0;0;0;0;
                255;0;0;255; 1;2;3;0;   4;5;6;0;   0;0;0;0;
                0;0;0;0;     0;0;0;0;   0;0;0;0;   0;0;0;0 ] in
  let once := _fix_alpha_border_rgba rgba 4 3 in
  once <> rgba /\ _fix_alpha_border_rgba once 4 3 = once.
Proof.
  cbv zeta. split; [vm_compute; discriminate|].
  apply (fix_alpha_border_idempotent _ 4 3). reflexivity.
Defined.

Lemma unpremultiply_alpha_length rgba w h :
  length (_unpremultiply_alpha_rgba rgba w h) = length rgba.
Proof.
  unfold _unpremultiply_alpha_rgba. destruct ((w <=? 0) || (h <=? 0)); [done|].
  apply fold_left_length. intros. apply unpremultiply_body_length.
Qed.

End PixelConverterFacts.

(* ===================================================================== *)
(** * 5. Properties of the node                                            *)
(* ===================================================================== *)

Module NodeFacts.
Import Node.

(** ** Comparisons of floats *)

Lemma SFcompare_refl (a : spec_float) :
  a <> S754_nan -> SFcompare a a = Some Eq.
Proof.
  destruct a as [s|s| |s m e]; intros Hn; try done; simpl.
  - by destruct s.
  - rewrite Z.compare_refl, Pos.compare_cont_refl. by destruct s.
Qed.

Lemma SFcompare_antisym (a b : spec_float) (c : comparison) :
  SFcompare a b = Some c -> SFcompare b a = Some (CompOpp c).
Proof.
  destruct a as [sa|sa| |sa ma ea], b as [sb|sb| |sb mb eb]; simpl;
    intros H; try done; simplify_eq; try (by destruct sa); try (by destruct sb);
    try (by destruct sa, sb).
  rewrite (Z.compare_antisym ea eb).
  pose proof (Pos.compare_cont_antisym ma mb Eq) as Hm. simpl in Hm.
  rewrite <- Hm.
  destruct sa, sb; try done; destruct (ea ?= eb) eqn:E; simpl; try done;
    by destruct (Pos.compare_cont Eq ma mb).
Qed.

Lemma F32_gtb_not_leb a : F32.gtb a F32.zero = true -> F32.leb a F32.zero = false.
Proof.
  unfold F32.gtb, F32.leb, F32.zero, SFltb, SFleb.
  destruct (SFcompare (S754_zero false) a) as [c|] eqn:E; [|done].
  apply SFcompare_antisym in E. rewrite E. by destruct c.
Qed.

Lemma F32_leb_not_gtb a : F32.leb a F32.zero = true -> F32.gtb a F32.zero = false.
Proof.
  unfold F32.gtb, F32.leb, F32.zero, SFltb, SFleb.
  destruct (SFcompare a (S754_zero false)) as [c|] eqn:E; [|done].
  apply SFcompare_antisym in E. rewrite E. by destruct c.
Qed.

(** For operands that are not NaN, [a < b] false means [b <= a]. *)
Lemma SFltb_false_leb a b :
  a <> S754_nan -> b <> S754_nan -> SFltb a b = false -> SFleb b a = true.
Proof.
  intros Ha Hb. unfold SFltb, SFleb.
  destruct (SFcompare a b) as [c|] eqn:E.
  - apply SFcompare_antisym in E. rewrite E. by destruct c.
  - destruct a, b; simpl in E; done.
Qed.

Lemma SFleb_not_nan_l a b : SFleb a b = true -> a <> S754_nan.
Proof. intros H ->. done. Qed.

Lemma SFleb_not_nan_r a b : SFleb a b = true -> b <> S754_nan.
Proof. intros H ->. unfold SFleb in H. by destruct a. Qed.

Lemma SFleb_refl a : a <> S754_nan -> SFleb a a = true.
Proof. intros H. unfold SFleb. by rewrite SFcompare_refl. Qed.

(** ** Effects *)

Lemma emitted_app name l1 l2 :
  emitted name (l1 ++ l2) = (emitted name l1 + emitted name l2)%nat.
Proof.
  induction l1 as [|e l1 IH]; simpl; [done|].
  destruct e; rewrite IH; lia.
Qed.

Lemma reallocations_app l1 l2 :
  reallocations (l1 ++ l2) = (reallocations l1 + reallocations l2)%nat.
Proof.
  induction l1 as [|e l1 IH]; simpl; [done|].
  destruct e as [| |[]| |]; rewrite IH; lia.
Qed.

Ltac nsimpl := unfold eff, call, w_call in *; node_simpl.

(** Proves that a method leaves a view [V] of the node alone, goal
    [V (method ... n) = V n].  The body is walked one binding at a time: a
    [let] of a node is split into the bound step and the continuation
    (taken at an arbitrary node), a branch is decided, a method with a known lemma is
    rewritten away by [rw], and an assignment to a member outside the view is
    dropped. *)
Ltac keep_gen rw :=
  lazymatch goal with
  | |- ?V ?t = ?V ?n0 =>
    first
    [ constr_eq t n0; reflexivity
    | lazymatch t with
      | (let x := ?e in @?body x) =>
          let T := type of e in
          lazymatch T with
          | node =>
              transitivity (V e);
              [ generalize e;
                let y := fresh "n" in
                intro y;
                let t' := eval cbv beta in (body y) in
                change (V t' = V y);
                keep_gen rw
              | keep_gen rw ]
          | _ =>
              let t' := eval cbv beta in (body e) in
              change (V t' = V n0);
              keep_gen rw
          end
      | match ?x with _ => _ end => destruct x eqn:?; keep_gen rw
      | _ =>
          first
          [ progress rw; keep_gen rw
          | lazymatch t with
            | ?s ?v ?n1 => change (V n1 = V n0); keep_gen rw
            end ]
      end ]
  end.

(** ** Playback (C4) *)

Lemma update_animation_idle n delta :
  playing n = false -> _update_animation n delta = n.
Proof. intros H. unfold _update_animation. by rewrite H. Qed.

Lemma ticks_idle n deltas : playing n = false -> ticks n deltas = n.
Proof.
  unfold ticks. induction deltas as [|d ds IH]; intros H; simpl; [done|].
  rewrite update_animation_idle by done. by apply IH.
Qed.

Lemma update_animation_looping n delta :
  looping (_update_animation n delta) = looping n.
Proof. unfold _update_animation. repeat case_match; reflexivity. Qed.

(** One tick emits [animation_finished] at most once, and only together
    with [playing = false]. *)
Lemma update_animation_finished_step n delta :
  let n' := _update_animation n delta in
  emitted "animation_finished" (effects n') = emitted "animation_finished" (effects n)
  \/ (emitted "animation_finished" (effects n')
      = S (emitted "animation_finished" (effects n)) /\ playing n' = false).
Proof.
  unfold _update_animation. repeat case_match; nsimpl;
    rewrite ?emitted_app; cbn [emitted String.eqb Ascii.eqb Bool.eqb];
    try (left; lia); right; split; (lia || reflexivity).
Qed.

(** Over any run of ticks with looping off, [animation_finished] is emitted
    at most once. *)
Lemma ticks_finished_once n deltas :
  looping n = false ->
  (emitted "animation_finished" (effects (ticks n deltas))
   <= S (emitted "animation_finished" (effects n)))%nat.
Proof.
  revert n. induction deltas as [|d ds IH]; intros n Hl; [simpl; lia|].
  change (ticks n (d :: ds)) with (ticks (_update_animation n d) ds).
  destruct (update_animation_finished_step n d) as [Heq|[Heq Hp]].
  - specialize (IH (_update_animation n d)).
    rewrite update_animation_looping in IH. specialize (IH Hl). lia.
  - rewrite ticks_idle by done. lia.
Qed.

(** C4. On a tick of a playing node with a loaded scene
    ([total_frames > 0]) the frame first advances by
    [(total_frames / duration) * delta * speed], in binary32.  When the
    advanced frame is below [total_frames] it is the new frame.  When it
    has reached or passed [total_frames]: with looping on, the new frame is
    its remainder modulo [total_frames], playback goes on and nothing is
    announced; with looping off, the new frame is [total_frames - 1],
    [playing] becomes false and exactly one [animation_finished] is emitted
    by the tick. *)
Theorem update_animation_tick (n : node) (delta : F32.float) :
  playing n = true -> animation n = true ->
  F32.gtb (total_frames n) F32.zero = true ->
  let advance := F32.mul (F32.mul (F32.div (total_frames n) (duration n)) delta) (speed n) in
  let advanced := F32.add (current_frame n) advance in
  let n' := _update_animation n delta in
  let finished k := emitted "animation_finished" (effects k) in
  (F32.geb advanced (total_frames n) = false ->
     current_frame n' = advanced /\ playing n' = true /\ finished n' = finished n)
  /\ (F32.geb advanced (total_frames n) = true -> looping n = true ->
     current_frame n' = F32.fmod advanced (total_frames n)
     /\ playing n' = true /\ finished n' = finished n)
  /\ (F32.geb advanced (total_frames n) = true -> looping n = false ->
     current_frame n' = F32.sub (total_frames n) F32.one
     /\ playing n' = false /\ finished n' = S (finished n)).
Proof.
  intros Hp Ha Htf advance advanced n' finished.
  apply F32_gtb_not_leb in Htf.
  subst n' finished advanced advance. unfold _update_animation.
  rewrite Hp, Ha, Htf. cbn [negb orb].
  nsimpl.
  split; [|split].
  - intros Hge. rewrite Hge.
    repeat case_match; nsimpl; rewrite ?emitted_app;
      cbn [emitted String.eqb Ascii.eqb Bool.eqb]; repeat split; (done || lia).
  - intros Hge Hl. rewrite Hge, Hl.
    repeat case_match; nsimpl; rewrite ?emitted_app;
      cbn [emitted String.eqb Ascii.eqb Bool.eqb]; repeat split; (done || lia).
  - intros Hge Hl. rewrite Hge, Hl.
    repeat case_match; nsimpl; rewrite ?emitted_app;
      cbn [emitted String.eqb Ascii.eqb Bool.eqb]; repeat split; (done || lia).
Qed.

(** The last tick of a 100-frame, 2-second scene played at speed 1 without
    looping: from frame 99.5, a tick of 1/60 s ends the playback. *)
Definition near_end : node :=
  with_current_frame (F32.lit 995 10)
    (with_duration (F32.of_int 2)
       (with_total_frames (F32.of_int 100)
          (with_looping false (with_playing true (with_animation true constructed))))).

Lemma update_animation_tick_witness :
  let n' := _update_animation near_end (F32.lit 1 60) in
  current_frame n' = F32.of_int 99
  /\ playing n' = false
  /\ emitted "animation_finished" (effects n') = 1%nat.
Proof.
  destruct (update_animation_tick near_end (F32.lit 1 60)) as (_ & _ & H);
    [reflexivity..|].
  destruct H as (Hf & Hp & He); [vm_compute; reflexivity | reflexivity |].
  cbv zeta. rewrite Hf, Hp, He. repeat split; vm_compute; reflexivity.
Defined.

(** The specification's end-to-end run: a scene of 100 frames lasting 2 s,
    speed 1, looping off, ticked at 60 Hz.  After 1.0 s the frame counter
    reads 50 (the float is a hair under it; the quantized frame index is 50)
    and nothing has been announced; at 2.1 s the frame is 99, playback has
    stopped and [animation_finished] has been emitted once. *)
Definition from_start : node :=
  with_duration (F32.of_int 2)
    (with_total_frames (F32.of_int 100)
       (with_looping false (with_playing true (with_animation true constructed)))).

Example end_to_end_playback :
  let dt := F64.to_float (F64.lit 1 60) in
  let at_1s := ticks from_start (replicate 60 dt) in
  let at_2_1s := ticks from_start (replicate 126 dt) in
  _quantized_frame_index at_1s = 50
  /\ playing at_1s = true
  /\ emitted "animation_finished" (effects at_1s) = 0%nat
  /\ current_frame at_2_1s = F32.of_int 99
  /\ playing at_2_1s = false
  /\ emitted "animation_finished" (effects at_2_1s) = 1%nat.
Proof. vm_compute. repeat split; reflexivity. Qed.

(** ** Seeking (C10) *)

Lemma upload_image_current_frame n : current_frame (upload_image n) = current_frame n.
Proof. unfold upload_image. keep_gen idtac. Qed.

Lemma render_frame_body_current_frame h n :
  current_frame (render_frame_body h n) = current_frame n.
Proof.
  unfold render_frame_body, _ensure_cache_capacity.
  keep_gen ltac:(rewrite upload_image_current_frame).
Qed.

Lemma render_frame_current_frame h n :
  current_frame (_render_frame h n) = current_frame n.
Proof.
  unfold _render_frame. keep_gen ltac:(rewrite render_frame_body_current_frame).
Qed.

(** C10. With a loaded animation ([total_frames > 0]), [seek f] and
    [set_frame f] leave as current frame [f] clamped into
    [0, total_frames - 1]: 0 when [f] is below 0, [total_frames - 1] when
    [f] is above it, [f] otherwise; so, for an [f] that is a number and a
    range that is not empty, a frame inside the range.  With no animation
    loaded ([total_frames <= 0]) the call returns the node as it was: the
    frame is unchanged and no render or redraw is requested. *)
Theorem seek_clamps_or_ignores (h : host) (n : node) (f : F32.float) :
  seek h n f = set_frame h n f
  /\ (F32.gtb (total_frames n) F32.zero = true ->
      let hi := F32.sub (total_frames n) F32.one in
      current_frame (seek h n f)
      = (if F32.ltb f F32.zero then F32.zero
         else if F32.gtb f hi then hi else f)
      /\ (f <> S754_nan -> F32.leb F32.zero hi = true ->
          F32.leb F32.zero (current_frame (seek h n f)) = true
          /\ F32.leb (current_frame (seek h n f)) hi = true))
  /\ (F32.leb (total_frames n) F32.zero = true ->
      seek h n f = n /\ get_frame (seek h n f) = get_frame n
      /\ effects (seek h n f) = effects n).
Proof.
  split; [reflexivity|]. split.
  - intros Htf hi. unfold seek, set_frame. rewrite Htf.
    assert (Hcf : current_frame
                    (eff queue_redraw
                       (_render_frame h
                          (with_current_frame (CLAMP f F32.zero hi) n)))
                  = CLAMP f F32.zero hi).
    { transitivity (current_frame
                      (_render_frame h (with_current_frame (CLAMP f F32.zero hi) n))).
      - reflexivity.
      - by rewrite render_frame_current_frame. }
    fold hi. rewrite Hcf. split; [reflexivity|].
    intros Hnan Hhi. unfold CLAMP, F32.ltb, F32.gtb, F32.leb in *.
    assert (Hh : hi <> S754_nan) by (eapply SFleb_not_nan_r; eauto).
    destruct (SFltb f F32.zero) eqn:E1.
    + split; [reflexivity | done].
    + destruct (SFltb hi f) eqn:E2.
      * split; [done | by apply SFleb_refl].
      * split; apply SFltb_false_leb; done.
  - intros Htf. apply F32_leb_not_gtb in Htf.
    unfold seek, set_frame, get_frame. by rewrite Htf.
Qed.

(** Seeking to frame 250 of a 100-frame animation lands on frame 99. *)
Lemma seek_clamps_or_ignores_witness :
  let h := host_at_scale F32.one in
  current_frame (seek h from_start (F32.of_int 250)) = F32.of_int 99
  /\ seek h constructed (F32.of_int 250) = constructed.
Proof.
  intros h.
  destruct (seek_clamps_or_ignores h from_start (F32.of_int 250)) as (_ & Hin & _).
  destruct (seek_clamps_or_ignores h constructed (F32.of_int 250)) as (_ & _ & Hout).
  split.
  - destruct Hin as [Hcf _]; [reflexivity|]. rewrite Hcf. reflexivity.
  - apply Hout. reflexivity.
Defined.

(** ** The dynamic resolution controller (C8) *)

Lemma Vector2i_eqb_eq a b : Vector2i_eqb a b = true <-> a = b.
Proof.
  unfold Vector2i_eqb. destruct a as [ax ay], b as [bx by_]. simpl.
  rewrite andb_true_iff, !Z.eqb_eq. split; [intros [-> ->]; done|].
  intros H. by simplify_eq.
Qed.

Lemma Vector2i_eqb_neq a b : Vector2i_eqb a b = false <-> a <> b.
Proof.
  rewrite <- Vector2i_eqb_eq. destruct (Vector2i_eqb a b); split; congruence.
Qed.

(** [q16] rounds up to the next multiple of 16. *)
Lemma q16_spec v : q16 v = 16 * ((v + 15) / 16).
Proof.
  unfold q16. rewrite <- Z.ldiff_land. change 15 with (Z.ones 4) at 2.
  rewrite Z.ldiff_ones_r by lia. rewrite Z.shiftl_mul_pow2, Z.shiftr_div_pow2 by lia.
  change (2 ^ 4) with 16. lia.
Qed.

Lemma q16_grid v : q16 v mod 16 = 0 /\ v <= q16 v < v + 16.
Proof.
  rewrite q16_spec. split.
  - rewrite Z.mul_comm. apply Z.mod_mul. lia.
  - pose proof (Z.div_mod (v + 15) 16). pose proof (Z.mod_pos_bound (v + 15) 16). lia.
Qed.

(** For the sizes a render target has under the default maximum, the guard
    on the divisor is idle: the relative delta is
    [|desired - current| / current]. *)
#[local] Instance spec_float_eq_dec : EqDecision spec_float.
Proof. solve_decision. Defined.

Lemma relative_delta_unguarded desired current :
  1 <= current <= 4096 ->
  relative_delta desired current
  = F32.div (F32.abs (F32.sub (F32.of_int desired) (F32.of_int current)))
            (F32.of_int current).
Proof.
  intros Hc. unfold relative_delta. f_equal.
  assert (H : forallb (fun c => bool_decide (F32.max F32.one (F32.of_int c) = F32.of_int c))
                      (seqZ 1 4096) = true) by (vm_compute; reflexivity).
  rewrite forallb_forall in H.
  assert (Hin : current ∈ seqZ 1 4096) by (apply elem_of_seqZ; lia).
  apply list_elem_of_In in Hin.
  specialize (H current Hin). by apply bool_decide_eq_true in H.
Qed.

(** C8. Inside the scene tree, the controller computes for each axis
    [fit_box_size * scale] in binary32, rounds it up to an integer, rounds
    that up to the 16-pixel grid ([q16 v] is a multiple of 16 in
    [v, v + 16)), and clamps it to [max_render_size]; the result is recorded
    as [last_desired_size].  When it equals [render_size], the pending
    resize and its target stay as they were.  Otherwise a resize is marked
    pending, with the result as target, when the relative delta
    [|desired - current| / current] (the divisor guarded by [max(1, .)])
    exceeds [resolution_threshold] on some axis, and the pending resize and
    its target stay as they were when it does on neither.  The render size
    itself is never changed by the controller. *)
Theorem resolution_controller_marks (h : host) (n : node) :
  is_inside_tree h = true ->
  let scale := F32.max (F32.abs (fst (screen_scale h))) (F32.abs (snd (screen_scale h))) in
  let want box limit :=
    Z.min (q16 (F32.ceil_to_int (F32.mul (F32.of_int box) scale))) limit in
  let desired := {| x := want (x (fit_box_size n)) (x (max_render_size n));
                    y := want (y (fit_box_size n)) (y (max_render_size n)) |} in
  let exceeds :=
    F32.gtb (relative_delta (x desired) (x (render_size n))) (resolution_threshold n)
    || F32.gtb (relative_delta (y desired) (y (render_size n))) (resolution_threshold n) in
  let n' := _update_resolution_from_scale h n in
  last_desired_size n' = desired
  /\ render_size n' = render_size n
  /\ (forall v, q16 v mod 16 = 0 /\ v <= q16 v < v + 16)
  /\ (desired = render_size n ->
      pending_resize n' = pending_resize n
      /\ pending_target_size n' = pending_target_size n)
  /\ (desired <> render_size n -> exceeds = true ->
      pending_resize n' = true /\ pending_target_size n' = desired)
  /\ (desired <> render_size n -> exceeds = false ->
      pending_resize n' = pending_resize n
      /\ pending_target_size n' = pending_target_size n).
Proof.
  intros Hin scale want desired exceeds n'.
  subst n'. unfold _update_resolution_from_scale. rewrite Hin. cbn [negb].
  destruct (screen_scale h) as [sx sy] eqn:Hs. cbn [fst snd] in scale.
  fold scale. cbn [x y]. fold (want (x (fit_box_size n)) (x (max_render_size n))).
  fold (want (y (fit_box_size n)) (y (max_render_size n))). fold desired.
  set (n1 := if F32.gtb _ _ then _ else n).
  assert (Hrs : render_size (with_last_desired_size desired n1) = render_size n).
  { subst n1. by destruct (F32.gtb (F32.abs _) _). }
  assert (Hpr : pending_resize (with_last_desired_size desired n1) = pending_resize n).
  { subst n1. by destruct (F32.gtb (F32.abs _) _). }
  assert (Hpt : pending_target_size (with_last_desired_size desired n1)
                = pending_target_size n).
  { subst n1. by destruct (F32.gtb (F32.abs _) _). }
  assert (Hth : resolution_threshold (with_last_desired_size desired n1)
                = resolution_threshold n).
  { subst n1. by destruct (F32.gtb (F32.abs _) _). }
  rewrite Hrs, Hth.
  match goal with
  | |- context [if ?c then with_pending_target_size _ _ else _] =>
      change c with exceeds
  end.
  split; [|split; [|split; [|split; [|split]]]].
  - destruct (Vector2i_eqb desired (render_size n)); [done|].
    by destruct exceeds.
  - destruct (Vector2i_eqb desired (render_size n)); [done|].
    by destruct exceeds.
  - apply q16_grid.
  - intros Heq. apply Vector2i_eqb_eq in Heq. by rewrite Heq.
  - intros Hne Hex. apply Vector2i_eqb_neq in Hne. by rewrite Hne, Hex.
  - intros Hne Hex. apply Vector2i_eqb_neq in Hne. by rewrite Hne, Hex.
Qed.

(** The node as constructed (box 512x512, render size 512x512, threshold
    0.15, maximum 4096x4096) seen at scale 0.3: the desired size is 160x160
    and a resize to it becomes pending. *)
Lemma resolution_controller_marks_witness :
  let n' := _update_resolution_from_scale (host_at_scale (F32.lit 3 10)) constructed in
  last_desired_size n' = {| x := 160; y := 160 |}
  /\ pending_resize n' = true
  /\ pending_target_size n' = {| x := 160; y := 160 |}.
Proof.
  pose proof (resolution_controller_marks (host_at_scale (F32.lit 3 10)) constructed)
    as H.
  destruct H as (Hd & _ & _ & _ & Hmark & _); [reflexivity|].
  destruct Hmark as [Hp Ht]; [vm_compute; congruence | vm_compute; reflexivity |].
  cbv zeta. rewrite Hd, Hp, Ht. repeat split; vm_compute; reflexivity.
Defined.

(** The specification's three cases on the node as constructed: scale 1.0
    gives 512x512, a multiple of 16 no smaller than the box, and marks
    nothing; scale 0.3 has a relative delta of 0.6875 and marks a resize;
    scale 0.9 gives 464x464, a delta under 15%, and marks nothing. *)
Example resolution_examples :
  let at_scale s := _update_resolution_from_scale (host_at_scale s) constructed in
  last_desired_size (at_scale F32.one) = {| x := 512; y := 512 |}
  /\ pending_resize (at_scale F32.one) = false
  /\ F32.gtb (relative_delta 160 512) (F32.lit 15 100) = true
  /\ pending_resize (at_scale (F32.lit 3 10)) = true
  /\ last_desired_size (at_scale (F32.lit 9 10)) = {| x := 464; y := 464 |}
  /\ F32.gtb (relative_delta 464 512) (F32.lit 15 100) = false
  /\ pending_resize (at_scale (F32.lit 9 10)) = false.
Proof. vm_compute. repeat split; reflexivity. Qed.

(** ** Rate-limited resizing (C9) *)

(** Effects other than a retargeting of the canvas leave the view of the
    resize block alone. *)
Lemma eff_resize_view e n :
  reallocations [e] = 0%nat -> resize_view (eff e n) = resize_view n.
Proof.
  intros He. unfold resize_view, eff. nsimpl.
  rewrite reallocations_app, He, Nat.add_0_r. reflexivity.
Qed.

Lemma call_resize_view c n :
  reallocations [tvg c] = 0%nat -> resize_view (call c n) = resize_view n.
Proof. apply eff_resize_view. Qed.

Lemma w_call_resize_view c n : resize_view (w_call c n) = resize_view n.
Proof. reflexivity. Qed.

Create Rewrite HintDb resize_view_db.
#[local] Hint Rewrite eff_resize_view call_resize_view using reflexivity : resize_view_db.
#[local] Hint Rewrite w_call_resize_view : resize_view_db.

Ltac keep_view := keep_gen ltac:(autorewrite with resize_view_db).

Lemma ensure_cache_capacity_resize_view n :
  resize_view (_ensure_cache_capacity n) = resize_view n.
Proof. unfold _ensure_cache_capacity. keep_view. Qed.
#[local] Hint Rewrite ensure_cache_capacity_resize_view : resize_view_db.

Lemma upload_image_resize_view n : resize_view (upload_image n) = resize_view n.
Proof. unfold upload_image. keep_view. Qed.
#[local] Hint Rewrite upload_image_resize_view : resize_view_db.

Lemma recreate_texture_ring_resize_view n :
  resize_view (_recreate_texture_ring n) = resize_view n.
Proof. unfold _recreate_texture_ring. keep_view. Qed.
#[local] Hint Rewrite recreate_texture_ring_resize_view : resize_view_db.

Lemma create_texture_resize_view n : resize_view (_create_texture n) = resize_view n.
Proof. unfold _create_texture. keep_view. Qed.
#[local] Hint Rewrite create_texture_resize_view : resize_view_db.

Lemma render_frame_body_resize_view h n :
  resize_view (render_frame_body h n) = resize_view n.
Proof. unfold render_frame_body. keep_view. Qed.
#[local] Hint Rewrite render_frame_body_resize_view : resize_view_db.

Lemma render_frame_resize_view h n : resize_view (_render_frame h n) = resize_view n.
Proof. unfold _render_frame. keep_view. Qed.
#[local] Hint Rewrite render_frame_resize_view : resize_view_db.

Lemma update_animation_resize_view n d :
  resize_view (_update_animation n d) = resize_view n.
Proof. unfold _update_animation. keep_view. Qed.
#[local] Hint Rewrite update_animation_resize_view : resize_view_db.

Lemma post_render_resize_view size f n :
  resize_view (_post_render_to_worker size f n) = resize_view n.
Proof. unfold _post_render_to_worker. keep_view. Qed.
#[local] Hint Rewrite post_render_resize_view : resize_view_db.

Lemma process_post_resize_view n : resize_view (process_post n) = resize_view n.
Proof. unfold process_post. keep_view. Qed.
#[local] Hint Rewrite process_post_resize_view : resize_view_db.

Lemma process_drain_resize_view n : resize_view (process_drain n) = resize_view n.
Proof. unfold process_drain. keep_view. Qed.
#[local] Hint Rewrite process_drain_resize_view : resize_view_db.







(** The resize block when the limiter holds, or nothing is pending: the
    node is returned as it is. *)
Lemma process_resize_skips h n :
  pending_resize n && canvas n = false \/ rate_limited n = true ->
  process_resize h n = (n, false).
Proof.
  intros H. unfold process_resize.
  destruct (pending_resize n && canvas n); [|done].
  destruct H as [H|H]; [done|]. unfold rate_limited in H. by rewrite H.
Qed.







(** A node with a 32x32 box, zoomed out to 0.3 at one tick and back to 1.0
    at the next, 1/60 s later: the first request is applied (target 16x16),
    the second stays pending. *)
Definition small_node : node :=
  _initialize_thorvg (host_at_scale F32.one)
    (with_fit_box_size {| x := 32; y := 32 |}
       (with_render_size {| x := 32; y := 32 |} constructed)).


(** ** The finished-frame mailbox (C3) *)

Create Rewrite HintDb mail_view_db.
Ltac keep_mail := keep_gen ltac:(autorewrite with mail_view_db).

Lemma upload_image_mail n : mail_view (upload_image n) = mail_view n.
Proof. unfold upload_image. keep_mail. Qed.
#[local] Hint Rewrite upload_image_mail : mail_view_db.

Lemma recreate_texture_ring_mail n : mail_view (_recreate_texture_ring n) = mail_view n.
Proof. unfold _recreate_texture_ring. keep_mail. Qed.
#[local] Hint Rewrite recreate_texture_ring_mail : mail_view_db.

Lemma create_texture_mail n : mail_view (_create_texture n) = mail_view n.
Proof. unfold _create_texture. keep_mail. Qed.
#[local] Hint Rewrite create_texture_mail : mail_view_db.

Lemma ensure_cache_capacity_mail n : mail_view (_ensure_cache_capacity n) = mail_view n.
Proof. unfold _ensure_cache_capacity. keep_mail. Qed.
#[local] Hint Rewrite ensure_cache_capacity_mail : mail_view_db.

Lemma render_frame_body_mail h n : mail_view (render_frame_body h n) = mail_view n.
Proof.
  unfold render_frame_body.
  (* [last_rendered_qf] and [first_frame_drawn] are not part of the view *)
  keep_mail.
Qed.
#[local] Hint Rewrite render_frame_body_mail : mail_view_db.

Lemma render_frame_mail h n : mail_view (_render_frame h n) = mail_view n.
Proof. unfold _render_frame. keep_mail. Qed.
#[local] Hint Rewrite render_frame_mail : mail_view_db.

Lemma update_animation_mail n d : mail_view (_update_animation n d) = mail_view n.
Proof. unfold _update_animation. keep_mail. Qed.
#[local] Hint Rewrite update_animation_mail : mail_view_db.

Lemma post_render_mail size f n : mail_view (_post_render_to_worker size f n) = mail_view n.
Proof. unfold _post_render_to_worker. keep_mail. Qed.
#[local] Hint Rewrite post_render_mail : mail_view_db.

Lemma post_load_mail h p n : mail_view (_post_load_to_worker h p n) = mail_view n.
Proof. unfold _post_load_to_worker. keep_mail. Qed.
#[local] Hint Rewrite post_load_mail : mail_view_db.

Lemma process_post_mail n : mail_view (process_post n) = mail_view n.
Proof. unfold process_post. keep_mail. Qed.
#[local] Hint Rewrite process_post_mail : mail_view_db.

Lemma allocate_mail h size n : mail_view (_allocate_buffer_and_target h size n) = mail_view n.
Proof. unfold _allocate_buffer_and_target. keep_mail. Qed.
#[local] Hint Rewrite allocate_mail : mail_view_db.

Lemma apply_fit_mail n : mail_view (_apply_picture_transform_to_fit n) = mail_view n.
Proof. unfold _apply_picture_transform_to_fit. keep_mail. Qed.
#[local] Hint Rewrite apply_fit_mail : mail_view_db.

Lemma update_resolution_mail h n : mail_view (_update_resolution_from_scale h n) = mail_view n.
Proof. unfold _update_resolution_from_scale. keep_mail. Qed.
#[local] Hint Rewrite update_resolution_mail : mail_view_db.

Lemma process_begin_mail h n d : mail_view (process_begin h n d) = mail_view n.
Proof. unfold process_begin. keep_mail. Qed.

Lemma process_resize_mail h n : mail_view (fst (process_resize h n)) = mail_view n.
Proof.
  unfold process_resize. repeat (case_match; cbn [fst]; try reflexivity).
  keep_mail.
Qed.

Lemma worker_apply_target_mail size n :
  mail_view (_worker_apply_target_if_needed size n) = mail_view n.
Proof. unfold _worker_apply_target_if_needed. keep_mail. Qed.
#[local] Hint Rewrite worker_apply_target_mail : mail_view_db.

Lemma worker_apply_fit_mail n : mail_view (_worker_apply_fit_transform n) = mail_view n.
Proof. unfold _worker_apply_fit_transform. keep_mail. Qed.
#[local] Hint Rewrite worker_apply_fit_mail : mail_view_db.

Lemma worker_load_mail h p n : mail_view (worker_load h p n) = mail_view n.
Proof. unfold worker_load. keep_mail. Qed.
#[local] Hint Rewrite worker_load_mail : mail_view_db.

Lemma mail_view_fields a b :
  mail_view a = mail_view b ->
  next_frame_id a = next_frame_id b
  /\ last_consumed_id a = last_consumed_id b
  /\ FrameResult.id (latest_frame a) = FrameResult.id (latest_frame b)
  /\ render_thread_enabled a = render_thread_enabled b.
Proof. unfold mail_view. intros H. by simplify_eq. Qed.

Create Rewrite HintDb uploaded_db.
Ltac keep_uploaded := keep_gen ltac:(autorewrite with uploaded_db).

Lemma recreate_texture_ring_uploaded n :
  _uploaded_this_frame (_recreate_texture_ring n) = _uploaded_this_frame n.
Proof. unfold _recreate_texture_ring. keep_uploaded. Qed.
#[local] Hint Rewrite recreate_texture_ring_uploaded : uploaded_db.

Lemma create_texture_uploaded n :
  _uploaded_this_frame (_create_texture n) = _uploaded_this_frame n.
Proof. unfold _create_texture. keep_uploaded. Qed.
#[local] Hint Rewrite create_texture_uploaded : uploaded_db.

Lemma upload_image_uploaded n :
  _uploaded_this_frame (upload_image n) = _uploaded_this_frame n.
Proof. unfold upload_image. keep_uploaded. Qed.
#[local] Hint Rewrite upload_image_uploaded : uploaded_db.

Lemma allocate_uploaded h size n :
  _uploaded_this_frame (_allocate_buffer_and_target h size n) = _uploaded_this_frame n.
Proof. unfold _allocate_buffer_and_target. keep_uploaded. Qed.
#[local] Hint Rewrite allocate_uploaded : uploaded_db.

Lemma apply_fit_uploaded n :
  _uploaded_this_frame (_apply_picture_transform_to_fit n) = _uploaded_this_frame n.
Proof. unfold _apply_picture_transform_to_fit. keep_uploaded. Qed.
#[local] Hint Rewrite apply_fit_uploaded : uploaded_db.

Lemma update_resolution_uploaded h n :
  _uploaded_this_frame (_update_resolution_from_scale h n) = _uploaded_this_frame n.
Proof. unfold _update_resolution_from_scale. keep_uploaded. Qed.
#[local] Hint Rewrite update_resolution_uploaded : uploaded_db.

Lemma update_animation_uploaded n d :
  _uploaded_this_frame (_update_animation n d) = _uploaded_this_frame n.
Proof. unfold _update_animation. keep_uploaded. Qed.
#[local] Hint Rewrite update_animation_uploaded : uploaded_db.

Lemma post_render_uploaded size f n :
  _uploaded_this_frame (_post_render_to_worker size f n) = _uploaded_this_frame n.
Proof. unfold _post_render_to_worker. keep_uploaded. Qed.
#[local] Hint Rewrite post_render_uploaded : uploaded_db.

Lemma process_post_uploaded n :
  _uploaded_this_frame (process_post n) = _uploaded_this_frame n.
Proof. unfold process_post. keep_uploaded. Qed.

Lemma process_begin_uploaded h n d : _uploaded_this_frame (process_begin h n d) = false.
Proof.
  unfold process_begin. set (n1 := with__elapsed_time _ _).
  destruct (dynamic_resolution n1); [|reflexivity].
  by rewrite update_resolution_uploaded.
Qed.

Lemma process_resize_uploaded h n :
  _uploaded_this_frame (fst (process_resize h n)) = _uploaded_this_frame n.
Proof.
  unfold process_resize. repeat (case_match; cbn [fst]; try reflexivity).
  keep_uploaded.
Qed.

(** The drain either leaves the consumer's cursor and the upload flag as
    they are, or it has found a ready frame with an id above the cursor,
    moves the cursor to that id and sets the flag. *)
Lemma process_drain_cases n :
  let n' := process_drain n in
  let f := latest_frame n in
  next_frame_id n' = next_frame_id n
  /\ FrameResult.id (latest_frame n') = FrameResult.id f
  /\ render_thread_enabled n' = render_thread_enabled n
  /\ ((last_consumed_id n' = last_consumed_id n
       /\ _uploaded_this_frame n' = _uploaded_this_frame n)
      \/ (FrameResult.ready f = true
          /\ last_consumed_id n < FrameResult.id f
          /\ FrameResult.w f = x (render_size n)
          /\ FrameResult.h f = y (render_size n)
          /\ last_consumed_id n' = FrameResult.id f
          /\ _uploaded_this_frame n' = true)).
Proof.
  cbv zeta. unfold process_drain.
  destruct (FrameResult.ready (latest_frame n) && (last_consumed_id n <? _)) eqn:Hr;
    [|repeat (split; [done|]); by left].
  apply andb_true_iff in Hr. destruct Hr as [Hready Hid]. apply Z.ltb_lt in Hid.
  destruct ((FrameResult.w (latest_frame n) =? _) && _) eqn:Hs;
    [|repeat (split; [done|]); by left].
  apply andb_true_iff in Hs. destruct Hs as [Hw Hh].
  apply Z.eqb_eq in Hw. apply Z.eqb_eq in Hh.
  cbv zeta.
  match goal with |- context [upload_image ?a] => set (n2 := upload_image a) end.
  assert (H2 : mail_view n2 = mail_view n) by (subst n2; keep_mail).
  apply mail_view_fields in H2. destruct H2 as (M1 & M2 & M3 & M4).
  clearbody n2. nsimpl. repeat (split; [done|]). by right.
Qed.

(** A tick, seen from the mailbox: the ids in the slot and of the next
    publication stand; either the cursor stands too (and, with the worker in
    use, nothing was uploaded), or the tick has consumed the frame in the
    slot, whose id was above the cursor. *)
Lemma process_mailbox h n d :
  let n' := _process h n d in
  let f := latest_frame n in
  next_frame_id n' = next_frame_id n
  /\ FrameResult.id (latest_frame n') = FrameResult.id f
  /\ render_thread_enabled n' = render_thread_enabled n
  /\ ((last_consumed_id n' = last_consumed_id n
       /\ (render_thread_enabled n = true -> _uploaded_this_frame n' = false))
      \/ (render_thread_enabled n = true
          /\ last_consumed_id n < FrameResult.id f
          /\ last_consumed_id n' = FrameResult.id f
          /\ _uploaded_this_frame n' = true)).
Proof.
  cbv zeta. unfold _process.
  pose proof (process_begin_mail h n d) as Hb.
  pose proof (process_begin_uploaded h n d) as Ub.
  set (n1 := process_begin h n d) in *.
  pose proof (process_resize_mail h n1) as Hr.
  pose proof (process_resize_uploaded h n1) as Ur.
  destruct (process_resize h n1) as [n2 applied]. cbn [fst] in Hr, Ur.
  unfold process_end.
  pose proof (update_animation_mail n2 (F64.to_float d)) as Ha.
  pose proof (update_animation_uploaded n2 (F64.to_float d)) as Ua.
  set (n3 := _update_animation n2 (F64.to_float d)) in *.
  assert (H3 : mail_view n3 = mail_view n) by (by rewrite Ha, Hr, Hb).
  assert (U3 : _uploaded_this_frame n3 = false) by (by rewrite Ua, Ur, Ub).
  clearbody n3. clear Ha Ua Hr Ur Hb Ub. clear n1 n2.
  set (n4 := if is_visible_in_tree h || is_editor_hint h then _ else n3).
  assert (H4 : next_frame_id n4 = next_frame_id n
               /\ FrameResult.id (latest_frame n4) = FrameResult.id (latest_frame n)
               /\ render_thread_enabled n4 = render_thread_enabled n
               /\ ((last_consumed_id n4 = last_consumed_id n
                    /\ (render_thread_enabled n = true -> _uploaded_this_frame n4 = false))
                   \/ (render_thread_enabled n = true
                       /\ last_consumed_id n < FrameResult.id (latest_frame n)
                       /\ last_consumed_id n4 = FrameResult.id (latest_frame n)
                       /\ _uploaded_this_frame n4 = true))).
  { apply mail_view_fields in H3. destruct H3 as (M1 & M2 & M3 & M4).
    subst n4. destruct (is_visible_in_tree h || is_editor_hint h).
    - destruct (render_thread_enabled n) eqn:Hrte; rewrite M4.
      + pose proof (process_post_mail n3) as Hp.
        pose proof (process_post_uploaded n3) as Up.
        apply mail_view_fields in Hp. destruct Hp as (P1 & P2 & P3 & P4).
        destruct (process_drain_cases (process_post n3))
          as (D1 & D2 & D3 & [[D4 D5]|(D4 & D5 & _ & _ & D6 & D7)]).
        * rewrite D1, D2, D3, D4, D5, P1, P2, P3, P4, Up, M1, M2, M3, M4, U3.
          repeat (split; [done|]). by left.
        * rewrite D1, D2, D3, D6, D7, P1, P3, P4, M1, M3, M4.
          repeat (split; [done|]). right. rewrite P2, P3, M2, M3 in D5. done.
      + assert (Hm : mail_view (if pending_resize n3 || negb (first_frame_drawn n3)
                                   || negb (_quantized_frame_index n3 =? last_rendered_qf n3)
                                then _render_frame h n3 else n3) = mail_view n3).
        { case_match; [apply render_frame_mail | reflexivity]. }
        apply mail_view_fields in Hm. destruct Hm as (R1 & R2 & R3 & R4).
        rewrite R1, R2, R3, R4, M1, M2, M3, M4.
        repeat (split; [done|]). by left.
    - rewrite M1, M2, M3, M4. repeat (split; [done|]). by left. }
  clearbody n4.
  destruct H4 as (A1 & A2 & A3 & A4).
  destruct (_uploaded_this_frame n4 || applied); nsimpl; done.
Qed.

(** A worker turn, seen from the mailbox: the cursor stands; either the
    slot and the next id stand too, or the turn has published a frame under
    the next id and advanced the counter. *)
Lemma worker_iteration_mailbox h n :
  let n' := worker_iteration h n in
  last_consumed_id n' = last_consumed_id n
  /\ render_thread_enabled n' = render_thread_enabled n
  /\ ((next_frame_id n' = next_frame_id n
       /\ FrameResult.id (latest_frame n') = FrameResult.id (latest_frame n))
      \/ (next_frame_id n' = (next_frame_id n + 1) mod 2 ^ 64
          /\ FrameResult.id (latest_frame n') = next_frame_id n
          /\ FrameResult.ready (latest_frame n') = true)).
Proof.
  cbv zeta. unfold worker_iteration.
  match goal with
  | |- context [worker_render h ?rs ?rf ?m] =>
      set (n1 := m); generalize rs, rf; intros rs' rf'
  end.
  assert (H1 : mail_view n1 = mail_view n) by (subst n1; keep_mail).
  clearbody n1. apply mail_view_fields in H1. destruct H1 as (M1 & M2 & M3 & M4).
  unfold worker_render.
  destruct ((0 <? x rs') && (0 <? y rs'));
    [|rewrite M1, M2, M3, M4; repeat (split; [done|]); by left].
  destruct (negb (w_canvas n1) || negb (w_animation n1) || negb (w_picture n1));
    [rewrite M1, M2, M3, M4; repeat (split; [done|]); by left|].
  cbv zeta.
  match goal with
  | |- context [publish ?tmp ?m] => set (n2 := m); generalize tmp; intros tmp'
  end.
  assert (H2 : mail_view n2 = mail_view n1) by (subst n2; keep_mail).
  clearbody n2. apply mail_view_fields in H2. destruct H2 as (N1 & N2 & N3 & N4).
  unfold publish. nsimpl.
  rewrite N1, N2, N4, M1, M2, M4. repeat (split; [done|]). by right.
Qed.

Lemma clear_path_mailbox h n :
  let n' := set_animation_path h n EmptyString in
  next_frame_id n' = next_frame_id n
  /\ FrameResult.id (latest_frame n') = FrameResult.id (latest_frame n)
  /\ render_thread_enabled n' = render_thread_enabled n
  /\ (last_consumed_id n' = last_consumed_id n
      \/ last_consumed_id n' = next_frame_id n).
Proof.
  cbv zeta. unfold set_animation_path.
  destruct (String.eqb (animation_path n) EmptyString);
    [repeat (split; [done|]); by left|].
  cbv zeta. destruct (negb (is_inside_tree h)); [repeat (split; [done|]); by left|].
  change (negb (is_empty EmptyString)) with false. cbv iota.
  match goal with
  | |- context [with_last_consumed_id ?v (with_latest_frame ?f ?m)] =>
      set (n1 := m)
  end.
  assert (H1 : mail_view n1 = mail_view n) by (subst n1; keep_mail).
  apply mail_view_fields in H1. destruct H1 as (M1 & M2 & M3 & M4).
  match goal with
  | |- context [with_last_consumed_id ?v (with_latest_frame ?f n1)] =>
      set (n2 := with_last_consumed_id v (with_latest_frame f n1))
  end.
  assert (H2 : next_frame_id n2 = next_frame_id n
               /\ FrameResult.id (latest_frame n2) = FrameResult.id (latest_frame n)
               /\ render_thread_enabled n2 = render_thread_enabled n
               /\ last_consumed_id n2 = next_frame_id n).
  { subst n2. nsimpl. done. }
  clearbody n2. clear M1 M2 M3 M4. clearbody n1.
  destruct H2 as (A1 & A2 & A3 & A4).
  match goal with
  | |- context [eff queue_redraw ?m] => set (n3 := m)
  end.
  assert (H3 : mail_view n3 = mail_view n2) by (subst n3; keep_mail).
  apply mail_view_fields in H3. destruct H3 as (B1 & B2 & B3 & B4).
  clearbody n3.
  change (next_frame_id (eff queue_redraw n3)) with (next_frame_id n3).
  change (latest_frame (eff queue_redraw n3)) with (latest_frame n3).
  change (render_thread_enabled (eff queue_redraw n3)) with (render_thread_enabled n3).
  change (last_consumed_id (eff queue_redraw n3)) with (last_consumed_id n3).
  rewrite B1, B2, B3, B4, A1, A2, A3, A4. repeat (split; [done|]). by right.
Qed.

(** One step of the pipeline, seen from the mailbox. *)
Lemma do_step_mailbox n s :
  mailbox_ok n -> next_frame_id n + worker_turns [s] < 2 ^ 64 ->
  let n' := do_step n s in
  mailbox_ok n'
  /\ next_frame_id n <= next_frame_id n' <= next_frame_id n + worker_turns [s]
  /\ last_consumed_id n <= last_consumed_id n'
  /\ Forall (fun i => next_frame_id n <= i < next_frame_id n') (published_by n s)
  /\ Forall (fun i => last_consumed_id n < i <= last_consumed_id n') (consumed_by n s).
Proof.
  intros [[Hl0 Hln] Hid] Hbudget. cbv zeta. unfold mailbox_ok.
  destruct s as [h|h d|h].
  - (* the worker *)
    unfold published_by, consumed_by. cbn [do_step worker_turns] in *.
    unfold _worker_loop_turn.
    destruct (negb (worker_wait_predicate n));
      [rewrite Z.eqb_refl; repeat split; (lia || constructor)|].
    destruct (worker_stop n);
      [rewrite Z.eqb_refl; repeat split; (lia || constructor)|].
    destruct (worker_iteration_mailbox h n) as (W1 & _ & [[W2 W3]|(W2 & W3 & _)]).
    + rewrite W1, W2, W3, Z.eqb_refl. repeat split; (lia || constructor).
    + rewrite Z.mod_small in W2 by lia.
      rewrite W1, W2, W3.
      destruct (next_frame_id n + 1 =? next_frame_id n) eqn:E;
        [apply Z.eqb_eq in E; lia|].
      repeat split; try lia; repeat constructor; lia.
  - (* a tick *)
    unfold published_by, consumed_by. cbn [do_step worker_turns] in *.
    destruct (process_mailbox h n d) as (P1 & P2 & P3 & [[P4 P5]|(P4 & P5 & P6 & P7)]).
    + rewrite P1, P2, P4.
      destruct (render_thread_enabled n) eqn:Hrte; cbn [andb];
        [rewrite P5 by done|]; repeat split; (lia || constructor).
    + rewrite P1, P2, P6, P7, P4. cbn [andb].
      repeat split; try lia; repeat constructor; lia.
  - (* the path is cleared *)
    unfold published_by, consumed_by. cbn [do_step worker_turns] in *.
    destruct (clear_path_mailbox h n) as (C1 & C2 & _ & [C3|C3]);
      rewrite C1, C2, C3; repeat split; (lia || constructor).
Qed.

Lemma worker_turns_nonneg ss : 0 <= worker_turns ss.
Proof. induction ss as [|[] ss IH]; simpl; lia. Qed.

(** Along any interleaving, the published ids grow, the consumed ids grow,
    and both stay ahead of where the run started. *)
Lemma steps_mailbox ss : forall n,
  mailbox_ok n -> next_frame_id n + worker_turns ss < 2 ^ 64 ->
  StronglySorted Z.lt (published n ss)
  /\ Forall (fun i => next_frame_id n <= i) (published n ss)
  /\ StronglySorted Z.lt (consumed n ss)
  /\ Forall (fun i => last_consumed_id n < i) (consumed n ss).
Proof.
  induction ss as [|s ss IH]; intros n Hok Hbudget.
  { simpl. repeat split; constructor. }
  assert (Hw : worker_turns (s :: ss) = worker_turns [s] + worker_turns ss).
  { destruct s; simpl; lia. }
  pose proof (worker_turns_nonneg ss) as Hnn.
  destruct (do_step_mailbox n s Hok) as (Hok' & Hnext & Hlast & Hpub & Hcon); [lia|].
  destruct (IH (do_step n s) Hok') as (I1 & I2 & I3 & I4); [lia|].
  cbn [published consumed].
  rewrite Forall_forall in Hpub, Hcon, I2, I4.
  repeat split.
  - apply StronglySorted_app; repeat split; [| |done].
    + intros a b Ha Hb. specialize (Hpub a Ha). specialize (I2 b Hb). lia.
    + unfold published_by. repeat case_match; repeat constructor.
  - apply Forall_app. split; apply Forall_forall; intros i Hi.
    + specialize (Hpub i Hi). lia.
    + specialize (I2 i Hi). lia.
  - apply StronglySorted_app; repeat split; [| |done].
    + intros a b Ha Hb. specialize (Hcon a Ha). specialize (I4 b Hb). lia.
    + unfold consumed_by. repeat case_match; repeat constructor.
  - apply Forall_app. split; apply Forall_forall; intros i Hi.
    + specialize (Hcon i Hi). lia.
    + specialize (I4 i Hi). lia.
Qed.

(** A slot that is not ready, or whose id is not above the cursor, is left
    alone: the drain copies nothing and changes nothing. *)
Lemma process_drain_nothing n :
  FrameResult.ready (latest_frame n) = false
  \/ FrameResult.id (latest_frame n) <= last_consumed_id n ->
  process_drain n = n.
Proof.
  intros H. unfold process_drain.
  destruct H as [H|H]; [by rewrite H|].
  apply Z.ltb_ge in H. by rewrite H, andb_false_r.
Qed.

(** The drain either leaves what is presented as it is, or it has found a
    ready frame with an id above the cursor, moves the cursor to that id and
    sets the upload flag. *)
Lemma process_drain_presentation n :
  let n' := process_drain n in
  let f := latest_frame n in
  (presentation n' = presentation n
   /\ last_consumed_id n' = last_consumed_id n
   /\ _uploaded_this_frame n' = _uploaded_this_frame n)
  \/ (FrameResult.ready f = true
      /\ last_consumed_id n < FrameResult.id f
      /\ last_consumed_id n' = FrameResult.id f
      /\ _uploaded_this_frame n' = true).
Proof.
  cbv zeta. unfold process_drain.
  destruct (FrameResult.ready (latest_frame n) && (last_consumed_id n <? _)) eqn:Hr;
    [|by left].
  apply andb_true_iff in Hr. destruct Hr as [Hready Hid]. apply Z.ltb_lt in Hid.
  destruct ((FrameResult.w (latest_frame n) =? _) && _) eqn:Hs; [|by left].
  right. cbv zeta.
  match goal with |- context [upload_image ?a] => set (n2 := upload_image a) end.
  clearbody n2. nsimpl. done.
Qed.

Lemma update_animation_presentation n d :
  presentation (_update_animation n d) = presentation n.
Proof. unfold _update_animation. keep_gen idtac. Qed.

Lemma process_post_presentation n : presentation (process_post n) = presentation n.
Proof.
  unfold process_post. destruct (_ || _); [|done]. cbv zeta.
  unfold _post_render_to_worker. keep_gen idtac.
Qed.

(** A tick with the worker in use, seen from the screen: after the resize
    block, either what is presented stands, with the cursor, and nothing is
    flagged as uploaded; or the tick has consumed the frame in the slot,
    whose id was above the cursor. *)
Lemma process_presentation h n d :
  render_thread_enabled n = true ->
  let r := fst (process_resize h (process_begin h n d)) in
  let n' := _process h n d in
  (presentation n' = presentation r
   /\ last_consumed_id n' = last_consumed_id n
   /\ _uploaded_this_frame n' = false)
  \/ (last_consumed_id n < FrameResult.id (latest_frame n)
      /\ last_consumed_id n' = FrameResult.id (latest_frame n)
      /\ _uploaded_this_frame n' = true).
Proof.
  intros Hrte. cbv zeta. unfold _process.
  pose proof (process_begin_mail h n d) as Hb.
  pose proof (process_begin_uploaded h n d) as Ub.
  set (n1 := process_begin h n d) in *.
  pose proof (process_resize_mail h n1) as Hr.
  pose proof (process_resize_uploaded h n1) as Ur.
  destruct (process_resize h n1) as [n2 applied]. cbn [fst] in *.
  unfold process_end.
  pose proof (update_animation_mail n2 (F64.to_float d)) as Ha.
  pose proof (update_animation_uploaded n2 (F64.to_float d)) as Ua.
  pose proof (update_animation_presentation n2 (F64.to_float d)) as Pa.
  set (n3 := _update_animation n2 (F64.to_float d)) in *.
  assert (H3 : mail_view n3 = mail_view n) by (by rewrite Ha, Hr, Hb).
  assert (U3 : _uploaded_this_frame n3 = false) by (by rewrite Ua, Ur, Ub).
  clearbody n3. clear Ha Ua Hr Ur Hb Ub. clearbody n1.
  apply mail_view_fields in H3. destruct H3 as (M1 & M2 & M3 & M4).
  set (n4 := if is_visible_in_tree h || is_editor_hint h then _ else n3).
  assert (H4 : (presentation n4 = presentation n2
                /\ last_consumed_id n4 = last_consumed_id n
                /\ _uploaded_this_frame n4 = false)
               \/ (last_consumed_id n < FrameResult.id (latest_frame n)
                   /\ last_consumed_id n4 = FrameResult.id (latest_frame n)
                   /\ _uploaded_this_frame n4 = true)).
  { subst n4. destruct (is_visible_in_tree h || is_editor_hint h); [|by left].
    rewrite M4, Hrte.
    pose proof (process_post_mail n3) as Hp.
    pose proof (process_post_uploaded n3) as Up.
    pose proof (process_post_presentation n3) as Pp.
    apply mail_view_fields in Hp. destruct Hp as (P1 & P2 & P3 & P4).
    destruct (process_drain_presentation (process_post n3))
      as [(D1 & D2 & D3)|(_ & D2 & D3 & D4)]; cbv zeta in *.
    - left. by rewrite D1, D2, D3, Pp, P2, Up, Pa, M2.
    - right. rewrite P2, P3, M2, M3 in D2. rewrite P3, M3 in D3. done. }
  clearbody n4.
  destruct (_uploaded_this_frame n4 || applied); nsimpl; done.
Qed.

(** C3. On the 64-bit counter, as long as fewer than [2^64] ids have been
    handed out: along any interleaving of worker turns, ticks and path
    clearings, the ids the worker publishes into the finished-frame slot are
    strictly increasing, and the ids of the frames the ticks copy into the
    presentation image are strictly increasing and above the consumer's
    cursor at the start.  At a single tick with the worker in use, a slot
    whose id is not above [last_consumed_id] is not applied: nothing is
    uploaded and the cursor stands; and a frame that is applied has an id
    above [last_consumed_id], which becomes the new cursor.  Applying is
    copying: on a slot that is not ready or whose id is not above the
    cursor the drain changes nothing at all; at a tick of any node on such
    a slot the image, the texture shown and the texture ring are what the
    resize block of the tick left; and a tick after which they are not has
    copied the frame of the slot, whose id was above the cursor, is the new
    cursor and is the id counted as consumed by that tick. *)
Theorem frame_ids_strictly_increase (n : node) (ss : list step) :
  mailbox_ok n -> next_frame_id n + worker_turns ss < 2 ^ 64 ->
  StronglySorted Z.lt (published n ss)
  /\ StronglySorted Z.lt (consumed n ss)
  /\ Forall (fun i => last_consumed_id n < i) (consumed n ss)
  /\ (forall h d,
        render_thread_enabled n = true ->
        let n' := _process h n d in
        (FrameResult.id (latest_frame n) <= last_consumed_id n ->
           _uploaded_this_frame n' = false
           /\ last_consumed_id n' = last_consumed_id n)
        /\ (_uploaded_this_frame n' = true ->
           last_consumed_id n < FrameResult.id (latest_frame n)
           /\ last_consumed_id n' = FrameResult.id (latest_frame n)))
  /\ (forall m,
        FrameResult.ready (latest_frame m) = false
        \/ FrameResult.id (latest_frame m) <= last_consumed_id m ->
        process_drain m = m)
  /\ (forall m h d,
        render_thread_enabled m = true ->
        let r := fst (process_resize h (process_begin h m d)) in
        let m' := _process h m d in
        (FrameResult.id (latest_frame m) <= last_consumed_id m ->
           presentation m' = presentation r)
        /\ (presentation m' <> presentation r ->
           last_consumed_id m < FrameResult.id (latest_frame m)
           /\ last_consumed_id m' = FrameResult.id (latest_frame m)
           /\ consumed_by m (tick h d) = [FrameResult.id (latest_frame m)])).
Proof.
  intros Hok Hbudget.
  destruct (steps_mailbox ss n Hok Hbudget) as (S1 & _ & S3 & S4).
  repeat (split; [done|]).
  split; [|split].
  - intros h d Hrte. cbv zeta.
    destruct (process_mailbox h n d) as (_ & _ & _ & [[P4 P5]|(_ & P5 & P6 & P7)]).
    + split; [intros _; split; [by apply P5 | done]|].
      intros Hup. rewrite P5 in Hup by done. done.
    + split; [lia|]. done.
  - intros m Hm. by apply process_drain_nothing.
  - intros m h d Hrte. cbv zeta.
    destruct (process_presentation h m d Hrte) as [(P1 & P2 & P3)|(P1 & P2 & P3)];
      cbv zeta in *.
    + split; [done|]. intros Hne. done.
    + split; [lia|]. intros _. split; [done|]. split; [done|].
      unfold consumed_by. cbn [do_step]. by rewrite Hrte, P3, P2.
Qed.

(** A playing 2x2 node whose worker has a scene: three ticks with a worker
    turn after each of the first two.  Each tick posts the next frame, the
    worker publishes ids 1 and 2, and the second and third tick consume
    them in that order. *)
Definition tiny_node : node :=
  with_playing true (with_animation true
    (with_total_frames (F32.of_int 100) (with_duration (F32.of_int 2)
      (with_w_picture true (with_w_animation true
        (_initialize_thorvg (host_at_scale F32.one)
          (with_dynamic_resolution false
             (with_fit_box_size {| x := 2; y := 2 |}
                (with_render_size {| x := 2; y := 2 |} constructed))))))))).

Lemma frame_ids_strictly_increase_witness :
  let h := host_at_scale F32.one in
  let dt := F64.lit 1 60 in
  let ss := [tick h dt; worker_turn h; tick h dt; worker_turn h; tick h dt] in
  published tiny_node ss = [1; 2]
  /\ consumed tiny_node ss = [1; 2]
  /\ StronglySorted Z.lt (published tiny_node ss)
  /\ StronglySorted Z.lt (consumed tiny_node ss)
  /\ process_drain tiny_node = tiny_node
  /\ presentation (_process h tiny_node dt)
     = presentation (fst (process_resize h (process_begin h tiny_node dt))).
Proof.
  intros h dt ss.
  split; [vm_compute; reflexivity|]. split; [vm_compute; reflexivity|].
  destruct (frame_ids_strictly_increase tiny_node ss) as (Hp & Hc & _ & _ & Hd & Ht).
  - unfold mailbox_ok. vm_compute. repeat split; congruence.
  - vm_compute. reflexivity.
  - split; [assumption|]. split; [assumption|].
    split; [apply Hd; right; vm_compute; discriminate|].
    destruct (Ht tiny_node h dt eq_refl) as [Hs _]. apply Hs. vm_compute. discriminate.
Defined.

(** ** Waking the worker (C2) *)

(** Posting a segment sets its flag and signals the condition variable, but
    the predicate the worker waits on does not read that flag: a worker that
    was blocked stays blocked. *)
Lemma post_segment_keeps_worker_blocked h n b e :
  worker_wait_predicate n = false ->
  let n' := _post_segment_to_worker b e n in
  worker_wait_predicate n' = false
  /\ _worker_loop_turn h n' = blocked
  /\ (render_thread_enabled n = true -> segment_pending n' = true).
Proof.
  intros Hw. cbv zeta. unfold _post_segment_to_worker.
  assert (Hp : worker_wait_predicate
                 (with_segment_pending true
                    (with_pending_segment_end e (with_pending_segment_begin b n)))
               = worker_wait_predicate n) by reflexivity.
  unfold _worker_loop_turn.
  destruct (render_thread_enabled n); cbn [negb]; rewrite ?Hp, Hw; done.
Qed.

(** A render or a load request does wake it. *)
Lemma post_render_wakes_worker size f n :
  render_thread_enabled n = true ->
  worker_wait_predicate (_post_render_to_worker size f n) = true.
Proof.
  intros Hr. unfold _post_render_to_worker, worker_wait_predicate. rewrite Hr.
  cbn [negb]. nsimpl. by rewrite !orb_true_r.
Qed.

Lemma post_load_wakes_worker h path n :
  render_thread_enabled n = true ->
  worker_wait_predicate (_post_load_to_worker h path n) = true.
Proof.
  intros Hr. unfold _post_load_to_worker, worker_wait_predicate. rewrite Hr.
  cbn [negb]. destruct (is_empty path); nsimpl; by rewrite orb_true_r.
Qed.

(** C2, as the code has it.  The worker blocks until a stop, a load or a
    render request is pending; a pending segment is not part of the
    predicate.  On an idle worker with a loaded scene, posting the segment
    [10, 40) alone leaves the flag set and the worker blocked, and a turn of
    the loop applies no segment; the segment is applied on the turn a later
    render request wakes. *)
Theorem segment_post_alone_leaves_worker_blocked :
  let h := host_at_scale F32.one in
  let idle := with_w_picture true (with_w_animation true small_node) in
  let posted := _post_segment_to_worker (F32.of_int 10) (F32.of_int 40) idle in
  let later := _post_render_to_worker (render_size posted) (current_frame posted) posted in
  worker_wait_predicate idle = false
  /\ segment_pending posted = true
  /\ worker_wait_predicate posted = false
  /\ _worker_loop_turn h posted = blocked
  /\ w_effects (do_step posted (worker_turn h)) = w_effects posted
  /\ segment_pending (do_step posted (worker_turn h)) = true
  /\ In (animation_segment (F32.of_int 10) (F32.of_int 40))
        (w_effects (do_step later (worker_turn h)))
  /\ segment_pending (do_step later (worker_turn h)) = false.
Proof.
  cbv zeta.
  repeat (split; [vm_compute; reflexivity|]).
  split; [|vm_compute; reflexivity].
  vm_compute. left. reflexivity.
Qed.

(** ** Load failure (C1) *)

(** C1, as the code has it.  On a node with a canvas, loading
    [missing.json], which the engine cannot load and for which no mirrored
    copy can be made, returns false and emits no [animation_loaded]
    notification at all; the only failure that emits
    [animation_loaded(false)] is a [.lottie] archive from which no JSON can
    be extracted. *)
Theorem load_failure_emits_nothing :
  let h := host_at_scale F32.one in
  let failed := _load_animation h small_node "missing.json" in
  let archive := _load_animation h small_node "broken.lottie" in
  snd failed = false
  /\ loaded_signals (fst failed) = 0%nat
  /\ effects (fst failed)
     = effects small_node ++ [tvg animation_gen; tvg (picture_load "missing.json")]
  /\ snd archive = false
  /\ effects (fst archive)
     = effects small_node
       ++ [tvg animation_gen; emit_signal "animation_loaded" [VBool false]].
Proof.
  cbv zeta. repeat split; vm_compute; reflexivity.
Qed.

(** ** The usage registry *)

Lemma is_empty_false s : is_empty s = false <-> s <> EmptyString.
Proof. unfold is_empty. by rewrite String.eqb_neq. Qed.

Lemma is_empty_true s : is_empty s = true <-> s = EmptyString.
Proof. unfold is_empty. by rewrite String.eqb_eq. Qed.

Lemma registry_get_nonneg key n : registry_ok n -> 0 <= _registry_get key n < 2 ^ 31 - 1.
Proof.
  intros Hok. unfold _registry_get.
  destruct (g_anim_usage_counts n !! key) as [c|] eqn:E; simpl; [|lia].
  specialize (Hok key c E). simpl in Hok. lia.
Qed.

Lemma registry_get_zero key n :
  registry_ok n -> (_registry_get key n = 0 <-> g_anim_usage_counts n !! key = None).
Proof.
  intros Hok. unfold _registry_get.
  destruct (g_anim_usage_counts n !! key) as [c|] eqn:E; simpl; [|done].
  specialize (Hok key c E). simpl in Hok. split; [lia|done].
Qed.

(** X4. With positive counts in the registry and the count of [key] below
    [INT_MAX], [_registry_inc] adds one to the count of a non-empty key
    (none to the empty key), leaves every other key alone and keeps the
    counts positive; [_registry_dec] of the same key then gives back the
    node as it was. *)
Theorem registry_inc_dec (key : string) (n : node) :
  registry_ok n ->
  _registry_get key n < 2 ^ 31 - 2 ->
  let n1 := _registry_inc key n in
  registry_ok n1
  /\ _registry_get key n1
     = (if is_empty key then _registry_get key n else _registry_get key n + 1)
  /\ (forall k, k <> key -> _registry_get k n1 = _registry_get k n)
  /\ _registry_dec key n1 = n.
Proof.
  intros Hok Hmax n1. subst n1. unfold _registry_inc, _registry_dec.
  destruct (is_empty key) eqn:Hk; [done|].
  pose proof (registry_get_nonneg key n Hok) as Hc.
  unfold _registry_get in *. nsimpl.
  set (m := g_anim_usage_counts n) in *.
  split; [|split; [|split]].
  - unfold registry_ok. nsimpl. fold m. apply map_Forall_insert_2; [|done]. simpl.
    subst m. nsimpl. lia.
  - by rewrite lookup_insert_eq.
  - intros k Hne. by rewrite lookup_insert_ne.
  - rewrite lookup_insert_eq.
    replace (default 0 (m !! key) + 1 - 1) with (default 0 (m !! key)) by lia.
    destruct (m !! key) as [c|] eqn:E; simpl in *.
    + specialize (Hok key c E). simpl in Hok.
      destruct (c <=? 0) eqn:Ec; [apply Z.leb_le in Ec; lia|].
      rewrite insert_insert_eq, insert_id by done. done.
    + simpl. rewrite delete_insert_eq, delete_id by done. done.
Qed.

(** Two instances of one file, then one released. *)
Lemma registry_inc_dec_witness :
  let n := _registry_inc "a.json" constructed in
  let n1 := _registry_inc "a.json" n in
  _registry_get "a.json" n = 1
  /\ _registry_get "a.json" n1 = 2
  /\ _registry_dec "a.json" n1 = n.
Proof.
  cbv zeta.
  assert (Hok : registry_ok (_registry_inc "a.json" constructed)).
  { unfold registry_ok. apply map_Forall_insert_2; [split; vm_compute; reflexivity|]. apply map_Forall_empty. }
  assert (Hm : _registry_get "a.json" (_registry_inc "a.json" constructed) < 2 ^ 31 - 2)
    by (vm_compute; reflexivity).
  destruct (registry_inc_dec "a.json" _ Hok Hm) as (_ & H1 & _ & H2).
  split; [vm_compute; reflexivity|]. split; [exact H1 | exact H2].
Defined.

(** X5. [_registry_dec] never leaves a count at or below 0: the count of a
    non-empty key goes down by one and stops at 0, where the entry is erased
    (a key with count 1 is no longer in the map); a key that is not
    registered, and the empty key, leave the node as it is; other keys keep
    their counts. *)
Theorem registry_dec_saturates (key : string) (n : node) :
  registry_ok n ->
  let n1 := _registry_dec key n in
  registry_ok n1
  /\ _registry_get key n1
     = (if is_empty key then _registry_get key n else Z.max 0 (_registry_get key n - 1))
  /\ (forall k, k <> key -> _registry_get k n1 = _registry_get k n)
  /\ (_registry_get key n = 0 -> n1 = n)
  /\ (is_empty key = false -> _registry_get key n = 1 ->
      g_anim_usage_counts n1 !! key = None).
Proof.
  intros Hok n1. subst n1. unfold _registry_dec.
  destruct (is_empty key) eqn:Hk; [repeat (split; [done|]); done|].
  unfold _registry_get.
  destruct (g_anim_usage_counts n !! key) as [c|] eqn:E.
  2: { rewrite E. simpl. repeat (split; [done|]). done. }
  pose proof (Hok key c E) as Hc. simpl in Hc.
  destruct (c - 1 <=? 0) eqn:Ec.
  - apply Z.leb_le in Ec. split; [|split; [|split; [|split]]].
    + unfold registry_ok. nsimpl. by apply map_Forall_delete.
    + nsimpl. rewrite lookup_delete_eq. simpl. lia.
    + intros k Hne. nsimpl. by rewrite lookup_delete_ne.
    + simpl. lia.
    + intros _ _. nsimpl. apply lookup_delete_eq.
  - apply Z.leb_gt in Ec. split; [|split; [|split; [|split]]].
    + unfold registry_ok. nsimpl. apply map_Forall_insert_2; [simpl; lia|done].
    + nsimpl. rewrite lookup_insert_eq. simpl. lia.
    + intros k Hne. nsimpl. by rewrite lookup_insert_ne.
    + simpl. lia.
    + simpl. lia.
Qed.

(** One instance released twice. *)
Lemma registry_dec_saturates_witness :
  let n := _registry_inc "a.json" constructed in
  _registry_get "a.json" (_registry_dec "a.json" n) = 0
  /\ _registry_dec "a.json" (_registry_dec "a.json" n) = _registry_dec "a.json" n
  /\ _registry_get "b.json" (_registry_dec "a.json" n) = 0.
Proof.
  cbv zeta.
  assert (Hok : registry_ok (_registry_inc "a.json" constructed)).
  { unfold registry_ok. apply map_Forall_insert_2; [split; vm_compute; reflexivity|]. apply map_Forall_empty. }
  destruct (registry_dec_saturates "a.json" _ Hok) as (Hok1 & H1 & _ & _ & _).
  destruct (registry_dec_saturates "a.json" _ Hok1) as (_ & _ & _ & H2 & _).
  split; [exact H1|]. split; [apply H2; vm_compute; reflexivity | vm_compute; reflexivity].
Defined.

(** ** Loading and the registry *)

Create Rewrite HintDb registry_db.
Ltac keep_registry := keep_gen ltac:(autorewrite with registry_db).

Lemma eff_registry e n : registry_view (eff e n) = registry_view n.
Proof. reflexivity. Qed.
Lemma call_registry c n : registry_view (call c n) = registry_view n.
Proof. reflexivity. Qed.
#[local] Hint Rewrite eff_registry call_registry : registry_db.

Lemma create_texture_registry n : registry_view (_create_texture n) = registry_view n.
Proof. unfold _create_texture, _recreate_texture_ring. keep_registry. Qed.
#[local] Hint Rewrite create_texture_registry : registry_db.

Lemma upload_image_registry n : registry_view (upload_image n) = registry_view n.
Proof. unfold upload_image. keep_registry. Qed.
#[local] Hint Rewrite upload_image_registry : registry_db.

Lemma ensure_cache_capacity_registry n :
  registry_view (_ensure_cache_capacity n) = registry_view n.
Proof. reflexivity. Qed.
#[local] Hint Rewrite ensure_cache_capacity_registry : registry_db.

Lemma allocate_registry h size n :
  registry_view (_allocate_buffer_and_target h size n) = registry_view n.
Proof. unfold _allocate_buffer_and_target. keep_registry. Qed.
#[local] Hint Rewrite allocate_registry : registry_db.

Lemma apply_sizing_registry h n : registry_view (_apply_sizing_policy h n) = registry_view n.
Proof. apply allocate_registry. Qed.
#[local] Hint Rewrite apply_sizing_registry : registry_db.

Lemma apply_fit_registry n :
  registry_view (_apply_picture_transform_to_fit n) = registry_view n.
Proof. unfold _apply_picture_transform_to_fit. by destruct (picture n). Qed.
#[local] Hint Rewrite apply_fit_registry : registry_db.

Lemma render_frame_registry h n : registry_view (_render_frame h n) = registry_view n.
Proof. unfold _render_frame, render_frame_body. keep_registry. Qed.
#[local] Hint Rewrite render_frame_registry : registry_db.

Lemma post_load_registry h p n : registry_view (_post_load_to_worker h p n) = registry_view n.
Proof. unfold _post_load_to_worker. keep_registry. Qed.
Lemma post_render_registry s f n :
  registry_view (_post_render_to_worker s f n) = registry_view n.
Proof. unfold _post_render_to_worker. keep_registry. Qed.
Lemma post_segment_registry b e n :
  registry_view (_post_segment_to_worker b e n) = registry_view n.
Proof. unfold _post_segment_to_worker. keep_registry. Qed.
#[local] Hint Rewrite post_load_registry post_render_registry post_segment_registry
  : registry_db.

Lemma apply_segment_registry h n :
  registry_view (_apply_selected_state_segment h n) = registry_view n.
Proof. unfold _apply_selected_state_segment. keep_registry. Qed.
#[local] Hint Rewrite apply_segment_registry : registry_db.

Lemma recompute_live_cache_registry n :
  registry_view (_recompute_live_cache_state n) = registry_view n.
Proof. unfold _recompute_live_cache_state. keep_registry. Qed.
#[local] Hint Rewrite recompute_live_cache_registry : registry_db.

(** The part of [_load_animation] before the file is read: the previous
    picture is dropped and blanked, a new animation object made. *)
Lemma load_prefix_registry n :
  registry_view
    (if picture n then
       let n := call canvas_remove n in
       let n := with_picture false n in
       let n := with_animation false n in
       let n := match buffer n with
                | Some _ => with_buffer (Some (zeros (area (render_size n)))) n
                | None => n
                end in
       match image n with
       | Some img =>
           let n := with_pixel_bytes (zeros (length (pixel_bytes n))) n in
           let n := with_image
                      (Some (Image_set_data (x (render_size n)) (y (render_size n))
                                            (pixel_bytes n) img)) n in
           match texture n, image n with
           | Some _, Some img' => with_texture (Some (data img')) n
           | _, _ => n
           end
       | None => n
       end
     else n)
  = registry_view n.
Proof. keep_registry. Qed.

Lemma registry_dec_counts k a b :
  g_anim_usage_counts a = g_anim_usage_counts b ->
  g_anim_usage_counts (_registry_dec k a) = g_anim_usage_counts (_registry_dec k b).
Proof.
  intros H. unfold _registry_dec. destruct (is_empty k); [done|]. nsimpl. rewrite H.
  destruct (out_g_anim_usage_counts (out b) !! k) as [c|]; [|done].
  destruct (c - 1 <=? 0); nsimpl; done.
Qed.

Lemma registry_inc_counts k a b :
  g_anim_usage_counts a = g_anim_usage_counts b ->
  g_anim_usage_counts (_registry_inc k a) = g_anim_usage_counts (_registry_inc k b).
Proof.
  intros H. unfold _registry_inc. destruct (is_empty k); [done|]. nsimpl. by rewrite H.
Qed.

Ltac decide_ifs := repeat (progress (change (negb true) with false; cbv beta iota)).

Lemma load_registry (h : host) (n : node) (path : string) :
  canvas n = true ->
  is_empty path = false ->
  picture_created h = true ->
  ends_with (to_lower path) ".lottie" = false ->
  picture_load_ok h (globalize_path h path) = true ->
  registry_view (fst (_load_animation h n path))
  = (path,
     g_anim_usage_counts
         (_registry_inc path
            (if negb (is_empty (animation_key n)) && negb (String.eqb (animation_key n) path)
             then _registry_dec (animation_key n) n else n))).
Proof.
  intros Hc Hp Hpc Hl Hok. unfold _load_animation.
  rewrite Hp, Hc. decide_ifs.
  match goal with |- context [call animation_gen ?a] => set (n1 := a) end.
  assert (H1 : registry_view n1 = registry_view n) by apply load_prefix_registry.
  clearbody n1.
  set (n4 := with_picture _ _).
  assert (H4 : registry_view n4 = registry_view n) by (rewrite <- H1; reflexivity).
  assert (Hp4 : picture n4 = true) by exact Hpc.
  clearbody n4. clear n1 H1.
  rewrite Hp4. decide_ifs. rewrite Hl. cbv beta iota. decide_ifs.
  unfold _try_load_path. rewrite Hok. cbv beta iota. decide_ifs.
  set (n5 := call (picture_load _) n4).
  assert (H5 : registry_view n5 = registry_view n) by (rewrite <- H4; reflexivity).
  clearbody n5. clear n4 H4 Hp4.
  set (n6 := if _ && _ then _registry_dec _ n5 else n5).
  set (n8 := _registry_inc _ _).
  assert (H8 : registry_view n8
               = (path,
                  g_anim_usage_counts
                    (_registry_inc path
                       (if negb (is_empty (animation_key n))
                           && negb (String.eqb (animation_key n) path)
                        then _registry_dec (animation_key n) n else n)))).
  { unfold registry_view in *. simplify_eq. subst n8 n6.
    f_equal.
    - unfold _registry_inc. by destruct (is_empty _).
    - change (animation_key (with_animation_key path ?a)) with path.
      apply registry_inc_counts.
      transitivity (g_anim_usage_counts
                      (if negb (is_empty (animation_key n5))
                          && negb (String.eqb (animation_key n5) path)
                       then _registry_dec (animation_key n5) n5 else n5)); [reflexivity|].
      rewrite H. destruct (_ && _); [by apply registry_dec_counts | done]. }
  clearbody n8. clear n6.
  rewrite <- H8.
  destruct (picture_size h) as [pw ph].
  destruct (F32.leb pw F32.zero || F32.leb ph F32.zero); cbv beta iota;
    destruct (canvas_push_ok h); decide_ifs; try (change (negb false) with true; cbv beta iota);
    cbn [fst]; keep_registry.
Qed.

Lemma registry_inc_get key k n :
  is_empty key = false ->
  _registry_get k (_registry_inc key n)
  = if decide (k = key) then _registry_get k n + 1 else _registry_get k n.
Proof.
  intros Hk. unfold _registry_inc, _registry_get. rewrite Hk. nsimpl.
  destruct (decide (k = key)) as [->|Hne].
  - by rewrite lookup_insert_eq.
  - by rewrite lookup_insert_ne.
Qed.

Lemma registry_inc_ok key n :
  registry_ok n -> _registry_get key n < 2 ^ 31 - 2 -> registry_ok (_registry_inc key n).
Proof.
  intros Hok Hmax. unfold _registry_inc. destruct (is_empty key); [done|].
  pose proof (registry_get_nonneg key n Hok) as Hc.
  unfold registry_ok, _registry_get in *. nsimpl.
  apply map_Forall_insert_2; [simpl; lia|done].
Qed.

Lemma registry_dec_get key k n :
  registry_ok n -> is_empty key = false ->
  _registry_get k (_registry_dec key n)
  = if decide (k = key) then Z.max 0 (_registry_get k n - 1) else _registry_get k n.
Proof.
  intros Hok Hk. unfold _registry_dec, _registry_get. rewrite Hk.
  destruct (g_anim_usage_counts n !! key) as [c|] eqn:E.
  - pose proof (Hok key c E) as Hc. simpl in Hc.
    destruct (c - 1 <=? 0) eqn:Ec; nsimpl; destruct (decide (k = key)) as [->|Hne].
    + apply Z.leb_le in Ec. rewrite lookup_delete_eq, E. simpl. lia.
    + by rewrite lookup_delete_ne.
    + apply Z.leb_gt in Ec. rewrite lookup_insert_eq, E. simpl. lia.
    + by rewrite lookup_insert_ne.
  - destruct (decide (k = key)) as [->|Hne]; [|done]. rewrite E. done.
Qed.

Lemma registry_dec_ok key n : registry_ok n -> registry_ok (_registry_dec key n).
Proof.
  intros Hok. unfold _registry_dec. destruct (is_empty key); [done|].
  destruct (g_anim_usage_counts n !! key) as [c|] eqn:E; [|done].
  pose proof (Hok key c E) as Hc. simpl in Hc.
  destruct (c - 1 <=? 0) eqn:Ec; unfold registry_ok; nsimpl.
  - by apply map_Forall_delete.
  - apply Z.leb_gt in Ec. apply map_Forall_insert_2; [simpl; lia|done].
Qed.

(** X6. A load that reads its file (a path that is not a [.lottie] archive
    and that the engine loads) makes the path the node's [animation_key] and
    adds one to the count of the path, also when the node was already
    counted under that path: a reload counts the node again, and nothing is
    given back.  A previous key that differs from the path loses one, down
    to its erasure at 0; every other key keeps its count, and the counts stay
    positive.  This holds whether or not the picture can then be pushed to
    the canvas. *)
Theorem load_counts_instance (h : host) (n : node) (path : string) :
  canvas n = true ->
  is_empty path = false ->
  picture_created h = true ->
  ends_with (to_lower path) ".lottie" = false ->
  picture_load_ok h (globalize_path h path) = true ->
  registry_ok n ->
  _registry_get path n < 2 ^ 31 - 2 ->
  let n' := fst (_load_animation h n path) in
  animation_key n' = path
  /\ registry_ok n'
  /\ _registry_get path n' = _registry_get path n + 1
  /\ (is_empty (animation_key n) = false -> animation_key n <> path ->
      _registry_get (animation_key n) n'
      = Z.max 0 (_registry_get (animation_key n) n - 1))
  /\ (forall k, k <> path -> k <> animation_key n ->
      _registry_get k n' = _registry_get k n).
Proof.
  intros Hc Hp Hpc Hl Hok Hreg Hmax n'.
  pose proof (load_registry h n path Hc Hp Hpc Hl Hok) as H. fold n' in H.
  unfold registry_view in H. injection H as Hkey Hg.
  set (old := animation_key n) in *.
  set (m := if negb (is_empty old) && negb (String.eqb old path)
            then _registry_dec old n else n) in *.
  assert (Hget : forall k, _registry_get k n' = _registry_get k (_registry_inc path m)).
  { intros k. unfold _registry_get. by rewrite Hg. }
  assert (Hm_ok : registry_ok m).
  { subst m. destruct (_ && _); [by apply registry_dec_ok | done]. }
  assert (Hm_get : forall k, _registry_get k m
                   = if decide (k = old /\ is_empty old = false /\ old <> path)
                     then Z.max 0 (_registry_get k n - 1) else _registry_get k n).
  { intros k. subst m. destruct (is_empty old) eqn:Eo; simpl.
    - destruct (decide _) as [(_ & ? & _)|]; done.
    - destruct (String.eqb old path) eqn:Ee; simpl.
      + apply String.eqb_eq in Ee. destruct (decide _) as [(_ & _ & ?)|]; done.
      + apply String.eqb_neq in Ee. rewrite registry_dec_get by done.
        destruct (decide (k = old)) as [->|Hk]; destruct (decide _) as [(? & ? & ?)|Hn];
          try done. exfalso. by apply Hn. }
  split; [done|]. split; [|split; [|split]].
  - unfold registry_ok. rewrite Hg. apply registry_inc_ok; [done|].
    rewrite Hm_get. destruct (decide _) as [(? & _ & ?)|]; [congruence|done].
  - rewrite Hget, registry_inc_get by done. rewrite decide_True by done.
    rewrite Hm_get. destruct (decide _) as [(? & _ & ?)|]; [congruence|done].
  - intros Ho Hne. rewrite Hget, registry_inc_get by done.
    rewrite decide_False by done. rewrite Hm_get. by rewrite decide_True.
  - intros k Hk1 Hk2. rewrite Hget, registry_inc_get by done.
    rewrite decide_False by done. rewrite Hm_get.
    destruct (decide _) as [(? & _)|]; done.
Qed.

(** The same file loaded twice by one node. *)
Lemma load_counts_instance_witness :
  let n1 := fst (_load_animation host_loading small_node "a.json") in
  let n2 := fst (_load_animation host_loading n1 "a.json") in
  _registry_get "a.json" n1 = 1 /\ _registry_get "a.json" n2 = 2.
Proof.
  cbv zeta.
  assert (Hok : registry_ok small_node) by (unfold registry_ok; apply map_Forall_empty).
  destruct (load_counts_instance host_loading small_node "a.json"
              eq_refl eq_refl eq_refl eq_refl eq_refl Hok ltac:(vm_compute; reflexivity))
    as (_ & Hok1 & H1 & _).
  split; [exact H1|].
  destruct (load_counts_instance host_loading
              (fst (_load_animation host_loading small_node "a.json")) "a.json"
              ltac:(vm_compute; reflexivity) eq_refl eq_refl eq_refl eq_refl Hok1
              ltac:(vm_compute; reflexivity))
    as (_ & _ & H2 & _).
  rewrite H2, H1. reflexivity.
Defined.

(** ** Frame quantization *)

Lemma round_to_int_range v : - 2 ^ 31 <= F32.round_to_int v < 2 ^ 31.
Proof.
  unfold F32.round_to_int.
  destruct (F32.is_finite v && (- 2 ^ 31 <=? F32.round v) && (F32.round v <? 2 ^ 31)) eqn:E;
    [|lia].
  apply andb_true_iff in E. destruct E as [E E2]. apply andb_true_iff in E.
  destruct E as [_ E1]. apply Z.leb_le in E1. apply Z.ltb_lt in E2. lia.
Qed.

(** X7. [_quantized_frame_index] is an [int] again.  With a cache step of 1
    or less it is the frame rounded to the nearest integer; with a larger
    step it is a multiple of the step, less than one step away from the
    rounded frame and on the side of zero: the rounded frame is truncated,
    not rounded, to the grid of the step. *)
Theorem quantized_frame_index_grid (n : node) :
  let idx := F32.round_to_int (current_frame n) in
  let q := _quantized_frame_index n in
  - 2 ^ 31 <= q < 2 ^ 31
  /\ (frame_cache_step n <= 1 -> q = idx)
  /\ (1 < frame_cache_step n ->
      q mod frame_cache_step n = 0
      /\ Z.abs (idx - q) < frame_cache_step n
      /\ (0 <= idx -> 0 <= q <= idx)
      /\ (idx <= 0 -> idx <= q <= 0)).
Proof.
  intros idx q. pose proof (round_to_int_range (current_frame n)) as Hr. fold idx in Hr.
  subst q. unfold _quantized_frame_index. fold idx.
  destruct (frame_cache_step n <=? 1) eqn:E.
  { apply Z.leb_le in E. split; [done|]. split; [done|]. lia. }
  apply Z.leb_gt in E. rewrite Z.max_r by lia.
  set (s := frame_cache_step n) in *.
  pose proof (Z.quot_rem' idx s) as Hqr.
  pose proof (Z.rem_bound_abs idx s ltac:(lia)) as Hab.
  assert (Hpos : 0 <= idx -> 0 <= Z.rem idx s /\ 0 <= Z.quot idx s).
  { intros Hi. split; [apply Z.rem_nonneg; lia | apply Z.quot_pos; lia]. }
  assert (Hneg : idx <= 0 -> Z.rem idx s <= 0 /\ Z.quot idx s <= 0).
  { intros Hi. split; [apply Z.rem_nonpos; lia|].
    rewrite <- (Z.opp_involutive idx). rewrite Z.quot_opp_l by lia.
    assert (0 <= Z.quot (- idx) s) by (apply Z.quot_pos; lia). lia. }
  assert (Hgrid : (Z.quot idx s * s) mod s = 0) by (apply Z.mod_mul; lia).
  split; [|split; [lia|]].
  - destruct (Z.le_ge_cases 0 idx) as [Hi|Hi]; [destruct (Hpos Hi)|destruct (Hneg Hi)]; nia.
  - intros _. split; [done|]. split; [|split].
    + replace (idx - Z.quot idx s * s) with (Z.rem idx s) by lia. lia.
    + intros Hi. destruct (Hpos Hi). nia.
    + intros Hi. destruct (Hneg Hi). nia.
Qed.

(** Frame 13.5 rounds to 14 and is quantized to 12 with a step of 4. *)
Lemma quantized_frame_index_grid_witness :
  let n := with_frame_cache_step 4 (with_current_frame (F32.lit 27 2) constructed) in
  F32.round_to_int (current_frame n) = 14
  /\ _quantized_frame_index n = 12
  /\ _quantized_frame_index n mod frame_cache_step n = 0.
Proof.
  cbv zeta.
  set (n := with_frame_cache_step 4 (with_current_frame (F32.lit 27 2) constructed)).
  destruct (quantized_frame_index_grid n) as (_ & _ & H).
  destruct (H ltac:(vm_compute; reflexivity)) as (Hg & _).
  split; [vm_compute; reflexivity|]. split; [vm_compute; reflexivity | exact Hg].
Defined.

(** ** The texture ring *)

Lemma ring_ok_view a b : ring_view a = ring_view b -> ring_ok b -> ring_ok a.
Proof. unfold ring_view, ring_ok. intros H. simplify_eq. by rewrite H, H0. Qed.

Lemma recreate_texture_ring_spec n :
  let n' := _recreate_texture_ring n in
  texture_ring n' = replicate (Z.to_nat (Z.max 2 (texture_ring_size n))) (data <$> image n)
  /\ texture_ring_index n' = 0
  /\ texture n' = (data <$> image n)
  /\ image n' = image n.
Proof.
  cbv zeta. unfold _recreate_texture_ring.
  set (k := Z.to_nat (Z.max 2 (texture_ring_size n))).
  assert (Hk : exists k', k = S k') by (exists (pred k); lia).
  destruct Hk as [k' Hk]. cbv zeta. nsimpl. fold k. rewrite Hk. simpl. nsimpl. done.
Qed.

Lemma recreate_texture_ring_ok n : ring_ok (_recreate_texture_ring n).
Proof.
  destruct (recreate_texture_ring_spec n) as (Hr & Hi & _). cbv zeta in *.
  unfold ring_ok. rewrite Hr, Hi, length_replicate. lia.
Qed.

Lemma create_texture_ok n : ring_ok (_create_texture n).
Proof. unfold _create_texture. apply recreate_texture_ring_ok. Qed.

Lemma upload_image_ok n : ring_ok n -> ring_ok (upload_image n).
Proof.
  intros [H0 H1]. unfold upload_image.
  destruct (image n) as [img|]; [|done].
  destruct (texture_ring n) as [|t ring] eqn:Er.
  { destruct (texture n); [|done]. unfold ring_ok. nsimpl. rewrite Er. done. }
  rewrite <- Er in *.
  destruct (texture_ring n !! Z.to_nat (texture_ring_index n)) as [[v|]|] eqn:El;
    try done.
  cbv zeta. unfold ring_ok. nsimpl. rewrite length_insert.
  specialize (H1 ltac:(rewrite Er; done)).
  match goal with
  | |- context [Z.rem ?a ?b] => pose proof (Z.rem_bound_pos a b) as Hb
  end.
  split; [|intros _]; lia.
Qed.

Lemma length_resize_bytes k l : length (resize_bytes k l) = k.
Proof.
  unfold resize_bytes, zeros. rewrite length_take, length_app, length_replicate. lia.
Qed.

Lemma allocate_ok h size n : ring_ok n -> ring_ok (_allocate_buffer_and_target h size n).
Proof.
  intros Hok. unfold _allocate_buffer_and_target.
  destruct ((x size <=? 0) || (y size <=? 0)); [done|]. cbv zeta.
  match goal with |- context [_create_texture ?a] => set (n1 := a) end.
  pose proof (create_texture_ok n1) as H1.
  destruct (recreate_texture_ring_spec (with_image (Image_create (render_size n1)) n1))
    as (Hr & Hi & _). cbv zeta in Hr, Hi.
  fold (_create_texture n1) in Hr, Hi.
  set (n2 := _create_texture n1) in *. clearbody n2.
  destruct (image n) as [old|]; [|done].
  destruct (image n2); [|done].
  destruct (negb _); [|done].
  destruct (texture_ring n2) as [|[t|] ring] eqn:Er.
  - destruct (texture n2); [|done]. unfold ring_ok in *. nsimpl. rewrite Er in *. done.
  - clear H1. unfold ring_ok. nsimpl. rewrite Hi. split; [lia|]. intros _.
    rewrite length_cons. lia.
  - done.
Qed.

Lemma create_texture_keeps n :
  let n' := _create_texture n in
  render_size n' = render_size n /\ buffer n' = buffer n
  /\ pixel_bytes n' = pixel_bytes n /\ effects n' = effects n
  /\ texture_ring_size n' = texture_ring_size n.
Proof.
  cbv zeta. unfold _create_texture, _recreate_texture_ring.
  repeat split; keep_gen idtac.
Qed.

(** X8. For a positive size, under a positive [max_render_size],
    [_allocate_buffer_and_target] sets [render_size] to the size clamped to
    the maximum on each axis and leaves everything sized for it: a zeroed
    buffer of [w*h] pixels, [4*w*h] pixel bytes, a transparent [w*h] image
    and a ring of [max(2, texture_ring_size)] textures with the index at 0.
    The texture shown is the first slot of the ring; it holds the previous
    image scaled to the new size when there was one of another size, and the
    transparent image otherwise.  The canvas is retargeted once. *)
Theorem allocate_postcondition (h : host) (size : Vector2i) (n : node) :
  0 < x size -> 0 < y size ->
  0 < x (max_render_size n) -> 0 < y (max_render_size n) ->
  let n' := _allocate_buffer_and_target h size n in
  let rs := {| x := Z.min (x size) (x (max_render_size n));
               y := Z.min (y size) (y (max_render_size n)) |} in
  render_size n' = rs
  /\ buffer n' = Some (zeros (area rs))
  /\ length (pixel_bytes n') = (area rs * 4)%nat
  /\ image n' = Some {| width := x rs; height := y rs; data := zeros (area rs * 4) |}
  /\ length (texture_ring n') = Z.to_nat (Z.max 2 (texture_ring_size n))
  /\ texture_ring_index n' = 0
  /\ texture n'
     = Some (match image n with
             | Some old => if Vector2i_eqb (render_size n) rs then zeros (area rs * 4)
                           else image_resize_bilinear h old (x rs) (y rs)
             | None => zeros (area rs * 4)
             end)
  /\ texture_ring n' !! 0%nat = Some (texture n')
  /\ effects n' = effects n ++ [tvg (canvas_target (x rs) (y rs))].
Proof.
  intros Hx Hy Hmx Hmy n' rs. subst n'. unfold _allocate_buffer_and_target.
  destruct ((x size <=? 0) || (y size <=? 0)) eqn:Hg.
  { apply orb_true_iff in Hg. destruct Hg as [Hg|Hg]; apply Z.leb_le in Hg; lia. }
  cbv zeta.
  match goal with |- context [_create_texture ?a] => set (n1 := a) end.
  assert (Hrs : render_size n1 = rs) by reflexivity.
  assert (Hb : buffer n1 = Some (zeros (area rs))) by reflexivity.
  assert (Hpb : length (pixel_bytes n1) = (area rs * 4)%nat).
  { subst n1. nsimpl. apply length_resize_bytes. }
  assert (He : effects n1 = effects n ++ [tvg (canvas_target (x rs) (y rs))]) by reflexivity.
  assert (Hts : texture_ring_size n1 = texture_ring_size n) by reflexivity.
  clearbody n1.
  destruct (recreate_texture_ring_spec (with_image (Image_create (render_size n1)) n1))
    as (Hr & Hi & Ht & Him). cbv zeta in Hr, Hi, Ht, Him.
  fold (_create_texture n1) in Hr, Hi, Ht, Him.
  assert (Hc : Image_create rs
               = Some {| width := x rs; height := y rs; data := zeros (area rs * 4) |}).
  { unfold Image_create. subst rs. simpl.
    destruct (0 <? _) eqn:E1; [|apply Z.ltb_ge in E1; lia].
    destruct (0 <? Z.min (y size) _) eqn:E2; [|apply Z.ltb_ge in E2; lia]. done. }
  destruct (create_texture_keeps n1) as (K1 & K2 & K3 & K4 & K5). cbv zeta in *.
  change (texture_ring_size (with_image (Image_create (render_size n1)) n1))
    with (texture_ring_size n1) in Hr.
  change (image (with_image (Image_create (render_size n1)) n1))
    with (Image_create (render_size n1)) in Hr, Ht, Him.
  set (n2 := _create_texture n1) in *. clearbody n2.
  rewrite Hrs, Hc in Hr, Ht, Him. rewrite Hrs in K1. rewrite Hts in Hr.
  cbn [fmap option_fmap option_map data] in Hr, Ht.
  assert (Hk : exists k', Z.to_nat (Z.max 2 (texture_ring_size n)) = S k')
    by (exists (pred (Z.to_nat (Z.max 2 (texture_ring_size n)))); lia).
  destruct Hk as [k' Hk].
  assert (Hbase :
    render_size n2 = rs
    /\ buffer n2 = Some (zeros (area rs))
    /\ length (pixel_bytes n2) = (area rs * 4)%nat
    /\ image n2 = Some {| width := x rs; height := y rs; data := zeros (area rs * 4) |}
    /\ length (texture_ring n2) = Z.to_nat (Z.max 2 (texture_ring_size n))
    /\ texture_ring_index n2 = 0
    /\ texture n2 = Some (zeros (area rs * 4))
    /\ texture_ring n2 !! 0%nat = Some (texture n2)
    /\ effects n2 = effects n ++ [tvg (canvas_target (x rs) (y rs))]).
  { rewrite K1, K2, K3, K4, Hr, Ht, length_replicate, Hk. repeat split; try done. }
  clear Him.
  destruct Hbase as (B1 & B2 & B3 & B4 & B5 & B6 & B7 & B8 & B9).
  rewrite B4.
  destruct (image n) as [old|] eqn:Eold.
  2: { repeat (split; [done|]). done. }
  rewrite B1.
  destruct (Vector2i_eqb (render_size n) rs) eqn:Eeq; cbn [negb].
  { repeat (split; [done|]). done. }
  rewrite Hr, Hk. cbn [replicate].
  repeat split; try done.
  nsimpl. rewrite length_cons, length_replicate. done.
Qed.

(** A request wider than the maximum. *)
Lemma allocate_postcondition_witness :
  let n0 := with_max_render_size {| x := 16; y := 16 |} constructed in
  let n := _allocate_buffer_and_target (host_at_scale F32.one) {| x := 20; y := 8 |} n0 in
  render_size n = {| x := 16; y := 8 |}
  /\ length (pixel_bytes n) = 512%nat
  /\ length (texture_ring n) = 3%nat.
Proof.
  cbv zeta.
  destruct (allocate_postcondition (host_at_scale F32.one) {| x := 20; y := 8 |}
              (with_max_render_size {| x := 16; y := 16 |} constructed)
              ltac:(simpl; lia) ltac:(simpl; lia)
              ltac:(vm_compute; reflexivity) ltac:(vm_compute; reflexivity))
    as (H1 & _ & H3 & _ & H5 & _).
  split; [exact H1|]. split; [exact H3 | exact H5].
Defined.

(** Proves that a method keeps the invariant [ring_ok], goal
    [ring_ok (method ... n)] with [ring_ok n] among the hypotheses, walking
    the body as [keep_gen] does. *)
Ltac ring_gen rw :=
  lazymatch goal with
  | |- ring_ok ?t =>
    first
    [ assumption
    | lazymatch t with
      | (let x := ?e in @?body x) =>
          let T := type of e in
          lazymatch T with
          | node =>
              let H := fresh "Hinv" in
              assert (H : ring_ok e);
              [ ring_gen rw
              | revert H; generalize e;
                let y := fresh "n" in
                intros y H;
                let t' := eval cbv beta in (body y) in
                change (ring_ok t');
                ring_gen rw ]
          | _ =>
              let t' := eval cbv beta in (body e) in
              change (ring_ok t');
              ring_gen rw
          end
      | match ?x with _ => _ end => destruct x eqn:?; ring_gen rw
      | _ =>
          first
          [ rw; ring_gen rw
          | lazymatch t with
            | ?s ?v ?n1 => change (ring_ok n1); ring_gen rw
            end ]
      end ]
  end.

Create Rewrite HintDb ring_db.
Ltac keep_ring := keep_gen ltac:(autorewrite with ring_db).

Lemma post_render_ring s f n : ring_view (_post_render_to_worker s f n) = ring_view n.
Proof. unfold _post_render_to_worker. keep_ring. Qed.
Lemma post_load_ring h p n : ring_view (_post_load_to_worker h p n) = ring_view n.
Proof. unfold _post_load_to_worker. keep_ring. Qed.
Lemma post_segment_ring b e n : ring_view (_post_segment_to_worker b e n) = ring_view n.
Proof. unfold _post_segment_to_worker. keep_ring. Qed.
#[local] Hint Rewrite post_render_ring post_load_ring post_segment_ring : ring_db.

Lemma update_animation_ring n d : ring_view (_update_animation n d) = ring_view n.
Proof. unfold _update_animation. keep_ring. Qed.
Lemma update_resolution_ring h n : ring_view (_update_resolution_from_scale h n) = ring_view n.
Proof. unfold _update_resolution_from_scale. keep_ring. Qed.
Lemma apply_fit_ring n : ring_view (_apply_picture_transform_to_fit n) = ring_view n.
Proof. unfold _apply_picture_transform_to_fit. keep_ring. Qed.
Lemma process_post_ring n : ring_view (process_post n) = ring_view n.
Proof. unfold process_post. keep_ring. Qed.
#[local] Hint Rewrite update_animation_ring update_resolution_ring apply_fit_ring
  process_post_ring : ring_db.
Lemma process_begin_ring h n d : ring_view (process_begin h n d) = ring_view n.
Proof. unfold process_begin. keep_ring. Qed.

Lemma worker_apply_target_ring s n : ring_view (_worker_apply_target_if_needed s n) = ring_view n.
Proof. unfold _worker_apply_target_if_needed. keep_ring. Qed.
Lemma worker_apply_fit_ring n : ring_view (_worker_apply_fit_transform n) = ring_view n.
Proof. unfold _worker_apply_fit_transform. keep_ring. Qed.
#[local] Hint Rewrite worker_apply_target_ring worker_apply_fit_ring : ring_db.
Lemma worker_load_ring h p n : ring_view (worker_load h p n) = ring_view n.
Proof. unfold worker_load. keep_ring. Qed.
Lemma publish_ring t n : ring_view (publish t n) = ring_view n.
Proof. reflexivity. Qed.
#[local] Hint Rewrite worker_load_ring publish_ring : ring_db.
Lemma worker_render_ring h s f n : ring_view (worker_render h s f n) = ring_view n.
Proof. unfold worker_render. keep_ring. Qed.
#[local] Hint Rewrite worker_render_ring : ring_db.
Lemma worker_iteration_ring h n : ring_view (worker_iteration h n) = ring_view n.
Proof. unfold worker_iteration. keep_ring. Qed.

Lemma clear_path_ring h n : ring_view (set_animation_path h n EmptyString) = ring_view n.
Proof.
  unfold set_animation_path. destruct (String.eqb _ _); [done|].
  cbv beta iota. change (is_empty EmptyString) with true. cbn [negb]. keep_ring.
Qed.

Ltac ring_step :=
  first
  [ apply upload_image_ok
  | apply create_texture_ok
  | apply recreate_texture_ring_ok
  | apply allocate_ok
  | eapply ring_ok_view; [apply update_animation_ring|]
  | eapply ring_ok_view; [apply update_resolution_ring|]
  | eapply ring_ok_view; [apply apply_fit_ring|]
  | eapply ring_ok_view; [apply process_post_ring|]
  | eapply ring_ok_view; [apply post_render_ring|] ].

Lemma render_frame_ok h n : ring_ok n -> ring_ok (_render_frame h n).
Proof.
  intros Hok. unfold _render_frame, render_frame_body, _ensure_cache_capacity.
  ring_gen ltac:(apply upload_image_ok).
Qed.

Lemma process_drain_ok n : ring_ok n -> ring_ok (process_drain n).
Proof. intros Hok. unfold process_drain. ring_gen ring_step. Qed.

Lemma process_resize_ok h n : ring_ok n -> ring_ok (fst (process_resize h n)).
Proof.
  intros Hok. unfold process_resize.
  destruct (pending_resize n && canvas n); [|done].
  destruct (_ && _); [done|]. cbn [fst].
  ring_gen ring_step.
Qed.

Lemma process_end_ok h n a d : ring_ok n -> ring_ok (process_end h n a d).
Proof.
  intros Hok. unfold process_end.
  ring_gen ltac:(first [apply render_frame_ok | apply process_drain_ok | ring_step]).
Qed.

Lemma process_ok h n d : ring_ok n -> ring_ok (_process h n d).
Proof.
  intros Hok. unfold _process.
  assert (H1 : ring_ok (process_begin h n d))
    by (eapply ring_ok_view; [apply process_begin_ring | done]).
  set (n1 := process_begin h n d) in *. clearbody n1.
  pose proof (process_resize_ok h n1 H1) as H2.
  destruct (process_resize h n1) as [n2 applied]. cbn [fst] in H2.
  by apply process_end_ok.
Qed.

Lemma do_step_ring_ok n s : ring_ok n -> ring_ok (do_step n s).
Proof.
  intros Hok. destruct s as [h|h d|h]; simpl.
  - unfold _worker_loop_turn. destruct (negb _); [done|]. destruct (worker_stop n); [done|].
    eapply ring_ok_view; [apply worker_iteration_ring | done].
  - by apply process_ok.
  - eapply ring_ok_view; [apply clear_path_ring | done].
Qed.

(** X9. The index into the texture ring stays inside the ring: if
    [texture_ring_index] is not negative and below the size of a non-empty
    ring, it is so again after every interleaving of worker turns, ticks and
    path clears, after [set_frame] and after a reallocation of the render
    target. *)
Theorem texture_ring_in_bounds (n : node) (ss : list step) :
  ring_ok n ->
  ring_ok (steps n ss)
  /\ (forall h f, ring_ok (set_frame h n f))
  /\ (forall h size, ring_ok (_allocate_buffer_and_target h size n)).
Proof.
  intros Hok. split; [|split].
  - unfold steps. revert n Hok. induction ss as [|s ss IH]; intros n Hok; [done|].
    simpl. apply IH. by apply do_step_ring_ok.
  - intros h f. unfold set_frame. destruct (F32.gtb _ _); [|done]. cbv zeta.
    change (ring_ok (_render_frame h
              (with_current_frame (CLAMP f F32.zero (F32.sub (total_frames n) F32.one)) n))).
    apply render_frame_ok. exact Hok.
  - intros h size. by apply allocate_ok.
Qed.

(** Two uploads move the index from 0 to 2 in a ring of 3. *)
Lemma texture_ring_in_bounds_witness :
  let h := host_at_scale F32.one in
  let dt := F64.lit 1 60 in
  let ss := [tick h dt; worker_turn h; tick h dt; worker_turn h; tick h dt] in
  texture_ring_index tiny_node = 0
  /\ texture_ring_index (steps tiny_node ss) = 2
  /\ length (texture_ring (steps tiny_node ss)) = 3%nat
  /\ ring_ok (steps tiny_node ss).
Proof.
  cbv zeta.
  assert (Hok : ring_ok tiny_node) by (split; [vm_compute; discriminate | intros _; vm_compute; reflexivity]).
  split; [vm_compute; reflexivity|]. split; [vm_compute; reflexivity|].
  split; [vm_compute; reflexivity|].
  exact (proj1 (texture_ring_in_bounds tiny_node _ Hok)).
Defined.

(** ** One pass of the worker *)

Create Rewrite HintDb jobs_db.
Ltac keep_jobs := keep_gen ltac:(autorewrite with jobs_db).

Lemma w_call_jobs c n : jobs_view (w_call c n) = jobs_view n.
Proof. reflexivity. Qed.
#[local] Hint Rewrite w_call_jobs : jobs_db.
Lemma worker_apply_target_jobs s n : jobs_view (_worker_apply_target_if_needed s n) = jobs_view n.
Proof. unfold _worker_apply_target_if_needed. keep_jobs. Qed.
Lemma worker_apply_fit_jobs n : jobs_view (_worker_apply_fit_transform n) = jobs_view n.
Proof. unfold _worker_apply_fit_transform. keep_jobs. Qed.
#[local] Hint Rewrite worker_apply_target_jobs worker_apply_fit_jobs : jobs_db.
Lemma worker_load_jobs h p n : jobs_view (worker_load h p n) = jobs_view n.
Proof. unfold worker_load. keep_jobs. Qed.
Lemma publish_jobs t n : jobs_view (publish t n) = jobs_view n.
Proof. reflexivity. Qed.
#[local] Hint Rewrite worker_load_jobs publish_jobs : jobs_db.
Lemma worker_render_jobs h s f n : jobs_view (worker_render h s f n) = jobs_view n.
Proof. unfold worker_render. keep_jobs. Qed.
#[local] Hint Rewrite worker_render_jobs : jobs_db.

Lemma jobs_view_fields a b :
  jobs_view a = jobs_view b ->
  worker_stop a = worker_stop b /\ load_pending a = load_pending b
  /\ render_pending a = render_pending b /\ segment_pending a = segment_pending b.
Proof. unfold jobs_view. intros H. by simplify_eq. Qed.

Lemma worker_iteration_jobs h n :
  jobs_view (worker_iteration h n) = (worker_stop n, false, false, false).
Proof.
  unfold worker_iteration. rewrite worker_render_jobs.
  set (n1 := if load_pending n then with_load_pending false n else n).
  assert (H1 : jobs_view n1 = (worker_stop n, false, render_pending n, segment_pending n)).
  { subst n1. destruct (load_pending n) eqn:E; [done|].
    unfold jobs_view. by rewrite E. }
  clearbody n1.
  set (n2 := if segment_pending n1 then with_segment_pending false n1 else n1).
  assert (H2 : jobs_view n2 = (worker_stop n, false, render_pending n, false)).
  { subst n2. destruct (segment_pending n1) eqn:E.
    - unfold jobs_view in *. injection H1 as A B C D. nsimpl. by rewrite A, B, C.
    - unfold jobs_view in *. injection H1 as A B C D. nsimpl. by rewrite A, B, C, E. }
  clearbody n2. clear H1.
  set (n3 := if load_pending n then worker_load h _ n2 else n2).
  assert (H3 : jobs_view n3 = (worker_stop n, false, render_pending n, false)).
  { subst n3. destruct (load_pending n); [by rewrite worker_load_jobs | done]. }
  clearbody n3. clear H2.
  set (n4 := if _ && w_animation n3 then w_call _ n3 else n3).
  assert (H4 : jobs_view n4 = (worker_stop n, false, render_pending n, false)).
  { subst n4. by destruct (_ && _). }
  clearbody n4. clear H3.
  destruct (render_pending n4) eqn:E.
  - unfold jobs_view in *. injection H4 as A B C D. nsimpl. by rewrite A, B, D.
  - unfold jobs_view in *. injection H4 as A B C D. nsimpl. by rewrite A, B, D, E.
Qed.

(** ** The worker's pass and the posts that fall into it *)

Lemma worker_pass_alone h n : worker_pass h [] [] [] n = worker_iteration h n.
Proof. reflexivity. Qed.

Lemma do_post_enabled n p : render_thread_enabled (do_post n p) = render_thread_enabled n.
Proof.
  destruct p; cbn [do_post];
    [unfold _post_load_to_worker | unfold _post_render_to_worker
     | unfold _post_segment_to_worker]; keep_gen idtac.
Qed.

Lemma do_post_mail n p : mail_view (do_post n p) = mail_view n.
Proof.
  destruct p; cbn [do_post];
    [unfold _post_load_to_worker | unfold _post_render_to_worker
     | unfold _post_segment_to_worker]; keep_gen idtac.
Qed.

Lemma posts_mail n ps : mail_view (posts n ps) = mail_view n.
Proof.
  revert n. induction ps as [|p ps IH]; intros n; [done|].
  unfold posts in *. cbn [fold_left]. by rewrite IH, do_post_mail.
Qed.

(** What a post leaves in the request flags. *)
Lemma do_post_jobs n p :
  jobs_view (do_post n p)
  = (worker_stop n,
     load_pending n || render_thread_enabled n && is_load_post p,
     render_pending n || render_thread_enabled n && is_render_post p,
     segment_pending n || render_thread_enabled n && is_segment_post p).
Proof.
  unfold jobs_view.
  destruct p; cbn [do_post is_load_post is_render_post is_segment_post];
    [unfold _post_load_to_worker | unfold _post_render_to_worker
     | unfold _post_segment_to_worker];
    destruct (render_thread_enabled n); cbn [negb andb];
    rewrite ?orb_false_r, ?orb_true_r; try reflexivity.
  by destruct (is_empty path).
Qed.

Lemma posts_jobs n ps :
  jobs_view (posts n ps)
  = (worker_stop n,
     load_pending n || render_thread_enabled n && existsb is_load_post ps,
     render_pending n || render_thread_enabled n && existsb is_render_post ps,
     segment_pending n || render_thread_enabled n && existsb is_segment_post ps).
Proof.
  revert n. induction ps as [|p ps IH]; intros n.
  - cbn [existsb]. unfold posts. cbn [fold_left]. unfold jobs_view.
    by rewrite !andb_false_r, !orb_false_r.
  - unfold posts in *. cbn [fold_left existsb]. rewrite IH.
    pose proof (do_post_jobs n p) as Hj. unfold jobs_view in Hj.
    injection Hj as -> -> -> ->. rewrite do_post_enabled.
    destruct (render_thread_enabled n), (load_pending n), (render_pending n),
      (segment_pending n), (is_load_post p), (is_render_post p), (is_segment_post p);
      reflexivity.
Qed.

Lemma posts_enabled n ps : render_thread_enabled (posts n ps) = render_thread_enabled n.
Proof.
  pose proof (posts_mail n ps) as H. apply mail_view_fields in H. tauto.
Qed.

Lemma worker_take_load_segment_jobs n :
  jobs_view (snd (worker_take_load_segment n))
  = (worker_stop n, false, render_pending n, false)
  /\ mail_view (snd (worker_take_load_segment n)) = mail_view n.
Proof.
  unfold worker_take_load_segment. cbn [snd]. unfold jobs_view.
  destruct (load_pending n) eqn:E1; destruct (segment_pending n) eqn:E2; nsimpl;
    rewrite ?E1, ?E2; done.
Qed.

Lemma worker_do_load_segment_jobs h l n :
  jobs_view (worker_do_load_segment h l n) = jobs_view n
  /\ mail_view (worker_do_load_segment h l n) = mail_view n.
Proof.
  unfold worker_do_load_segment.
  split.
  - destruct (do_load l); destruct (do_segment l && _);
      rewrite ?w_call_jobs, ?worker_load_jobs; reflexivity.
  - destruct (do_load l); destruct (do_segment l && _);
      change (mail_view (w_call ?c ?m)) with (mail_view m);
      rewrite ?worker_load_mail; reflexivity.
Qed.

Lemma worker_take_render_jobs n :
  jobs_view (snd (worker_take_render n))
  = (worker_stop n, load_pending n, false, segment_pending n)
  /\ mail_view (snd (worker_take_render n)) = mail_view n.
Proof.
  unfold worker_take_render. cbn [snd]. unfold jobs_view.
  destruct (render_pending n) eqn:E1; nsimpl; rewrite ?E1; done.
Qed.

Lemma worker_render_next h s f n :
  render_thread_enabled (worker_render h s f n) = render_thread_enabled n
  /\ (next_frame_id (worker_render h s f n) = next_frame_id n
      \/ next_frame_id (worker_render h s f n) = (next_frame_id n + 1) mod 2 ^ 64).
Proof.
  unfold worker_render.
  destruct ((0 <? x s) && (0 <? y s)); [|by split; [|left]].
  destruct (negb (w_canvas n) || negb (w_animation n) || negb (w_picture n));
    [by split; [|left]|].
  cbv zeta.
  match goal with
  | |- context [publish ?tmp ?m] => set (n2 := m); generalize tmp; intros tmp'
  end.
  assert (H2 : mail_view n2 = mail_view n).
  { subst n2. keep_gen ltac:(rewrite ?worker_apply_fit_mail, ?worker_apply_target_mail). }
  clearbody n2. apply mail_view_fields in H2. destruct H2 as (N1 & N2 & N3 & N4).
  unfold publish. nsimpl. rewrite N1, N4. split; [done|by right].
Qed.

(** The unlocked work of the worker and a write to request members
    commute: that work neither reads nor writes them. *)
Lemma worker_load_on_jobs g h path8 n :
  worker_load h path8 (on_jobs g n) = on_jobs g (worker_load h path8 n).
Proof.
  pose (A := fun m : node => if w_picture m then w_call canvas_remove m else m).
  pose (B := fun m : node =>
               with_w_picture (picture_created h)
                 (with_w_animation true (w_call animation_gen m))).
  pose (C := fun m : node => if w_picture m then w_call (picture_load path8) m else m).
  pose (D := fun m : node =>
               let '(pw, ph) := picture_size h in
               let '(pw, ph) :=
                 if F32.leb pw F32.zero || F32.leb ph F32.zero
                 then (F32.of_int (x (render_size m)), F32.of_int (y (render_size m)))
                 else (pw, ph) in
               let m := with_w_base_picture_size
                          {| x := F32.ceil_to_int pw; y := F32.ceil_to_int ph |} m in
               let m := w_call canvas_push m in
               if canvas_push_ok h then m
               else with_w_picture false (with_w_animation false m)).
  assert (Hform : forall m, worker_load h path8 m
            = if is_empty path8 then with_w_picture false (with_w_animation false (A m))
              else if w_picture (C (B (A m))) && picture_load_ok h path8
                   then D (C (B (A m)))
                   else with_w_picture false (with_w_animation false (C (B (A m)))))
    by reflexivity.
  assert (HA : forall m, A (on_jobs g m) = on_jobs g (A m)).
  { intros m. unfold A. change (w_picture (on_jobs g m)) with (w_picture m).
    destruct (w_picture m); reflexivity. }
  assert (HB : forall m, B (on_jobs g m) = on_jobs g (B m)) by reflexivity.
  assert (HC : forall m, C (on_jobs g m) = on_jobs g (C m)).
  { intros m. unfold C. change (w_picture (on_jobs g m)) with (w_picture m).
    destruct (w_picture m); reflexivity. }
  assert (HD : forall m, D (on_jobs g m) = on_jobs g (D m)).
  { intros m. unfold D. destruct (picture_size h) as [pw ph].
    destruct (F32.leb pw F32.zero || F32.leb ph F32.zero);
      destruct (canvas_push_ok h); reflexivity. }
  rewrite !Hform, HA, HB, HC, HD. clearbody A B C D.
  change (w_picture (on_jobs g ?m)) with (w_picture m).
  destruct (is_empty path8); [reflexivity|].
  destruct (_ && _); reflexivity.
Qed.

Lemma worker_render_on_jobs g h s f n :
  worker_render h s f (on_jobs g n) = on_jobs g (worker_render h s f n).
Proof.
  pose (W := fun m : node =>
               with_w_buffer
                 (Some (raster h (w_effects
                    (w_call canvas_sync (w_call canvas_draw (w_call canvas_update
                       (w_call (animation_frame f)
                          (_worker_apply_fit_transform
                             (_worker_apply_target_if_needed s m)))))))))
                 (w_call canvas_sync (w_call canvas_draw (w_call canvas_update
                    (w_call (animation_frame f)
                       (_worker_apply_fit_transform
                          (_worker_apply_target_if_needed s m))))))).
  assert (Hform : forall m, worker_render h s f m
            = if (0 <? x s) && (0 <? y s) then
                if negb (w_canvas m) || negb (w_animation m) || negb (w_picture m) then m
                else publish (postprocess h (W m) (default [] (w_buffer (W m)))
                                (zeros (area (w_render_size (W m)) * 4))
                                (w_render_size (W m))) (W m)
              else m) by reflexivity.
  assert (HT : forall m, _worker_apply_target_if_needed s (on_jobs g m)
                         = on_jobs g (_worker_apply_target_if_needed s m)).
  { intros m. unfold _worker_apply_target_if_needed.
    change (w_render_size (on_jobs g m)) with (w_render_size m).
    change (w_buffer (on_jobs g m)) with (w_buffer m).
    destruct (Vector2i_eqb _ _ && _); reflexivity. }
  assert (HF : forall m, _worker_apply_fit_transform (on_jobs g m)
                         = on_jobs g (_worker_apply_fit_transform m)).
  { intros m. unfold _worker_apply_fit_transform.
    change (w_picture (on_jobs g m)) with (w_picture m).
    destruct (w_picture m); reflexivity. }
  assert (HW : forall m, W (on_jobs g m) = on_jobs g (W m)).
  { intros m. unfold W. rewrite HT, HF. reflexivity. }
  rewrite !Hform, HW. clearbody W.
  destruct ((0 <? x s) && (0 <? y s)); [|reflexivity].
  change (w_canvas (on_jobs g n)) with (w_canvas n).
  change (w_animation (on_jobs g n)) with (w_animation n).
  change (w_picture (on_jobs g n)) with (w_picture n).
  destruct (_ || _); reflexivity.
Qed.

(** A post is a write to request members, or nothing. *)
Lemma do_post_on_jobs p n :
  exists g, forall m,
    render_thread_enabled m = render_thread_enabled n -> do_post m p = on_jobs g m.
Proof.
  destruct (render_thread_enabled n) eqn:E.
  - destruct p as [h0 path|size frame|b e].
    + exists (fun j => jobs (with_load_pending true
                (with_pending_path8 (if is_empty path then EmptyString
                                     else globalize_path h0 path)
                   (on_jobs (fun _ => j) n)))).
      intros m Hm. cbn [do_post]. unfold _post_load_to_worker. rewrite Hm. cbn [negb].
      destruct (is_empty path); reflexivity.
    + exists (fun j => jobs (with_render_pending true (with_pending_r_frame frame
                (with_pending_r_size size (on_jobs (fun _ => j) n))))).
      intros m Hm. cbn [do_post]. unfold _post_render_to_worker. rewrite Hm. reflexivity.
    + exists (fun j => jobs (with_segment_pending true (with_pending_segment_end e
                (with_pending_segment_begin b (on_jobs (fun _ => j) n))))).
      intros m Hm. cbn [do_post]. unfold _post_segment_to_worker. rewrite Hm. reflexivity.
  - exists (fun j => j). intros m Hm.
    destruct p; cbn [do_post];
      [unfold _post_load_to_worker | unfold _post_render_to_worker
       | unfold _post_segment_to_worker]; rewrite Hm; reflexivity.
Qed.

Lemma do_post_worker_do_load_segment h l p n :
  do_post (worker_do_load_segment h l n) p = worker_do_load_segment h l (do_post n p).
Proof.
  destruct (do_post_on_jobs p n) as [g Hg].
  rewrite (Hg n eq_refl), Hg.
  2:{ pose proof (worker_do_load_segment_jobs h l n) as [_ H].
      apply mail_view_fields in H. tauto. }
  unfold worker_do_load_segment.
  destruct (do_load l).
  - rewrite worker_load_on_jobs.
    change (w_animation (on_jobs g ?m)) with (w_animation m).
    destruct (do_segment l && _); reflexivity.
  - change (w_animation (on_jobs g ?m)) with (w_animation m).
    destruct (do_segment l && _); reflexivity.
Qed.

Lemma do_post_worker_render h s f p n :
  do_post (worker_render h s f n) p = worker_render h s f (do_post n p).
Proof.
  destruct (do_post_on_jobs p n) as [g Hg].
  rewrite (Hg n eq_refl), Hg by apply worker_render_next.
  by rewrite worker_render_on_jobs.
Qed.

Lemma posts_worker_do_load_segment h l ps n :
  posts (worker_do_load_segment h l n) ps = worker_do_load_segment h l (posts n ps).
Proof.
  revert n. induction ps as [|p ps IH]; intros n; [done|].
  unfold posts in *. cbn [fold_left]. by rewrite do_post_worker_do_load_segment, IH.
Qed.

Lemma posts_worker_render h s f ps n :
  posts (worker_render h s f n) ps = worker_render h s f (posts n ps).
Proof.
  revert n. induction ps as [|p ps IH]; intros n; [done|].
  unfold posts in *. cbn [fold_left]. by rewrite do_post_worker_render, IH.
Qed.

Lemma worker_pass_jobs h a b c n :
  jobs_view (worker_pass h a b c n)
  = (worker_stop n,
     render_thread_enabled n && existsb is_load_post (b ++ c),
     render_thread_enabled n && existsb is_render_post c,
     render_thread_enabled n && existsb is_segment_post (b ++ c))
  /\ mail_view (snd (worker_take_render
                       (worker_do_load_segment h (fst (worker_take_load_segment (posts n a)))
                          (posts (snd (worker_take_load_segment (posts n a))) b))))
     = mail_view n.
Proof.
  unfold worker_pass.
  pose proof (posts_jobs n a) as J0. pose proof (posts_mail n a) as M0.
  set (n0 := posts n a) in *.
  destruct (worker_take_load_segment_jobs n0) as [J1 M1].
  destruct (worker_take_load_segment n0) as [l n1]. cbn [fst snd] in *.
  pose proof (posts_jobs n1 b) as J2. pose proof (posts_mail n1 b) as M2.
  set (n2 := posts n1 b) in *.
  destruct (worker_do_load_segment_jobs h l n2) as [J3 M3].
  set (n3 := worker_do_load_segment h l n2) in *.
  destruct (worker_take_render_jobs n3) as [J4 M4].
  destruct (worker_take_render n3) as [r n4]. cbn [fst snd] in *.
  pose proof (posts_jobs n4 c) as J5. pose proof (posts_mail n4 c) as M5.
  set (n5 := posts n4 c) in *.
  rewrite worker_render_jobs.
  assert (E1 : render_thread_enabled n1 = render_thread_enabled n).
  { rewrite M0 in M1. apply mail_view_fields in M1. tauto. }
  assert (M4' : mail_view n4 = mail_view n) by (by rewrite M4, M3, M2, M1, M0).
  assert (E4 : render_thread_enabled n4 = render_thread_enabled n).
  { apply mail_view_fields in M4'. tauto. }
  split; [|exact M4'].
  clearbody n0 n2 n3 n5.
  unfold jobs_view in *.
  injection J0 as A1 A2 A3 A4. injection J1 as B1 B2 B3 B4.
  injection J2 as C1 C2 C3 C4. injection J3 as D1 D2 D3 D4.
  injection J4 as F1 F2 F3 F4. rewrite J5.
  rewrite F1, F2, F3, F4, D1, D2, D4, C1, C2, C4, B1, B2, B4, A1, E4, E1.
  rewrite !existsb_app.
  destruct (render_thread_enabled n); cbn [andb orb]; reflexivity.
Qed.

(** X10. A pass of the worker's loop body, with the posts of the main
    thread that fall into it.  The first [job_mutex] scope takes the load
    and the segment request, the second the render request; a request is
    pending after the pass exactly when it was posted after the scope that
    takes its kind (a load or a segment after the first scope, a render
    after the second), so nothing posted is lost and nothing taken stays.
    The stop flag is as it was and at most one frame has been published.
    Unless a stop was requested, the next turn blocks in the wait exactly
    when no load and no render was posted after its scope: a segment posted
    meanwhile stays pending without waking the worker.  With no post
    falling into it the pass is [worker_iteration]; and a post made while
    the worker loads or renders with no mutex held commutes with that
    work. *)
Theorem worker_pass_requests (h : host) (a b c : list post) (n : node) :
  let n' := worker_pass h a b c n in
  let on := render_thread_enabled n in
  load_pending n' = on && existsb is_load_post (b ++ c)
  /\ segment_pending n' = on && existsb is_segment_post (b ++ c)
  /\ render_pending n' = on && existsb is_render_post c
  /\ worker_stop n' = worker_stop n
  /\ (worker_stop n = false ->
      (_worker_loop_turn h n' = blocked <->
       on && (existsb is_load_post (b ++ c) || existsb is_render_post c) = false))
  /\ (next_frame_id n' = next_frame_id n
      \/ next_frame_id n' = (next_frame_id n + 1) mod 2 ^ 64)
  /\ worker_pass h [] [] [] n = worker_iteration h n
  /\ (forall l m ps,
        posts (worker_do_load_segment h l m) ps = worker_do_load_segment h l (posts m ps))
  /\ (forall s f m ps, posts (worker_render h s f m) ps = worker_render h s f (posts m ps)).
Proof.
  cbv zeta. destruct (worker_pass_jobs h a b c n) as [J M].
  unfold jobs_view in J. injection J as Hs Hl Hr Hg.
  split; [exact Hl|]. split; [exact Hg|]. split; [exact Hr|]. split; [exact Hs|].
  split; [|split; [|split; [apply worker_pass_alone|split]]].
  - intros Hstop. unfold _worker_loop_turn, worker_wait_predicate.
    rewrite Hs, Hl, Hr, Hstop. cbn [orb].
    rewrite andb_orb_distrib_r.
    destruct (_ || _); cbn [negb]; split; done.
  - unfold worker_pass.
    destruct (worker_take_load_segment (posts n a)) as [l n1]. cbn [fst snd] in M.
    destruct (worker_take_render _) as [r n4]. cbn [fst snd] in M.
    rewrite <- posts_worker_render.
    pose proof (posts_mail (worker_render h r.1 r.2 n4) c) as Mp.
    apply mail_view_fields in Mp. destruct Mp as (-> & _).
    apply mail_view_fields in M. destruct M as (M1 & _).
    destruct (worker_render_next h r.1 r.2 n4) as [_ [H|H]]; rewrite H, M1; auto.
  - intros l m ps. apply posts_worker_do_load_segment.
  - intros s f m ps. apply posts_worker_render.
Qed.

(** What [_load_animation] posts when the worker is quick: the load and the
    render are taken by the pass, the segment, posted while the worker
    loads, stays pending and the worker blocks. *)
Lemma worker_pass_requests_witness :
  let h := host_at_scale F32.one in
  let n' := worker_pass h [load_post h "a.json"; render_post {| x := 2; y := 2 |} F32.zero]
              [segment_post (F32.of_int 1) (F32.of_int 2)] [] tiny_node in
  load_pending n' = false
  /\ render_pending n' = false
  /\ segment_pending n' = true
  /\ _worker_loop_turn h n' = blocked.
Proof.
  cbv zeta.
  match goal with |- context [worker_pass ?h ?a ?b ?c ?n] =>
    destruct (worker_pass_requests h a b c n) as (Hl & Hs & Hr & _ & Hb & _)
  end.
  cbv zeta in *.
  split; [rewrite Hl; reflexivity|]. split; [rewrite Hr; reflexivity|].
  split; [rewrite Hs; reflexivity|].
  apply Hb; reflexivity.
Defined.

(** X11. A worker that has no animation and is not asked to load one drops
    what it is asked: a pending render request and a pending segment request
    are taken (their flags cleared), but no engine call is made, no frame is
    published and the frame counter stands. *)
Theorem worker_without_scene_drops_requests (h : host) (n : node) :
  load_pending n = false ->
  w_animation n = false ->
  let n' := worker_iteration h n in
  w_effects n' = w_effects n
  /\ latest_frame n' = latest_frame n
  /\ next_frame_id n' = next_frame_id n
  /\ w_animation n' = false
  /\ render_pending n' = false
  /\ segment_pending n' = false.
Proof.
  intros Hl Ha n'.
  pose proof (worker_iteration_jobs h n) as Hj. fold n' in Hj.
  unfold jobs_view in Hj. injection Hj as _ _ Hr Hs.
  assert (Hout : worker_out n' = worker_out n).
  { subst n'. unfold worker_iteration. rewrite Hl. cbv beta iota.
    set (n2 := if segment_pending n then with_segment_pending false n else n).
    assert (H2 : worker_out n2 = worker_out n) by (subst n2; by destruct (segment_pending n)).
    assert (Ha2 : w_animation n2 = false) by (subst n2; by destruct (segment_pending n)).
    clearbody n2. rewrite Ha2, andb_false_r.
    set (n5 := if render_pending n2 then with_render_pending false n2 else n2).
    assert (H5 : worker_out n5 = worker_out n)
      by (subst n5; rewrite <- H2; by destruct (render_pending n2)).
    assert (Ha5 : w_animation n5 = false) by (subst n5; by destruct (render_pending n2)).
    clearbody n5. unfold worker_render. rewrite Ha5. cbn [negb]. rewrite orb_true_r. cbn [orb].
    by destruct (_ && _). }
  unfold worker_out in Hout. injection Hout as -> -> -> Hw _.
  rewrite Hw. done.
Qed.

(** A render and a segment request on a worker that has loaded nothing. *)
Lemma worker_without_scene_drops_requests_witness :
  let h := host_at_scale F32.one in
  let n := _post_segment_to_worker (F32.of_int 1) (F32.of_int 2)
             (_post_render_to_worker {| x := 2; y := 2 |} F32.zero small_node) in
  render_pending n = true
  /\ segment_pending n = true
  /\ w_effects (worker_iteration h n) = []
  /\ render_pending (worker_iteration h n) = false
  /\ segment_pending (worker_iteration h n) = false.
Proof.
  cbv zeta.
  match goal with |- context [worker_iteration ?h ?n] =>
    destruct (worker_without_scene_drops_requests h n eq_refl eq_refl)
      as (He & _ & _ & _ & Hr & Hs)
  end.
  cbv zeta in *.
  split; [vm_compute; reflexivity|]. split; [vm_compute; reflexivity|].
  split; [rewrite He; vm_compute; reflexivity|]. split; [exact Hr | exact Hs].
Defined.

(** ** One request of each kind *)

Lemma post_load_on h p m :
  render_thread_enabled m = true ->
  _post_load_to_worker h p m
  = with_load_pending true
      (with_pending_path8 (if is_empty p then EmptyString else globalize_path h p) m).
Proof. intros E. unfold _post_load_to_worker. rewrite E. by destruct (is_empty p). Qed.

Lemma post_render_on s f m :
  render_thread_enabled m = true ->
  _post_render_to_worker s f m
  = with_render_pending true (with_pending_r_frame f (with_pending_r_size s m)).
Proof. intros E. unfold _post_render_to_worker. by rewrite E. Qed.

Lemma post_segment_on b e m :
  render_thread_enabled m = true ->
  _post_segment_to_worker b e m
  = with_segment_pending true (with_pending_segment_end e (with_pending_segment_begin b m)).
Proof. intros E. unfold _post_segment_to_worker. by rewrite E. Qed.

Lemma do_post_off p m : render_thread_enabled m = false -> do_post m p = m.
Proof.
  intros E. destruct p; cbn [do_post];
    [unfold _post_load_to_worker | unfold _post_render_to_worker
     | unfold _post_segment_to_worker]; by rewrite E.
Qed.

Ltac posts_on E :=
  repeat match goal with
         | |- context [_post_load_to_worker ?h ?p ?m] => rewrite (post_load_on h p m E)
         | |- context [_post_render_to_worker ?s ?f ?m] => rewrite (post_render_on s f m E)
         | |- context [_post_segment_to_worker ?b ?e ?m] =>
             rewrite (post_segment_on b e m E)
         end.

Lemma do_post_overwrite p q n :
  same_kind p q = true -> do_post (do_post n p) q = do_post n q.
Proof.
  intros K. destruct (render_thread_enabled n) eqn:E.
  - destruct p, q; try discriminate K; cbn [do_post]; posts_on E; reflexivity.
  - rewrite !(do_post_off _ n E). reflexivity.
Qed.

Lemma do_post_commute p q n :
  same_kind p q = false -> do_post (do_post n p) q = do_post (do_post n q) p.
Proof.
  intros K. destruct (render_thread_enabled n) eqn:E.
  - destruct p, q; try discriminate K; cbn [do_post]; posts_on E; reflexivity.
  - rewrite !(do_post_off _ n E). reflexivity.
Qed.

Lemma posts_app n ps qs : posts n (ps ++ qs) = posts (posts n ps) qs.
Proof. unfold posts. apply fold_left_app. Qed.

(** A post moves in front of posts of other kinds. *)
Lemma do_post_past qs p m :
  Forall (fun q => same_kind q p = false) qs ->
  do_post (posts m qs) p = posts (do_post m p) qs.
Proof.
  revert m. induction qs as [|q qs IH]; intros m Hq; [done|].
  apply Forall_cons in Hq as [Hq Hqs].
  unfold posts in *. cbn [fold_left]. rewrite IH by done.
  by rewrite (do_post_commute q p m Hq).
Qed.

Lemma last_filter_snoc (f : post -> bool) ps p :
  last (List.filter f (ps ++ [p])) = if f p then Some p else last (List.filter f ps).
Proof.
  rewrite List.filter_app. cbn [List.filter].
  destruct (f p); [by rewrite last_snoc | by rewrite app_nil_r].
Qed.

Lemma last_filter_kind (f : post -> bool) ps :
  Forall (fun q => f q = true) (option_list (last (List.filter f ps))).
Proof.
  destruct (last (List.filter f ps)) as [q|] eqn:E; cbn; [|constructor].
  constructor; [|constructor].
  apply last_Some_elem_of in E. apply list_elem_of_In, List.filter_In in E. tauto.
Qed.

Lemma posts_latest n ps : posts n ps = posts n (latest ps).
Proof.
  induction ps as [|p ps IH] using rev_ind; [done|].
  rewrite posts_app, IH. unfold latest. rewrite !last_filter_snoc.
  pose proof (last_filter_kind is_load_post ps) as KL.
  pose proof (last_filter_kind is_render_post ps) as KR.
  pose proof (last_filter_kind is_segment_post ps) as KS.
  set (L := option_list (last (List.filter is_load_post ps))) in *.
  set (R := option_list (last (List.filter is_render_post ps))) in *.
  set (S := option_list (last (List.filter is_segment_post ps))) in *.
  assert (OW : forall (f : post -> bool) X m,
            (forall q, f q = true -> same_kind q p = true) ->
            X = option_list (last (List.filter f ps)) ->
            posts (posts m X) [p] = posts m [p]).
  { intros f X m Hf ->. destruct (last (List.filter f ps)) as [q|] eqn:E; [|done].
    cbn [option_list]. unfold posts. cbn [fold_left]. apply do_post_overwrite, Hf.
    apply last_Some_elem_of in E. apply list_elem_of_In, List.filter_In in E. tauto. }
  change (posts (posts n (L ++ R ++ S)) [p]) with (do_post (posts n (L ++ R ++ S)) p).
  destruct p as [h0 path|size frame|b e]; cbn [is_load_post is_render_post is_segment_post];
    cbn [option_list].
  - (* a load moves to the front and replaces the load there *)
    rewrite posts_app, do_post_past.
    2:{ apply Forall_app. split; [eapply Forall_impl; [exact KR|]
                                 | eapply Forall_impl; [exact KS|]];
          intros [] Hq; done. }
    change (do_post (posts n L) (load_post h0 path))
      with (posts (posts n L) [load_post h0 path]).
    rewrite (OW is_load_post L n); [|intros [] Hq; done|done].
    by rewrite <- posts_app.
  - rewrite !posts_app, do_post_past.
    2:{ eapply Forall_impl; [exact KS|]. intros [] Hq; done. }
    change (do_post (posts (posts n L) R) (render_post size frame))
      with (posts (posts (posts n L) R) [render_post size frame]).
    rewrite (OW is_render_post R (posts n L)); [|intros [] Hq; done|done].
    by rewrite <- !posts_app.
  - rewrite !posts_app.
    change (do_post (posts (posts (posts n L) R) S) (segment_post b e))
      with (posts (posts (posts (posts n L) R) S) [segment_post b e]).
    rewrite (OW is_segment_post S (posts (posts n L) R)); [|intros [] Hq; done|done].
    by rewrite <- !posts_app.
Qed.

Lemma latest_length ps : (length (latest ps) <= 3)%nat.
Proof.
  unfold latest. rewrite !length_app.
  destruct (last (List.filter is_load_post ps)), (last (List.filter is_render_post ps)),
    (last (List.filter is_segment_post ps)); cbn; lia.
Qed.

(** X12. The mailbox of the worker keeps one request of each kind.  A post
    after a post of the same kind replaces it (the last one wins); posts of
    different kinds, load, render or segment, commute.  So any sequence of
    posts leaves the node as the last post of each kind alone would, at
    most three of them, and the worker's pass after the sequence is the
    pass after those. *)
Theorem posts_coalesce (h : host) (n : node) (p q : post) (ps b c : list post) :
  (same_kind p q = true -> do_post (do_post n p) q = do_post n q)
  /\ (same_kind p q = false -> do_post (do_post n p) q = do_post (do_post n q) p)
  /\ posts n ps = posts n (latest ps)
  /\ (length (latest ps) <= 3)%nat
  /\ worker_iteration h (posts n ps) = worker_iteration h (posts n (latest ps))
  /\ worker_pass h ps b c n = worker_pass h (latest ps) b c n.
Proof.
  split; [apply do_post_overwrite|]. split; [apply do_post_commute|].
  split; [apply posts_latest|]. split; [apply latest_length|].
  split; [by rewrite <- posts_latest|].
  unfold worker_pass. by rewrite <- posts_latest.
Qed.

(** Two loads, two renders and a segment in mixed order. *)
Lemma posts_coalesce_witness :
  let h := host_at_scale F32.one in
  let r1 := render_post {| x := 2; y := 2 |} F32.zero in
  let r2 := render_post {| x := 4; y := 4 |} (F32.of_int 3) in
  let l1 := load_post h "a.json" in
  let l2 := load_post h "b.json" in
  let s1 := segment_post F32.zero (F32.of_int 9) in
  do_post (do_post tiny_node r1) r2 = do_post tiny_node r2
  /\ do_post (do_post tiny_node l1) s1 = do_post (do_post tiny_node s1) l1
  /\ latest [r1; l1; s1; l2; r2] = [l2; r2; s1]
  /\ posts tiny_node [r1; l1; s1; l2; r2] = posts tiny_node [l2; r2; s1].
Proof.
  cbv zeta.
  match goal with |- do_post (do_post ?n ?r1) ?r2 = _ /\ do_post (do_post _ ?l1) ?s1 = _ /\ _ =>
    destruct (posts_coalesce (host_at_scale F32.one) n r1 r2 [r1; l1; s1; r2] [] [])
      as (H1 & _);
    destruct (posts_coalesce (host_at_scale F32.one) n l1 s1 [] [] []) as (_ & H2 & _)
  end.
  split; [apply H1; reflexivity|]. split; [apply H2; reflexivity|].
  split; [reflexivity|].
  match goal with |- posts ?n ?ps = _ =>
    destruct (posts_coalesce (host_at_scale F32.one) n (segment_post F32.zero F32.zero)
                (segment_post F32.zero F32.zero) ps [] []) as (_ & _ & H3 & _)
  end.
  exact H3.
Defined.

(** The bytes of a frame: as many as the destination has, when the engine
    has filled the whole target. *)
Lemma postprocess_length h n argb dst size :
  length argb = area size ->
  length dst = (area size * 4)%nat ->
  length (postprocess h n argb dst size) = (area size * 4)%nat.
Proof.
  intros Ha Hd. unfold postprocess.
  assert (Hconv : PixelConverter._convert_argb_to_rgba_optimized
                    (simd_target h) argb dst (area size)
                  = PixelConverter.rgba_of argb)
    by (rewrite <- Ha; apply PixelConverterFacts.convert_rgba_of; lia).
  rewrite Hconv.
  assert (Hl : length (PixelConverter.rgba_of argb) = (area size * 4)%nat)
    by (rewrite PixelConverterFacts.length_rgba_of; lia).
  destruct (unpremultiply_alpha n), (fix_alpha_border n);
    rewrite ?PixelConverterFacts.fix_alpha_border_length,
            ?PixelConverterFacts.unpremultiply_alpha_length; done.
Qed.

Lemma worker_apply_target_size size n :
  w_render_size (_worker_apply_target_if_needed size n) = size.
Proof.
  unfold _worker_apply_target_if_needed.
  destruct (Vector2i_eqb (w_render_size n) size) eqn:E; [|done].
  apply Vector2i_eqb_eq in E. by destruct (bool_decide _).
Qed.

Lemma worker_apply_fit_keeps n :
  let n' := _worker_apply_fit_transform n in
  w_render_size n' = w_render_size n /\ next_frame_id n' = next_frame_id n.
Proof. cbv zeta. unfold _worker_apply_fit_transform. by destruct (w_picture n). Qed.

Lemma worker_apply_target_next size n :
  next_frame_id (_worker_apply_target_if_needed size n) = next_frame_id n.
Proof. unfold _worker_apply_target_if_needed. by destruct (_ && _). Qed.

(** X13. The render step of a worker that has a canvas, an animation and a
    picture, for a request of positive size, on an engine that fills the
    whole target: the frame left in the slot is ready, has the requested
    width and height and [4*w*h] bytes, and carries the id that
    [next_frame_id] had, which is advanced by one (modulo [2^64]); the
    worker's target has the requested size and the last engine call is the
    [sync] of the draw. *)
Theorem worker_render_publishes (h : host) (rsize : Vector2i) (rframe : F32.float)
    (n : node) :
  0 < x rsize -> 0 < y rsize ->
  w_canvas n = true -> w_animation n = true -> w_picture n = true ->
  (forall calls, length (raster h calls) = area rsize) ->
  let n' := worker_render h rsize rframe n in
  let f := latest_frame n' in
  FrameResult.ready f = true
  /\ FrameResult.w f = x rsize
  /\ FrameResult.h f = y rsize
  /\ FrameResult.id f = next_frame_id n
  /\ next_frame_id n' = (next_frame_id n + 1) mod 2 ^ 64
  /\ length (FrameResult.rgba f) = (area rsize * 4)%nat
  /\ w_render_size n' = rsize
  /\ last (w_effects n') = Some canvas_sync.
Proof.
  intros Hx Hy Hc Ha Hp Hr n' f. subst f n'. unfold worker_render.
  apply Z.ltb_lt in Hx, Hy. rewrite Hx, Hy, Hc, Ha, Hp. cbn [andb orb negb].
  set (n1 := _worker_apply_target_if_needed rsize n).
  assert (S1 : w_render_size n1 = rsize) by apply worker_apply_target_size.
  assert (N1 : next_frame_id n1 = next_frame_id n) by apply worker_apply_target_next.
  clearbody n1.
  destruct (worker_apply_fit_keeps n1) as [S2 N2]. cbv zeta in S2, N2.
  set (n2 := _worker_apply_fit_transform n1) in *. clearbody n2.
  set (n3 := with_w_buffer _ _).
  assert (S3 : w_render_size n3 = rsize) by (rewrite <- S1, <- S2; reflexivity).
  assert (N3 : next_frame_id n3 = next_frame_id n) by (rewrite <- N1, <- N2; reflexivity).
  assert (B3 : exists calls, w_buffer n3 = Some (raster h calls)) by (eexists; reflexivity).
  assert (E3 : last (w_effects n3) = Some canvas_sync).
  { subst n3. unfold w_call. nsimpl. by rewrite last_snoc. }
  clearbody n3. destruct B3 as [calls B3].
  rewrite B3, S3. cbn [default from_option id].
  unfold publish. nsimpl.
  rewrite S3, N3. repeat (split; [done|]).
  split; [|split; [done|exact E3]].
  apply postprocess_length; [apply Hr | apply length_replicate].
Qed.

(** A 2x2 frame: opaque black, half-transparent blue, transparent, white. *)
Lemma worker_render_publishes_witness :
  let h := host_rendering [4278190080; 2147483776; 0; 4294967295] in
  let n' := worker_render h {| x := 2; y := 2 |} (F32.of_int 7) tiny_node in
  FrameResult.id (latest_frame n') = 1
  /\ next_frame_id n' = 2
  /\ FrameResult.rgba (latest_frame n')
     = [0; 0; 0; 255;  0; 0; 255; 128;  0; 0; 0; 0;  255; 255; 255; 255].
Proof.
  cbv zeta.
  match goal with |- context [worker_render ?h ?s ?f ?n] =>
    destruct (worker_render_publishes h s f n ltac:(simpl; lia) ltac:(simpl; lia)
                eq_refl eq_refl eq_refl ltac:(intros; reflexivity))
      as (_ & _ & _ & Hid & Hn & _)
  end.
  cbv zeta in *.
  split; [exact Hid|]. split; [rewrite Hn; reflexivity|]. vm_compute. reflexivity.
Defined.

Lemma Image_set_data_ok w h d img :
  0 < w -> 0 < h -> Z.of_nat (length d) = w * h * 4 ->
  Image_set_data w h d img = {| width := w; height := h; data := d |}.
Proof.
  intros Hw Hh Hd. unfold Image_set_data.
  apply Z.ltb_lt in Hw, Hh. apply Z.eqb_eq in Hd. by rewrite Hw, Hh, Hd.
Qed.

Lemma upload_image_shows n img :
  ring_ok n -> texture_ring n <> [] -> Forall is_Some (texture_ring n) ->
  image n = Some img ->
  let n' := upload_image n in
  texture n' = Some (data img) /\ image n' = Some img
  /\ latest_frame n' = latest_frame n.
Proof.
  intros [H0 H1] Hne Hall Him. cbv zeta. unfold upload_image. rewrite Him.
  specialize (H1 Hne).
  destruct (texture_ring n) as [|t ring] eqn:Er; [done|]. rewrite <- Er in *.
  destruct (texture_ring n !! Z.to_nat (texture_ring_index n)) as [[v|]|] eqn:El.
  - cbv zeta. nsimpl. by rewrite Him.
  - rewrite Forall_lookup in Hall. specialize (Hall _ _ El). by destruct Hall.
  - apply lookup_ge_None in El. lia.
Qed.

Lemma create_texture_ring n :
  0 < x (render_size n) -> 0 < y (render_size n) ->
  let n' := _create_texture n in
  image n' = Some {| width := x (render_size n); height := y (render_size n);
                     data := zeros (area (render_size n) * 4) |}
  /\ texture_ring n' <> [] /\ Forall is_Some (texture_ring n')
  /\ latest_frame n' = latest_frame n.
Proof.
  intros Hx Hy. cbv zeta. unfold _create_texture.
  destruct (recreate_texture_ring_spec (with_image (Image_create (render_size n)) n))
    as (Hr & _ & _ & Him). cbv zeta in Hr, Him.
  change (image (with_image (Image_create (render_size n)) n))
    with (Image_create (render_size n)) in Hr, Him.
  assert (Hc : Image_create (render_size n)
               = Some {| width := x (render_size n); height := y (render_size n);
                         data := zeros (area (render_size n) * 4) |}).
  { unfold Image_create. apply Z.ltb_lt in Hx, Hy. by rewrite Hx, Hy. }
  rewrite Hc in Hr, Him. rewrite Hc. rewrite Him, Hr.
  set (k := Z.to_nat _).
  assert (Hk : exists k', k = S k') by (exists (pred k); lia).
  destruct Hk as [k' ->].
  split; [done|]. split; [done|]. split.
  - apply Forall_replicate. by eexists.
  - unfold _recreate_texture_ring. keep_gen idtac.
Qed.

(** X14. The drain of [_process] on a ready frame whose id is above the
    cursor.  When the frame has the current render size (and its bytes fit
    it), the presentation image and the texture shown hold exactly the
    frame's bytes, the cursor moves to the frame's id, the slot is no longer
    ready and a second drain changes nothing.  When the frame has another
    size it is dropped: only the ready flag of the slot is cleared. *)
Theorem drain_presents_or_drops (n : node) :
  let f := latest_frame n in
  let n' := process_drain n in
  FrameResult.ready f = true ->
  last_consumed_id n < FrameResult.id f ->
  (* a frame of the current render size is presented as it is, once *)
  (FrameResult.w f = x (render_size n) -> FrameResult.h f = y (render_size n) ->
   0 < FrameResult.w f -> 0 < FrameResult.h f ->
   Z.of_nat (length (FrameResult.rgba f)) = FrameResult.w f * FrameResult.h f * 4 ->
   ring_ok n ->
   image n = None \/ (texture_ring n <> [] /\ Forall is_Some (texture_ring n)) ->
   image n' = Some {| width := FrameResult.w f; height := FrameResult.h f;
                      data := FrameResult.rgba f |}
   /\ texture n' = Some (FrameResult.rgba f)
   /\ last_consumed_id n' = FrameResult.id f
   /\ _uploaded_this_frame n' = true
   /\ FrameResult.ready (latest_frame n') = false
   /\ process_drain n' = n')
  (* a frame of another size is dropped *)
  /\ (FrameResult.w f <> x (render_size n) \/ FrameResult.h f <> y (render_size n) ->
      n' = with_latest_frame (clear_ready f) n).
Proof.
  intros f n' Hready Hid. subst n'. unfold process_drain. fold f.
  rewrite Hready. apply Z.ltb_lt in Hid. rewrite Hid. cbn [andb].
  split.
  2: { intros Hne.
       destruct ((FrameResult.w f =? _) && _) eqn:E; [|done].
       apply andb_true_iff in E. destruct E as [E1 E2].
       apply Z.eqb_eq in E1, E2. destruct Hne; done. }
  intros Hw Hh Hpw Hph Hlen Hok Hring.
  rewrite Hw, Hh, !Z.eqb_refl. cbn [andb].
  match goal with |- context [upload_image (with_image _ ?a)] => set (n1 := a) end.
  assert (F1 : render_size n1 = render_size n /\ latest_frame n1 = latest_frame n
               /\ ring_ok n1 /\ texture_ring n1 <> [] /\ Forall is_Some (texture_ring n1)
               /\ is_Some (image n1)).
  { subst n1.
    assert (Hnew : let m := _create_texture n in
                   render_size m = render_size n /\ latest_frame m = latest_frame n
                   /\ ring_ok m /\ texture_ring m <> [] /\ Forall is_Some (texture_ring m)
                   /\ is_Some (image m)).
    { cbv zeta. destruct (create_texture_keeps n) as (K1 & _).
      destruct (create_texture_ring n ltac:(lia) ltac:(lia)) as (C1 & C2 & C3 & C4).
      cbv zeta in *. rewrite K1, C1. repeat (split; [done|]).
      split; [apply create_texture_ok|]. repeat (split; [done|]). by eexists. }
    destruct (image n) as [img|] eqn:Ei.
    - destruct Hring as [?|[R1 R2]]; [done|].
      destruct (_ || _); [exact Hnew|]. repeat (split; [done|]). by eexists.
    - exact Hnew. }
  clearbody n1. destruct F1 as (R1 & L1 & O1 & T1 & A1 & [img1 I1]).
  rewrite R1, I1, <- Hw, <- Hh. cbn [fmap option_fmap option_map].
  rewrite Image_set_data_ok by done.
  set (n2 := with_image _ n1).
  destruct (upload_image_shows n2 {| width := FrameResult.w f; height := FrameResult.h f;
                                    data := FrameResult.rgba f |})
    as (U1 & U2 & U3); done.
Qed.

(** A 1x1 frame presented on a node that has no image yet. *)
Lemma drain_presents_or_drops_witness :
  let n := publish [1; 2; 3; 255]
             (with_w_render_size {| x := 1; y := 1 |}
                (with_render_size {| x := 1; y := 1 |} constructed)) in
  texture (process_drain n) = Some [1; 2; 3; 255]
  /\ last_consumed_id (process_drain n) = 1
  /\ process_drain (process_drain n) = process_drain n.
Proof.
  cbv zeta.
  set (n := publish [1; 2; 3; 255]
             (with_w_render_size {| x := 1; y := 1 |}
                (with_render_size {| x := 1; y := 1 |} constructed))).
  assert (Hok : ring_ok n) by (split; [vm_compute; discriminate | done]).
  destruct (drain_presents_or_drops n eq_refl ltac:(vm_compute; reflexivity)) as [H _].
  cbv zeta in H.
  destruct (H eq_refl eq_refl ltac:(vm_compute; reflexivity) ltac:(vm_compute; reflexivity)
              eq_refl Hok ltac:(by left)) as (_ & Ht & Hc & _ & _ & Hd).
  split; [exact Ht|]. split; [exact Hc | exact Hd].
Defined.

Lemma publish_not_consumed tmp n :
  last_consumed_id n = next_frame_id n ->
  process_drain (publish tmp n) = publish tmp n.
Proof.
  intros H. unfold process_drain.
  change (FrameResult.id (latest_frame (publish tmp n))) with (next_frame_id n).
  change (last_consumed_id (publish tmp n)) with (last_consumed_id n).
  rewrite H, Z.ltb_irrefl, andb_false_r. done.
Qed.

Lemma clear_view_fields a b :
  clear_view a = clear_view b ->
  playing a = playing b
  /\ FrameResult.ready (latest_frame a) = FrameResult.ready (latest_frame b)
  /\ last_consumed_id a = last_consumed_id b
  /\ next_frame_id a = next_frame_id b
  /\ texture a = texture b.
Proof. unfold clear_view. intros H. by simplify_eq. Qed.

Lemma post_load_clear_view h p n : clear_view (_post_load_to_worker h p n) = clear_view n.
Proof. unfold _post_load_to_worker. keep_gen idtac. Qed.

(** X15. Clearing the path of a node inside the tree stops playback, drops
    the texture, empties the slot and moves the consumer's cursor to
    [next_frame_id], the id the next published frame will carry.  That frame
    is therefore not above the cursor: the first frame the worker publishes
    after a clear is never presented by the drain, while the one after it
    is above the cursor again. *)
Theorem first_frame_after_clear_is_dropped (h : host) (n : node) (tmp tmp2 : list Z) :
  is_inside_tree h = true ->
  animation_path n <> EmptyString ->
  let c := set_animation_path h n EmptyString in
  let p := publish tmp c in
  playing c = false
  /\ texture c = None
  /\ FrameResult.ready (latest_frame c) = false
  /\ last_consumed_id c = next_frame_id n
  /\ next_frame_id c = next_frame_id n
  /\ FrameResult.ready (latest_frame p) = true
  /\ FrameResult.id (latest_frame p) = next_frame_id n
  /\ process_drain p = p
  /\ (next_frame_id n + 1 < 2 ^ 64 -> 0 <= next_frame_id n ->
      last_consumed_id p < FrameResult.id (latest_frame (publish tmp2 p))).
Proof.
  intros Ht Hp c p.
  assert (Hc : playing c = false /\ texture c = None
               /\ FrameResult.ready (latest_frame c) = false
               /\ last_consumed_id c = next_frame_id n
               /\ next_frame_id c = next_frame_id n).
  { subst c. unfold set_animation_path.
    destruct (String.eqb (animation_path n) EmptyString) eqn:E;
      [by apply String.eqb_eq in E|].
    cbv zeta. rewrite Ht. change (negb (is_empty EmptyString)) with false.
    cbn [negb]. cbv iota.
    match goal with
    | |- context [with_last_consumed_id ?v (with_latest_frame ?f ?m)] => set (n1 := m)
    end.
    assert (P1 : playing n1 = false).
    { transitivity (playing (with_playing false (with_animation_path EmptyString n)));
        [subst n1; keep_gen idtac | reflexivity]. }
    assert (N1 : next_frame_id n1 = next_frame_id n) by (subst n1; keep_gen idtac).
    clearbody n1.
    match goal with
    | |- context [with_last_consumed_id ?v (with_latest_frame ?f n1)] =>
        set (n2 := with_last_consumed_id v (with_latest_frame f n1))
    end.
    assert (V2 : playing n2 = false
                 /\ FrameResult.ready (latest_frame n2) = false
                 /\ last_consumed_id n2 = next_frame_id n
                 /\ next_frame_id n2 = next_frame_id n).
    { subst n2. nsimpl. done. }
    clearbody n2. clear P1 N1. destruct V2 as (P2 & R2 & L2 & N2).
    set (V := fun m : node => (playing m, FrameResult.ready (latest_frame m),
                               last_consumed_id m, next_frame_id m)).
    match goal with
    | |- context [with_texture None ?m] =>
        assert (V3 : V (with_texture None m) = V n2) by keep_gen idtac;
        set (n3 := with_texture None m) in *
    end.
    unfold V in V3. clear V.
    assert (T3 : texture n3 = None) by reflexivity.
    clearbody n3. injection V3 as P3 R3 L3 N3.
    assert (F : clear_view (eff queue_redraw
                  (if render_thread_enabled n3 then _post_load_to_worker h EmptyString n3
                   else n3)) = clear_view n3).
    { destruct (render_thread_enabled n3); [|done].
      change (clear_view (eff queue_redraw ?m)) with (clear_view m).
      apply post_load_clear_view. }
    apply clear_view_fields in F. destruct F as (F1 & F2 & F3 & F4 & F5).
    rewrite F1, F2, F3, F4, F5, P3, R3, L3, N3, T3. done. }
  destruct Hc as (C1 & C2 & C3 & C4 & C5).
  split; [done|]. split; [done|]. split; [done|]. split; [done|]. split; [done|].
  split; [reflexivity|].
  split; [exact C5|].
  split; [apply publish_not_consumed; congruence|].
  intros Hmax Hpos.
  change (last_consumed_id p) with (last_consumed_id c).
  change (FrameResult.id (latest_frame (publish tmp2 p))) with (next_frame_id p).
  change (next_frame_id p) with ((next_frame_id c + 1) mod 2 ^ 64).
  rewrite C4, C5. rewrite Z.mod_small by lia. lia.
Qed.

(** The worker has published nothing yet: the cursor moves from 0 to 1. *)
Lemma first_frame_after_clear_is_dropped_witness :
  let h := host_at_scale F32.one in
  let n := with_animation_path "a.json" tiny_node in
  let c := set_animation_path h n EmptyString in
  last_consumed_id c = 1
  /\ FrameResult.id (latest_frame (publish [] c)) = 1
  /\ process_drain (publish [] c) = publish [] c.
Proof.
  cbv zeta.
  destruct (first_frame_after_clear_is_dropped (host_at_scale F32.one)
              (with_animation_path "a.json" tiny_node) [] [] eq_refl
              ltac:(discriminate))
    as (_ & _ & _ & H4 & _ & _ & H7 & H8 & _).
  cbv zeta in *. split; [exact H4|]. split; [exact H7 | exact H8].
Defined.

(** ** A node at rest *)

Lemma Vector2i_eqb_refl a : Vector2i_eqb a a = true.
Proof. by apply Vector2i_eqb_eq. Qed.

Lemma process_post_same n :
  last_posted_size n = render_size n ->
  last_posted_qf n = _quantized_frame_index n ->
  process_post n = n.
Proof.
  intros Hs Hq. unfold process_post. rewrite Hs, Hq, Vector2i_eqb_refl, Z.eqb_refl. done.
Qed.

Lemma process_at_rest h n d :
  at_rest n ->
  _process h n d
  = with__elapsed_time (F64.add (_elapsed_time n) d) (with__uploaded_this_frame false n).
Proof.
  intros (Hp & Hd & Hr & Ht & Hs & Hq & Hf).
  set (n1 := with__elapsed_time (F64.add (_elapsed_time n) d)
               (with__uploaded_this_frame false n)).
  assert (Hb : process_begin h n d = n1).
  { unfold process_begin. cbv zeta.
    change (dynamic_resolution (with__elapsed_time _ (with__uploaded_this_frame false n)))
      with (dynamic_resolution n). by rewrite Hd. }
  unfold _process. rewrite Hb.
  rewrite process_resize_skips by (left; change (pending_resize n1) with (pending_resize n);
                                   by rewrite Hr).
  unfold process_end.
  rewrite update_animation_idle by exact Hp.
  change (render_thread_enabled n1) with (render_thread_enabled n). rewrite Ht.
  rewrite process_post_same by done.
  rewrite process_drain_nothing by done.
  change (_uploaded_this_frame n1) with false.
  by destruct (is_visible_in_tree h || is_editor_hint h).
Qed.

(** X16. A tick of a node at rest (not playing, dynamic resolution off, no
    resize pending, the current frame already posted, nothing new in the
    slot) only resets the per-tick upload flag and adds the delta to the
    elapsed time.  Over any run of ticks such a node stays at rest: no
    engine call, no signal, no redraw request, no request to the worker, and
    image, texture and frame stay as they are. *)
Theorem ticks_at_rest_are_quiet (n : node) (ts : list (host * F64.double)) :
  at_rest n ->
  let n' := run n ts in
  at_rest n'
  /\ effects n' = effects n
  /\ w_effects n' = w_effects n
  /\ render_pending n' = render_pending n
  /\ load_pending n' = load_pending n
  /\ image n' = image n
  /\ texture n' = texture n
  /\ current_frame n' = current_frame n
  /\ forall h d, _process h n d
       = with__elapsed_time (F64.add (_elapsed_time n) d)
           (with__uploaded_this_frame false n).
Proof.
  intros Hrest n'. subst n'.
  assert (Hrun : at_rest (run n ts)
                 /\ (effects (run n ts), w_effects (run n ts), render_pending (run n ts),
                     load_pending (run n ts), image (run n ts), texture (run n ts),
                     current_frame (run n ts))
                    = (effects n, w_effects n, render_pending n, load_pending n, image n,
                       texture n, current_frame n)).
  { unfold run. revert n Hrest. induction ts as [|[h d] ts IH]; intros n Hrest; [done|].
    simpl. rewrite process_at_rest by done.
    set (n1 := with__elapsed_time _ _).
    assert (H1 : at_rest n1) by exact Hrest.
    destruct (IH n1 H1) as [IH1 IH2]. split; [exact IH1|]. rewrite IH2. reflexivity. }
  destruct Hrun as [H1 H2]. injection H2 as -> -> -> -> -> -> ->.
  repeat (split; [done|]). intros h d. by apply process_at_rest.
Qed.

(** Three ticks of a paused node. *)
Lemma ticks_at_rest_are_quiet_witness :
  let h := host_at_scale F32.one in
  let dt := F64.lit 1 60 in
  let n := with_dynamic_resolution false
             (with_last_posted_size {| x := 32; y := 32 |}
                (with_last_posted_qf 0 small_node)) in
  at_rest n
  /\ effects (run n [(h, dt); (h, dt); (h, dt)]) = effects n
  /\ render_pending (run n [(h, dt); (h, dt); (h, dt)]) = false.
Proof.
  cbv zeta.
  set (n := with_dynamic_resolution false
              (with_last_posted_size {| x := 32; y := 32 |}
                 (with_last_posted_qf 0 small_node))).
  assert (Hrest : at_rest n).
  { repeat (split; [vm_compute; reflexivity|]). left. vm_compute. reflexivity. }
  destruct (ticks_at_rest_are_quiet n
              [(host_at_scale F32.one, F64.lit 1 60); (host_at_scale F32.one, F64.lit 1 60);
               (host_at_scale F32.one, F64.lit 1 60)] Hrest)
    as (_ & He & _ & Hr & _).
  cbv zeta in *. split; [exact Hrest|]. split; [exact He|]. rewrite Hr. vm_compute. reflexivity.
Defined.

(** ** Rendering the same frame again *)

Lemma render_inputs_fields a b :
  render_inputs a = render_inputs b ->
  canvas a = canvas b /\ animation a = animation b /\ picture a = picture b
  /\ pending_resize a = pending_resize b
  /\ _quantized_frame_index a = _quantized_frame_index b
  /\ cache_in_use a = cache_in_use b.
Proof.
  unfold render_inputs, _quantized_frame_index, cache_in_use. intros H.
  injection H as -> -> -> -> -> -> -> -> ->. done.
Qed.

Create Rewrite HintDb render_db.
Ltac keep_render := keep_gen ltac:(autorewrite with render_db).

Lemma upload_image_render_inputs n : render_inputs (upload_image n) = render_inputs n.
Proof. unfold upload_image. keep_gen idtac. Qed.
Lemma upload_image_buffer n : buffer (upload_image n) = buffer n.
Proof. unfold upload_image. keep_gen idtac. Qed.
Lemma ensure_cache_capacity_render_inputs n :
  render_inputs (_ensure_cache_capacity n) = render_inputs n.
Proof. reflexivity. Qed.
#[local] Hint Rewrite upload_image_render_inputs ensure_cache_capacity_render_inputs
  : render_db.

Lemma render_frame_body_inputs h n :
  render_inputs (render_frame_body h n) = render_inputs n.
Proof. unfold render_frame_body. keep_render. Qed.

Lemma render_frame_body_skips h n :
  canvas n && animation n && picture n && bool_decide (is_Some (buffer n)) = true ->
  first_frame_drawn n = true -> pending_resize n = false ->
  last_rendered_qf n = _quantized_frame_index n ->
  render_frame_body h n = n.
Proof.
  intros Hpre Hf Hp Hq. unfold render_frame_body. rewrite Hpre.
  change (negb true) with false. cbv beta iota.
  by rewrite Hf, Hp, Hq, Z.eqb_refl.
Qed.

(** Past its guards and without the cache, the body draws: the frame is
    marked drawn under its quantized index and the buffer holds the
    engine's pixels. *)
Lemma render_frame_body_draws h n :
  cache_in_use n = false ->
  canvas n && animation n && picture n && bool_decide (is_Some (buffer n)) = true ->
  first_frame_drawn n && negb (pending_resize n)
    && (_quantized_frame_index n =? last_rendered_qf n) = false ->
  let r := render_frame_body h n in
  first_frame_drawn r = true
  /\ last_rendered_qf r = _quantized_frame_index n
  /\ is_Some (buffer r).
Proof.
  intros Hc Hpre Hskip. cbv zeta. unfold render_frame_body. rewrite Hpre.
  change (negb true) with false. cbv beta iota. rewrite Hskip, Hc. cbv beta iota.
  rewrite Hc. cbv beta iota.
  split; [reflexivity|]. split; [reflexivity|].
  match goal with
  | |- context [with_buffer (Some ?b) ?m] => set (n1 := with_buffer (Some b) m)
  end.
  assert (H1 : is_Some (buffer n1)) by (by eexists).
  clearbody n1.
  match goal with
  | |- is_Some (buffer ?t) => assert (Hb : buffer t = buffer n1)
  end.
  { keep_gen ltac:(rewrite ?upload_image_buffer). }
  by rewrite Hb.
Qed.

(** X17. Without the frame cache and with no resize pending, rendering
    twice in a row is rendering once: the second [_render_frame] finds the
    quantized frame already drawn and leaves the node, its effects included,
    as the first one left it. *)
Theorem render_frame_idempotent (h : host) (n : node) :
  pending_resize n = false ->
  cache_in_use n = false ->
  _render_frame h (_render_frame h n) = _render_frame h n.
Proof.
  intros Hp Hc. unfold _render_frame at 2 3.
  destruct (rendering n) eqn:Er.
  { unfold _render_frame. by rewrite Er. }
  set (m := with_rendering true n).
  assert (Hm : render_inputs m = render_inputs n) by reflexivity.
  assert (Hcm : cache_in_use m = false) by exact Hc.
  assert (Hpm : pending_resize m = false) by exact Hp.
  unfold _render_frame.
  change (rendering (with_rendering false (render_frame_body h m))) with false.
  cbv iota.
  change (with_rendering true (with_rendering false (render_frame_body h m)))
    with (with_rendering true (render_frame_body h m)).
  pose proof (render_frame_body_inputs h m) as Hin.
  apply render_inputs_fields in Hin. destruct Hin as (I1 & I2 & I3 & I4 & I5 & I6).
  (* the three ways through the body *)
  destruct (canvas m && animation m && picture m && bool_decide (is_Some (buffer m)))
    eqn:Hpre.
  2: { assert (Hb : render_frame_body h m = m).
       { unfold render_frame_body. by rewrite Hpre. }
       rewrite Hb. change (with_rendering true m) with m. by rewrite Hb. }
  destruct (first_frame_drawn m && negb (pending_resize m)
            && (_quantized_frame_index m =? last_rendered_qf m)) eqn:Hskip.
  { assert (Hb : render_frame_body h m = m).
    { unfold render_frame_body. rewrite Hpre. change (negb true) with false.
      cbv beta iota. by rewrite Hskip. }
    rewrite Hb. change (with_rendering true m) with m. by rewrite Hb. }
  destruct (render_frame_body_draws h m Hcm Hpre Hskip) as (D1 & D2 & D3).
  cbv zeta in D1, D2, D3.
  set (r := render_frame_body h m) in *. clearbody r.
  rewrite (render_frame_body_skips h (with_rendering true r)); [done|..].
  - change (canvas (with_rendering true r)) with (canvas r).
    change (animation (with_rendering true r)) with (animation r).
    change (picture (with_rendering true r)) with (picture r).
    change (buffer (with_rendering true r)) with (buffer r).
    rewrite I1, I2, I3.
    apply andb_true_iff in Hpre. destruct Hpre as [Hpre _]. rewrite Hpre.
    by rewrite bool_decide_eq_true_2.
  - exact D1.
  - change (pending_resize (with_rendering true r)) with (pending_resize r).
    by rewrite I4.
  - change (last_rendered_qf (with_rendering true r)) with (last_rendered_qf r).
    change (_quantized_frame_index (with_rendering true r)) with (_quantized_frame_index r).
    by rewrite D2, I5.
Qed.

(** A loaded 1x1 node moved to frame 5: the first render draws. *)
Lemma render_frame_idempotent_witness :
  let h := host_rendering [4278190080] in
  let n := fst (_load_animation h
                  (with_render_thread_enabled false
                     (_initialize_thorvg h
                        (with_render_thread_enabled false
                           (with_fit_box_size {| x := 1; y := 1 |}
                              (with_render_size {| x := 1; y := 1 |} constructed)))))
                  "a.json") in
  let n1 := with_current_frame (F32.of_int 5) n in
  _render_frame h n1 <> n1
  /\ _render_frame h (_render_frame h n1) = _render_frame h n1.
Proof.
  cbv zeta. split; [vm_compute; discriminate|].
  apply render_frame_idempotent; vm_compute; reflexivity.
Defined.

(** ** A load that fails *)

Lemma call_playback_view c n : playback_view (call c n) = playback_view n.
Proof.
  unfold playback_view, loaded_signals, call, eff. nsimpl.
  rewrite emitted_app. simpl. by rewrite Nat.add_0_r.
Qed.

Lemma playback_view_fields a b :
  playback_view a = playback_view b ->
  playing a = playing b /\ current_frame a = current_frame b
  /\ total_frames a = total_frames b /\ duration a = duration b
  /\ animation_key a = animation_key b /\ render_size a = render_size b
  /\ g_anim_usage_counts a = g_anim_usage_counts b
  /\ animation_path a = animation_path b /\ loaded_signals a = loaded_signals b.
Proof. unfold playback_view. intros H. injection H as -> -> -> -> -> -> -> -> ->. done. Qed.

Create Rewrite HintDb playback_db.
#[local] Hint Rewrite call_playback_view : playback_db.

Lemma blank_previous_playback n : playback_view (blank_previous n) = playback_view n.
Proof. unfold blank_previous. keep_gen ltac:(autorewrite with playback_db). Qed.

Lemma blank_previous_visual n :
  let n' := blank_previous n in
  (picture n = false -> n' = n)
  /\ (picture n = true ->
      pixel_bytes n'
      = match image n with
        | Some _ => zeros (length (pixel_bytes n))
        | None => pixel_bytes n
        end
      /\ buffer n' = ((fun _ => zeros (area (render_size n))) <$> buffer n)
      /\ image n'
         = (Image_set_data (x (render_size n)) (y (render_size n))
                           (zeros (length (pixel_bytes n))) <$> image n)
      /\ texture n'
         = match texture n, image n with
           | Some _, Some img =>
               Some (data (Image_set_data (x (render_size n)) (y (render_size n))
                                          (zeros (length (pixel_bytes n))) img))
           | t, _ => t
           end).
Proof.
  cbv zeta. unfold blank_previous. split; [by intros ->|]. intros ->. cbv zeta.
  destruct (buffer n) eqn:Eb, (image n) eqn:Ei, (texture n) eqn:Et;
    unfold call, eff; nsimpl; rewrite ?Eb, ?Ei, ?Et; nsimpl; rewrite ?Et; done.
Qed.

(** X18. A load whose file the engine cannot read, directly or from the
    mirrored copy, returns false and leaves playback as it was: the playing
    flag, the frame, the frame count and duration, the cache key, the render
    size, the registry and the number of [animation_loaded] notifications
    emitted are unchanged.  A fresh animation object is in place.  When no
    picture was loaded before, image, texture and pixel bytes are as they
    were; when one was, the pixel bytes are zeroed and image and texture are
    set from them. *)
Theorem load_failure_leaves_previous_or_blank (h : host) (n : node) (path : string) :
  canvas n = true ->
  is_empty path = false ->
  picture_created h = true ->
  ends_with (to_lower path) ".lottie" = false ->
  picture_load_ok h (globalize_path h path) = false ->
  is_empty (_mirror_file_to_user_cache h path) = true
  \/ picture_load_ok h (globalize_path h (_mirror_file_to_user_cache h path)) = false ->
  let n' := fst (_load_animation h n path) in
  snd (_load_animation h n path) = false
  /\ playback_view n' = playback_view n
  /\ animation n' = true
  /\ (picture n = false ->
      image n' = image n /\ texture n' = texture n /\ pixel_bytes n' = pixel_bytes n)
  /\ (picture n = true ->
      image n' = (Image_set_data (x (render_size n)) (y (render_size n))
                                 (zeros (length (pixel_bytes n))) <$> image n)
      /\ (is_Some (image n) -> pixel_bytes n' = zeros (length (pixel_bytes n)))
      /\ (is_Some (image n) -> is_Some (texture n) ->
          texture n' = (data <$> image n'))).
Proof.
  intros Hc Hp Hpc Hl Hd Hm. cbv zeta. unfold _load_animation.
  rewrite Hp, Hc. change (negb true) with false. cbv beta iota.
  fold (blank_previous n).
  set (n4 := with_picture _ _).
  assert (P4 : picture n4 = true) by exact Hpc.
  assert (A4 : animation n4 = true) by reflexivity.
  assert (V4 : playback_view n4 = playback_view n).
  { transitivity (playback_view (blank_previous n)); [|apply blank_previous_playback].
    subst n4.
    transitivity (playback_view (call animation_gen (blank_previous n)));
      [reflexivity | apply call_playback_view]. }
  assert (I4 : (image n4, texture n4, pixel_bytes n4, buffer n4)
               = (image (blank_previous n), texture (blank_previous n),
                  pixel_bytes (blank_previous n), buffer (blank_previous n)))
    by reflexivity.
  clearbody n4.
  rewrite P4. change (negb true) with false. cbv beta iota.
  rewrite Hl. cbv beta iota. change (negb true) with false. cbv beta iota.
  unfold _try_load_path. rewrite Hd. cbv beta iota.
  change (negb false) with true. cbv beta iota.
  set (n5 := call (picture_load (globalize_path h path)) n4).
  assert (A5 : animation n5 = true) by exact A4.
  assert (V5 : playback_view n5 = playback_view n)
    by (subst n5; by rewrite call_playback_view).
  assert (I5 : (image n5, texture n5, pixel_bytes n5, buffer n5)
               = (image (blank_previous n), texture (blank_previous n),
                  pixel_bytes (blank_previous n), buffer (blank_previous n)))
    by exact I4.
  clearbody n5. clear n4 P4 A4 V4 I4.
  assert (Hres : exists n6,
             (if negb (is_empty (_mirror_file_to_user_cache h path))
              then (call (picture_load (globalize_path h (_mirror_file_to_user_cache h path)))
                         n5,
                    picture_load_ok h (globalize_path h (_mirror_file_to_user_cache h path)))
              else (n5, false)) = (n6, false)
             /\ animation n6 = true /\ playback_view n6 = playback_view n
             /\ (image n6, texture n6, pixel_bytes n6, buffer n6)
                = (image (blank_previous n), texture (blank_previous n),
                   pixel_bytes (blank_previous n), buffer (blank_previous n))).
  { destruct (is_empty (_mirror_file_to_user_cache h path)) eqn:Em.
    - exists n5. done.
    - destruct Hm as [?|Hm]; [done|]. rewrite Hm. eexists. split; [reflexivity|].
      split; [exact A5|]. split; [by rewrite call_playback_view | exact I5]. }
  destruct Hres as (n6 & -> & A6 & V6 & I6). cbv beta iota.
  change (negb false) with true. cbv beta iota. cbn [fst snd].
  split; [done|]. split; [done|]. split; [done|].
  injection I6 as -> -> -> _.
  destruct (blank_previous_visual n) as [B1 B2]. cbv zeta in B1, B2. split.
  - intros Hpn. rewrite (B1 Hpn). done.
  - intros Hpn. destruct (B2 Hpn) as (Q1 & Q2 & Q3 & Q4).
    split; [exact Q3|]. split.
    + intros [img Hi]. by rewrite Q1, Hi.
    + intros [img Hi] [t Ht]. rewrite Q4, Q3, Ht, Hi. done.
Qed.

(** A missing file loaded over a loaded animation. *)
Lemma load_failure_leaves_previous_or_blank_witness :
  let h := host_at_scale F32.one in
  let loaded := fst (_load_animation host_loading small_node "a.json") in
  let failed := _load_animation h loaded "missing.json" in
  snd failed = false
  /\ animation_key (fst failed) = "a.json"
  /\ total_frames (fst failed) = F32.of_int 100
  /\ loaded_signals (fst failed) = 1%nat.
Proof.
  cbv zeta.
  destruct (load_failure_leaves_previous_or_blank (host_at_scale F32.one)
              (fst (_load_animation host_loading small_node "a.json")) "missing.json"
              ltac:(vm_compute; reflexivity) eq_refl eq_refl eq_refl eq_refl
              ltac:(left; reflexivity))
    as (H1 & H2 & _).
  split; [exact H1|].
  apply playback_view_fields in H2.
  destruct H2 as (_ & _ & Ht & _ & Hk & _ & _ & _ & Hs).
  rewrite Hk, Ht, Hs. clear. vm_compute. split; [reflexivity|]. split; reflexivity.
Defined.

(** ** The resolution threshold *)

Lemma SFltb_nan_l a : SFltb S754_nan a = false.
Proof. reflexivity. Qed.

Lemma SFltb_nan_r a : SFltb a S754_nan = false.
Proof. unfold SFltb. by destruct a. Qed.

(** X19. [set_resolution_threshold] stores its argument clamped into
    [0.01, 1]: whatever number is passed, the threshold read back lies in
    that range, and a number already in the range is stored as it is.  A NaN
    is not clamped: it is stored as it is, and with a NaN threshold the
    resolution controller never marks a resize, whatever the scale. *)
Theorem resolution_threshold_clamped (p_t : F32.float) (h : host) (n : node) :
  let n' := set_resolution_threshold p_t n in
  (p_t <> S754_nan ->
   F32.leb (F32.lit 1 100) (get_resolution_threshold n') = true
   /\ F32.leb (get_resolution_threshold n') F32.one = true
   /\ (F32.leb (F32.lit 1 100) p_t = true -> F32.leb p_t F32.one = true ->
       get_resolution_threshold n' = p_t))
  /\ (p_t = S754_nan ->
      get_resolution_threshold n' = S754_nan
      /\ pending_resize (_update_resolution_from_scale h n') = pending_resize n
      /\ pending_target_size (_update_resolution_from_scale h n') = pending_target_size n).
Proof.
  cbv zeta. unfold set_resolution_threshold, get_resolution_threshold.
  change (resolution_threshold (with_resolution_threshold ?v n)) with v.
  split.
  - intros Hn. unfold std_clamp, F32.ltb, F32.leb.
    destruct (SFltb p_t (F32.lit 1 100)) eqn:E1.
    { split; [vm_compute; reflexivity|]. split; [vm_compute; reflexivity|].
      intros H1 _. unfold SFltb in E1. unfold SFleb in H1.
      destruct (SFcompare (F32.lit 1 100) p_t) as [c|] eqn:Ec; [|done].
      apply SFcompare_antisym in Ec. rewrite Ec in E1. by destruct c. }
    destruct (SFltb F32.one p_t) eqn:E2.
    { split; [vm_compute; reflexivity|]. split; [vm_compute; reflexivity|].
      intros _ H2. unfold SFltb in E2. unfold SFleb in H2.
      destruct (SFcompare p_t F32.one) as [c|] eqn:Ec; [|done].
      apply SFcompare_antisym in Ec. rewrite Ec in E2. by destruct c. }
    split; [|split; [|done]].
    + apply SFltb_false_leb; [done | by vm_compute | done].
    + apply SFltb_false_leb; [by vm_compute | done | done].
  - intros ->. split; [reflexivity|].
    change (std_clamp S754_nan (F32.lit 1 100) F32.one) with S754_nan.
    set (n1 := with_resolution_threshold S754_nan n).
    assert (Ht : resolution_threshold n1 = S754_nan) by reflexivity.
    assert (Hp : pending_resize n1 = pending_resize n) by reflexivity.
    assert (Hs : pending_target_size n1 = pending_target_size n) by reflexivity.
    rewrite <- Hp, <- Hs. clearbody n1.
    unfold _update_resolution_from_scale.
    destruct (is_inside_tree h); [|done]. cbv beta iota.
    destruct (screen_scale h) as [sx sy]. cbv beta iota.
    destruct (F32.gtb (F32.abs (F32.sub _ _)) (F32.lit 5 100));
      destruct (Vector2i_eqb _ _); try done;
      nsimpl; rewrite Ht; unfold F32.gtb; rewrite !SFltb_nan_l; done.
Qed.

(** A threshold in the range, and one above it. *)
Lemma resolution_threshold_clamped_witness :
  get_resolution_threshold (set_resolution_threshold (F32.lit 1 2) constructed) = F32.lit 1 2
  /\ F32.leb (get_resolution_threshold (set_resolution_threshold (F32.of_int 5) constructed))
             F32.one = true.
Proof.
  destruct (resolution_threshold_clamped (F32.lit 1 2) host_loading constructed) as [H _].
  destruct (resolution_threshold_clamped (F32.of_int 5) host_loading constructed) as [H' _].
  cbv zeta in *.
  destruct (H ltac:(discriminate)) as (_ & _ & H3).
  destruct (H' ltac:(discriminate)) as (_ & H2 & _).
  split; [apply H3; vm_compute; reflexivity | exact H2].
Defined.

(** ** A file that loads from its mirrored copy only *)

Create Rewrite HintDb request_db.
Ltac keep_request := keep_gen ltac:(autorewrite with request_db).

Lemma eff_request e n : load_request (eff e n) = load_request n.
Proof. reflexivity. Qed.
Lemma call_request c n : load_request (call c n) = load_request n.
Proof. reflexivity. Qed.
#[local] Hint Rewrite eff_request call_request : request_db.
Lemma upload_image_request n : load_request (upload_image n) = load_request n.
Proof. unfold upload_image. keep_request. Qed.
Lemma ensure_cache_capacity_request n :
  load_request (_ensure_cache_capacity n) = load_request n.
Proof. reflexivity. Qed.
#[local] Hint Rewrite upload_image_request ensure_cache_capacity_request : request_db.
Lemma create_texture_request n : load_request (_create_texture n) = load_request n.
Proof. unfold _create_texture, _recreate_texture_ring. keep_request. Qed.
#[local] Hint Rewrite create_texture_request : request_db.
Lemma allocate_request h s n :
  load_request (_allocate_buffer_and_target h s n) = load_request n.
Proof. unfold _allocate_buffer_and_target. keep_request. Qed.
Lemma apply_fit_request n :
  load_request (_apply_picture_transform_to_fit n) = load_request n.
Proof. unfold _apply_picture_transform_to_fit. keep_request. Qed.
Lemma render_frame_request h n : load_request (_render_frame h n) = load_request n.
Proof. unfold _render_frame, render_frame_body. keep_request. Qed.
Lemma post_render_request s f n :
  load_request (_post_render_to_worker s f n) = load_request n.
Proof. unfold _post_render_to_worker. keep_request. Qed.
Lemma post_segment_request b e n :
  load_request (_post_segment_to_worker b e n) = load_request n.
Proof. unfold _post_segment_to_worker. keep_request. Qed.
#[local] Hint Rewrite allocate_request apply_fit_request render_frame_request
  post_render_request post_segment_request : request_db.
Lemma apply_segment_request h n :
  load_request (_apply_selected_state_segment h n) = load_request n.
Proof. unfold _apply_selected_state_segment. keep_request. Qed.
Lemma recompute_live_cache_request n :
  load_request (_recompute_live_cache_state n) = load_request n.
Proof. unfold _recompute_live_cache_state. keep_request. Qed.
Lemma registry_inc_request k n : load_request (_registry_inc k n) = load_request n.
Proof. unfold _registry_inc. keep_request. Qed.
Lemma registry_dec_request k n : load_request (_registry_dec k n) = load_request n.
Proof. unfold _registry_dec. keep_request. Qed.
#[local] Hint Rewrite apply_segment_request recompute_live_cache_request
  registry_inc_request registry_dec_request : request_db.
Lemma apply_sizing_policy_request h n :
  load_request (_apply_sizing_policy h n) = load_request n.
Proof. unfold _apply_sizing_policy. keep_request. Qed.
#[local] Hint Rewrite apply_sizing_policy_request : request_db.
Lemma blank_previous_request n : load_request (blank_previous n) = load_request n.
Proof. unfold blank_previous. keep_request. Qed.

Lemma load_by_mirror_request (h : host) (n : node) (path : string) :
  canvas n = true ->
  render_thread_enabled n = true ->
  is_empty path = false ->
  picture_created h = true ->
  ends_with (to_lower path) ".lottie" = false ->
  picture_load_ok h (globalize_path h path) = false ->
  is_empty (_mirror_file_to_user_cache h path) = false ->
  picture_load_ok h (globalize_path h (_mirror_file_to_user_cache h path)) = true ->
  canvas_push_ok h = true ->
  snd (_load_animation h n path) = true
  /\ load_request (fst (_load_animation h n path)) = (true, globalize_path h path, true).
Proof.
  intros Hc Ht Hp Hpc Hl Hd Hm Hok Hpush. unfold _load_animation.
  rewrite Hp, Hc. change (negb true) with false. cbv beta iota.
  fold (blank_previous n).
  set (n4 := with_picture _ _).
  assert (P4 : picture n4 = true) by exact Hpc.
  assert (R4 : load_request n4 = load_request n).
  { transitivity (load_request (blank_previous n)); [reflexivity|].
    apply blank_previous_request. }
  clearbody n4.
  rewrite P4. change (negb true) with false. cbv beta iota.
  rewrite Hl. cbv beta iota. change (negb true) with false. cbv beta iota.
  unfold _try_load_path. rewrite Hd. cbv beta iota.
  change (negb false) with true. cbv beta iota.
  rewrite Hm. change (negb false) with true. cbv beta iota.
  rewrite Hok. change (negb true) with false. cbv beta iota.
  set (n5 := call (picture_load (globalize_path h (_mirror_file_to_user_cache h path))) _).
  assert (R5 : load_request n5 = load_request n) by (rewrite <- R4; reflexivity).
  clearbody n5. clear n4 P4 R4.
  assert (Hpost : forall c, load_request c = load_request n ->
            load_request
              (eff (emit_signal "animation_loaded" [VBool true])
                 (_apply_selected_state_segment h
                    (let x := if render_thread_enabled c
                              then _post_render_to_worker
                                     (render_size (_post_load_to_worker h path c))
                                     (current_frame (_post_load_to_worker h path c))
                                     (_post_load_to_worker h path c)
                              else _render_frame h c in
                     if negb (playing x) then eff queue_redraw (_render_frame h x) else x)))
            = (true, globalize_path h path, true)).
  { intros c Rc. cbv zeta. autorewrite with request_db.
    assert (Hx : load_request
                   (if render_thread_enabled c
                    then _post_render_to_worker
                           (render_size (_post_load_to_worker h path c))
                           (current_frame (_post_load_to_worker h path c))
                           (_post_load_to_worker h path c)
                    else _render_frame h c) = (true, globalize_path h path, true)).
    { unfold load_request in Rc. injection Rc as A B C. rewrite C, Ht.
      autorewrite with request_db. unfold _post_load_to_worker. rewrite C, Ht, Hp.
      change (negb true) with false. cbv beta iota. unfold load_request. nsimpl.
      by rewrite C, Ht. }
    destruct (negb (playing _)); autorewrite with request_db; exact Hx. }
  destruct (picture_size h) as [pw ph].
  destruct (F32.leb pw F32.zero || F32.leb ph F32.zero); cbv beta iota;
    rewrite Hpush; change (negb true) with false; cbv beta iota; cbn [fst snd];
    (split; [reflexivity|]); apply Hpost; rewrite <- R5; keep_request.
Qed.

(** ** A load the worker cannot repeat *)

Lemma worker_load_fails h p n :
  picture_load_ok h p = false ->
  w_animation (worker_load h p n) = false
  /\ w_picture (worker_load h p n) = false
  /\ latest_frame (worker_load h p n) = latest_frame n
  /\ next_frame_id (worker_load h p n) = next_frame_id n.
Proof.
  intros H. unfold worker_load. rewrite H, andb_false_r.
  destruct (is_empty p); cbv beta iota.
  - by destruct (w_picture n).
  - destruct (w_picture n); destruct (picture_created h); done.
Qed.

Lemma worker_iteration_load_fails h n :
  load_pending n = true ->
  picture_load_ok h (pending_path8 n) = false ->
  let n' := worker_iteration h n in
  w_animation n' = false
  /\ w_picture n' = false
  /\ latest_frame n' = latest_frame n
  /\ next_frame_id n' = next_frame_id n.
Proof.
  intros Hl Hf. cbv zeta. unfold worker_iteration. rewrite Hl. cbv beta iota.
  match goal with |- context [worker_load h ?p ?m] =>
    set (n2 := m); change p with (pending_path8 n)
  end.
  assert (L2 : latest_frame n2 = latest_frame n)
    by (subst n2; by destruct (segment_pending _)).
  assert (I2 : next_frame_id n2 = next_frame_id n)
    by (subst n2; by destruct (segment_pending _)).
  clearbody n2.
  destruct (worker_load_fails h (pending_path8 n) n2 Hf) as (A & P & L & I).
  set (n3 := worker_load h (pending_path8 n) n2) in *. clearbody n3.
  rewrite A, andb_false_r.
  set (n5 := if render_pending n3 then with_render_pending false n3 else n3).
  assert (H5 : w_animation n5 = false /\ w_picture n5 = false
               /\ latest_frame n5 = latest_frame n /\ next_frame_id n5 = next_frame_id n).
  { subst n5. rewrite <- L2, <- I2, <- L, <- I. by destruct (render_pending n3). }
  clearbody n5. destruct H5 as (A5 & P5 & L5 & I5).
  unfold worker_render. rewrite A5. cbn [negb]. rewrite orb_true_r. cbn [orb].
  by destruct (_ && _).
Qed.

(** X20. A file that the engine can load only from its mirrored copy in
    the user cache (the direct load fails, the retry on the copy succeeds)
    is reported as loaded, but with the render thread enabled the path
    posted to the worker is the original one: the worker's own load of it
    fails, the worker is left without animation and picture, and its pass
    publishes no frame. *)
Theorem mirrored_load_starves_worker (h : host) (n : node) (path : string) :
  canvas n = true ->
  render_thread_enabled n = true ->
  is_empty path = false ->
  picture_created h = true ->
  ends_with (to_lower path) ".lottie" = false ->
  picture_load_ok h (globalize_path h path) = false ->
  is_empty (_mirror_file_to_user_cache h path) = false ->
  picture_load_ok h (globalize_path h (_mirror_file_to_user_cache h path)) = true ->
  canvas_push_ok h = true ->
  let n1 := fst (_load_animation h n path) in
  let n2 := worker_iteration h n1 in
  snd (_load_animation h n path) = true
  /\ load_pending n1 = true
  /\ pending_path8 n1 = globalize_path h path
  /\ w_animation n2 = false
  /\ w_picture n2 = false
  /\ latest_frame n2 = latest_frame n1
  /\ next_frame_id n2 = next_frame_id n1.
Proof.
  intros Hc Ht Hp Hpc Hl Hd Hm Hok Hpush n1 n2.
  destruct (load_by_mirror_request h n path Hc Ht Hp Hpc Hl Hd Hm Hok Hpush) as [Hs Hr].
  fold n1 in Hr. unfold load_request in Hr. injection Hr as Hlp Hpp _.
  split; [exact Hs|]. split; [exact Hlp|]. split; [exact Hpp|].
  apply worker_iteration_load_fails; [exact Hlp | by rewrite Hpp].
Qed.

(** A packed file on a node with the render thread. *)
Lemma mirrored_load_starves_worker_witness :
  let n := with_render_thread_enabled true small_node in
  let n1 := fst (_load_animation host_packed n "res://a.json") in
  let n2 := worker_iteration host_packed n1 in
  snd (_load_animation host_packed n "res://a.json") = true
  /\ pending_path8 n1 = "res://a.json"
  /\ w_animation n2 = false
  /\ next_frame_id n2 = next_frame_id n.
Proof.
  cbv zeta.
  destruct (mirrored_load_starves_worker host_packed
              (with_render_thread_enabled true small_node) "res://a.json"
              eq_refl eq_refl eq_refl eq_refl eq_refl eq_refl eq_refl eq_refl eq_refl)
    as (Hs & _ & Hp & Ha & _ & _ & Hi).
  cbv zeta in *.
  split; [exact Hs|]. split; [exact Hp|]. split; [exact Ha|].
  rewrite Hi. vm_compute. reflexivity.
Defined.

(** ** Which entry of a [.lottie] archive is played *)

Lemma is_empty_eq s : is_empty s = true <-> s = EmptyString.
Proof. unfold is_empty. apply String.eqb_eq. Qed.

Lemma substring_all t : String.substring 0 (String.length t) t = t.
Proof. induction t as [|d t IHt]; simpl; [done|]. by rewrite IHt. Qed.

Lemma substring_append_r s t :
  String.substring (String.length s) (String.length t) (s ++ t) = t.
Proof. induction s as [|c s IH]; simpl; [apply substring_all | exact IH]. Qed.

Lemma string_length_app s t :
  String.length (s ++ t) = (String.length s + String.length t)%nat.
Proof. induction s; simpl; [done|]. by rewrite IHs. Qed.

Lemma ends_with_app s t : ends_with (s ++ t) t = true.
Proof.
  unfold ends_with. rewrite string_length_app.
  replace (String.length s + String.length t - String.length t)%nat
    with (String.length s) by lia.
  rewrite substring_append_r, String.eqb_refl, andb_true_r.
  apply Nat.leb_le. lia.
Qed.

Lemma substring_split s n :
  (n <= String.length s)%nat ->
  s = (String.substring 0 n s ++ String.substring n (String.length s - n) s)%string.
Proof.
  revert n. induction s as [|c s IH]; intros n Hn.
  - destruct n; simpl in *; [done|lia].
  - destruct n as [|n].
    + rewrite Nat.sub_0_r, substring_all. reflexivity.
    + change (String c s
              = String c (String.substring 0 n s
                          ++ String.substring n (String.length s - n) s)%string).
      f_equal. apply IH. simpl in Hn. lia.
Qed.

Lemma ends_with_spec s x : ends_with s x = true <-> exists p, s = (p ++ x)%string.
Proof.
  split.
  - unfold ends_with. intros H. apply andb_true_iff in H as [Hl He].
    apply Nat.leb_le in Hl. apply String.eqb_eq in He.
    exists (String.substring 0 (String.length s - String.length x) s).
    rewrite <- He at 2.
    pose proof (substring_split s (String.length s - String.length x) ltac:(lia)) as Hs.
    replace (String.length s - (String.length s - String.length x))%nat
      with (String.length x) in Hs by lia.
    exact Hs.
  - intros [p ->]. apply ends_with_app.
Qed.

Lemma string_app_assoc (a b c : string) : ((a ++ b) ++ c = a ++ (b ++ c))%string.
Proof.
  induction a as [|d a IHa]; [done|].
  change (String d ((a ++ b) ++ c) = String d (a ++ (b ++ c)))%string. by rewrite IHa.
Qed.

Lemma ends_with_trans s x y : ends_with s x = true -> ends_with x y = true -> ends_with s y = true.
Proof.
  intros [p ->]%ends_with_spec [q ->]%ends_with_spec.
  rewrite <- string_app_assoc. apply ends_with_app.
Qed.

Lemma to_lower_app s t : to_lower (s ++ t) = (to_lower s ++ to_lower t)%string.
Proof.
  induction s as [|d s IHs]; [done|].
  change (String (lower_ascii d) (to_lower (s ++ t))
          = String (lower_ascii d) (to_lower s ++ to_lower t))%string. by rewrite IHs.
Qed.

Lemma ends_with_nonempty s x : ends_with s x = true -> x <> EmptyString -> s <> EmptyString.
Proof.
  intros [p ->]%ends_with_spec Hx. destruct p; simpl; [done|discriminate].
Qed.

Lemma to_lower_nonempty s : to_lower s <> EmptyString -> s <> EmptyString.
Proof. by destruct s. Qed.

Lemma json_name_nonempty f : ends_with (to_lower f) ".json" = true -> is_empty f = false.
Proof.
  intros H. apply not_true_is_false. rewrite is_empty_eq.
  apply to_lower_nonempty. eapply ends_with_nonempty; [exact H|discriminate].
Qed.

Lemma file_exists_in_zip_In files p : file_exists_in_zip files p = true <-> In p files.
Proof.
  unfold file_exists_in_zip. rewrite existsb_exists. split.
  - intros (f & Hf & ->%String.eqb_eq). done.
  - intros H. exists p. by rewrite String.eqb_refl.
Qed.

Lemma first_entry_cases test files :
  (first_entry test files = EmptyString /\ (forall f, In f files -> f <> EmptyString -> test f = false) )
  \/ (In (first_entry test files) files /\ test (first_entry test files) = true
      /\ find test files = Some (first_entry test files)).
Proof.
  unfold first_entry. destruct (find test files) as [f|] eqn:E.
  - right. apply find_some in E as [H1 H2]. done.
  - left. split; [done|]. intros f Hf _. by apply (find_none _ _ E).
Qed.

Lemma is_empty_empty : is_empty EmptyString = true.
Proof. reflexivity. Qed.

Lemma first_entry_nonempty test files :
  (forall f, test f = true -> is_empty f = false) ->
  is_empty (first_entry test files) = true ->
  forall f, In f files -> test f = false.
Proof.
  intros Ht He f Hf. unfold first_entry in He.
  destruct (find test files) as [g|] eqn:E.
  - apply find_some in E as [_ E]. apply Ht in E. congruence.
  - by apply (find_none _ _ E).
Qed.

Lemma first_entry_found test files :
  is_empty (first_entry test files) = false ->
  In (first_entry test files) files /\ test (first_entry test files) = true.
Proof.
  unfold first_entry. destruct (find test files) as [g|] eqn:E; [|done].
  intros _. by apply find_some in E.
Qed.

Lemma is_animations_json_name f : is_animations_json f = true -> ends_with (to_lower f) ".json" = true.
Proof. unfold is_animations_json. cbv zeta. by intros [? _]%andb_true_iff. Qed.

Lemma is_other_json_name f : is_other_json f = true -> ends_with (to_lower f) ".json" = true.
Proof. unfold is_other_json. cbv zeta. by intros [? _]%andb_true_iff. Qed.

Lemma is_data_json_name f : is_data_json f = true -> ends_with (to_lower f) ".json" = true.
Proof.
  unfold is_data_json. cbv zeta. intros [H|H]%orb_true_iff.
  - eapply ends_with_trans; [exact H|reflexivity].
  - apply String.eqb_eq in H. by rewrite H.
Qed.

Lemma alt_name p : ends_with (to_lower ("animations/" ++ p ++ ".json")) ".json" = true.
Proof.
  rewrite !to_lower_app. change (to_lower ".json") with ".json".
  rewrite <- string_app_assoc. apply ends_with_app.
Qed.

Lemma fallback_chosen files p :
  chosen files p
    (let json_inside := first_entry is_animations_json files in
     let json_inside :=
       if is_empty json_inside then first_entry is_data_json files else json_inside in
     if is_empty json_inside then first_entry is_other_json files else json_inside).
Proof.
  cbv zeta.
  destruct (is_empty (first_entry is_animations_json files)) eqn:E1.
  - pose proof (first_entry_nonempty _ _
      (fun f H => json_name_nonempty f (is_animations_json_name f H)) E1) as N1.
    destruct (is_empty (first_entry is_data_json files)) eqn:E2.
    + pose proof (first_entry_nonempty _ _
        (fun f H => json_name_nonempty f (is_data_json_name f H)) E2) as N2.
      destruct (is_empty (first_entry is_other_json files)) eqn:E3.
      * pose proof (first_entry_nonempty _ _
          (fun f H => json_name_nonempty f (is_other_json_name f H)) E3) as N3.
        apply chosen_none; [exact (proj1 (is_empty_eq _) E3) | exact N1 | exact N2 | exact N3].
      * destruct (first_entry_found _ _ E3) as [I3 T3]. by apply chosen_other.
    + destruct (first_entry_found _ _ E2) as [I2 T2]. by apply chosen_data.
  - rewrite E1. destruct (first_entry_found _ _ E1) as [I1 T1].
    apply chosen_animations; [exact I1 | exact T1].
Qed.

Lemma json_inside_chosen files p : chosen files p (json_inside files p).
Proof.
  unfold json_inside. cbv zeta.
  destruct (is_empty p) eqn:Hp; cbn [negb]; cbv iota.
  { rewrite is_empty_empty. apply fallback_chosen. }
  destruct (file_exists_in_zip files p) eqn:E0; cbv iota.
  { rewrite !Hp. apply chosen_exact; [done| |done]. by apply file_exists_in_zip_In. }
  assert (N0 : ~ In p files).
  { intros H. apply file_exists_in_zip_In in H. congruence. }
  clear E0. rewrite !is_empty_empty.
  destruct (file_exists_in_zip files _) eqn:E1; cbv iota.
  { match type of E1 with file_exists_in_zip files ?a = true =>
      assert (Ha : is_empty a = false) by reflexivity
    end.
    rewrite !Ha. apply chosen_alt; [done|done| |done]. by apply file_exists_in_zip_In. }
  rewrite !is_empty_empty.
  match goal with |- context [first_entry ?t files] => set (test := t) end.
  destruct (is_empty (first_entry test files)) eqn:E2; cbv iota.
  { apply fallback_chosen. }
  rewrite ?E2.
  destruct (first_entry_found _ _ E2) as [Hin Ht]. subst test. cbv beta zeta in Ht.
  apply andb_true_iff in Ht as [Ht1 Ht2].
  by apply chosen_needle.
Qed.

(** X21. The entry of a [.lottie] archive that is played is an entry of
    the archive or none at all; a preferred entry that is in the archive
    under its exact name is chosen whatever it is; any other choice has a
    name ending in [.json] (letter case apart).  An archive holding a JSON
    file other than a manifest always yields an entry, and with no preferred
    entry a JSON file under [animations/] is chosen before [data.json] and
    any other, wherever it stands in the archive. *)
Theorem json_inside_selection (files : list string) (p : string) :
  (json_inside files p = EmptyString \/ In (json_inside files p) files)
  /\ (is_empty p = false -> In p files -> json_inside files p = p)
  /\ (json_inside files p = EmptyString \/ json_inside files p = p
      \/ ends_with (to_lower (json_inside files p)) ".json" = true)
  /\ ((exists f, In f files /\ is_other_json f = true) ->
      json_inside files p <> EmptyString)
  /\ (is_empty p = true -> (exists f, In f files /\ is_animations_json f = true) ->
      is_animations_json (json_inside files p) = true).
Proof.
  pose proof (json_inside_chosen files p) as Hc.
  assert (Hne : forall r, ends_with (to_lower r) ".json" = true -> r <> EmptyString).
  { intros r H%json_name_nonempty ->. done. }
  split; [|split; [|split; [|split]]].
  - destruct Hc as [? ? E | | | | | |]; [rewrite E|..]; auto.
  - intros Hp Hin. unfold json_inside. cbv zeta. rewrite Hp. cbn [negb]. cbv iota.
    apply file_exists_in_zip_In in Hin. rewrite Hin. cbv iota. by rewrite !Hp.
  - destruct Hc as [| ? ? ? -> | | | | |]; auto.
    + right. right. apply alt_name.
    + right. right. by apply is_animations_json_name.
    + right. right. by apply is_data_json_name.
    + right. right. by apply is_other_json_name.
  - intros (f & Hf & Ho).
    destruct Hc as [Hp ? -> | ? ? ? -> | | | | |N1 N2 N3 N4].
    + intros ->. done.
    + done.
    + by apply Hne.
    + by apply Hne, is_animations_json_name.
    + by apply Hne, is_data_json_name.
    + by apply Hne, is_other_json_name.
    + rewrite N4 in Ho; done.
  - intros Hp (f & Hf & Ha).
    destruct Hc as [Hp' | Hp' | Hp' | | ? ? N | ? ? N |? N]; try congruence.
    all: rewrite N in Ha; done.
Qed.

(** An archive with a manifest, an image, a [data.json] and an animation. *)
Lemma json_inside_selection_witness :
  let files := ["manifest.json"; "images/img_0.png"; "data.json"; "animations/Intro.json"] in
  json_inside files "images/img_0.png" = "images/img_0.png"
  /\ json_inside files EmptyString <> EmptyString
  /\ is_animations_json (json_inside files EmptyString) = true.
Proof.
  cbv zeta.
  match goal with |- json_inside ?fs ?p = _ /\ _ =>
    destruct (json_inside_selection fs p) as (_ & H2 & _);
    destruct (json_inside_selection fs EmptyString) as (_ & _ & _ & H4 & H5)
  end.
  split; [apply H2; [reflexivity | vm_compute; tauto]|].
  split.
  - apply H4. exists "data.json". split; [vm_compute; tauto | reflexivity].
  - apply H5; [reflexivity|]. exists "animations/Intro.json".
    split; [vm_compute; tauto | reflexivity].
Defined.

Lemma manifest_loop_first files :
  manifest_loop files "manifest.json" false
  = match find (fun f => ends_with (to_lower f) "manifest.json") files with
    | Some f => (f, true)
    | None => ("manifest.json", false)
    end.
Proof.
  induction files as [|f files IH]; [done|].
  cbn [manifest_loop find].
  destruct (ends_with (to_lower f) "manifest.json") eqn:E; [done|].
  destruct (String.eqb f "manifest.json") eqn:E'; [|exact IH].
  apply String.eqb_eq in E'. subst f. done.
Qed.

(** X22. The manifest of an archive is the first entry, in archive order,
    whose lower-cased name ends with [manifest.json]: such an entry in a
    sub-folder, in capitals or with a longer name counts, and it is taken
    before a later entry named exactly [manifest.json].  A manifest is
    present exactly when such an entry exists; the separate test for the
    exact name never decides. *)
Theorem find_manifest_first_match (files : list string) :
  find_manifest files
  = match find (fun f => ends_with (to_lower f) "manifest.json") files with
    | Some f => (f, true)
    | None => ("manifest.json", false)
    end
  /\ (snd (find_manifest files) = true <->
      exists f, In f files /\ ends_with (to_lower f) "manifest.json" = true)
  /\ (snd (find_manifest files) = true -> In (fst (find_manifest files)) files).
Proof.
  unfold find_manifest. rewrite manifest_loop_first.
  split; [done|].
  destruct (find _ files) as [f|] eqn:E; cbn [fst snd].
  - apply find_some in E as [E1 E2]. split; [|done]. split; [|done]. intros _. by exists f.
  - split; [|done]. split; [done|]. intros (f & Hf & Ht).
    by rewrite (find_none _ _ E f Hf) in Ht.
Qed.

(** Two candidates, the exact name second. *)
Lemma find_manifest_first_match_witness :
  find_manifest ["animations/a.json"; "old_Manifest.JSON"; "manifest.json"]
  = ("old_Manifest.JSON", true)
  /\ In (fst (find_manifest ["animations/a.json"; "old_Manifest.JSON"; "manifest.json"]))
        ["animations/a.json"; "old_Manifest.JSON"; "manifest.json"].
Proof.
  destruct (find_manifest_first_match
              ["animations/a.json"; "old_Manifest.JSON"; "manifest.json"]) as (H1 & _ & H3).
  split; [rewrite H1; reflexivity|]. apply H3. rewrite H1. reflexivity.
Defined.

(** ** The two ways to a frame *)

Lemma postprocess_full h a b argb dst dst' size :
  pixel_options a = pixel_options b ->
  length argb = area size ->
  length dst = (area size * 4)%nat ->
  length dst' = (area size * 4)%nat ->
  postprocess h a argb dst size = postprocess h b argb dst' size.
Proof.
  intros Ho Ha Hd Hd'. unfold pixel_options in Ho. injection Ho as Hu Hf.
  unfold postprocess. rewrite Hu, Hf.
  rewrite <- Ha.
  rewrite !PixelConverterFacts.convert_rgba_of by lia. reflexivity.
Qed.

Lemma worker_render_bytes h rsize rframe n argb :
  0 < x rsize -> 0 < y rsize ->
  w_canvas n = true -> w_animation n = true -> w_picture n = true ->
  (forall calls, raster h calls = argb) ->
  length argb = area rsize ->
  FrameResult.rgba (latest_frame (worker_render h rsize rframe n))
  = postprocess h n argb (zeros (area rsize * 4)) rsize.
Proof.
  intros Hx Hy Hc Ha Hp Hr Hl. unfold worker_render.
  apply Z.ltb_lt in Hx, Hy. rewrite Hx, Hy, Hc, Ha, Hp. cbn [andb orb negb].
  set (n1 := _worker_apply_target_if_needed rsize n).
  assert (S1 : w_render_size n1 = rsize) by apply worker_apply_target_size.
  assert (O1 : pixel_options n1 = pixel_options n).
  { subst n1. unfold _worker_apply_target_if_needed. keep_gen idtac. }
  clearbody n1.
  destruct (worker_apply_fit_keeps n1) as [S2 _]. cbv zeta in S2.
  assert (O2 : pixel_options (_worker_apply_fit_transform n1) = pixel_options n).
  { rewrite <- O1. unfold _worker_apply_fit_transform. keep_gen idtac. }
  set (n2 := _worker_apply_fit_transform n1) in *. clearbody n2.
  set (n3 := with_w_buffer _ _).
  assert (S3 : w_render_size n3 = rsize) by (rewrite <- S1, <- S2; reflexivity).
  assert (O3 : pixel_options n3 = pixel_options n) by (rewrite <- O2; reflexivity).
  assert (B3 : w_buffer n3 = Some argb) by (subst n3; nsimpl; by rewrite Hr).
  clearbody n3.
  rewrite B3, S3. cbn [default from_option id].
  unfold publish. nsimpl.
  apply postprocess_full; [done | done | apply length_replicate | apply length_replicate].
Qed.

Lemma upload_image_pixels n :
  pixel_bytes (upload_image n) = pixel_bytes n /\ image (upload_image n) = image n.
Proof.
  split; unfold upload_image; [keep_gen idtac|].
  destruct (image n) as [img|] eqn:E; [|done]. rewrite <- E. keep_gen idtac.
Qed.

Lemma upload_image_cache_in_use n : cache_in_use (upload_image n) = cache_in_use n.
Proof. unfold upload_image. keep_gen idtac. Qed.

Lemma render_frame_bytes h n argb img :
  rendering n = false ->
  cache_in_use n = false ->
  canvas n && animation n && picture n && bool_decide (is_Some (buffer n)) = true ->
  first_frame_drawn n && negb (pending_resize n)
    && (_quantized_frame_index n =? last_rendered_qf n) = false ->
  image n = Some img ->
  (forall calls, raster h calls = argb) ->
  length argb = area (render_size n) ->
  0 < x (render_size n) -> 0 < y (render_size n) ->
  let r := _render_frame h n in
  pixel_bytes r = postprocess h n argb (zeros (area (render_size n) * 4)) (render_size n)
  /\ data <$> image r = Some (pixel_bytes r).
Proof.
  intros Hg Hc Hpre Hskip Him Hr Hl Hx Hy. cbv zeta.
  unfold _render_frame. rewrite Hg.
  set (n0 := with_rendering true n).
  assert (Hc0 : cache_in_use n0 = false) by exact Hc.
  assert (Hpre0 : canvas n0 && animation n0 && picture n0
                  && bool_decide (is_Some (buffer n0)) = true) by exact Hpre.
  assert (Hskip0 : first_frame_drawn n0 && negb (pending_resize n0)
                   && (_quantized_frame_index n0 =? last_rendered_qf n0) = false)
    by exact Hskip.
  assert (Him0 : image n0 = Some img) by exact Him.
  assert (Hs0 : render_size n0 = render_size n) by reflexivity.
  assert (Ho0 : pixel_options n0 = pixel_options n) by reflexivity.
  clearbody n0.
  unfold render_frame_body. rewrite Hpre0.
  change (negb true) with false. cbv beta iota. rewrite Hskip0, Hc0. cbv beta iota.
  rewrite Hc0. cbv beta iota.
  match goal with
  | |- context [with_buffer (Some ?b) ?m] => set (n1 := with_buffer (Some b) m)
  end.
  assert (B1 : buffer n1 = Some argb) by (subst n1; nsimpl; by rewrite Hr).
  assert (I1 : image n1 = Some img) by (rewrite <- Him0; reflexivity).
  assert (S1 : render_size n1 = render_size n) by (rewrite <- Hs0; reflexivity).
  assert (O1 : pixel_options n1 = pixel_options n) by (rewrite <- Ho0; reflexivity).
  assert (C1 : cache_in_use n1 = false) by (rewrite <- Hc0; reflexivity).
  clearbody n1.
  rewrite I1.
  set (n2 := with_pixel_bytes (resize_bytes _ _) n1).
  assert (B2 : buffer n2 = Some argb) by (rewrite <- B1; reflexivity).
  assert (S2 : render_size n2 = render_size n) by (rewrite <- S1; reflexivity).
  assert (O2 : pixel_options n2 = pixel_options n) by (rewrite <- O1; reflexivity).
  assert (C2 : cache_in_use n2 = false) by (rewrite <- C1; reflexivity).
  assert (P2 : length (pixel_bytes n2) = (area (render_size n) * 4)%nat).
  { subst n2. nsimpl. rewrite length_resize_bytes. unfold pixel_options in *.
    nsimpl. by rewrite S1. }
  clearbody n2.
  rewrite B2, S2. cbn [default from_option id].
  assert (HP : postprocess h n2 argb (pixel_bytes n2) (render_size n)
               = postprocess h n argb (zeros (area (render_size n) * 4)) (render_size n)).
  { apply postprocess_full; [done | done | done | apply length_replicate]. }
  rewrite HP.
  set (P := postprocess h n argb (zeros (area (render_size n) * 4)) (render_size n)) in *.
  assert (LP : length P = (area (render_size n) * 4)%nat).
  { subst P. apply postprocess_length; [done | apply length_replicate]. }
  clearbody P.
  set (n3 := with_pixel_bytes P n2).
  assert (S3 : render_size n3 = render_size n) by (rewrite <- S2; reflexivity).
  assert (P3 : pixel_bytes n3 = P) by reflexivity.
  assert (C3 : cache_in_use n3 = false) by (rewrite <- C2; reflexivity).
  clearbody n3. rewrite S3, P3.
  rewrite Image_set_data_ok; [|done|done|].
  2:{ rewrite LP. unfold area. lia. }
  set (n4 := with_image _ n3).
  assert (P4 : pixel_bytes n4 = P) by (rewrite <- P3; reflexivity).
  assert (I4 : image n4
               = Some {| width := x (render_size n); height := y (render_size n);
                         data := P |}) by reflexivity.
  assert (C4 : cache_in_use n4 = false) by (rewrite <- C3; reflexivity).
  clearbody n4.
  destruct (upload_image_pixels n4) as [P5 I5].
  rewrite upload_image_cache_in_use, C4. cbv beta iota.
  change (pixel_bytes (with_rendering false (with_first_frame_drawn true
            (with__uploaded_this_frame true (with_last_rendered_qf ?q ?m)))))
    with (pixel_bytes m).
  change (image (with_rendering false (with_first_frame_drawn true
            (with__uploaded_this_frame true (with_last_rendered_qf ?q ?m)))))
    with (image m).
  rewrite P5, I5, P4, I4. done.
Qed.

(** X23. With the render thread or without it the same pixels reach the
    image: for a node that is about to draw and a worker that holds the
    scene, on an engine that leaves the same ARGB picture in either target,
    the bytes of the frame the worker publishes for the node's render size
    and current frame are the bytes [_render_frame] leaves in [pixel_bytes]
    and in the image, whatever [pixel_bytes] held before. *)
Theorem threaded_frame_matches_direct (h : host) (n : node) (argb : list Z) (img : Image) :
  (forall calls, raster h calls = argb) ->
  length argb = area (render_size n) ->
  0 < x (render_size n) -> 0 < y (render_size n) ->
  rendering n = false ->
  cache_in_use n = false ->
  canvas n && animation n && picture n && bool_decide (is_Some (buffer n)) = true ->
  first_frame_drawn n && negb (pending_resize n)
    && (_quantized_frame_index n =? last_rendered_qf n) = false ->
  image n = Some img ->
  w_canvas n = true -> w_animation n = true -> w_picture n = true ->
  let direct := _render_frame h n in
  let threaded := worker_render h (render_size n) (current_frame n) n in
  FrameResult.rgba (latest_frame threaded) = pixel_bytes direct
  /\ data <$> image direct = Some (FrameResult.rgba (latest_frame threaded)).
Proof.
  intros Hr Hl Hx Hy Hg Hc Hpre Hskip Him Wc Wa Wp direct threaded.
  destruct (render_frame_bytes h n argb img Hg Hc Hpre Hskip Him Hr Hl Hx Hy) as [D1 D2].
  pose proof (worker_render_bytes h (render_size n) (current_frame n) n argb
                Hx Hy Wc Wa Wp Hr Hl) as T.
  fold direct in D1, D2. fold threaded in T.
  split; [by rewrite T, D1 | by rewrite D2, D1, T].
Qed.

(** A loaded 2x2 node at frame 5, with the worker holding the same scene. *)
Lemma threaded_frame_matches_direct_witness :
  let h := host_rendering [4278190080; 2147483776; 0; 4294967295] in
  let n := with_current_frame (F32.of_int 5)
             (with_w_picture true (with_w_animation true (with_w_canvas true
               (fst (_load_animation h
                       (with_render_thread_enabled false
                          (_initialize_thorvg h
                             (with_render_thread_enabled false
                                (with_fit_box_size {| x := 2; y := 2 |}
                                   (with_render_size {| x := 2; y := 2 |} constructed)))))
                       "a.json"))))) in
  FrameResult.rgba (latest_frame (worker_render h (render_size n) (current_frame n) n))
  = pixel_bytes (_render_frame h n)
  /\ pixel_bytes (_render_frame h n)
     = [0; 0; 0; 255;  0; 0; 255; 128;  0; 0; 0; 0;  255; 255; 255; 255].
Proof.
  cbv zeta.
  match goal with |- context [pixel_bytes (_render_frame ?h ?n)] =>
    destruct (threaded_frame_matches_direct h n
                [4278190080; 2147483776; 0; 4294967295]
                {| width := 2; height := 2;
                   data := [0; 0; 0; 255;  0; 0; 255; 128;  0; 0; 0; 0;  255; 255; 255; 255] |})
      as [H1 _]
  end; try (vm_compute; reflexivity).
  split; [exact H1|]. vm_compute. reflexivity.
Defined.

End NodeFacts.
